(* ===== verification/_CoqProject ===== *)
-Q . S2P
Prelude.v
GoSort.v
Semver.v
Api.v
Quantity.v
SupportedVersion.v
ClusterSizing.v
ClusterSizingProofs.v
Upsert.v
UpsertProofs.v
Scheduler.v
SchedulerLaws.v
RequestServing.v
Placeholders.v
NodeAutoscaler.v
ResourceBasedAutoscaler.v
NodeAutoscalerProofs.v
RequestServingProofs.v
RequestServingPlacement.v
DedicatedNodes.v
SchedulerSamples.v
PlaceholdersProofs.v
ResourceBasedAutoscalerProofs.v
Apply.v
GlobalConfig.v
InPlaceUpgrader.v
InPlaceUpgraderProofs.v
CertificateRevocation.v
CertificateRevocationProofs.v
CertificateSigning.v
CertificateSigningProofs.v
HostedCluster.v
HostedClusterProofs.v
HostedClusterValidation.v
HostedClusterValidationProofs.v
HostedClusterDeletion.v
HostedClusterDeletionProofs.v
NodePool.v
NodePoolProofs.v
Capi.v
CapiProofs.v
InPlaceRollout.v
Base64.v
IgnitionServer.v
IgnitionServerProofs.v
NodePoolConfig.v
NodePoolConfigProofs.v
Token.v
TokenProofs.v
NodeBoot.v
