(* ===== verification/Prelude.v ===== *)
(** * HyperShift: hosted control planes, the decisions and writes of its controllers

HyperShift runs OpenShift control planes as workloads of a management cluster.
A HostedCluster and its NodePools are declared on the management cluster; the
HyperShift operator, the control plane operator, the hosted cluster config
operator and the control plane PKI operator watch them and write the objects
that make them real, each through an API client.  The controllers are level
triggered: one call of a reconciler reads the cluster, computes what should
be there and performs some writes, and it is called again until nothing is left
to do.  What makes such a controller correct is therefore which write it may
take in which state, that repeated calls settle, and that nothing it wrote
before is lost.  This library models the controllers below as functions from
what they read to what they write and proves those properties.

** The files and the code they model

- [Prelude] (this file): results of Go functions (a value, an error or a panic),
  a state monad whose writes survive errors, machine integers with their
  wrap-around, times and durations, strings, and the list lemmas, tactics and
  hint database the other files share.
- [GoSort]: the contract of [sort.Slice] as the class [SliceSort], with an
  implementation; the order on strings; [sets.List].
- [Semver]: [vendor/github.com/blang/semver/semver.go]: versions, strict
  parsing, printing, the precedence order; [strconv.ParseInt].
- [Api]: enumerations of [api/hypershift/v1beta1], [metav1.Condition] and the
  condition helpers of apimachinery.
- [Quantity]: [vendor/k8s.io/apimachinery/pkg/api/resource]: decimal quantities with
  their overflow into arbitrary precision, and their conversion to [float64], as
  [SpecFloat] at the precision of [float64].
- [SupportedVersion]: [support/supportedversion/version.go]: the supported
  window, validation of HostedCluster and NodePool versions, the choice of a
  default release.
- [ClusterSizing], [ClusterSizingProofs]:
  [hypershift-operator/controllers/hostedclustersizing]: the configuration
  validator and the reconciler that moves clusters between sizes.  [reconciler]
  is the struct of the code with its lookups as functions; [reconcile] returns
  the [action] the code applies.
- [Upsert], [UpsertProofs]: [support/upsert/upsert.go] and [loopdetector.go]:
  [CreateOrUpdate] with the defaulting of Deployments, DaemonSets, StatefulSets,
  CronJobs, Services, Routes, CRDs, webhooks and ServiceAccounts.  The state is
  [world]: the server, reached through the class [Client], and the loop detector.
- [Scheduler], [SchedulerLaws]: what the schedulers of request serving components share:
  the objects they read and write, the API server as the class [Kube], the annotations
  of a scheduled cluster ([scheduler/util/scheduler.go]) and the Azure scheduler; the
  contents of the management cluster ([Objects]), the laws of the calls ([KubeLaws]),
  rules for what a command preserves, and an in-memory cluster that satisfies the laws.
- [RequestServing], with [RequestServingProofs], [RequestServingPlacement] and
  [DedicatedNodes]: [scheduler/aws/dedicated_request_serving_nodes.go]: the reaper of
  orphaned nodes, the scheduler without sizes, and the one with sizes, which claims
  pairs of nodes with ConfigMaps.
- [Placeholders], [PlaceholdersProofs]: [scheduler/aws/placeholders.go]: deployments that
  keep nodes warm.
- [NodeAutoscaler], [NodeAutoscalerProofs]: [scheduler/aws/autoscaler.go]: machine sets
  are scaled up for pending placeholders, down for nodes no cluster needs, and sized for
  all other workloads.
- [ResourceBasedAutoscaler], [ResourceBasedAutoscalerProofs]:
  [resourcebasedcpautoscaler]: the size of a cluster from the memory its API server
  needs.  The state is the cluster and the cache the controller holds.
- [SchedulerSamples]: a small cluster in memory at which the theorems about the
  schedulers are applied.
- [Apply]: [support/upsert/apply.go]: [ApplyManifest].  Label and annotation maps
  are shared between the manifest and the object that was read, so they live in
  a heap.
- [GlobalConfig]: [support/globalconfig/proxy.go].
- [InPlaceUpgrader], [InPlaceUpgraderProofs]: the in-place upgrade controller of the
  hosted cluster config operator,
  [control-plane-operator/hostedclusterconfigoperator/controllers/inplaceupgrader]:
  it selects nodes, annotates them, runs an upgrade pod on each, and reports on
  the MachineSet.  It writes through the [CreateOrUpdate] of [Upsert], to two
  clusters.
- [CertificateRevocation], [CertificateRevocationProofs]:
  [control-plane-pki-operator/certificaterevocationcontroller]: the six steps that
  rotate a signer, wait for the new one to be trusted, regenerate the leaves,
  prune the trust bundle and verify that the old signer is rejected.
- [CertificateSigning], [CertificateSigningProofs]: the other controllers of the PKI
  operator, [control-plane-pki-operator/certificatesigningcontroller],
  [certificatesigningrequestapprovalcontroller], [certificates], [targetconfigcontroller]
  and their wiring in [operator.go]: validation of signing requests, approval, loading of
  the CA, signing, the client CA bundle.  The state is the API server and the CA each
  loading controller holds; the controllers read through caches that may be stale.
- [HostedCluster], [HostedClusterProofs]: the HostedCluster controller,
  [hypershift-operator/controllers/hostedcluster/hostedcluster_controller.go]: the version
  history, the conditions it computes, [isUpgrading], [isProgressing],
  [validateReleaseImage].
- [HostedClusterValidation], [HostedClusterValidationProofs]: its validation of networks,
  published services, and the AWS, Azure and agent platforms.
- [HostedClusterDeletion], [HostedClusterDeletionProofs]: its [delete] and every deletion
  [delete] calls, and [reconcile] up to the point where a cluster that is not being
  deleted is handled, which is an argument ([rest]).  The state [world] is the management
  cluster, the HostedCluster in memory and the cache of infrastructure clients.
- [NodePool], [NodePoolProofs]: the NodePool controller,
  [hypershift-operator/controllers/nodepool/nodepool_controller.go] and
  [conditions.go]: validation, the choice and check of the release image
  ([getReleaseImage], which calls [SupportedVersion]) and the functions that set
  the conditions.  A NodePool is a record with its spec, status and conditions;
  what a function reads of the cluster is in the record [Reads].
- [Capi], [CapiProofs]: [capi.go] of the same controller: the rollout of a NodePool
  through a MachineDeployment or a MachineSet ([reconcileMachineDeployment],
  [reconcileMachineSet]), replicas, names, [CreateOrPatch].
- [InPlaceRollout]: the NodePool controller and the in-place upgrader together:
  they run in different clusters and talk through annotations of the MachineSet.
- [Base64]: [encoding/base64] as the code uses it, with its round trip.
- [IgnitionServer], [IgnitionServerProofs]: the ignition server: the expiring cache of
  [ignition-server/controllers/cache.go], the token secret controller of
  [tokensecret_controller.go] and the HTTP handler of [ignition-server/cmd/start.go].
  The state [server] holds the cluster, the cache, and how often the clock and the
  generator of UUIDs were read; the payload generator is a parameter.
- [NodePoolConfig], [NodePoolConfigProofs]: [config.go] of the NodePool controller: the
  configuration of a NodePool and its hashes, with the YAML document reader it loops
  over.
- [Token], [TokenProofs]: [token.go] and [secret_janitor.go]: the token secret the
  ignition server consumes, the user data machines boot from, their retirement, and
  the janitor that cleans up what is left; written through [Upsert].
- [NodeBoot]: the NodePool controller and the ignition server together.

** What the theorems show

- Certificate revocation: trust is withdrawn only when nothing depends on it any
  more ([pruning_is_safe]), completion is reported only when the old signer is
  rejected ([revoked_means_rejected]), every write carries the status
  ([status_is_carried]); when the steps return and when they panic.
- Break-glass certificates: as long as nobody else approves or signs, however the
  controllers interleave and whatever the age of their caches, every certificate issued
  is for an approved request and no more than its signer class allows
  ([certificates_authorised]); it does not outlive the CA, its start is not bounded.
- HostedClusters: the version history is well formed, whether the control plane reports
  its own version status or not ([version_history_well_formed]);
  an upgrade the cluster version operator does not allow is gated ([progress_gated]);
  networks that pass validation are disjoint and usable ([validateNetworks_sound]), by an
  overlap test that is exact ([cidrsOverlap_iff]).
- Deletion of a HostedCluster: its parts go in order, the OIDC documents in the bucket
  included, except those S3 reports as not deleted ([deletion_order]), a call that has to wait waits for something whose deletion is requested ([deletion_progress]), and the
  finalizer goes last ([finalizer_last]).
- In-place upgrades: no pass takes more nodes down than [maxUnavailable]
  allows ([selection_respects_maxUnavailable]), the selection is exact, the pods
  follow the nodes, and the MachineSet reports what the nodes say.
- Cluster sizing: a size transition needs a valid configuration, an elapsed
  delay and room in the window ([size_transition_safe]); conditions are complete;
  the label follows the status; a transition settles.
- Request serving nodes: two live clusters never own nodes of one pair, over any
  sequence of reconciliations and outside changes ([pairs_exclusive]); a cluster is
  announced only when it has its nodes ([scheduled_on_own_nodes]); no reconciler takes
  another cluster's nodes, and the reaper deletes orphans only; placeholders keep off
  the pairs of clusters.  Scaling: only machine sets at zero are scaled up, for a
  pending pod ([autoscaler_scales_up]), all that a pod asks for are, the nodes of the
  size the scheduler announced are spared ([descaler_spares_serving_nodes]), the other
  workloads get exactly the sum of what the clusters ask for, within the limits.
- Sizing by resources: the cache is never stale ([cache_current]) and, end to end with
  the sizing controller, a cluster gets the smallest size that is large enough when the
  configuration gives the memory of each size ([autoscaled_to_right_size]).
- Create-or-update: defaulting keeps what the caller set, but for two fields that
  follow the server, and restores what the server defaulted ([defaulting_keeps_intent]);
  with the documented defaults of the API ([SetDefaults_Deployment]) a Deployment
  settles after one call ([CreateOrUpdate_settles]); what each result leaves in the
  cluster; when the loop detector warns.  What [ApplyManifest] writes
  ([ApplyManifest_update_merges]), and the changes it does not see.
- NodePools: a version or configuration is recorded only when the rollout has
  happened, with a MachineDeployment ([rollout_recorded_when_done]) and, end to end
  over both controllers, in place ([inplace_rollout_truth]); [maxUnavailable]
  reaches the upgrader as a number, a percentage as that of [spec.replicas]
  ([maxUnavailable_end_to_end]); one pass propagates a target ([MachineSet_settles]);
  replicas respect the autoscaler; the conditions on machines tell the truth about the
  machines of the NodePool ([machine_conditions_truth]); accepted release images lie in
  a window of minor versions ([release_image_in_window]); names fit.
- Tokens and ignition: a machine that boots from the published user data is served
  the payload of exactly the configuration the controller computed
  ([new_machine_boots]); payloads are served for issued tokens only, and are those
  generated from the very secret the token belongs to ([served_payload_sound]), with
  the empty token as the exception a failed rotation
  opens ([failed_rotation_serves_empty_token]); rotation overlaps, expiry and deletion
  revoke; the janitor and the controller agree on what is active.
- NodePool configuration: reading it ends ([parse_terminates]) and its hash does not
  depend on the order of the config maps ([rollout_order_insensitive]).
- Versions: exactly which versions and skews are accepted, and that the advertised
  versions, the default release and the Kubernetes versions agree with that.

** Parameters

What the code calls and the repository does not hold, or holds only as a call to a
server, is a class with the laws the code relies on: [Client] and [ClientLaws] (an
API server that stores what is written, after admission, and on a deletion removes the
object or marks it as terminating), [ServerDefaults] and [DeploymentAdmission] (the
defaults the API documents for Deployments), [ServerSideApply],
[SemanticEqual] and [Unstructured] ([equality.Semantic], JSON conversion), [X509]
and [Digest] (certificate parsing, verification and SHA-224), [Management] (reads
from the management cluster), [Patcher] (merge patches), [Netip] (addresses and
prefixes), [Gzip] (compression), [MapOrder] (the order in which a map is ranged over,
any permutation), [SecretLaws] (what admission and semantic equality promise of
secrets), [Kube] and [KubeLaws] (the management cluster as the schedulers call it; a
write that fails may have happened), [QuantityText] and [QuantityParser] (printing and
parsing of quantities), [Float64ToInt32] (conversions out of range), [SliceSort] and [SliceGrowth] (what Go promises of
sorting and of the capacity [append] allocates), [CSRServer] and [Crypto] (certificate
signing requests and their caches, parsing and signing), [Cloud] and [CloudLaws] (the
management cluster and the bucket of OIDC documents as deletion uses them: S3 deletes
the keys it is given or reports them), [NetText] and [NetTextLaws] (parsing and printing
of addresses, for networks as [net] represents them).  Every theorem over such a class is
applied to a concrete instance in a witness.

** Bounds and fuel

Integers are [Z] with the wrap-around of their Go width written out where the code
computes with them ([subtractMinor], [uint32] node counts, [int] capacities).
Quantities and sizes are compared in [float64] as the code does, by the
standard library's executable model of it.
Percentages are computed in exact arithmetic where the code uses [float64]: the two
agree while the product of percentage and total is below [2^45].
Fuel is given where a loop does not follow a list: to the base-36 printer of SHA-224
sums (224 bits have at most 44 digits in base 36), to the loop over YAML documents
(two more than there are lines; [parse_terminates] shows it lasts), and to the scans
of [RemoveEmptyJSONField] and of lines (the length of the text, of which each turn
consumes a byte).  Everything else recurses on a list or a string.

** What is not modelled

The command line tools ([cmd], [product-cli]), cloud provider code, the generation of
manifests by the control plane operator (assets and long literal structures), the
HTTP servers and proxies, the informer wiring of the controllers, generated clients
and deep copies, logging, events, metrics and the text of messages where nothing
depends on it.  Concurrency inside a reconciler does not occur; between reconcilers it
shows as reads of any state and as [Conflict] errors of writes.

** What could follow

The composition of the NodePool reconcile loop over the functions modelled here, the
reconciliation of a live HostedCluster, etcd recovery, and the release image
providers. *)
From stdpp Require Export base gmap strings list sorting pretty.
From Stdlib Require Export ZArith Lia.
From Stdlib Require Ascii.

Declare Scope go_scope.
Delimit Scope go_scope with go.

(** ** Results of Go functions *)

(** What a Go call gives back: a value, an error of type [E], or a run-time
panic (nil dereference, slice bounds, an explicit [panic]). *)
Inductive go (E A : Type) : Type :=
  | Ret (a : A)
  | Throw (e : E)
  | Panic.
Arguments Ret {E A} a.
Arguments Throw {E A} e.
Arguments Panic {E A}.

#[export] Instance go_ret E : MRet (go E) := λ A a, Ret a.
#[export] Instance go_bind E : MBind (go E) := λ A B k m,
  match m with Ret a => k a | Throw e => Throw e | Panic => Panic end.
#[export] Instance go_fmap E : FMap (go E) := λ A B f m,
  match m with Ret a => Ret (f a) | Throw e => Throw e | Panic => Panic end.

#[export] Instance go_eq_dec {E A} `{EqDecision E, EqDecision A} : EqDecision (go E A).
Proof. solve_decision. Defined.

(** Code that reads and writes a store of type [S]: the writes made before an
error or a panic stay. *)
Definition st (S E A : Type) : Type := S → go E A * S.

#[export] Instance st_ret S E : MRet (st S E) := λ A a s, (Ret a, s).
#[export] Instance st_bind S E : MBind (st S E) := λ A B k m s,
  match m s with
  | (Ret a, s') => k a s'
  | (Throw e, s') => (Throw e, s')
  | (Panic, s') => (Panic, s')
  end.

Definition st_get {S E} : st S E S := λ s, (Ret s, s).
Definition st_put {S E} (s : S) : st S E unit := λ _, (Ret (), s).
Definition st_modify {S E} (f : S → S) : st S E unit := λ s, (Ret (), f s).
Definition st_throw {S E A} (e : E) : st S E A := λ s, (Throw e, s).
Definition st_panic {S E A} : st S E A := λ s, (Panic, s).
Definition st_lift {S E A} (m : go E A) : st S E A := λ s, (m, s).
(** [if err := m(); err != nil { handler }] *)
Definition st_catch {S E A} (m : st S E A) (handler : E → st S E A) : st S E A := λ s,
  match m s with
  | (Throw e, s') => handler e s'
  | r => r
  end.

(** [for _, x := range l { body }] with a body that may fail. *)
Fixpoint st_for {S E A} (l : list A) (body : A → st S E unit) : st S E unit :=
  match l with
  | [] => mret ()
  | x :: l => body x ≫= λ _, st_for l body
  end.

(** ** Machine integers *)

Definition max_uint32 : Z := 2 ^ 32 - 1.
Definition max_uint64 : Z := 2 ^ 64 - 1.
Definition max_int64 : Z := 2 ^ 63 - 1.
Definition min_int64 : Z := - 2 ^ 63.

Definition to_uint32 (z : Z) : Z := z mod 2 ^ 32.
Definition to_uint64 (z : Z) : Z := z mod 2 ^ 64.
Definition to_int32 (z : Z) : Z := (z + 2 ^ 31) mod 2 ^ 32 - 2 ^ 31.
Definition to_int64 (z : Z) : Z := (z + 2 ^ 63) mod 2 ^ 64 - 2 ^ 63.

Lemma to_uint32_small z : (0 ≤ z < 2 ^ 32)%Z → to_uint32 z = z.
Proof. intros. by apply Z.mod_small. Qed.
Lemma to_uint32_range z : (0 ≤ to_uint32 z < 2 ^ 32)%Z.
Proof. by apply Z.mod_pos_bound. Qed.
Lemma to_uint64_small z : (0 ≤ z < 2 ^ 64)%Z → to_uint64 z = z.
Proof. intros. by apply Z.mod_small. Qed.
Lemma to_int32_small z : (- 2 ^ 31 ≤ z < 2 ^ 31)%Z → to_int32 z = z.
Proof. intros. unfold to_int32. rewrite Z.mod_small; lia. Qed.
Lemma to_int64_small z : (- 2 ^ 63 ≤ z < 2 ^ 63)%Z → to_int64 z = z.
Proof. intros. unfold to_int64. rewrite Z.mod_small; lia. Qed.

Lemma to_int64_range z : (- 2 ^ 63 ≤ to_int64 z < 2 ^ 63)%Z.
Proof. unfold to_int64. pose proof (Z.mod_pos_bound (z + 2 ^ 63) (2 ^ 64)). lia. Qed.

(** ** [time.Time] and [time.Duration] *)

(** A time is the number of nanoseconds since the zero [time.Time] (year 1),
a duration an [int64] number of nanoseconds. *)
Definition Time : Type := Z.
Definition Duration : Type := Z.
Bind Scope Z_scope with Time.
Bind Scope Z_scope with Duration.
Definition zero_time : Time := 0%Z.
Definition nanosecond : Duration := 1%Z.
Definition second : Duration := 1000000000%Z.
Definition minute : Duration := (60 * second)%Z.
Definition hour : Duration := (60 * minute)%Z.

(** [t.Add(d)] *)
Definition time_add (t : Time) (d : Duration) : Time := (t + d)%Z.
(** [t.Sub(u)]: saturates at the largest and smallest [time.Duration]. *)
Definition time_sub (t u : Time) : Duration :=
  Z.max min_int64 (Z.min max_int64 (t - u)).
(** [-d] on an [int64]. *)
Definition dur_neg (d : Duration) : Duration := to_int64 (- d).
Definition time_before (t u : Time) : bool := (t <? u)%Z.
Definition time_after (t u : Time) : bool := (u <? t)%Z.

(** ** Strings *)

(** Go orders strings by their bytes. *)
Definition str_lt (s t : string) : bool :=
  match String.compare s t with Lt => true | _ => false end.
Definition str_eqb (s t : string) : bool := bool_decide (s = t).

(** [strings.HasPrefix(s, p)] *)
Definition has_prefix (s p : string) : bool := String.prefix p s.

(** [strings.Contains(s, sub)] *)
Fixpoint str_contains (s sub : string) : bool :=
  String.prefix sub s ||
  match s with
  | EmptyString => false
  | String _ s => str_contains s sub
  end.

(** [strings.HasSuffix(s, suf)] *)
Fixpoint has_suffix (s suf : string) : bool :=
  bool_decide (s = suf) ||
  match s with
  | EmptyString => false
  | String _ s => has_suffix s suf
  end.

(** [strings.TrimSuffix(s, suf)] *)
Fixpoint trim_suffix (s suf : string) : string :=
  if bool_decide (s = suf) then EmptyString else
  match s with
  | EmptyString => EmptyString
  | String c s => String c (trim_suffix s suf)
  end.

(** [strings.TrimPrefix(s, p)] *)
Fixpoint trim_prefix (s p : string) : string :=
  match p, s with
  | EmptyString, _ => s
  | String a p', String b s' =>
      if has_prefix s p then trim_prefix s' p' else s
  | String _ _, EmptyString => s
  end.

(** Decimal digits of a number, as [strconv.FormatInt] and [%d] print them. *)
Definition itoa (z : Z) : string := pretty z.

(** The fraction [v / 10^prec] without trailing zeros, put before [acc], and
[v / 10^prec] rounded down ([fmtFrac] of the [time] package). *)
Fixpoint fmtFrac (prec : nat) (v : Z) (print : bool) (acc : string) : string * Z :=
  match prec with
  | 0 => (if print then "." +:+ acc else acc, v)
  | S prec =>
      let digit := (v mod 10)%Z in
      let print := print || negb (digit =? 0)%Z in
      fmtFrac prec (v / 10) print (if print then itoa digit +:+ acc else acc)
  end.

(** [func (d Duration) String() string] *)
Definition dur_string (d : Duration) : string :=
  let u := Z.abs d in
  let sign := if (d <? 0)%Z then "-" else "" in
  if (u =? 0)%Z then "0s"
  else if (u <? 1000)%Z then sign +:+ itoa u +:+ "ns"
  else if (u <? second)%Z then
    let '(prec, unit) := if (u <? 1000000)%Z then (3, "µs") else (6, "ms") in
    let '(frac, w) := fmtFrac prec u false "" in
    sign +:+ itoa w +:+ frac +:+ unit
  else
    let '(frac, w) := fmtFrac 9 u false "" in
    let secs := itoa (w mod 60) +:+ frac +:+ "s" in
    let m := (w / 60)%Z in
    let mins := if (0 <? m)%Z then itoa (m mod 60) +:+ "m" +:+ secs else secs in
    let h := (m / 60)%Z in
    sign +:+ (if (0 <? h)%Z then itoa h +:+ "h" +:+ mins else mins).

(** [strconv.ParseBool] *)
Definition parse_bool (s : string) : option bool :=
  if bool_decide (s ∈ ["1"; "t"; "T"; "TRUE"; "true"; "True"]) then Some true
  else if bool_decide (s ∈ ["0"; "f"; "F"; "FALSE"; "false"; "False"]) then Some false
  else None.

(** Labels and annotations. [m[k]] on an absent key is the empty string. *)
Abbreviation StringMap := (gmap string string).
Definition mget (m : StringMap) (k : string) : string := default "" (m !! k).
Definition mhas (m : StringMap) (k : string) : bool := bool_decide (is_Some (m !! k)).

(** [for k, v := range m]: Go fixes no order. *)
Class MapOrder : Type := {
  range {A} : gmap string A → list (string * A);
  range_Permutation {A} (m : gmap string A) : range m ≡ₚ map_to_list m;
}.

(** ** Tactics *)

(** Case analysis on every string comparison of the goal and the context. *)
Ltac str_cases :=
  repeat (unfold str_eqb in *; case_bool_decide; simplify_eq/=; try done; try congruence).

Lemma str_eqb_refl s : str_eqb s s = true.
Proof. by apply bool_decide_eq_true. Qed.
Lemma str_eqb_eq s t : str_eqb s t = true ↔ s = t.
Proof. apply bool_decide_eq_true. Qed.
Lemma str_eqb_neq s t : str_eqb s t = false ↔ s ≠ t.
Proof. apply bool_decide_eq_false. Qed.

(** Concatenation and prefixes. *)
Lemma str_app_assoc s t u : s +:+ (t +:+ u) = (s +:+ t) +:+ u.
Proof. induction s as [|c s IH]; [done|]. exact (f_equal (String c) IH). Qed.
Lemma str_app_inj_l s t u : s +:+ t = s +:+ u → t = u.
Proof. induction s as [|c s IH]; simpl; [done|]. intros. simplify_eq. auto. Qed.

Lemma trim_prefix_app p s : trim_prefix (p +:+ s) p = s.
Proof.
  induction p as [|c p IH]; [by destruct s|]. change (String c p +:+ s) with (String c (p +:+ s)).
  simpl. unfold has_prefix. simpl.
  destruct (Ascii.ascii_dec c c); [|done].
  assert (Hp : String.prefix p (p +:+ s) = true).
  { clear. induction p as [|d p IH]; [by destruct s|]. change (String d p +:+ s) with (String d (p +:+ s)).
    simpl. by destruct (Ascii.ascii_dec d d). }
  by rewrite Hp.
Qed.

Lemma has_prefix_app s p : has_prefix s p = true ↔ ∃ t, s = p +:+ t.
Proof.
  unfold has_prefix. revert s. induction p as [|c p IH]; intros s.
  - split; [by exists s|by destruct s].
  - destruct s as [|d s]; simpl; [by split; [|intros [t ?]]|].
    destruct (Ascii.ascii_dec c d) as [->|Hn].
    + rewrite IH. split; intros [t Ht]; exists t.
      * by rewrite Ht.
      * by injection Ht.
    + split; [done|]. intros [t Ht]. by injection Ht.
Qed.

(** An early return with an error, [if cond { return err }], does not happen. *)
Lemma guard_Ret {E A} (b : bool) (e : E) (m : go E A) (a : A) :
  (if b then Throw e else m) = Ret a ↔ b = false ∧ m = Ret a.
Proof. destruct b; naive_solver. Qed.

(** ** Lists *)

(** A non-empty list has an element with the largest key. *)
Lemma exists_max_by {A} (f : A → Z) (l : list A) :
  l ≠ [] → ∃ x, x ∈ l ∧ ∀ y, y ∈ l → (f y ≤ f x)%Z.
Proof.
  induction l as [|a l IH]; [done|]. intros _. destruct l as [|b l].
  { exists a. set_solver. }
  destruct IH as (x & Hx & Hmax); [done|].
  destruct (Z.le_gt_cases (f a) (f x)).
  - exists x. split; [set_solver|]. intros y [->|Hy]%elem_of_cons; auto.
  - exists a. split; [set_solver|].
    intros y [->|Hy]%elem_of_cons; [lia|]. specialize (Hmax y Hy). lia.
Qed.

Lemma elem_of_filter_bool {A} (p : A → bool) l x : x ∈ List.filter p l ↔ x ∈ l ∧ p x = true.
Proof. by rewrite !list_elem_of_In, filter_In. Qed.

Lemma last_filter_Some {A} (p : A → bool) l x :
  last (List.filter p l) = Some x → x ∈ l ∧ p x = true.
Proof. intros H%last_Some_elem_of. by apply elem_of_filter_bool. Qed.

Lemma last_filter_None {A} (p : A → bool) l x :
  last (List.filter p l) = None → x ∈ l → p x = false.
Proof.
  intros H%last_None Hx. destruct (p x) eqn:Hp; [|done].
  assert (Hin : x ∈ List.filter p l) by (by apply elem_of_filter_bool).
  rewrite H in Hin. by apply not_elem_of_nil in Hin.
Qed.

Lemma find_Some_elem {A} (p : A → bool) l x : List.find p l = Some x → x ∈ l ∧ p x = true.
Proof. intros [??]%find_some. by rewrite list_elem_of_In. Qed.

Lemma find_None_elem {A} (p : A → bool) l : List.find p l = None ↔ ∀ x, x ∈ l → p x = false.
Proof.
  induction l as [|a l IH]; simpl; [set_solver|].
  destruct (p a) eqn:Hp.
  - split; [done|]. intros H. rewrite H in Hp; [done|left].
  - rewrite IH. set_solver.
Qed.

Lemma existsb_elem {A} (p : A → bool) l : existsb p l = true ↔ ∃ x, x ∈ l ∧ p x = true.
Proof. rewrite existsb_exists. by setoid_rewrite list_elem_of_In. Qed.

Lemma filter_none {A} (p : A → bool) l :
  length (List.filter p l) = 0%nat ↔ ∀ x, x ∈ l → p x = false.
Proof.
  rewrite length_zero_iff_nil. split.
  - intros Hn x Hx. destruct (p x) eqn:Hp; [|done].
    assert (Hin : x ∈ List.filter p l) by (by apply elem_of_filter_bool).
    rewrite Hn in Hin. by apply not_elem_of_nil in Hin.
  - intros Hn. induction l as [|x l IH]; simpl; [done|].
    rewrite Hn by left. apply IH. intros y Hy. apply Hn. by right.
Qed.

Lemma filter_all {A} (p : A → bool) l :
  length (List.filter p l) = length l ↔ ∀ x, x ∈ l → p x = true.
Proof.
  induction l as [|x l IH]; simpl; [by split; [intros _ ? ?%not_elem_of_nil|]|].
  pose proof (filter_length_le p l). destruct (p x) eqn:Hp; simpl.
  - split; [|intros Hx; f_equal; apply IH; intros y Hy; apply Hx; by right].
    intros [= Hl] y [-> | Hy]%elem_of_cons; [done|]. by apply IH.
  - split; [lia|]. intros Hx. rewrite Hx in Hp by left. done.
Qed.

Lemma NoDup_fmap_filter {A B} (f : A → B) (p : A → bool) l :
  NoDup (f <$> l) → NoDup (f <$> List.filter p l).
Proof.
  induction l as [|x l IH]; simpl; [done|]. intros [Hx Hl]%NoDup_cons.
  destruct (p x); [|auto]. simpl. apply NoDup_cons. split; [|auto].
  intros (y & Hy & [Hin _]%elem_of_filter_bool)%list_elem_of_fmap. apply Hx. rewrite Hy.
  by apply list_elem_of_fmap_2.
Qed.

Lemma NoDup_two {A} (x y : A) : x ≠ y → NoDup [x; y].
Proof. intros Hne. apply NoDup_cons. split; [set_solver|apply NoDup_singleton]. Qed.

(** A sequence that succeeds succeeds in its parts. *)
Lemma go_bind_Ret {E A B} (m : go E A) (k : A → go E B) b :
  m ≫= k = Ret b → ∃ a, m = Ret a ∧ k a = Ret b.
Proof. destruct m as [a| |]; [|done..]. simpl. eauto. Qed.
Lemma st_bind_Ret {S E A B} (m : st S E A) (k : A → st S E B) s b s' :
  (m ≫= k) s = (Ret b, s') → ∃ a s1, m s = (Ret a, s1) ∧ k a s1 = (Ret b, s').
Proof. unfold mbind, st_bind. destruct (m s) as [[a| |] s1]; [|done..]. eauto. Qed.

Lemma run_Ret {S E A} (c : st S E A) s a : (c s).1 = Ret a → ∃ s', c s = (Ret a, s').
Proof. destruct (c s) as [r s']. simpl. intros ->. by exists s'. Qed.

Lemma run_pair {S E A} (c : st S E A) s a : (c s).1 = Ret a → c s = (Ret a, (c s).2).
Proof. by destruct (c s) as [r s']; simpl; intros ->. Qed.

(** One case per element of a concrete list. *)
Ltac elem_cases :=
  repeat match goal with
  | H : _ ∈ _ :: _ |- _ => apply elem_of_cons in H as [->|H]
  | H : _ ∈ [] |- _ => by apply not_elem_of_nil in H
  end.

(** *** Automation *)

(** String tests as propositions, and the facts about lists the components use
again and again. *)
Create HintDb go.
Create Rewrite HintDb go.
#[export] Hint Rewrite str_eqb_refl str_eqb_eq str_eqb_neq negb_true_iff negb_false_iff
  andb_true_iff orb_false_iff : go.
#[export] Hint Resolve str_eqb_refl NoDup_singleton NoDup_two NoDup_fmap_filter : go.

(** [s == t] and [s != t] on Go strings. *)
Infix "==" := str_eqb (at level 70, no associativity) : go_scope.
Notation "s != t" := (negb (str_eqb s t)) (at level 70, no associativity) : go_scope.
