(* ===== verification/GoSort.v ===== *)
(** Sorting as the Go sources use it: [sort.Slice], [sort.Sort] and
[slices.Sort] promise a permutation that respects the comparison whenever the
comparison is a strict weak order; they promise nothing about the order of
equivalent elements.  [SliceSort] is that promise, the code's definitions are
written against it, and [insertion_sort] (what the library runs on slices of
at most twelve elements) is an implementation of it. *)
From S2P Require Import Prelude.

(** A comparison [less] that a sort can be trusted with. *)
Class StrictWeak {A} (less : A → A → bool) : Prop := {
  sw_asym a b : less a b = true → less b a = false;
  sw_trans a b c : less b a = false → less c b = false → less c a = false;
}.

(** "[a] may come before [b]". *)
Definition sorts_before {A} (less : A → A → bool) (a b : A) : Prop := less b a = false.

(** The same, asked only of the elements of a slice. *)
Definition strict_weak_on {A} (less : A → A → bool) (l : list A) : Prop :=
  (∀ a b, a ∈ l → b ∈ l → less a b = true → less b a = false) ∧
  (∀ a b c, a ∈ l → b ∈ l → c ∈ l → less b a = false → less c b = false → less c a = false).

Lemma StrictWeak_on {A} (less : A → A → bool) l : StrictWeak less → strict_weak_on less l.
Proof. intros Hsw. split; intros; [by apply sw_asym|by eapply sw_trans]. Qed.

Class SliceSort : Type := {
  sort_slice {A : Type} : (A → A → bool) → list A → list A;
  sort_slice_perm {A} (less : A → A → bool) l : sort_slice less l ≡ₚ l;
  sort_slice_sorted {A} (less : A → A → bool) l :
    strict_weak_on less l → StronglySorted (sorts_before less) (sort_slice less l);
}.

Section insertion.
Context {A : Type} (less : A → A → bool).

(** Moves [x] left past the elements of the sorted prefix it is less than;
the prefix is kept with its last element first. *)
Fixpoint insert_rev (x : A) (prefix : list A) : list A :=
  match prefix with
  | [] => [x]
  | y :: prefix' => if less x y then y :: insert_rev x prefix' else x :: prefix
  end.

Definition insertion_sort (l : list A) : list A :=
  reverse (foldl (λ acc x, insert_rev x acc) [] l).

Lemma insert_rev_perm x l : insert_rev x l ≡ₚ x :: l.
Proof.
  induction l as [|y l IH]; simpl; [done|].
  destruct (less x y); [|done]. rewrite IH. apply Permutation_swap.
Qed.

Lemma foldl_insert_perm l acc : foldl (λ acc x, insert_rev x acc) acc l ≡ₚ l ++ acc.
Proof.
  revert acc. induction l as [|x l IH]; intros acc; simpl; [done|].
  rewrite IH, insert_rev_perm. symmetry. apply Permutation_middle.
Qed.

Lemma insertion_sort_perm l : insertion_sort l ≡ₚ l.
Proof.
  unfold insertion_sort. rewrite reverse_Permutation, foldl_insert_perm.
  by rewrite app_nil_r.
Qed.

Context (l0 : list A) (Hsw : strict_weak_on less l0).

Lemma insert_rev_sorted x l :
  x ∈ l0 → l ⊆ l0 →
  StronglySorted (λ a b, sorts_before less b a) l →
  StronglySorted (λ a b, sorts_before less b a) (insert_rev x l).
Proof.
  destruct Hsw as [Hasym Htrans]. unfold sorts_before. intros Hx Hl Hs.
  induction Hs as [|y l Hs IH Hall]; simpl.
  { repeat constructor. }
  assert (Hy : y ∈ l0) by (apply Hl; left).
  assert (Hl' : l ⊆ l0) by (intros z ?; apply Hl; by right).
  destruct (less x y) eqn:Hxy.
  - constructor; [auto|]. apply Forall_forall. intros z Hz.
    rewrite insert_rev_perm in Hz. apply elem_of_cons in Hz as [->|Hz].
    + by apply Hasym.
    + rewrite Forall_forall in Hall. auto.
  - constructor; [by constructor|]. constructor; [done|].
    rewrite Forall_forall in Hall |- *. intros z Hz.
    eapply (Htrans z y x); auto.
Qed.

Lemma foldl_insert_sorted l acc :
  l ⊆ l0 → acc ⊆ l0 →
  StronglySorted (λ a b, sorts_before less b a) acc →
  StronglySorted (λ a b, sorts_before less b a) (foldl (λ acc x, insert_rev x acc) acc l).
Proof.
  revert acc. induction l as [|x l IH]; intros acc Hl Hacc Hs; simpl; [done|].
  apply IH.
  - intros z ?. apply Hl. by right.
  - intros z Hz. rewrite insert_rev_perm in Hz. apply elem_of_cons in Hz as [->|]; [|auto].
    apply Hl. left.
  - apply insert_rev_sorted; [apply Hl; left|done|done].
Qed.
End insertion.

Lemma StronglySorted_snoc {A} (R : A → A → Prop) l x :
  StronglySorted R l → Forall (λ y, R y x) l → StronglySorted R (l ++ [x]).
Proof.
  induction 1 as [|y l Hs IH Hall]; intros Hx; simpl; [repeat constructor|].
  inversion Hx; subst. constructor; [auto|].
  apply Forall_app. split; [done|by repeat constructor].
Qed.

Lemma StronglySorted_reverse {A} (R : A → A → Prop) l :
  StronglySorted (λ a b, R b a) l → StronglySorted R (reverse l).
Proof.
  induction 1 as [|y l Hs IH Hall]; [constructor|].
  rewrite reverse_cons. apply StronglySorted_snoc; [done|].
  by rewrite Forall_reverse.
Qed.

#[export] Instance insertion_SliceSort : SliceSort.
Proof.
  refine {| sort_slice A := insertion_sort |}.
  - intros. apply insertion_sort_perm.
  - intros A less l Hsw. apply StronglySorted_reverse.
    by apply (foldl_insert_sorted less l Hsw); [|apply list_subseteq_nil|constructor].
Defined.

(** Every element of a sorted slice that precedes another may come before it. *)
Lemma StronglySorted_lookup {A} (R : A → A → Prop) l i j x y :
  StronglySorted R l → i < j → l !! i = Some x → l !! j = Some y → R x y.
Proof.
  intros Hs. revert i j. induction Hs as [|z l Hs IH Hall]; intros i j Hij Hx Hy;
    [by rewrite lookup_nil in Hx|].
  destruct j as [|j]; [lia|]. destruct i as [|i]; simpl in *.
  - simplify_eq. rewrite Forall_forall in Hall. apply Hall. by eapply list_elem_of_lookup_2.
  - eapply (IH i j); eauto; lia.
Qed.

(** Sorting by a string key. *)
Section str_lt.
Lemma ascii_compare_refl a : Ascii.compare a a = Eq.
Proof. apply N.compare_refl. Qed.
Lemma ascii_compare_lt_trans a b c :
  Ascii.compare a b = Lt → Ascii.compare b c = Lt → Ascii.compare a c = Lt.
Proof.
  unfold Ascii.compare. rewrite !N.compare_lt_iff. lia.
Qed.
Lemma str_compare_refl s : String.compare s s = Eq.
Proof. induction s as [|a s IH]; simpl; [done|]. by rewrite ascii_compare_refl. Qed.
Lemma str_compare_antisym s t : String.compare s t = CompOpp (String.compare t s).
Proof. apply String.compare_antisym. Qed.

Lemma str_compare_lt_trans s t u :
  String.compare s t = Lt → String.compare t u = Lt → String.compare s u = Lt.
Proof.
  revert t u. induction s as [|a s IH]; intros [|b t] [|c u]; simpl; try done.
  destruct (Ascii.compare a b) eqn:Hab; destruct (Ascii.compare b c) eqn:Hbc; try done;
    intros H1 H2;
    try (apply Ascii.compare_eq_iff in Hab; subst);
    try (apply Ascii.compare_eq_iff in Hbc; subst).
  - rewrite ascii_compare_refl. eauto.
  - by rewrite Hbc.
  - by rewrite Hab.
  - by rewrite (ascii_compare_lt_trans _ _ _ Hab Hbc).
Qed.

Lemma str_lt_irrefl s : str_lt s s = false.
Proof. unfold str_lt. by rewrite str_compare_refl. Qed.
Lemma str_lt_trans s t u : str_lt s t = true → str_lt t u = true → str_lt s u = true.
Proof.
  unfold str_lt. intros.
  destruct (String.compare s t) eqn:?; try done.
  destruct (String.compare t u) eqn:?; try done.
  by erewrite str_compare_lt_trans.
Qed.
Lemma str_lt_total s t : str_lt s t = true ∨ s = t ∨ str_lt t s = true.
Proof.
  unfold str_lt. destruct (String.compare s t) eqn:Hc; auto.
  - right; left. by apply String.compare_eq_iff.
  - right; right. rewrite str_compare_antisym, Hc. done.
Qed.

#[export] Instance str_lt_sw : StrictWeak str_lt.
Proof.
  split.
  - intros a b Hab. destruct (str_lt b a) eqn:Hba; [|done].
    pose proof (str_lt_trans _ _ _ Hab Hba) as H. by rewrite str_lt_irrefl in H.
  - intros a b c Hba Hcb. destruct (str_lt c a) eqn:Hca; [|done].
    destruct (str_lt_total a b) as [Hab|[->|Hab]]; [|congruence|congruence].
    pose proof (str_lt_trans _ _ _ Hca Hab). congruence.
Qed.
End str_lt.

#[export] Instance sw_key {A B} (less : B → B → bool) (f : A → B) `{!StrictWeak less} :
  StrictWeak (λ x y, less (f x) (f y)).
Proof.
  split; intros *.
  - apply sw_asym.
  - apply sw_trans.
Qed.

(** [sets.List] of a set of strings: its elements in order. *)
Definition sets_List (s : gset string) : list string := insertion_sort str_lt (elements s).

Lemma elem_of_sets_List (s : gset string) x : x ∈ sets_List s ↔ x ∈ s.
Proof. unfold sets_List. by rewrite insertion_sort_perm, elem_of_elements. Qed.
