(* ===== verification/Semver.v ===== *)
(** Semantic versions, as [vendor/github.com/blang/semver/semver.go] defines
them for the version checks of the operators: the [Version] structure,
printing, strict parsing and the precedence order, with the proof that the
order is a strict weak one that only build metadata escapes. *)
From S2P Require Import Prelude GoSort.
From Stdlib Require Import Ascii.

Module Semver.

(** [type PRVersion struct] *)
Record PRVersion : Type := mkPR {
  VersionStr : string;
  VersionNum : Z;
  IsNum : bool;
}.

(** [type Version struct]; the numbers are [uint64]. *)
Record Version : Type := mkVersion {
  Major : Z;
  Minor : Z;
  Patch : Z;
  Pre : list PRVersion;
  Build : list string;
}.

#[export] Instance PRVersion_eq_dec : EqDecision PRVersion.
Proof. solve_decision. Defined.
#[export] Instance Version_eq_dec : EqDecision Version.
Proof. solve_decision. Defined.

(** [Version{Major: a, Minor: b, Patch: c}] *)
Definition release (a b c : Z) : Version := mkVersion a b c [] [].

(** *** Printing *)

(** [func (v PRVersion) String() string] *)
Definition PR_String (v : PRVersion) : string :=
  if IsNum v then itoa (VersionNum v) else VersionStr v.

Fixpoint join_dot (l : list string) : string :=
  match l with
  | [] => ""
  | [x] => x
  | x :: l => x +:+ "." +:+ join_dot l
  end.

(** [func (v Version) String() string] *)
Definition Version_String (v : Version) : string :=
  itoa (Major v) +:+ "." +:+ itoa (Minor v) +:+ "." +:+ itoa (Patch v)
  +:+ (match Pre v with [] => "" | pre => "-" +:+ join_dot (PR_String <$> pre) end)
  +:+ (match Build v with [] => "" | build => "+" +:+ join_dot build end).

(** *** Parsing *)

Inductive parse_error : Type :=
  | ErrEmpty
  | ErrNoElements
  | ErrInvalidCharacters (s : string)
  | ErrLeadingZeroes (s : string)
  | ErrParseUint (s : string)
  | ErrPrereleaseEmpty
  | ErrBuildEmpty.

Definition is_digit (c : ascii) : bool :=
  let n := nat_of_ascii c in (48 <=? n)%nat && (n <=? 57)%nat.
Definition is_alpha (c : ascii) : bool :=
  let n := nat_of_ascii c in
  ((97 <=? n)%nat && (n <=? 122)%nat) || ((65 <=? n)%nat && (n <=? 90)%nat) || (n =? 45)%nat.
(** The characters of the constants [numbers] and [alphanum]. *)
Definition is_alphanum (c : ascii) : bool := is_alpha c || is_digit c.

(** [func containsOnly(s string, set string) bool] *)
Fixpoint containsOnly (s : string) (set : ascii → bool) : bool :=
  match s with
  | EmptyString => true
  | String c s => set c && containsOnly s set
  end.

(** [func hasLeadingZeroes(s string) bool] *)
Definition hasLeadingZeroes (s : string) : bool :=
  match s with
  | String "0" (String _ _) => true
  | _ => false
  end%char.

(** [strings.IndexRune] followed by the two slices around the separator. *)
Fixpoint cut (sep : ascii) (s : string) : option (string * string) :=
  match s with
  | EmptyString => None
  | String c s =>
      if Ascii.eqb c sep then Some ("", s)
      else '(a, b) ← cut sep s; Some (String c a, b)
  end.

(** [strings.Split(s, sep)] *)
Fixpoint split (sep : ascii) (s : string) : list string :=
  match s with
  | EmptyString => [""]
  | String c s =>
      if Ascii.eqb c sep then "" :: split sep s
      else match split sep s with
           | [] => [String c ""]
           | x :: l => String c x :: l
           end
  end.

(** [strings.SplitN(s, sep, n)] for [n > 0] *)
Fixpoint splitN (sep : ascii) (n : nat) (s : string) : list string :=
  match n with
  | 0 => []
  | 1 => [s]
  | S n =>
      match cut sep s with
      | None => [s]
      | Some (a, b) => a :: splitN sep n b
      end
  end.

Fixpoint digits_value (acc : Z) (s : string) : Z :=
  match s with
  | EmptyString => acc
  | String c s => digits_value (10 * acc + (Z.of_nat (nat_of_ascii c) - 48)) s
  end.

(** [strconv.ParseUint(s, 10, 64)] on a string of digits *)
Definition ParseUint (s : string) : go parse_error Z :=
  if str_eqb s "" then Throw (ErrParseUint s)
  else let n := digits_value 0 s in
       if (n <=? max_uint64)%Z then Ret n else Throw (ErrParseUint s).

(** [strconv.ParseInt(s, 10, 64)] and [strconv.Atoi] *)
Definition ParseInt (s : string) : option Z :=
  let '(sign, digits) := match s with
                         | String "-" r => ((-1)%Z, r)
                         | String "+" r => (1%Z, r)
                         | _ => (1%Z, s)
                         end%char in
  if str_eqb digits "" || negb (containsOnly digits is_digit) then None else
  let n := (sign * digits_value 0 digits)%Z in
  if ((n <? min_int64) || (max_int64 <? n))%Z then None else Some n.

(** The checks [Parse] makes on each of the three numbers. *)
Definition parse_number (s : string) : go parse_error Z :=
  if negb (containsOnly s is_digit) then Throw (ErrInvalidCharacters s)
  else if hasLeadingZeroes s then Throw (ErrLeadingZeroes s)
  else ParseUint s.

(** [func NewPRVersion(s string) (PRVersion, error)] *)
Definition NewPRVersion (s : string) : go parse_error PRVersion :=
  if str_eqb s "" then Throw ErrPrereleaseEmpty
  else if containsOnly s is_digit then
    if hasLeadingZeroes s then Throw (ErrLeadingZeroes s)
    else num ← ParseUint s; Ret (mkPR "" num true)
  else if containsOnly s is_alphanum then Ret (mkPR s 0 false)
  else Throw (ErrInvalidCharacters s).

Fixpoint parse_pre (l : list string) : go parse_error (list PRVersion) :=
  match l with
  | [] => Ret []
  | s :: l => p ← NewPRVersion s; ps ← parse_pre l; Ret (p :: ps)
  end.

Fixpoint parse_build (l : list string) : go parse_error (list string) :=
  match l with
  | [] => Ret []
  | s :: l =>
      if str_eqb s "" then Throw ErrBuildEmpty
      else if negb (containsOnly s is_alphanum) then Throw (ErrInvalidCharacters s)
      else bs ← parse_build l; Ret (s :: bs)
  end.

(** [func Parse(s string) (Version, error)] *)
Definition Parse (s : string) : go parse_error Version :=
  if str_eqb s "" then Throw ErrEmpty else
  match splitN "." 3 s with
  | [s0; s1; s2] =>
      major ← parse_number s0;
      minor ← parse_number s1;
      let '(patchStr, build) :=
        match cut "+" s2 with Some (a, b) => (a, split "." b) | None => (s2, []) end in
      let '(patchStr, prerelease) :=
        match cut "-" patchStr with Some (a, b) => (a, split "." b) | None => (patchStr, []) end in
      patch ← parse_number patchStr;
      pre ← parse_pre prerelease;
      bld ← parse_build build;
      Ret (mkVersion major minor patch pre bld)
  | _ => Throw ErrNoElements
  end%char.

(** *** Precedence *)

(** [func (v PRVersion) Compare(o PRVersion) int] *)
Definition PR_Compare (v o : PRVersion) : Z :=
  if IsNum v && negb (IsNum o) then -1
  else if negb (IsNum v) && IsNum o then 1
  else if IsNum v && IsNum o then
    if (VersionNum v =? VersionNum o)%Z then 0
    else if (VersionNum o <? VersionNum v)%Z then 1 else -1
  else if str_eqb (VersionStr v) (VersionStr o) then 0
  else if str_lt (VersionStr o) (VersionStr v) then 1 else -1.

(** The loop of [Compare] over the prerelease identifiers and the length test
after it. *)
Fixpoint pre_compare (v o : list PRVersion) : Z :=
  match v, o with
  | [], [] => 0
  | [], _ :: _ => -1
  | _ :: _, [] => 1
  | p :: v, q :: o =>
      let comp := PR_Compare p q in
      if (comp =? 0)%Z then pre_compare v o
      else if (comp =? 1)%Z then 1 else -1
  end.

(** [func (v Version) Compare(o Version) int] *)
Definition Compare (v o : Version) : Z :=
  if negb (Major v =? Major o)%Z then (if (Major o <? Major v)%Z then 1 else -1)
  else if negb (Minor v =? Minor o)%Z then (if (Minor o <? Minor v)%Z then 1 else -1)
  else if negb (Patch v =? Patch o)%Z then (if (Patch o <? Patch v)%Z then 1 else -1)
  else match Pre v, Pre o with
       | [], [] => 0
       | [], _ :: _ => 1
       | _ :: _, [] => -1
       | _, _ => pre_compare (Pre v) (Pre o)
       end.

(** [GT], [LT] and [LTE] *)
Definition GT (v o : Version) : bool := (Compare v o =? 1)%Z.
Definition LT (v o : Version) : bool := (Compare v o =? -1)%Z.
Definition LTE (v o : Version) : bool := (Compare v o <=? 0)%Z.

(** *** The order *)

Lemma PR_Compare_range v o : PR_Compare v o = (-1)%Z ∨ PR_Compare v o = 0%Z ∨ PR_Compare v o = 1%Z.
Proof. unfold PR_Compare. repeat case_match; auto. Qed.

Ltac Z_bool :=
  repeat match goal with
  | H : (_ =? _)%Z = true |- _ => apply Z.eqb_eq in H
  | H : (_ =? _)%Z = false |- _ => apply Z.eqb_neq in H
  | H : (_ <? _)%Z = true |- _ => apply Z.ltb_lt in H
  | H : (_ <? _)%Z = false |- _ => apply Z.ltb_ge in H
  | H : str_eqb _ _ = true |- _ => apply bool_decide_eq_true in H
  | H : str_eqb _ _ = false |- _ => apply bool_decide_eq_false in H
  | H : negb _ = true |- _ => apply negb_true_iff in H
  | H : negb _ = false |- _ => apply negb_false_iff in H
  end.

Lemma PR_Compare_antisym v o : PR_Compare v o = (- PR_Compare o v)%Z.
Proof.
  destruct v as [sv nv [|]], o as [so no [|]]; unfold PR_Compare; simpl; try done.
  - destruct (nv =? no)%Z eqn:E; Z_bool; subst.
    + by rewrite Z.eqb_refl.
    + replace (no =? nv)%Z with false by (symmetry; apply Z.eqb_neq; done).
      destruct (Z.ltb_spec no nv), (Z.ltb_spec nv no); lia.
  - unfold str_eqb. destruct (decide (sv = so)) as [->|Hne].
    + by rewrite !bool_decide_eq_true_2 by done.
    + rewrite !bool_decide_eq_false_2 by congruence.
      destruct (str_lt_total sv so) as [H|[H|H]]; [|done|];
        pose proof (sw_asym _ _ H) as H'; by rewrite H, H'.
Qed.

(** "Not greater" is transitive on prerelease identifiers. *)
Lemma PR_Compare_trans a b c :
  (PR_Compare a b ≤ 0)%Z → (PR_Compare b c ≤ 0)%Z → (PR_Compare a c ≤ 0)%Z.
Proof.
  destruct a as [sa na [|]], b as [sb nb [|]], c as [sc nc [|]];
    unfold PR_Compare; simpl; try lia.
  - intros. repeat case_match; Z_bool; lia.
  - unfold str_eqb. intros Hab Hbc.
    repeat case_bool_decide; subst; try done; try lia.
    all: destruct (str_lt sb sa) eqn:E1, (str_lt sc sb) eqn:E2; try lia.
    all: by rewrite (sw_trans _ _ _ E1 E2).
Qed.

Lemma PR_Compare_eq_l a b c : PR_Compare a b = 0%Z → PR_Compare a c = PR_Compare b c.
Proof.
  intros H.
  assert (H1 : ∀ x y z, PR_Compare x y = 0%Z → (PR_Compare y z ≤ 0)%Z → (PR_Compare x z ≤ 0)%Z).
  { intros x y z ??. eapply (PR_Compare_trans x y z); lia. }
  assert (H' : PR_Compare b a = 0%Z) by (rewrite PR_Compare_antisym; lia).
  assert (H2 : ∀ x y z, PR_Compare x y = 0%Z → (PR_Compare z x ≤ 0)%Z → (PR_Compare z y ≤ 0)%Z).
  { intros x y z ??. eapply (PR_Compare_trans z x y); lia. }
  pose proof (H1 _ _ c H). pose proof (H1 _ _ c H').
  pose proof (H2 _ _ c H). pose proof (H2 _ _ c H').
  pose proof (PR_Compare_antisym a c). pose proof (PR_Compare_antisym b c).
  pose proof (PR_Compare_range a c). pose proof (PR_Compare_range b c). lia.
Qed.

Lemma pre_compare_range v o : pre_compare v o = (-1)%Z ∨ pre_compare v o = 0%Z ∨ pre_compare v o = 1%Z.
Proof.
  revert o. induction v as [|p v IH]; intros [|q o]; simpl; auto.
  repeat case_match; auto.
Qed.

Lemma pre_compare_antisym v o : pre_compare v o = (- pre_compare o v)%Z.
Proof.
  revert o. induction v as [|p v IH]; intros [|q o]; simpl; try done.
  rewrite (PR_Compare_antisym p q), (IH o).
  destruct (PR_Compare_range q p) as [-> | [-> | -> ]]; simpl; lia.
Qed.

Lemma PR_Compare_lt_trans a b c :
  (PR_Compare a b ≤ 0)%Z → (PR_Compare b c ≤ 0)%Z → PR_Compare a c = 0%Z →
  PR_Compare a b = 0%Z ∧ PR_Compare b c = 0%Z.
Proof.
  intros Hab Hbc Hac. pose proof (PR_Compare_eq_l a c b Hac) as E.
  pose proof (PR_Compare_antisym c b). lia.
Qed.

Lemma pre_compare_trans a b c :
  (pre_compare a b ≤ 0)%Z → (pre_compare b c ≤ 0)%Z → (pre_compare a c ≤ 0)%Z.
Proof.
  revert b c. induction a as [|p a IH]; intros [|q b] [|r c]; simpl; try lia.
  intros Hab Hbc. specialize (IH b c).
  assert (H1 : (PR_Compare p q ≤ 0)%Z).
  { destruct (PR_Compare_range p q) as [E | [E | E]]; rewrite E in Hab; simpl in Hab; lia. }
  assert (H2 : (PR_Compare q r ≤ 0)%Z).
  { destruct (PR_Compare_range q r) as [E | [E | E]]; rewrite E in Hbc; simpl in Hbc; lia. }
  pose proof (PR_Compare_trans p q r H1 H2) as H3.
  destruct (Z.eqb_spec (PR_Compare p r) 0) as [E|E].
  - destruct (PR_Compare_lt_trans p q r H1 H2 E) as [E1 E2].
    rewrite E1 in Hab. rewrite E2 in Hbc. simpl in *. auto.
  - destruct (Z.eqb_spec (PR_Compare p r) 1); lia.
Qed.

Lemma Compare_range v o : Compare v o = (-1)%Z ∨ Compare v o = 0%Z ∨ Compare v o = 1%Z.
Proof.
  pose proof (pre_compare_range (Pre v) (Pre o)).
  unfold Compare. repeat case_match; auto.
Qed.

Lemma Compare_antisym v o : Compare v o = (- Compare o v)%Z.
Proof.
  unfold Compare. rewrite (pre_compare_antisym (Pre v) (Pre o)).
  rewrite (Z.eqb_sym (Major v)), (Z.eqb_sym (Minor v)), (Z.eqb_sym (Patch v)).
  repeat case_match; Z_bool; lia.
Qed.

(** A version without prerelease identifiers comes after those with some. *)
Definition pre_le (v o : list PRVersion) : Prop :=
  match v, o with
  | [], _ :: _ => False
  | _, [] => True
  | _, _ => (pre_compare v o ≤ 0)%Z
  end.

Lemma pre_le_trans a b c : pre_le a b → pre_le b c → pre_le a c.
Proof.
  destruct a as [|p a], b as [|q b], c as [|r c]; unfold pre_le; try done.
  apply pre_compare_trans.
Qed.

Lemma Compare_le v o :
  (Compare v o ≤ 0)%Z ↔
  (Major v < Major o ∨ Major v = Major o ∧
   (Minor v < Minor o ∨ Minor v = Minor o ∧
    (Patch v < Patch o ∨ Patch v = Patch o ∧ pre_le (Pre v) (Pre o))))%Z.
Proof.
  unfold Compare, pre_le. repeat case_match; Z_bool; simplify_eq; intuition (lia || done).
Qed.

Lemma Compare_trans a b c :
  (Compare a b ≤ 0)%Z → (Compare b c ≤ 0)%Z → (Compare a c ≤ 0)%Z.
Proof.
  rewrite !Compare_le. pose proof (pre_le_trans (Pre a) (Pre b) (Pre c)). intuition lia.
Qed.

(** Newest first is an order [sort.Slice] can be trusted with. *)
#[export] Instance GT_StrictWeak : StrictWeak GT.
Proof.
  unfold GT. split.
  - intros a b. rewrite Z.eqb_eq, Z.eqb_neq, (Compare_antisym b a). lia.
  - intros a b c. rewrite !Z.eqb_neq. intros.
    pose proof (Compare_range b a). pose proof (Compare_range c b).
    pose proof (Compare_range c a).
    pose proof (Compare_trans c b a). lia.
Qed.

Lemma GT_irrefl v : GT v v = false.
Proof. destruct (GT v v) eqn:E; [|done]. by rewrite (sw_asym v v) in E. Qed.

(** Releases without prerelease identifiers compare as their numbers do. *)
Lemma Compare_release a b c a' b' c' :
  (Compare (release a b c) (release a' b' c') ≤ 0)%Z ↔
  (a < a' ∨ a = a' ∧ (b < b' ∨ b = b' ∧ c ≤ c'))%Z.
Proof.
  unfold Compare; simpl. repeat case_match; Z_bool; lia.
Qed.

(** *** Printing and parsing integers *)

Lemma pretty_N_char_digit x : (x < 10)%N →
  is_digit (pretty_N_char x) = true ∧ (Z.of_nat (nat_of_ascii (pretty_N_char x)) - 48 = Z.of_N x)%Z.
Proof.
  intros Hx.
  assert (x = 0 ∨ x = 1 ∨ x = 2 ∨ x = 3 ∨ x = 4 ∨ x = 5 ∨ x = 6 ∨ x = 7 ∨ x = 8 ∨ x = 9)%N
    as Hcases by lia.
  repeat destruct Hcases as [->|Hcases]; [..|subst]; by vm_compute.
Qed.

Lemma pretty_N_go_value x : ∀ s,
  digits_value 0 (pretty_N_go x s) = digits_value (Z.of_N x) s ∧
  (containsOnly s is_digit = true → containsOnly (pretty_N_go x s) is_digit = true).
Proof.
  induction (N.lt_wf_0 x) as [x _ IH]. intros s.
  destruct (decide (x = 0%N)) as [->|Hx]; [by rewrite pretty_N_go_0|].
  rewrite pretty_N_go_step by lia.
  assert (Hlt : (x / 10 < x)%N) by (apply N.div_lt; lia).
  assert (Hm : (x mod 10 < 10)%N) by (apply N.mod_lt; lia).
  destruct (IH _ Hlt (String (pretty_N_char (x mod 10)) s)) as [Hv Hd].
  destruct (pretty_N_char_digit _ Hm) as [Hc Hval]. split.
  - rewrite Hv. cbn [digits_value]. f_equal. rewrite Hval.
    pose proof (N.div_mod x 10 ltac:(lia)). lia.
  - intros Hs. apply Hd. simpl. by rewrite Hc.
Qed.

Lemma ParseInt_digits sign s :
  s ≠ "" → containsOnly s is_digit = true →
  ParseInt (if (sign : bool) then "-" +:+ s else s) =
  let n := if sign then (- digits_value 0 s)%Z else digits_value 0 s in
  if ((n <? min_int64) || (max_int64 <? n))%Z then None else Some n.
Proof.
  intros Hs Hd. unfold ParseInt.
  replace (match (if sign then "-" +:+ s else s) with
           | String "-" r => ((-1)%Z, r) | String "+" r => (1%Z, r)
           | _ => (1%Z, (if sign then "-" +:+ s else s)) end%char)
    with ((if sign then (-1)%Z else 1%Z), s).
  - rewrite Hd. unfold str_eqb. rewrite bool_decide_false by done. simpl.
    destruct sign; [|by rewrite Z.mul_1_l].
    by replace (-1 * digits_value 0 s)%Z with (- digits_value 0 s)%Z by lia.
  - destruct sign; [done|]. destruct s as [|c s]; [done|].
    simpl in Hd. apply andb_true_iff in Hd as [Hc _].
    destruct c as [[] [] [] [] [] [] [] []]; by vm_compute in Hc.
Qed.

(** [strconv.Atoi(strconv.Itoa(n)) == n] for every [int64]. *)
Lemma ParseInt_itoa n : (min_int64 ≤ n ≤ max_int64)%Z → ParseInt (itoa n) = Some n.
Proof.
  intros Hn.
  assert (Hpos : ∀ p, pretty p ≠ "" ∧ containsOnly (pretty p) is_digit = true ∧
                      digits_value 0 (pretty p) = Z.pos p).
  { intros p. change (pretty p) with (pretty_N_go (N.pos p) "").
    destruct (pretty_N_go_value (N.pos p) "") as [Hv Hd]. split_and!; [|by apply Hd|done].
    intros He. by rewrite He in Hv. }
  assert (Hrange : ((n <? min_int64) || (max_int64 <? n))%Z = false).
  { rewrite orb_false_iff, !Z.ltb_ge. lia. }
  destruct n as [|p|p]; [by vm_compute| |]; destruct (Hpos p) as (Hne & Hd & Hv).
  - pose proof (ParseInt_digits false _ Hne Hd) as He. simpl in He. rewrite Hv, Hrange in He. exact He.
  - pose proof (ParseInt_digits true _ Hne Hd) as He. cbn zeta in He. rewrite Hv in He.
    change (- Z.pos p)%Z with (Z.neg p) in He. rewrite Hrange in He. exact He.
Qed.

End Semver.
