(* ===== verification/Api.v ===== *)
(** Enumerations and shared structures of the HyperShift and Kubernetes APIs
that several components read: platform and network types
([api/hypershift/v1beta1/hostedcluster_types.go]), [metav1.Condition] with the
helpers of [vendor/k8s.io/apimachinery/pkg/api/meta/conditions.go], and the name of
the namespace of a hosted control plane. *)
From S2P Require Import Prelude.
From Stdlib Require Import Ascii.

(** [type PlatformType string] and its constants *)
Inductive PlatformType : Type :=
  | AWSPlatform | NonePlatform | IBMCloudPlatform | AgentPlatform | KubevirtPlatform
  | AzurePlatform | PowerVSPlatform | OpenStackPlatform | GCPPlatform.

(** [type NetworkType string] and its constants *)
Inductive NetworkType : Type :=
  | OpenShiftSDN | Calico | OVNKubernetes | OtherNetwork.

(** [metav1.ConditionStatus] *)
Inductive ConditionStatus : Type := ConditionTrue | ConditionFalse | ConditionUnknown.

#[export] Instance PlatformType_eq_dec : EqDecision PlatformType.
Proof. solve_decision. Defined.
#[export] Instance NetworkType_eq_dec : EqDecision NetworkType.
Proof. solve_decision. Defined.
#[export] Instance ConditionStatus_eq_dec : EqDecision ConditionStatus.
Proof. solve_decision. Defined.

(** [metav1.Condition] *)
Record Condition : Type := mkCondition {
  cType : string;
  cStatus : ConditionStatus;
  cObservedGeneration : Z;
  cLastTransitionTime : Time;
  cReason : string;
  cMessage : string;
}.

#[export] Instance Condition_eq_dec : EqDecision Condition.
Proof. solve_decision. Defined.

(** [hyperv1.AsExpectedReason] *)
Definition AsExpectedReason : string := "AsExpected".

Module Meta.

(** [func FindStatusCondition(conditions []metav1.Condition, conditionType string) *metav1.Condition] *)
Fixpoint FindStatusCondition (conditions : list Condition) (conditionType : string) : option Condition :=
  match conditions with
  | [] => None
  | c :: cs => if str_eqb (cType c) conditionType then Some c else FindStatusCondition cs conditionType
  end.

(** What [SetStatusCondition] makes of the existing condition of the type. *)
Definition update_condition (now : Time) (existing new : Condition) : Condition :=
  let time :=
    if bool_decide (cStatus existing = cStatus new) then cLastTransitionTime existing
    else if bool_decide (cLastTransitionTime new = zero_time) then now
    else cLastTransitionTime new in
  mkCondition (cType existing) (cStatus new) (cObservedGeneration new) time (cReason new) (cMessage new).

Fixpoint update_first (now : Time) (conditions : list Condition) (new : Condition) : list Condition :=
  match conditions with
  | [] => []
  | c :: cs =>
      if str_eqb (cType c) (cType new) then update_condition now c new :: cs
      else c :: update_first now cs new
  end.

(** [func SetStatusCondition(conditions *[]metav1.Condition, newCondition metav1.Condition) (changed bool)],
the new list. *)
Definition SetStatusCondition (now : Time) (conditions : list Condition) (new : Condition) : list Condition :=
  match FindStatusCondition conditions (cType new) with
  | None =>
      let time := if bool_decide (cLastTransitionTime new = zero_time) then now
                  else cLastTransitionTime new in
      conditions ++ [mkCondition (cType new) (cStatus new) (cObservedGeneration new) time
                       (cReason new) (cMessage new)]
  | Some _ => update_first now conditions new
  end.

(** [func RemoveStatusCondition(conditions *[]metav1.Condition, conditionType string) (removed bool)],
the new list. *)
Definition RemoveStatusCondition (conditions : list Condition) (conditionType : string) : list Condition :=
  filter (λ c, cType c ≠ conditionType) conditions.

Definition types_of (conditions : list Condition) : list string := cType <$> conditions.

Lemma FindStatusCondition_Some cs t c :
  FindStatusCondition cs t = Some c → c ∈ cs ∧ cType c = t.
Proof.
  induction cs as [|d cs IH]; simpl; [done|]. unfold str_eqb. case_bool_decide.
  - intros. simplify_eq. split; [left|done].
  - intros [??]%IH. split; [by right|done].
Qed.

Lemma FindStatusCondition_None cs t :
  FindStatusCondition cs t = None ↔ t ∉ types_of cs.
Proof.
  induction cs as [|d cs IH]; unfold types_of in *; simpl; [set_solver|].
  unfold str_eqb. case_bool_decide; set_solver.
Qed.

Lemma types_of_update_first now cs new : types_of (update_first now cs new) = types_of cs.
Proof.
  induction cs as [|c cs IH]; simpl; [done|]. unfold types_of in *.
  case_match; csimpl; congruence.
Qed.

(** A type appears at most once in a list maintained with
[SetStatusCondition]. *)
Lemma SetStatusCondition_NoDup now cs new :
  NoDup (types_of cs) → NoDup (types_of (SetStatusCondition now cs new)).
Proof.
  intros Hnd. unfold SetStatusCondition. case_match eqn:E.
  - by rewrite types_of_update_first.
  - apply FindStatusCondition_None in E. unfold types_of in *.
    rewrite fmap_app. apply NoDup_app. repeat split; [done| |apply NoDup_singleton].
    intros x Hx. simpl. set_solver.
Qed.

Lemma FindStatusCondition_update_first now cs new t :
  FindStatusCondition (update_first now cs new) t =
  if str_eqb t (cType new)
  then (λ c, update_condition now c new) <$> FindStatusCondition cs t
  else FindStatusCondition cs t.
Proof.
  induction cs as [|c cs IH]; simpl; [by destruct (str_eqb t _)|].
  str_cases.
Qed.

(** Reading back the type that was set gives the new status, reason and
message; every other type is untouched. *)
Lemma FindStatusCondition_Set now cs new t :
  FindStatusCondition (SetStatusCondition now cs new) t =
  if str_eqb t (cType new) then
    Some (match FindStatusCondition cs t with
          | Some c => update_condition now c new
          | None => mkCondition (cType new) (cStatus new) (cObservedGeneration new)
                      (if bool_decide (cLastTransitionTime new = zero_time) then now
                       else cLastTransitionTime new) (cReason new) (cMessage new)
          end)
  else FindStatusCondition cs t.
Proof.
  unfold SetStatusCondition. destruct (FindStatusCondition cs (cType new)) as [c|] eqn:E.
  - rewrite FindStatusCondition_update_first. unfold str_eqb. case_bool_decide; [|done].
    subst. by rewrite E.
  - induction cs as [|c cs IH]; simpl in *; [str_cases|]. str_cases; auto.
Qed.

End Meta.

(** [func ProcessPausedUntilField(pausedUntilField *string, now time.Time) (bool, time.Duration, error)]
of [support/util/pausereconcile.go]: whether to pause and for how long; the error
is the invalid value.  [parse_rfc3339] is [time.Parse(time.RFC3339, _)]. *)
Definition ProcessPausedUntilField (parse_rfc3339 : string → option Time)
    (pausedUntilField : option string) (now : Time) : go string (bool * Duration) :=
  match pausedUntilField with
  | None => Ret (false, 0%Z)
  | Some v =>
      match parse_bool v with
      | Some isPaused => Ret (isPaused, 0%Z)
      | None =>
          match parse_rfc3339 v with
          | Some t => Ret (time_before now t, time_sub t now)
          | None => Throw v
          end
      end
  end.

(** [func HostedControlPlaneNamespace(hostedClusterNamespace, hostedClusterName string) string] *)
Fixpoint dots_to_dashes (s : string) : string :=
  match s with
  | EmptyString => EmptyString
  | String c s => String (if ascii_dec c "." then "-" else c)%char (dots_to_dashes s)
  end.
Definition HostedControlPlaneNamespace (hostedClusterNamespace hostedClusterName : string) : string :=
  hostedClusterNamespace +:+ "-" +:+ dots_to_dashes hostedClusterName.
