(* ===== verification/Quantity.v ===== *)
(** Resource quantities, [resource.Quantity] of
[vendor/k8s.io/apimachinery/pkg/api/resource/]: decimal numbers kept as an
[int64] with a power of ten while that is exact and as an arbitrary precision
decimal after, and their conversion to [float64].  Floating point numbers are
the standard library's [spec_float] at the precision of [float64]. *)
From S2P Require Import Prelude.
From Stdlib Require Import SpecFloat.

Module Quantity.

(** *** [float64] *)

Definition float64 : Type := spec_float.
Definition f64_of_Z (z : Z) : float64 := binary_normalize 53 1024 z 0 false.
Definition f64_mul : float64 → float64 → float64 := SFmul 53 1024.
Definition f64_div : float64 → float64 → float64 := SFdiv 53 1024.
Definition f64_le : float64 → float64 → bool := SFleb.
Definition f64_lt : float64 → float64 → bool := SFltb.

(** [math.Ceil] of a finite number, as the integer it is. *)
Definition f64_ceil (f : float64) : option Z :=
  match f with
  | S754_zero _ => Some 0%Z
  | S754_finite s m e =>
      let v := if s then Z.neg m else Z.pos m in
      Some (if (0 <=? e)%Z then v * 2 ^ e else - ((- v) / 2 ^ (- e)))%Z
  | S754_infinity _ | S754_nan => None
  end.

(** [math.Pow10(n)] for [|n| < 32]: the table of the powers [1e00] to [1e31],
and one divided by them. *)
Definition Pow10 (n : Z) : float64 :=
  if (0 <=? n)%Z then f64_of_Z (10 ^ n) else f64_div (f64_of_Z 1) (f64_of_Z (10 ^ (- n))).

(** *** Quantities *)

(** [type Quantity struct]: [qDec] tells the arbitrary precision [d.Dec] from the
[int64Amount] [i]; both are [qValue * 10 ^ qScale]. *)
Record Quantity : Type := mkQuantity {
  qDec : bool;
  qValue : Z;
  qScale : Z;
}.

#[export] Instance Quantity_eq_dec : EqDecision Quantity.
Proof. solve_decision. Defined.

(** [func int64Add(a, b int64) (int64, bool)] *)
Definition int64Add (a b : Z) : option Z :=
  let c := to_int64 (a + b) in
  if ((0 <? a) && (0 <? b))%Z then (if (c <? 0)%Z then None else Some c)
  else if ((a <? 0) && (b <? 0))%Z then
    if (0 <? c)%Z then None
    else if ((a =? min_int64) && (b =? min_int64))%Z then None else Some c
  else Some c.

(** [func int64Multiply(a, b int64) (int64, bool)] *)
Definition int64Multiply (a b : Z) : option Z :=
  if ((a =? 0) || (b =? 0) || (a =? 1) || (b =? 1))%Z then Some (to_int64 (a * b))
  else if ((a =? min_int64) || (b =? min_int64))%Z then None
  else let c := to_int64 (a * b) in if (Z.quot c b =? a)%Z then Some c else None.

(** [func int64MultiplyScale(a int64, b int64) (int64, bool)]; the functions for
the factors 10, 100 and 1000 are the same with [b] fixed. *)
Definition int64MultiplyScale (a b : Z) : option Z :=
  if ((a =? 0) || (a =? 1))%Z then Some (to_int64 (a * b))
  else if ((a =? min_int64) && negb (b =? 1))%Z then None
  else let c := to_int64 (a * b) in if (Z.quot c b =? a)%Z then Some c else None.

Fixpoint scale_loop (n : nat) (value : Z) : option Z :=
  match n with
  | 0 => Some value
  | S n => int64MultiplyScale value 10 ≫= scale_loop n
  end.

(** [func positiveScaleInt64(base int64, scale Scale) (int64, bool)] *)
Definition positiveScaleInt64 (base scale : Z) : option Z :=
  if (scale =? 0)%Z then Some base
  else if (scale =? 1)%Z then int64MultiplyScale base 10
  else if (scale =? 2)%Z then int64MultiplyScale base 100
  else if (scale =? 3)%Z then int64MultiplyScale base 1000
  else if (scale =? 6)%Z then int64MultiplyScale base 1000000
  else if (scale =? 9)%Z then int64MultiplyScale base 1000000000
  else scale_loop (Z.to_nat scale) base.

(** [func negativeScaleInt64(base int64, scale Scale) (result int64, exact bool)],
the second result, which is the one its caller [Mul] reads. *)
Fixpoint exact_loop (n : nat) (value : Z) (fraction : bool) : bool :=
  match n with
  | 0 => negb fraction
  | S n =>
      let fraction := fraction || negb (Z.rem value 10 =? 0)%Z in
      let value := Z.quot value 10 in
      if (value =? 0)%Z then negb fraction else exact_loop n value fraction
  end.
Definition negativeScaleExact (base scale : Z) : bool :=
  (scale =? 0)%Z || exact_loop (Z.to_nat scale) base false.

(** [func (a *int64Amount) Add(b int64Amount) bool]: the new value and scale, or
nothing on overflow. *)
Definition amount_Add (a b : Z * Z) : option (Z * Z) :=
  if (b.1 =? 0)%Z then Some a
  else if (a.1 =? 0)%Z then Some b
  else if (a.2 =? b.2)%Z then (λ c, (c, a.2)) <$> int64Add a.1 b.1
  else if (b.2 <? a.2)%Z then
    c ← positiveScaleInt64 a.1 (a.2 - b.2);
    (λ c, (c, b.2)) <$> int64Add c b.1
  else
    c ← positiveScaleInt64 b.1 (b.2 - a.2);
    (λ c, (c, a.2)) <$> int64Add a.1 c.

(** [func (a *int64Amount) Mul(b int64) bool] *)
Definition amount_Mul (a : Z * Z) (b : Z) : option (Z * Z) :=
  if (a.1 =? 0)%Z then Some a
  else if (b =? 0)%Z then Some (0, 0)%Z
  else
    c ← int64Multiply a.1 b;
    if (a.2 =? 0)%Z then Some (c, a.2)
    else if (0 <? a.2)%Z then (λ _, (c, a.2)) <$> positiveScaleInt64 c a.2
    else if negativeScaleExact c (- a.2) then Some (c, a.2) else None.

(** [func (z *Dec) Add(x, y *Dec) *Dec]: the finer of the two scales. *)
Definition dec_Add (x y : Quantity) : Quantity :=
  let m := Z.min (qScale x) (qScale y) in
  mkQuantity true (qValue x * 10 ^ (qScale x - m) + qValue y * 10 ^ (qScale y - m)) m.

(** [func (q *Quantity) Add(y Quantity)] *)
Definition Add (q y : Quantity) : Quantity :=
  if negb (qDec q) && negb (qDec y) then
    match amount_Add (qValue q, qScale q) (qValue y, qScale y) with
    | Some (v, s) => mkQuantity false v s
    | None => dec_Add q y
    end
  else dec_Add q y.

(** [func (q *Quantity) Mul(y int64) bool]: the new quantity. *)
Definition Mul (q : Quantity) (y : Z) : Quantity :=
  let dec := mkQuantity true (qValue q * y) (qScale q) in
  if qDec q then dec else
  match amount_Mul (qValue q, qScale q) y with
  | Some (v, s) => mkQuantity false v s
  | None => dec
  end.

(** [func (q *Quantity) Cmp(y Quantity) int], of the two decimal numbers. *)
Definition Cmp (q y : Quantity) : comparison :=
  let m := Z.min (qScale q) (qScale y) in
  Z.compare (qValue q * 10 ^ (qScale q - m)) (qValue y * 10 ^ (qScale y - m)).

(** [func (q *Quantity) AsApproximateFloat64() float64] *)
Definition AsApproximateFloat64 (q : Quantity) : float64 :=
  let base := f64_of_Z (qValue q) in
  if (qScale q =? 0)%Z then base else f64_mul base (Pow10 (qScale q)).

(** *** What the operations compute *)

(** The number of a quantity in billionths: [ParseQuantity] keeps at most nine
decimals. *)
Definition nano (q : Quantity) : Z := (qValue q * 10 ^ (qScale q + 9))%Z.

(** [i] holds an [int64], and no more than nine decimals are kept. *)
Definition valid (q : Quantity) : Prop :=
  (-9 ≤ qScale q)%Z ∧ (qDec q = false → min_int64 ≤ qValue q ≤ max_int64)%Z.

Lemma to_int64_id z : (min_int64 ≤ z ≤ max_int64)%Z → to_int64 z = z.
Proof. unfold min_int64, max_int64. intros. apply to_int64_small. lia. Qed.

(** Wrapping around moves a number by a multiple of [2^64]. *)
Lemma to_int64_spec z : ∃ k, to_int64 z = (z + k * 2 ^ 64)%Z ∧ (min_int64 ≤ to_int64 z ≤ max_int64)%Z.
Proof.
  exists (- ((z + 2 ^ 63) / 2 ^ 64))%Z. unfold to_int64, min_int64, max_int64.
  pose proof (Z.mod_pos_bound (z + 2 ^ 63) (2 ^ 64) ltac:(lia)).
  pose proof (Z.div_mod (z + 2 ^ 63) (2 ^ 64) ltac:(lia)). lia.
Qed.

Lemma int64Add_exact a b c :
  (min_int64 ≤ a ≤ max_int64)%Z → (min_int64 ≤ b ≤ max_int64)%Z →
  int64Add a b = Some c → c = (a + b)%Z ∧ (min_int64 ≤ c ≤ max_int64)%Z.
Proof.
  intros Ha Hb. unfold int64Add. destruct (to_int64_spec (a + b)) as (k & Hk & Hr).
  unfold min_int64, max_int64 in *.
  repeat case_match; intros; simplify_eq; rewrite ?Z.ltb_lt, ?Z.ltb_ge, ?andb_true_iff, ?andb_false_iff,
    ?Z.eqb_eq, ?Z.eqb_neq, ?Z.ltb_lt, ?Z.ltb_ge in *; lia.
Qed.

(** A truncated division that gives [a] back means the product did not wrap. *)
Lemma quot_no_wrap a b c : (b ≠ 0)%Z → (Z.abs b ≤ 2 ^ 63)%Z →
  (∃ k, c = a * b + k * 2 ^ 64)%Z → Z.quot c b = a → c = (a * b)%Z.
Proof.
  intros Hb Hr [k ->] Hq. pose proof (Z.quot_rem' (a * b + k * 2 ^ 64) b) as Hqr.
  rewrite Hq in Hqr. pose proof (Z.rem_bound_abs (a * b + k * 2 ^ 64) b Hb) as Hrem.
  assert (Hk : Z.rem (a * b + k * 2 ^ 64) b = (k * 2 ^ 64)%Z) by lia.
  rewrite Hk in Hrem. nia.
Qed.

Lemma int64MultiplyScale_exact a b c :
  (1 < b ≤ max_int64)%Z → (min_int64 ≤ a ≤ max_int64)%Z →
  int64MultiplyScale a b = Some c → c = (a * b)%Z ∧ (min_int64 ≤ c ≤ max_int64)%Z.
Proof.
  intros Hb Ha. unfold int64MultiplyScale.
  destruct (to_int64_spec (a * b)) as (k & Hk & Hr).
  destruct ((a =? 0) || (a =? 1))%Z eqn:Hc.
  - intros [= <-]. split; [|done]. apply to_int64_id. unfold min_int64, max_int64 in *.
    rewrite orb_true_iff, !Z.eqb_eq in Hc. destruct Hc as [-> | ->]; lia.
  - case_match; [done|]. case_match eqn:Hq; [|done]. intros [= <-]. split; [|done].
    apply Z.eqb_eq in Hq. apply (quot_no_wrap a b); [lia|unfold max_int64 in *; lia|by exists k|done].
Qed.

Lemma int64Multiply_exact a b c :
  (min_int64 ≤ a ≤ max_int64)%Z → (min_int64 ≤ b ≤ max_int64)%Z →
  int64Multiply a b = Some c → c = (a * b)%Z ∧ (min_int64 ≤ c ≤ max_int64)%Z.
Proof.
  intros Ha Hb. unfold int64Multiply.
  destruct (to_int64_spec (a * b)) as (k & Hk & Hr).
  destruct ((a =? 0) || (b =? 0) || (a =? 1) || (b =? 1))%Z eqn:Hc.
  - intros [= <-]. split; [|done]. apply to_int64_id. unfold min_int64, max_int64 in *.
    rewrite !orb_true_iff, !Z.eqb_eq in Hc. destruct Hc as [[[-> | ->] | ->] | ->]; lia.
  - rewrite !orb_false_iff, !Z.eqb_neq in Hc.
    case_match; [done|]. case_match eqn:Hq; [|done]. intros [= <-]. split; [|done].
    apply Z.eqb_eq in Hq.
    apply (quot_no_wrap a b); [lia|unfold min_int64, max_int64 in *; lia|by exists k|done].
Qed.

Lemma scale_loop_exact n a c : (min_int64 ≤ a ≤ max_int64)%Z →
  scale_loop n a = Some c → c = (a * 10 ^ Z.of_nat n)%Z ∧ (min_int64 ≤ c ≤ max_int64)%Z.
Proof.
  revert a. induction n as [|n IH]; intros a Ha; simpl scale_loop.
  - intros [= <-]. split; [lia|done].
  - destruct (int64MultiplyScale a 10) as [v|] eqn:Hv; simpl; [|done].
    apply int64MultiplyScale_exact in Hv as [-> Hr]; [|unfold max_int64; lia|done].
    intros [-> Hc]%IH; [|done]. split; [|done]. rewrite Nat2Z.inj_succ, Z.pow_succ_r by lia. lia.
Qed.

Lemma positiveScaleInt64_exact a s c : (0 ≤ s)%Z → (min_int64 ≤ a ≤ max_int64)%Z →
  positiveScaleInt64 a s = Some c → c = (a * 10 ^ s)%Z ∧ (min_int64 ≤ c ≤ max_int64)%Z.
Proof.
  intros Hs Ha. unfold positiveScaleInt64.
  destruct (s =? 0)%Z eqn:E0; [apply Z.eqb_eq in E0 as ->; intros [= <-]; split; [lia|done]|].
  repeat (match goal with |- context [(s =? ?k)%Z] => destruct (s =? k)%Z eqn:E end;
    [apply Z.eqb_eq in E as ->; intros Hm%int64MultiplyScale_exact;
     [exact Hm|unfold max_int64; lia|done]|clear E]).
  intros [-> Hc]%scale_loop_exact; [|done]. rewrite Z2Nat.id in * by done. done.
Qed.

Lemma pow10_split x m : (-9 ≤ m ≤ x)%Z → (10 ^ (x + 9) = 10 ^ (x - m) * 10 ^ (m + 9))%Z.
Proof. intros. rewrite <- Z.pow_add_r by lia. f_equal. lia. Qed.

Lemma dec_Add_nano x y : (-9 ≤ qScale x)%Z → (-9 ≤ qScale y)%Z → nano (dec_Add x y) = (nano x + nano y)%Z.
Proof.
  intros. unfold nano, dec_Add; simpl. set (m := Z.min _ _).
  rewrite (pow10_split (qScale x) m), (pow10_split (qScale y) m) by lia. lia.
Qed.

(** Adding is exact, on whichever representation, and stays representable. *)
Lemma Add_exact q y : valid q → valid y → nano (Add q y) = (nano q + nano y)%Z ∧ valid (Add q y).
Proof.
  intros [Hsq Hq] [Hsy Hy].
  assert (Hdec : nano (dec_Add q y) = (nano q + nano y)%Z ∧ valid (dec_Add q y)).
  { split; [by apply dec_Add_nano|]. split; simpl; [lia|done]. }
  unfold Add. destruct (qDec q) eqn:Dq, (qDec y) eqn:Dy; simpl; try done.
  specialize (Hq eq_refl). specialize (Hy eq_refl).
  destruct (amount_Add _ _) as [[v s]|] eqn:Ha; [|done]. clear Hdec.
  unfold amount_Add in Ha; simpl in Ha.
  destruct (qValue y =? 0)%Z eqn:E1.
  { apply Z.eqb_eq in E1. simplify_eq. unfold nano, valid; simpl. rewrite E1. lia. }
  destruct (qValue q =? 0)%Z eqn:E2.
  { apply Z.eqb_eq in E2. simplify_eq. unfold nano, valid; simpl. rewrite E2. lia. }
  clear E1 E2. destruct (qScale q =? qScale y)%Z eqn:E3.
  { apply Z.eqb_eq in E3. destruct (int64Add _ _) eqn:Hadd; simplify_eq/=.
    apply int64Add_exact in Hadd as [-> Hr]; [|done..]. unfold nano, valid; simpl. rewrite <- E3. lia. }
  destruct (qScale y <? qScale q)%Z eqn:E4.
  - apply Z.ltb_lt in E4. destruct (positiveScaleInt64 _ _) as [c|] eqn:Hp; simplify_eq/=.
    apply positiveScaleInt64_exact in Hp as [-> Hc]; [|lia|done].
    destruct (int64Add _ _) eqn:Hadd; simplify_eq/=.
    apply int64Add_exact in Hadd as [-> Hr]; [|done..]. unfold nano, valid; simpl.
    rewrite (pow10_split (qScale q) (qScale y)) by lia. lia.
  - apply Z.ltb_ge in E4. apply Z.eqb_neq in E3.
    destruct (positiveScaleInt64 _ _) as [c|] eqn:Hp; simplify_eq/=.
    apply positiveScaleInt64_exact in Hp as [-> Hc]; [|lia|done].
    destruct (int64Add _ _) eqn:Hadd; simplify_eq/=.
    apply int64Add_exact in Hadd as [-> Hr]; [|done..]. unfold nano, valid; simpl.
    rewrite (pow10_split (qScale y) (qScale q)) by lia. lia.
Qed.

(** So is multiplying by an [int64]. *)
Lemma Mul_exact q k : valid q → (min_int64 ≤ k ≤ max_int64)%Z →
  nano (Mul q k) = (k * nano q)%Z ∧ valid (Mul q k).
Proof.
  intros [Hsq Hq] Hk.
  assert (Hdec : nano (mkQuantity true (qValue q * k) (qScale q)) = (k * nano q)%Z ∧
                 valid (mkQuantity true (qValue q * k) (qScale q))).
  { split; [unfold nano; simpl; lia|]. split; simpl; [lia|done]. }
  unfold Mul. destruct (qDec q) eqn:Dq; [done|]. specialize (Hq eq_refl).
  destruct (amount_Mul _ _) as [[v s]|] eqn:Ha; [|done]. clear Hdec.
  unfold amount_Mul in Ha; simpl in Ha.
  destruct (qValue q =? 0)%Z eqn:E1.
  { apply Z.eqb_eq in E1. simplify_eq. unfold nano, valid; simpl. rewrite E1. lia. }
  destruct (k =? 0)%Z eqn:E2.
  { apply Z.eqb_eq in E2. simplify_eq. unfold nano, valid; simpl. unfold min_int64, max_int64. lia. }
  destruct (int64Multiply _ _) as [c|] eqn:Hm; simplify_eq/=.
  apply int64Multiply_exact in Hm as [-> Hc]; [|done..].
  assert ((v, s) = (qValue q * k, qScale q)%Z) as [= -> ->].
  { repeat case_match; simplify_eq/=; try done. destruct (positiveScaleInt64 _ _); by simplify_eq/=. }
  unfold nano, valid; simpl. lia.
Qed.

Lemma compare_scaled a b p : (0 < p)%Z → Z.compare a b = Z.compare (a * p) (b * p).
Proof.
  intros. destruct (Z.compare_spec a b), (Z.compare_spec (a * p) (b * p)); try done; nia.
Qed.

(** [Cmp] compares the numbers. *)
Lemma Cmp_exact q y : (-9 ≤ qScale q)%Z → (-9 ≤ qScale y)%Z → Cmp q y = Z.compare (nano q) (nano y).
Proof.
  intros. unfold Cmp, nano. set (m := Z.min _ _).
  rewrite (pow10_split (qScale q) m), (pow10_split (qScale y) m) by lia.
  rewrite !Z.mul_assoc. assert (0 < 10 ^ (m + 9))%Z by (apply Z.pow_pos_nonneg; lia).
  by apply compare_scaled.
Qed.

End Quantity.
