(* ===== verification/SupportedVersion.v ===== *)
(** Which OpenShift releases the operator accepts:
[support/supportedversion/version.go].  The supported window, the checks of a
HostedCluster's release ([IsValidReleaseVersion]) and of a NodePool's release
against its HostedCluster's ([ValidateVersionSkew]), and the choice of a
default release from a release stream. *)
From S2P Require Import Prelude GoSort Semver Api.
Import Semver.

Module SupportedVersion.

(** [LatestSupportedVersion], [MinSupportedVersion], [IBMCloudMinSupportedVersion] *)
Definition LatestSupportedVersion : Version := release 4 22 0.
Definition MinSupportedVersion : Version := release 4 14 0.
Definition IBMCloudMinSupportedVersion : Version := release 4 14 0.

(** [var ocpVersionToKubeVersion] *)
Definition ocpVersionToKubeVersion : gmap string Version := list_to_map
  [("4.14.0", release 1 27 0); ("4.15.0", release 1 28 0); ("4.16.0", release 1 29 0);
   ("4.17.0", release 1 30 0); ("4.18.0", release 1 31 0); ("4.19.0", release 1 32 0);
   ("4.20.0", release 1 33 0); ("4.21.0", release 1 34 0)].

Inductive version_error : Type :=
  | ErrUnknownSupportedVersion (s : string)
  | ErrBefore48
  | ErrYStreamDowngrade
  | ErrYStreamUpgradeSDN
  | ErrSDNAbove410
  | ErrOVNBelow411
  | ErrAboveLatest
  | ErrBelowMinimum
  | ErrMajorMismatch
  | ErrNodePoolHigher
  | ErrSkewTooLarge (minSupportedMinor : Z)
  | ErrNoServerVersion
  | ErrParseVersions
  | ErrNoSupportedVersions
  | ErrNoLatest
  | ErrListConfigMaps (e : string)
  | ErrNoConfigMap
  | ErrGetConfigMap (e : string)
  | ErrEmptyVersions
  | ErrHTTP (e : string)
  | ErrReleaseCandidate (s : string)
  | ErrUnsupported (s : string)
  | ErrParseResponse.

#[export] Instance version_error_eq_dec : EqDecision version_error.
Proof. solve_decision. Defined.

(** [func GetKubeVersionForSupportedVersion(supportedVersion semver.Version) ( *semver.Version, error)] *)
Definition GetKubeVersionForSupportedVersion (supportedVersion : Version) : go version_error Version :=
  match ocpVersionToKubeVersion !! Version_String supportedVersion with
  | None => Throw (ErrUnknownSupportedVersion (Version_String supportedVersion))
  | Some kubeVersion => Ret kubeVersion
  end.

(** [func GetMinSupportedVersion(hc *hyperv1.HostedCluster) semver.Version];
[skipAnnotation] says whether [hyperv1.SkipReleaseImageValidation] is set. *)
Definition GetMinSupportedVersion (skipAnnotation : bool) (platform : PlatformType) : Version :=
  if skipAnnotation then release 0 0 0 else
  match platform with
  | IBMCloudPlatform => IBMCloudMinSupportedVersion
  | _ => MinSupportedVersion
  end.

(** [func maxInt64(a, b uint64) uint64] *)
Definition maxInt64 (a b : Z) : Z := if (b <? a)%Z then a else b.

(** [func subtractMinor(version *semver.Version, count uint64) *semver.Version] *)
Definition subtractMinor (version : Version) (count : Z) : Version :=
  mkVersion (Major version) (maxInt64 0 (to_uint64 (Minor version - count))) (Patch version)
    (Pre version) (Build version).

(** [func trimVersion(version string) string] *)
Definition trimVersion (version : string) : string := trim_suffix version ".0".

(** [func Supported() []string] *)
Definition Supported : list string :=
  trimVersion (Version_String LatestSupportedVersion) ::
  ((λ i : nat, trimVersion (Version_String (subtractMinor LatestSupportedVersion (Z.of_nat i + 1))))
     <$> seq 0 (Z.to_nat (to_uint64 (Minor LatestSupportedVersion - Minor MinSupportedVersion)))).

(** [func IsValidReleaseVersion(version, currentVersion, maxSupportedVersion, minSupportedVersion
*semver.Version, networkType hyperv1.NetworkType, platformType hyperv1.PlatformType) error] *)
Definition IsValidReleaseVersion (version : Version) (currentVersion : option Version)
    (maxSupportedVersion minSupportedVersion : Version)
    (networkType : NetworkType) (platformType : PlatformType) : go version_error unit :=
  let maxSupportedVersion :=
    if GT maxSupportedVersion LatestSupportedVersion then LatestSupportedVersion
    else maxSupportedVersion in
  let isSDN := bool_decide (networkType = OpenShiftSDN) in
  let isOVN := bool_decide (networkType = OVNKubernetes) in
  let versionMinorOnly := release (Major version) (Minor version) 0 in
  if LT version (release 4 8 0) then Throw ErrBefore48
  else if match currentVersion with Some c => (Minor version <? Minor c)%Z | None => false end
  then Throw ErrYStreamDowngrade
  else if isSDN && match currentVersion with Some c => (Minor c <? Minor version)%Z | None => false end
  then Throw ErrYStreamUpgradeSDN
  else if isSDN && bool_decide (currentVersion = None) && GT versionMinorOnly (release 4 10 0)
          && negb (bool_decide (platformType = PowerVSPlatform))
  then Throw ErrSDNAbove410
  else if isOVN && bool_decide (currentVersion = None) && LTE versionMinorOnly (release 4 10 0)
  then Throw ErrOVNBelow411
  else if ((Major version =? Major maxSupportedVersion)%Z && (Minor maxSupportedVersion <? Minor version)%Z)
          || (Major maxSupportedVersion <? Major version)%Z
  then Throw ErrAboveLatest
  else if ((Major version =? Major minSupportedVersion)%Z && (Minor version <? Minor minSupportedVersion)%Z)
          || (Major version <? Major minSupportedVersion)%Z
  then Throw ErrBelowMinimum
  else Ret ().

(** [func ValidateVersionSkew(hostedClusterVersion, nodePoolVersion *semver.Version) error] *)
Definition ValidateVersionSkew (hostedClusterVersion nodePoolVersion : Version) : go version_error unit :=
  if negb (Major nodePoolVersion =? Major hostedClusterVersion)%Z then Throw ErrMajorMismatch
  else if GT nodePoolVersion hostedClusterVersion then Throw ErrNodePoolHigher
  else
    let versionDiff := to_int64 (to_int64 (Minor hostedClusterVersion) - to_int64 (Minor nodePoolVersion)) in
    let maxAllowedDiff := 3%Z in
    if (maxAllowedDiff <? versionDiff)%Z then
      let low := to_int64 (to_int64 (Minor hostedClusterVersion) - maxAllowedDiff) in
      Throw (ErrSkewTooLarge (if (low <? 0)%Z then 0 else low)%Z)
    else Ret ().

(** [func getArchFromStream(releaseStream string) string] *)
Definition getArchFromStream (releaseStream : string) : string :=
  if has_suffix releaseStream "-multi" then "multi"
  else if has_suffix releaseStream "-arm64" then "arm64"
  else if has_suffix releaseStream "-ppc64le" then "ppc64le"
  else if has_suffix releaseStream "-s390x" then "s390x"
  else "amd64".

(** [type ocpVersion struct] *)
Record ocpVersion : Type := mkOcp {
  ovName : string;
  ovPullSpec : string;
  ovDownloadURL : string;
}.

#[export] Instance ocpVersion_eq_dec : EqDecision ocpVersion.
Proof. solve_decision. Defined.

Section Lookup.
Context `{SliceSort}.

(** The comparison [findLatestSupportedVersion] sorts with. *)
Definition newer (a b : ocpVersion) : bool :=
  match Parse (ovName a), Parse (ovName b) with
  | Ret va, Ret vb => GT va vb
  | _, _ => str_lt (ovName b) (ovName a)
  end.

Definition matches_supported (supportedVersions : list string) (tag : ocpVersion) : bool :=
  existsb (str_contains (ovName tag)) supportedVersions.

(** [func findLatestSupportedVersion(supportedVersions []string, tags []ocpVersion, releaseURL string) (ocpVersion, error)] *)
Definition findLatestSupportedVersion (supportedVersions : list string) (tags : list ocpVersion) :
    go version_error ocpVersion :=
  let nonRCTags := List.filter (λ tag, negb (str_contains (ovName tag) "rc")) tags in
  match List.find (matches_supported supportedVersions) (sort_slice newer nonRCTags) with
  | Some tag => Ret tag
  | None => Throw ErrNoLatest
  end.

(** A ConfigMap: name, namespace and data. *)
Record ConfigMap : Type := mkConfigMap {
  cmNamespace : string;
  cmName : string;
  cmData : StringMap;
}.

(** What the release service answers, decoded both ways the code tries. *)
Record response : Type := mkResponse {
  as_tags : option (list ocpVersion);
  as_single : option ocpVersion;
}.

Context (unmarshal_versions : string → option (list string))
        (list_configmaps : go string (list ConfigMap))
        (get_configmap : string → string → go string ConfigMap)
        (http_get : string → go string response).

(** [func GetSupportedOCPVersions(ctx, namespace, client, supportedVersions *corev1.ConfigMap) (SupportedVersions, string, error)] *)
Definition GetSupportedOCPVersions (namespace : string) (supportedVersions : option ConfigMap) :
    go version_error (list string * string) :=
  cm ← match supportedVersions with
       | Some cm => Ret cm
       | None => match get_configmap namespace "supported-versions" with
                 | Ret cm => Ret cm
                 | Throw e => Throw (ErrGetConfigMap e)
                 | Panic => Panic
                 end
       end;
  match cmData cm !! "server-version" with
  | None => Throw ErrNoServerVersion
  | Some serverVersion =>
      match cmData cm !! "supported-versions" with
      | None => Throw ErrNoSupportedVersions
      | Some data =>
          match unmarshal_versions data with
          | None => Throw ErrParseVersions
          | Some versions => Ret (versions, serverVersion)
          end
      end
  end.

(** [func retrieveSupportedOCPVersion(ctx, releaseURL, client) (ocpVersion, error)] *)
Definition retrieveSupportedOCPVersion (releaseURL : string) : go version_error ocpVersion :=
  configMaps ← match list_configmaps with
               | Ret l => Ret l
               | Throw e => Throw (ErrListConfigMaps e)
               | Panic => Panic
               end;
  let supportedVersions := List.find (λ cm, str_eqb (cmName cm) "supported-versions") configMaps in
  let namespace := from_option cmNamespace "" supportedVersions in
  if str_eqb namespace "" then Throw ErrNoConfigMap else
  '(versions, _) ← GetSupportedOCPVersions namespace supportedVersions;
  if bool_decide (versions = []) then Throw ErrEmptyVersions else
  resp ← match http_get releaseURL with
         | Ret r => Ret r
         | Throw e => Throw (ErrHTTP e)
         | Panic => Panic
         end;
  match as_tags resp with
  | Some (t :: tags) => findLatestSupportedVersion versions (t :: tags)
  | _ =>
      match as_single resp with
      | Some single =>
          if str_eqb (ovName single) "" then Throw ErrParseResponse
          else if str_contains (ovName single) "rc" then Throw (ErrReleaseCandidate (ovName single))
          else if matches_supported versions single then Ret single
          else Throw (ErrUnsupported (ovName single))
      | None => Throw ErrParseResponse
      end
  end.

(** [func LookupDefaultOCPVersion(ctx, releaseStream, client) (ocpVersion, error)] *)
Definition LookupDefaultOCPVersion (releaseStream : string) : go version_error ocpVersion :=
  let releaseStream := if str_eqb releaseStream "" then "4-stable-multi" else releaseStream in
  let arch := getArchFromStream releaseStream in
  retrieveSupportedOCPVersion
    ("https://" +:+ arch +:+ ".ocp.releases.ci.openshift.org/api/v1/releasestream/"
     +:+ releaseStream +:+ "/tags").

End Lookup.

(** *** Lemmas *)

(** [(Major, Minor)] of one version at most that of another. *)
Definition minor_le (v o : Version) : Prop :=
  (Major v < Major o ∨ Major v = Major o ∧ Minor v ≤ Minor o)%Z.

#[export] Instance minor_le_dec v o : Decision (minor_le v o).
Proof. unfold minor_le. apply _. Defined.

(** The tighter of the caller's maximum and the operator's. *)
Definition effective_max (maxSupportedVersion : Version) : Version :=
  if GT maxSupportedVersion LatestSupportedVersion then LatestSupportedVersion
  else maxSupportedVersion.

Lemma above_max_spec v m :
  (((Major v =? Major m)%Z && (Minor m <? Minor v)%Z) || (Major m <? Major v)%Z) = false ↔ minor_le v m.
Proof. unfold minor_le. lia. Qed.

Lemma below_min_spec v m :
  (((Major v =? Major m)%Z && (Minor v <? Minor m)%Z) || (Major v <? Major m)%Z) = false ↔ minor_le m v.
Proof. unfold minor_le. lia. Qed.

Lemma GT_release a b a' b' :
  GT (release a b 0) (release a' b' 0) = true ↔ ¬ minor_le (release a b 0) (release a' b' 0).
Proof. unfold GT, minor_le, Compare; simpl. repeat case_match; Z_bool; lia. Qed.

Lemma LTE_release a b a' b' :
  LTE (release a b 0) (release a' b' 0) = true ↔ minor_le (release a b 0) (release a' b' 0).
Proof.
  unfold LTE. rewrite Z.leb_le, Compare_release. unfold minor_le; simpl. lia.
Qed.

Lemma effective_max_le m : minor_le (effective_max m) LatestSupportedVersion.
Proof.
  unfold effective_max. destruct (GT m LatestSupportedVersion) eqn:E.
  - unfold minor_le. lia.
  - assert (Hc : (Compare m LatestSupportedVersion ≤ 0)%Z).
    { unfold GT in E. Z_bool. pose proof (Compare_range m LatestSupportedVersion). lia. }
    apply Compare_le in Hc. unfold minor_le. simpl in *. lia.
Qed.

(** The cap never loosens the caller's maximum. *)
Lemma minor_le_effective v m : minor_le v (effective_max m) → minor_le v m.
Proof.
  unfold effective_max. destruct (GT m LatestSupportedVersion) eqn:E; [|done].
  assert (Hc : (Compare LatestSupportedVersion m ≤ 0)%Z).
  { unfold GT in E. Z_bool. rewrite Compare_antisym. lia. }
  apply Compare_le in Hc. unfold minor_le. simpl in *. lia.
Qed.

(** What [IsValidReleaseVersion] promises about a release it accepts. *)
Record accepted (version : Version) (currentVersion : option Version)
    (maxV minV : Version) (net : NetworkType) (platform : PlatformType) : Prop := {
  acc_48 : LT version (release 4 8 0) = false;
  acc_no_downgrade c : currentVersion = Some c → (Minor c ≤ Minor version)%Z;
  acc_sdn_pinned c : net = OpenShiftSDN → currentVersion = Some c → Minor version = Minor c;
  acc_sdn_new : net = OpenShiftSDN → currentVersion = None → platform ≠ PowerVSPlatform →
    minor_le version (release 4 10 0);
  acc_ovn_new : net = OVNKubernetes → currentVersion = None → ¬ minor_le version (release 4 10 0);
  acc_max : minor_le version (effective_max maxV);
  acc_min : minor_le minV version;
}.

Lemma minor_le_release v a b : minor_le (release (Major v) (Minor v) 0) (release a b 0) ↔ minor_le v (release a b 0).
Proof. done. Qed.

Lemma IsValid_accepted version currentVersion maxV minV net platform :
  IsValidReleaseVersion version currentVersion maxV minV net platform = Ret () ↔
  accepted version currentVersion maxV minV net platform.
Proof.
  unfold IsValidReleaseVersion. fold (effective_max maxV).
  rewrite !guard_Ret, above_max_spec, below_min_spec. split.
  - intros (H48 & Hdown & Hsdn & Hnew & Hovn & Hmax & Hmin & _).
    split; [done| | | | |done|done].
    + intros c ->. lia.
    + intros c -> ->. simpl in *. lia.
    + intros -> -> Hp. rewrite (bool_decide_eq_false_2 (platform = _)) in Hnew by done.
      simpl in Hnew. rewrite andb_true_r in Hnew.
      apply minor_le_release, dec_stable. intros Hn%GT_release. congruence.
    + intros -> ->. simpl in Hovn. rewrite <- minor_le_release, <- LTE_release. congruence.
  - intros [H48 Hdown Hsdn Hnew Hovn Hmax Hmin]. split_and!; try done.
    + destruct currentVersion as [c|]; [|done]. specialize (Hdown c eq_refl). lia.
    + destruct currentVersion as [c|]; [|by rewrite andb_false_r].
      case_bool_decide as Hn; [|done]. specialize (Hsdn c Hn eq_refl). simpl. lia.
    + repeat case_bool_decide; simpl; rewrite ?andb_false_r, ?andb_true_r; try done.
      destruct (GT _ _) eqn:HG; [|done]. apply GT_release in HG. naive_solver.
    + repeat case_bool_decide; simpl; try done.
      destruct (LTE _ _) eqn:HL; [|done]. apply LTE_release in HL. naive_solver.
Qed.

(** [IsValidReleaseVersion] returns no error exactly for the releases that
are at least 4.8, do not move the minor version back, keep it on OpenShiftSDN,
respect the network type's version limits for a new cluster, and lie between
the minimum and the smaller of the caller's and the operator's maximum. *)
Theorem IsValidReleaseVersion_accepts version currentVersion maxV minV net platform :
  IsValidReleaseVersion version currentVersion maxV minV net platform = Ret () ↔
  accepted version currentVersion maxV minV net platform.
Proof. apply IsValid_accepted. Qed.

(** Within the supported window the patch level, prerelease and build of a
release do not matter. *)
Lemma accepted_minor version version' currentVersion maxV minV net platform :
  Major version = Major version' → Minor version = Minor version' →
  LT version' (release 4 8 0) = false →
  accepted version currentVersion maxV minV net platform →
  accepted version' currentVersion maxV minV net platform.
Proof.
  unfold minor_le. intros HM Hm H48 []. split; unfold minor_le in *; rewrite <- ?HM, <- ?Hm; auto.
Qed.

(** For same-major versions, [ValidateVersionSkew] accepts a NodePool
release exactly when it is not newer than the HostedCluster's and at most
three minor versions behind; the error for an older one names the oldest
minor version that would do. *)
Theorem ValidateVersionSkew_accepts hc np :
  (0 ≤ Minor hc < 2 ^ 63)%Z → (0 ≤ Minor np < 2 ^ 63)%Z →
  (ValidateVersionSkew hc np = Ret () ↔
     Major np = Major hc ∧ GT np hc = false ∧ (Minor hc - 3 ≤ Minor np)%Z) ∧
  (∀ m, ValidateVersionSkew hc np = Throw (ErrSkewTooLarge m) →
     m = Z.max 0 (Minor hc - 3) ∧ (Minor np < m)%Z).
Proof.
  intros Hh Hn. unfold ValidateVersionSkew.
  rewrite !(to_int64_small (Minor _)) by lia.
  rewrite !to_int64_small by lia. split.
  - rewrite !guard_Ret. naive_solver lia.
  - intros m. repeat case_match; intros; simplify_eq; lia.
Qed.

Lemma ValidateVersionSkew_accepts_witness :
  ValidateVersionSkew (release 4 18 3) (release 4 15 30) = Ret () ∧
  ValidateVersionSkew (release 4 18 3) (release 4 14 30) = Throw (ErrSkewTooLarge 15).
Proof.
  split; [|reflexivity].
  apply (ValidateVersionSkew_accepts (release 4 18 3) (release 4 15 30)); [simpl; lia|simpl; lia|].
  split_and!; [reflexivity|reflexivity|simpl; lia].
Defined.

(** The supported versions printed by [Supported] are the minor versions from
the latest down to the minimum. *)
Lemma Supported_eq :
  Supported = ["4.22"; "4.21"; "4.20"; "4.19"; "4.18"; "4.17"; "4.16"; "4.15"; "4.14"].
Proof. vm_compute. reflexivity. Qed.

Lemma Supported_elem m :
  ("4." +:+ itoa m ∈ Supported) ↔ (14 ≤ m ≤ 22)%Z.
Proof.
  rewrite Supported_eq.
  change ["4.22"; "4.21"; "4.20"; "4.19"; "4.18"; "4.17"; "4.16"; "4.15"; "4.14"]
    with ((λ z, "4." +:+ itoa z) <$> [22; 21; 20; 19; 18; 17; 16; 15; 14]%Z).
  rewrite list_elem_of_fmap. split.
  - intros (z & Hz & Hin). apply str_app_inj_l in Hz. unfold itoa in Hz.
    apply pretty_Z_inj in Hz. subst. set_unfold in Hin. lia.
  - intros Hm. exists m. split; [done|]. set_unfold. lia.
Qed.

(** the versions the operator advertises in the supported-versions
ConfigMap are the ones it accepts: a minor version of OpenShift 4 is in
[Supported] exactly when [IsValidReleaseVersion] accepts each of its patch
releases for a new OVNKubernetes cluster with the operator's own bounds. *)
Theorem Supported_iff_valid m patch :
  "4." +:+ itoa m ∈ Supported ↔
  IsValidReleaseVersion (release 4 m patch) None LatestSupportedVersion
    (GetMinSupportedVersion false AWSPlatform) OVNKubernetes AWSPlatform = Ret ().
Proof.
  rewrite Supported_elem, IsValid_accepted. split.
  - intros Hm. split; try done; unfold minor_le; simpl; try lia.
    unfold LT, Compare; simpl. repeat case_match; Z_bool; lia.
  - intros [_ _ _ _ _ Hmax Hmin]. unfold minor_le in *. simpl in *. lia.
Qed.

(** [subtractMinor] is exact while the subtraction stays in range and
wraps around below zero: the [maxInt64(0, _)] around an unsigned difference
never takes effect. *)
Theorem subtractMinor_wraps v count :
  (0 ≤ Minor v < 2 ^ 64)%Z → (0 ≤ count < 2 ^ 64)%Z →
  Minor (subtractMinor v count) =
    (if count <=? Minor v then Minor v - count else Minor v - count + 2 ^ 64)%Z.
Proof.
  intros Hv Hc. unfold subtractMinor, maxInt64; simpl. unfold to_uint64.
  destruct (Z.leb_spec count (Minor v)).
  - rewrite Z.mod_small by lia. case_match; lia.
  - replace ((Minor v - count) mod 2 ^ 64)%Z with (Minor v - count + 2 ^ 64)%Z.
    + case_match; lia.
    + apply Z.mod_unique_pos with (-1)%Z; lia.
Qed.

Lemma subtractMinor_wraps_witness :
  Minor (subtractMinor (release 4 2 0) 3) = max_uint64.
Proof. rewrite (subtractMinor_wraps (release 4 2 0) 3); [reflexivity|simpl; lia|lia]. Defined.

(** Every supported minor version but the latest has a Kubernetes version
in the table, thirteen minor versions ahead; the latest one has none. *)
Theorem GetKubeVersion_supported m :
  (14 ≤ m ≤ 22)%Z →
  GetKubeVersionForSupportedVersion (release 4 m 0) =
    (if (m <? 22)%Z then Ret (release 1 (m + 13) 0)
     else Throw (ErrUnknownSupportedVersion "4.22.0")).
Proof.
  intros Hm.
  assert (m = 14 ∨ m = 15 ∨ m = 16 ∨ m = 17 ∨ m = 18 ∨ m = 19 ∨ m = 20 ∨ m = 21 ∨ m = 22)%Z as Hcases by lia.
  destruct_or! Hcases; subst; vm_compute; reflexivity.
Qed.

Lemma GetKubeVersion_supported_witness :
  GetKubeVersionForSupportedVersion MinSupportedVersion = Ret (release 1 27 0).
Proof. apply (GetKubeVersion_supported 14). lia. Defined.

Section LookupCorrect.
Context `{SliceSort}.

Lemma newer_strict_weak l :
  (∀ t, t ∈ l → ∃ v, Parse (ovName t) = Ret v) → strict_weak_on newer l.
Proof.
  intros Hp. unfold newer. split.
  - intros a b Ha Hb. destruct (Hp a Ha) as [va ->], (Hp b Hb) as [vb ->]. apply sw_asym.
  - intros a b c Ha Hb Hc.
    destruct (Hp a Ha) as [va ->], (Hp b Hb) as [vb ->], (Hp c Hc) as [vc ->]. apply sw_trans.
Qed.

Definition eligible (supportedVersions : list string) (tags : list ocpVersion) (t : ocpVersion) : Prop :=
  t ∈ tags ∧ str_contains (ovName t) "rc" = false ∧ matches_supported supportedVersions t = true.

Lemma elem_of_nonRC t tags :
  t ∈ List.filter (λ tag, negb (str_contains (ovName tag) "rc")) tags ↔
  t ∈ tags ∧ str_contains (ovName t) "rc" = false.
Proof. rewrite !list_elem_of_In, filter_In, negb_true_iff. done. Qed.

Lemma find_first_sorted {A} (R : A → A → Prop) (P : A → bool) l x :
  StronglySorted R l → List.find P l = Some x →
  ∀ y, y ∈ l → P y = true → y = x ∨ R x y.
Proof.
  induction 1 as [|z l Hs IH Hall]; simpl; [done|].
  rewrite Forall_forall in Hall.
  destruct (P z) eqn:Hz.
  - intros ? y [->|Hy]%elem_of_cons ?; simplify_eq; auto.
  - intros Hf y [->|Hy]%elem_of_cons ?; [congruence|auto].
Qed.

(** when the release names that are not release candidates are valid
versions, [findLatestSupportedVersion] returns a tag of the stream that is no
release candidate and matches a supported version, and no other such tag is
newer; it fails only when there is no such tag. *)
Theorem findLatestSupportedVersion_latest supportedVersions tags :
  (∀ t, t ∈ tags → str_contains (ovName t) "rc" = false → ∃ v, Parse (ovName t) = Ret v) →
  match findLatestSupportedVersion supportedVersions tags with
  | Ret t =>
      eligible supportedVersions tags t ∧
      ∀ t' v v', eligible supportedVersions tags t' →
        Parse (ovName t) = Ret v → Parse (ovName t') = Ret v' → GT v' v = false
  | Throw e => e = ErrNoLatest ∧ ∀ t, ¬ eligible supportedVersions tags t
  | Panic => False
  end.
Proof.
  intros Hp. unfold findLatestSupportedVersion.
  set (l := List.filter _ tags). assert (Hsw : strict_weak_on newer l).
  { apply newer_strict_weak. intros t [??]%elem_of_nonRC. auto. }
  pose proof (sort_slice_sorted newer l Hsw) as Hs.
  pose proof (sort_slice_perm newer l) as Hperm.
  destruct (List.find _ (sort_slice newer l)) as [t|] eqn:Hf.
  - split.
    + apply find_some in Hf as [Hin Hm]. apply list_elem_of_In in Hin.
      rewrite Hperm in Hin. by apply elem_of_nonRC in Hin as [??].
    + intros t' v v' (Ht' & Hrc & Hm) Hv Hv'.
      assert (Hin : t' ∈ sort_slice newer l) by (rewrite Hperm; by apply elem_of_nonRC).
      destruct (find_first_sorted _ _ _ _ Hs Hf t' Hin Hm) as [->|Hb].
      * rewrite Hv in Hv'. simplify_eq. apply GT_irrefl.
      * unfold sorts_before, newer in Hb. by rewrite Hv, Hv' in Hb.
  - split; [done|]. intros t (Hin & Hrc & Hm).
    assert (Ht : t ∈ sort_slice newer l) by (rewrite Hperm; by apply elem_of_nonRC).
    apply list_elem_of_In in Ht. pose proof (find_none _ _ Hf t Ht) as Hx. simpl in Hx. congruence.
Qed.

End LookupCorrect.

Definition example_tags : list ocpVersion :=
  [mkOcp "4.19.0-rc.1" "a" ""; mkOcp "4.18.9" "b" ""; mkOcp "4.18.10" "c" ""; mkOcp "4.13.1" "d" ""].

Lemma findLatestSupportedVersion_latest_witness :
  findLatestSupportedVersion ["4.19"; "4.18"] example_tags = Ret (mkOcp "4.18.10" "c" "") ∧
  eligible ["4.19"; "4.18"] example_tags (mkOcp "4.18.10" "c" "").
Proof.
  assert (E : findLatestSupportedVersion ["4.19"; "4.18"] example_tags = Ret (mkOcp "4.18.10" "c" ""))
    by (vm_compute; reflexivity).
  split; [exact E|].
  pose proof (findLatestSupportedVersion_latest ["4.19"; "4.18"] example_tags) as H.
  rewrite E in H. apply H. intros t Ht. unfold example_tags in Ht.
  repeat (apply elem_of_cons in Ht as [->|Ht]; [vm_compute; first [by eauto | done]|]).
  by apply not_elem_of_nil in Ht.
Defined.

End SupportedVersion.
