(* ===== verification/ClusterSizing.v ===== *)
(** The hosted cluster sizing controllers:
[hypershift-operator/controllers/hostedclustersizing/].  A validator decides
whether the t-shirt size configuration is usable, a reconciler moves each
HostedCluster between sizes: it computes the size from the node count, an
override or a recommendation, waits out the transition delays, limits how many
clusters change size in a sliding window, and records its decision first in
the status conditions and then in the size label. *)
From S2P Require Import Prelude GoSort Api Quantity.

Module ClusterSizing.

(** *** Data *)

(** [type NodeCountCriteria struct]: an inclusive range of [uint32]s. *)
Record NodeCountCriteria : Type := mkCriteria {
  From : Z;
  To : option Z;
}.

(** [type ResourceRequest struct] *)
Record ResourceRequest : Type := mkRequest {
  DeploymentName : string;
  ContainerName : string;
  rrMemory : option Quantity.Quantity;
  rrCPU : option Quantity.Quantity;
}.

(** [type Effects struct] *)
Record Effects : Type := mkEffects {
  KASGoMemLimit : option string;
  ControlPlanePriorityClassName : option string;
  EtcdPriorityClassName : option string;
  APICriticalPriorityClassName : option string;
  ResourceRequests : list ResourceRequest;
  MachineHealthCheckTimeout : option Duration;
  MaximumRequestsInflight : option Z;
  MaximumMutatingRequestsInflight : option Z;
}.

(** [type Management struct] *)
Record Management : Type := mkManagement {
  Placeholders : Z;
  NonRequestServingNodesPerZone : option Quantity.Quantity;
}.

(** [type SizeCapacity struct] *)
Record SizeCapacity : Type := mkCapacity {
  capMemory : option Quantity.Quantity;
  capCPU : option Quantity.Quantity;
}.

(** [type SizeConfiguration struct] *)
Record SizeConfiguration : Type := mkSizeConfiguration {
  scName : string;
  scCriteria : NodeCountCriteria;
  scEffects : option Effects;
  scManagement : option Management;
  scCapacity : option SizeCapacity;
}.

(** A size without effects and capacity. *)
Definition mkSize (name : string) (criteria : NodeCountCriteria) (management : option Management)
    : SizeConfiguration :=
  mkSizeConfiguration name criteria None management None.

(** [type ClusterSizingConfigurationSpec struct]: sizes, [Concurrency],
[TransitionDelay], the buffer of non request serving nodes and the fraction of
[ResourceBasedAutoscaling]; with the generation and the status conditions. *)
Record ClusterSizingConfiguration : Type := mkSizingConfiguration {
  Sizes : list SizeConfiguration;
  SlidingWindow : Duration;
  Limit : Z;
  DelayIncrease : Duration;
  DelayDecrease : Duration;
  configConditions : list Condition;
  NonRequestServingNodesBufferPerZone : option Quantity.Quantity;
  KubeAPIServerMemoryFraction : option Quantity.Quantity;
  cscGeneration : Z;
}.

(** A configuration without a buffer and a memory fraction, as first created. *)
Definition mkConfig (sizes : list SizeConfiguration) (slidingWindow : Duration) (limit : Z)
    (increase decrease : Duration) (conditions : list Condition) : ClusterSizingConfiguration :=
  mkSizingConfiguration sizes slidingWindow limit increase decrease conditions None None 1.

Definition ClusterSizingConfigurationValidType : string := "ClusterSizingConfigurationValid".
Definition ClusterSizeComputed : string := "ClusterSizeComputed".
Definition ClusterSizeTransitionPending : string := "ClusterSizeTransitionPending".
Definition ClusterSizeTransitionRequired : string := "ClusterSizeTransitionRequired".
Definition HostedClusterSizeLabel : string := "hypershift.openshift.io/hosted-cluster-size".
Definition ClusterSizeOverrideAnnotation : string := "hypershift.openshift.io/cluster-size-override".
Definition ResourceBasedControlPlaneAutoscalingAnnotation : string :=
  "hypershift.openshift.io/resource-based-cp-auto-scaling".
Definition RecommendedClusterSizeAnnotation : string :=
  "hypershift.openshift.io/recommended-cluster-size".
Definition HostedClusterScheduledAnnotation : string := "hypershift.openshift.io/cluster-scheduled".
Definition KubeAPIServerAvailable : string := "KubeAPIServerAvailable".

(** A HostedCluster as the controller reads it. *)
Record HostedCluster : Type := mkHC {
  hcNamespace : string;
  hcName : string;
  hcDeleting : bool;
  hcPausedUntil : option string;
  hcLabels : StringMap;
  hcAnnotations : StringMap;
  hcConditions : list Condition;
  hcFinalizers : list string;
}.

#[export] Instance HostedCluster_eq_dec : EqDecision HostedCluster.
Proof. solve_decision. Defined.

(** A NodePool: [Spec.AutoScaling != nil], [Spec.Replicas], [Status.Replicas]. *)
Record NodePool : Type := mkNP {
  npAutoScaling : bool;
  npSpecReplicas : option Z;
  npStatusReplicas : Z;
}.

(** [metav1applyconfigurations.ConditionApplyConfiguration]: the observed
generation is sent only for the conditions that are kept. *)
Record ConditionApply : Type := mkApply {
  caType : string;
  caStatus : ConditionStatus;
  caObservedGeneration : option Z;
  caLastTransitionTime : Time;
  caReason : string;
  caMessage : string;
}.

(** [HostedClusterApplyConfiguration], with labels or with a status. *)
Inductive applyConfiguration : Type :=
  | ApplyLabels (labels : StringMap)
  | ApplyStatus (conditions : list ConditionApply).

(** [type action struct] *)
Record action : Type := mkAction {
  requeueAfter : Duration;
  applyCfg : option applyConfiguration;
}.

Inductive sizing_error : Type :=
  | ErrNotFound
  | ErrIgnore (msg : string)
  | ErrOther (msg : string).

(** [type reconciler struct]: the clock and the functions that read the API. *)
Record reconciler : Type := mkReconciler {
  now : Time;
  getClusterSizingConfiguration : go sizing_error ClusterSizingConfiguration;
  getHostedCluster : string → string → go sizing_error HostedCluster;
  listHostedClusters : go sizing_error (list HostedCluster);
  hccoReportsNodeCount : HostedCluster → go sizing_error bool;
  nodePoolsForHostedCluster : HostedCluster → go sizing_error (list NodePool);
  hostedControlPlaneNodeCount : HostedCluster → go sizing_error (option Z);
}.

(** *** The validating controller *)

(** [starts] and [ends] as [validateIntervals] builds them *)
Definition interval_starts (sizes : list SizeConfiguration) : gset Z :=
  list_to_set (List.filter (λ z, negb (z =? 0)%Z) ((λ s, From (scCriteria s)) <$> sizes)).
Definition interval_ends (sizes : list SizeConfiguration) : gset Z :=
  list_to_set (omap (λ s, (λ to, to_uint32 (to + 1)) <$> To (scCriteria s)) sizes).

Inductive validation_error : Type := ErrIntervals | ErrNonRequestServing.

(** [func validateIntervals(sizes []schedulingv1alpha1.SizeConfiguration) error] *)
Definition validateIntervals (sizes : list SizeConfiguration) : list validation_error :=
  if bool_decide (interval_starts sizes = interval_ends sizes) then [] else [ErrIntervals].

(** [func validateNonRequestServingSizeConfig(sizes []schedulingv1alpha1.SizeConfiguration) error] *)
Definition validateNonRequestServingSizeConfig (sizes : list SizeConfiguration) : list validation_error :=
  let isNil s := match scManagement s with
                 | Some m => negb (bool_decide (is_Some (NonRequestServingNodesPerZone m)))
                 | None => true
                 end in
  let nilCount := length (List.filter isNil sizes) in
  let setCount := length (List.filter (λ s, negb (isNil s)) sizes) in
  if (0 <? nilCount)%nat && (0 <? setCount)%nat then [ErrNonRequestServing] else [].

(** [func validateSizeConfigurations(sizes []schedulingv1alpha1.SizeConfiguration) error]:
the aggregate of both, no error when the list is empty. *)
Definition validateSizeConfigurations (sizes : list SizeConfiguration) : list validation_error :=
  validateIntervals sizes ++ validateNonRequestServingSizeConfig sizes.

(** [func (r *validator) Reconcile(ctx, request) (reconcile.Result, error)]: the
condition it applies to the configuration. *)
Definition validator_Reconcile (now : Time) (errorText : list validation_error → string)
    (sizes : list SizeConfiguration) : ConditionApply :=
  match validateSizeConfigurations sizes with
  | [] => mkApply ClusterSizingConfigurationValidType ConditionTrue None now
            AsExpectedReason "Cluster sizing configuration valid."
  | errs => mkApply ClusterSizingConfigurationValidType ConditionFalse None now
              "SizeConfigurationInvalid" (errorText errs)
  end.

(** [func DefaultSizingConfig() *schedulingv1alpha1.ClusterSizingConfiguration] *)
Definition DefaultSizingConfig : list SizeConfiguration :=
  [mkSize "small" (mkCriteria 0 (Some 10%Z)) None;
   mkSize "medium" (mkCriteria 11 (Some 100%Z)) None;
   mkSize "large" (mkCriteria 101 None) None].

(** *** Reading the conditions *)

(** [func previousTransitionFor(hostedCluster *hypershiftv1beta1.HostedCluster) ( *time.Time, string)] *)
Definition condition_true (conditionType : string) (conditions : list Condition) : option (Time * string) :=
  (λ c, (cLastTransitionTime c, cReason c)) <$>
  List.find (λ c, str_eqb (cType c) conditionType && bool_decide (cStatus c = ConditionTrue)) conditions.

Definition previousTransitionFor (hc : HostedCluster) : option (Time * string) :=
  condition_true ClusterSizeComputed (hcConditions hc).

(** [func previousComputedSizeFor(hostedCluster *hypershiftv1beta1.HostedCluster) ( *time.Time, string)] *)
Definition previousComputedSizeFor (hc : HostedCluster) : option (Time * string) :=
  condition_true ClusterSizeTransitionRequired (hcConditions hc).

(** [func transitionsWithinSlidingWindow(hostedClusters, slidingWindow, now) (int, time.Duration)]:
the loop keeps the count and the oldest transition. *)
Definition window_step (cutoff : Time) (acc : Z * Time) (hc : HostedCluster) : Z * Time :=
  let '(withinWindow, oldestTransition) := acc in
  match previousTransitionFor hc with
  | Some (t, _) =>
      if time_after t cutoff then
        ((withinWindow + 1)%Z, if time_before t oldestTransition then t else oldestTransition)
      else acc
  | None => acc
  end.

Definition transitionsWithinSlidingWindow (hostedClusters : list HostedCluster)
    (slidingWindow : Duration) (now : Time) : Z * Duration :=
  let cutoff := time_add now (dur_neg slidingWindow) in
  let '(withinWindow, oldestTransition) := foldl (window_step cutoff) (0%Z, now) hostedClusters in
  (withinWindow, time_sub (time_add oldestTransition slidingWindow) now).

(** *** Writing the conditions *)

(** [func conditionPresent(hostedCluster, conditionType, status, reason, message) bool] *)
Definition conditionPresent (hc : HostedCluster) (u : ConditionApply) : bool :=
  existsb (λ c, str_eqb (cType c) (caType u) && bool_decide (cStatus c = caStatus u)
                && str_eqb (cReason c) (caReason u) && str_eqb (cMessage c) (caMessage u))
    (hcConditions hc).

(** [var managedConditions] *)
Definition managedConditions : list string :=
  [ClusterSizeComputed; ClusterSizeTransitionPending; ClusterSizeTransitionRequired].

Definition keep_condition (c : Condition) : ConditionApply :=
  mkApply (cType c) (cStatus c) (Some (cObservedGeneration c)) (cLastTransitionTime c)
    (cReason c) (cMessage c).

Section Reconcile.
Context `{SliceSort} (parse_rfc3339 : string → option Time).

(** [func conditions(existing []metav1.Condition, updated ...) []*ConditionApplyConfiguration]:
panics on an unmanaged type. *)
Definition conditions (existing : list Condition) (updated : list ConditionApply) :
    go sizing_error (list ConditionApply) :=
  if forallb (λ u, bool_decide (caType u ∈ managedConditions)) updated then
    let updatedTypes := caType <$> updated in
    let kept := List.filter (λ c, negb (bool_decide (cType c ∈ updatedTypes))
                                  && bool_decide (cType c ∈ managedConditions)) existing in
    Ret (sort_slice (λ a b, str_lt (caType a) (caType b)) (updated ++ (keep_condition <$> kept)))
  else Panic.

(** [func applyCfgFor(hostedCluster, updated ...) *HostedClusterApplyConfiguration] *)
Definition applyCfgFor (hc : HostedCluster) (updated : list ConditionApply) :
    go sizing_error (option applyConfiguration) :=
  let toUpdate := List.filter (λ u, negb (conditionPresent hc u)) updated in
  if bool_decide (toUpdate = []) then Ret None
  else cs ← conditions (hcConditions hc) toUpdate; Ret (Some (ApplyStatus cs)).

Context (r : reconciler).

(** One turn of the loop of [determineNodeCount] over the node pools. *)
Fixpoint sum_replicas (kasAvailable sizeClassLabelPresent : bool) (nodeCount : Z)
    (nodePools : list NodePool) : go sizing_error Z :=
  match nodePools with
  | [] => Ret nodeCount
  | np :: nodePools =>
      if npAutoScaling np then
        if negb kasAvailable && sizeClassLabelPresent then
          Throw (ErrIgnore "KAS is not available, and no size class label is set yet")
        else sum_replicas kasAvailable sizeClassLabelPresent
               (to_uint32 (nodeCount + to_uint32 (npStatusReplicas np))) nodePools
      else
        let replicas := from_option to_uint32 0%Z (npSpecReplicas np) in
        sum_replicas kasAvailable sizeClassLabelPresent (to_uint32 (nodeCount + replicas)) nodePools
  end.

(** [func (r *reconciler) determineNodeCount(ctx, hostedCluster, sizeClassLabelPresent) (uint32, error)] *)
Definition determineNodeCount (hc : HostedCluster) (sizeClassLabelPresent : bool) : go sizing_error Z :=
  match hccoReportsNodeCount r hc with
  | Throw _ => Throw (ErrOther "failed to determine if HCCO reports node count")
  | Panic => Panic
  | Ret hccoReports =>
      let kasAvailable :=
        match Meta.FindStatusCondition (hcConditions hc) KubeAPIServerAvailable with
        | Some c => bool_decide (cStatus c = ConditionTrue)
        | None => false
        end in
      if hccoReports then
        match hostedControlPlaneNodeCount r hc with
        | Throw _ => Throw (ErrIgnore "failed to get hosted control plane")
        | Panic => Panic
        | Ret (Some n) => Ret (if (0 <? n)%Z then to_uint32 n else 0%Z)
        | Ret None => Ret 0%Z
        end
      else
        nodePools ← nodePoolsForHostedCluster r hc;
        sum_replicas kasAvailable sizeClassLabelPresent 0%Z nodePools
  end.

(** The Go type [ignoreError] is declared as [type ignoreError error], an
interface with the methods of [error]: the assertion [err.(ignoreError)]
succeeds on every error. *)
Definition is_ignoreError (e : sizing_error) : bool := true.

(** [class.Criteria.From <= nodeCount && (class.Criteria.To == nil || *class.Criteria.To >= nodeCount)] *)
Definition in_class (nodeCount : Z) (class : SizeConfiguration) : bool :=
  (From (scCriteria class) <=? nodeCount)%Z &&
  match To (scCriteria class) with None => true | Some to => (nodeCount <=? to)%Z end.

(** The loops over [config.Spec.Sizes] that overwrite [sizeClass] keep the
last match. *)
Definition last_class (p : SizeConfiguration → bool) (sizes : list SizeConfiguration) :
    option SizeConfiguration := last (List.filter p sizes).

(** How [reconcile] chooses [sizeClass]: from the override, from the
recommendation, or from the node count.  [None] stands for the returns that
end the reconciliation without an action, [Some None] for a size that was not
found. *)
Definition computeSizeClass (config : ClusterSizingConfiguration) (hc : HostedCluster)
    (sizeClassLabelPresent : bool) : go sizing_error (option (option SizeConfiguration)) :=
  let overrideSize := mget (hcAnnotations hc) ClusterSizeOverrideAnnotation in
  if negb (str_eqb overrideSize "") then
    Ret (Some (last_class (λ c, str_eqb (scName c) overrideSize) (Sizes config)))
  else if str_eqb (mget (hcAnnotations hc) ResourceBasedControlPlaneAutoscalingAnnotation) "true" then
    match Sizes config with
    | [] => Ret None
    | first :: _ =>
        let recommendedSize := mget (hcAnnotations hc) RecommendedClusterSizeAnnotation in
        let found := if negb (str_eqb recommendedSize "")
                     then List.find (λ c, str_eqb (scName c) recommendedSize) (Sizes config)
                     else None in
        Ret (Some (Some (default first found)))
    end
  else
    match determineNodeCount hc sizeClassLabelPresent with
    | Throw e => if is_ignoreError e then Ret None else Throw e
    | Panic => Panic
    | Ret nodeCount => Ret (Some (last_class (in_class nodeCount) (Sizes config)))
    end.

Definition transitioned_message : string := "The HostedCluster has transitioned to a new t-shirt size.".
Definition will_transition_message : string := "The HostedCluster will transition to a new t-shirt size.".

(** The status sent while a transition has to wait: pending with a reason, and
the size the cluster should move to. *)
Definition waiting_conditions (reason message : string) (sizeClass : SizeConfiguration) : list ConditionApply :=
  [mkApply ClusterSizeTransitionPending ConditionTrue None (now r) reason message;
   mkApply ClusterSizeTransitionRequired ConditionTrue None (now r) (scName sizeClass) will_transition_message].

Definition action_of_cfg (requeue : Duration) (cfg : option applyConfiguration) : option action :=
  (λ c, mkAction requeue (Some c)) <$> cfg.

(** The part of [reconcile] after the size class is known to differ from the
current one: delay, concurrency limit, transition. *)
Definition delay_start (hc : HostedCluster) (sizeClass : SizeConfiguration) : Time :=
  let start := from_option fst zero_time (previousTransitionFor hc) in
  match previousComputedSizeFor hc with
  | Some (t, s) => if str_eqb s (scName sizeClass) then t else start
  | None => start
  end.

Definition increasing_size (config : ClusterSizingConfiguration) (currentSizeClass : option string)
    (sizeClass : SizeConfiguration) : bool :=
  let previousMinimumSize :=
    match currentSizeClass with
    | Some current =>
        from_option (λ c, From (scCriteria c)) 0%Z
          (last_class (λ c, str_eqb (scName c) current) (Sizes config))
    | None => 0%Z
    end in
  (previousMinimumSize <? From (scCriteria sizeClass))%Z.

Definition transition_delay (config : ClusterSizingConfiguration) (increasing : bool) : Duration :=
  if increasing then DelayIncrease config else DelayDecrease config.

Definition transition (config : ClusterSizingConfiguration) (hc : HostedCluster)
    (currentSizeClass : option string) (sizeClass : SizeConfiguration) : go sizing_error (option action) :=
  let increasing := increasing_size config currentSizeClass sizeClass in
  let delayStart := delay_start hc sizeClass in
  let delay := transition_delay config increasing in
  if (time_sub (now r) delayStart <? delay)%Z then
    cfg ← applyCfgFor hc (waiting_conditions "TransitionDelayNotElapsed"
      ("HostedClusters must wait at least " +:+ dur_string delay +:+ " to "
       +:+ (if increasing then "increase" else "decrease")
       +:+ " in size after the cluster size changes.") sizeClass);
    Ret (action_of_cfg (time_sub (time_add delayStart delay) (now r)) cfg)
  else
    blocked ←
      (if str_eqb (mget (hcAnnotations hc) HostedClusterScheduledAnnotation) "true" then
         match listHostedClusters r with
         | Throw _ => Throw (ErrOther "failed to list hosted clusters when calculating concurrency")
         | Panic => Panic
         | Ret hostedClusters =>
             let '(changes, durationUntilChanges) :=
               transitionsWithinSlidingWindow hostedClusters (SlidingWindow config) (now r) in
             Ret (if (Limit config <=? to_int32 changes)%Z
                  then Some (changes, durationUntilChanges) else None)
         end
       else Ret None);
    match blocked with
    | Some (changes, durationUntilChanges) =>
        cfg ← applyCfgFor hc (waiting_conditions "ConcurrencyLimitReached"
          (itoa changes +:+ " HostedClusters have already transitioned sizes in the last "
           +:+ dur_string (SlidingWindow config)
           +:+ ", more time must elapse before the next transition.") sizeClass);
        Ret (action_of_cfg durationUntilChanges cfg)
    | None =>
        cfg ← applyCfgFor hc
          [mkApply ClusterSizeComputed ConditionTrue None (now r) (scName sizeClass) transitioned_message;
           mkApply ClusterSizeTransitionPending ConditionFalse None (now r)
             "ClusterSizeTransitioned" transitioned_message;
           mkApply ClusterSizeTransitionRequired ConditionFalse None (now r)
             AsExpectedReason transitioned_message];
        Ret (action_of_cfg 0%Z cfg)
    end.

(** [func (r *reconciler) reconcile(ctx, request, config, hostedCluster) ( *action, error)] *)
Definition reconcile (config : ClusterSizingConfiguration) (hc : HostedCluster) :
    go sizing_error (option action) :=
  let configValid := existsb (λ c, str_eqb (cType c) ClusterSizingConfigurationValidType
                                   && bool_decide (cStatus c = ConditionTrue)) (configConditions config) in
  if negb configValid then Ret None
  else if hcDeleting hc then Ret None
  else
    match ProcessPausedUntilField parse_rfc3339 (hcPausedUntil hc) (now r) with
    | Throw _ => Ret None
    | Panic => Panic
    | Ret (true, duration) => Ret (Some (mkAction duration None))
    | Ret (false, _) =>
        let lastTransition := previousTransitionFor hc in
        let lastSizeClass := from_option snd "" lastTransition in
        let label := hcLabels hc !! HostedClusterSizeLabel in
        let currentSizeClass := default "" label in
        let sizeClassLabelPresent := bool_decide (is_Some label) in
        if (bool_decide (is_Some lastTransition) && negb sizeClassLabelPresent)
           || negb (str_eqb currentSizeClass lastSizeClass) then
          Ret (Some (mkAction 0%Z (Some (ApplyLabels {[HostedClusterSizeLabel := lastSizeClass]}))))
        else
          found ← computeSizeClass config hc sizeClassLabelPresent;
          match found with
          | None | Some None => Ret None
          | Some (Some sizeClass) =>
              if sizeClassLabelPresent && str_eqb (scName sizeClass) currentSizeClass then
                match lastTransition with
                | None => Panic
                | Some (lastTransitionTime, _) =>
                    cfg ← applyCfgFor hc
                      [mkApply ClusterSizeTransitionPending ConditionFalse None lastTransitionTime
                         "ClusterSizeTransitioned" transitioned_message;
                       mkApply ClusterSizeTransitionRequired ConditionFalse None lastTransitionTime
                         AsExpectedReason transitioned_message];
                    Ret (action_of_cfg 0%Z cfg)
                end
              else transition config hc label sizeClass
          end
    end.

(** [func (r *reconciler) Reconcile(ctx, request) (reconcile.Result, error)]:
what is applied and when to come back; [apply] is the write to the API. *)
Definition Reconcile (apply : applyConfiguration → go sizing_error unit) (namespace name : string) :
    go sizing_error Duration :=
  config ← getClusterSizingConfiguration r;
  match getHostedCluster r namespace name with
  | Throw ErrNotFound => Ret 0%Z
  | Throw e => Throw e
  | Panic => Panic
  | Ret hc =>
      act ← reconcile config hc;
      match act with
      | None => Ret 0%Z
      | Some a =>
          match applyCfg a with
          | Some cfg => apply cfg ≫= λ _, Ret (requeueAfter a)
          | None => Ret (requeueAfter a)
          end
      end
  end.

End Reconcile.

(** *** The size classes of a validated configuration *)

(** The rules of the CRD schema (the [XValidation] markers of
[clustersizingconfiguration_types.go]) on [uint32] criteria. *)
Definition in_uint32 (z : Z) : Prop := (0 ≤ z < 2 ^ 32)%Z.
Record schema_valid (sizes : list SizeConfiguration) : Prop := {
  sv_zero : length (List.filter (λ s, (From (scCriteria s) =? 0)%Z) sizes) = 1;
  sv_inf : length (List.filter (λ s, bool_decide (To (scCriteria s) = None)) sizes) = 1;
  sv_ordered s to : s ∈ sizes → To (scCriteria s) = Some to → (From (scCriteria s) ≤ to)%Z;
  sv_from s : s ∈ sizes → in_uint32 (From (scCriteria s));
  sv_to s to : s ∈ sizes → To (scCriteria s) = Some to → in_uint32 to;
}.

Lemma elem_of_interval_ends sizes s to :
  s ∈ sizes → To (scCriteria s) = Some to → to_uint32 (to + 1) ∈ interval_ends sizes.
Proof.
  intros Hs Hto. apply elem_of_list_to_set, list_elem_of_omap. exists s. by rewrite Hto.
Qed.

Lemma elem_of_interval_starts sizes z :
  z ∈ interval_starts sizes → ∃ s, s ∈ sizes ∧ From (scCriteria s) = z.
Proof.
  unfold interval_starts. rewrite elem_of_list_to_set, elem_of_filter_bool, list_elem_of_fmap.
  intros [(s & -> & Hs) _]. eauto.
Qed.

(** Every node count below [n] that starts a class is at most the start of the
class found here, so that class cannot end before [n]. *)
Lemma classes_cover sizes n :
  schema_valid sizes → validateIntervals sizes = [] → in_uint32 n →
  ∃ s, s ∈ sizes ∧ in_class n s = true.
Proof.
  intros [Hzero _ Hord Hfrom Hto] Hval Hn. unfold in_uint32 in *.
  assert (Heq : interval_starts sizes = interval_ends sizes).
  { unfold validateIntervals in Hval. by case_bool_decide. }
  destruct (exists_max_by (λ s, From (scCriteria s))
              (List.filter (λ s, From (scCriteria s) <=? n)%Z sizes)) as (s & Hs & Hmax).
  { intros Hnil. destruct (List.filter _ sizes) as [|z l] eqn:Hz in Hzero; [done|].
    assert (Hin : z ∈ List.filter (λ s, (From (scCriteria s) =? 0)%Z) sizes) by (rewrite Hz; left).
    apply elem_of_filter_bool in Hin as [Hin H0].
    assert (Hin' : z ∈ List.filter (λ s, From (scCriteria s) <=? n)%Z sizes)
      by (apply elem_of_filter_bool; split; [done|lia]).
    rewrite Hnil in Hin'. by apply not_elem_of_nil in Hin'. }
  apply elem_of_filter_bool in Hs as [Hs Hle]. exists s. split; [done|].
  unfold in_class. rewrite Hle. simpl. destruct (To (scCriteria s)) as [to|] eqn:Hs_to; [|done].
  destruct (Z.leb_spec n to) as [|Hlt]; [done|]. exfalso.
  pose proof (Hto s to Hs Hs_to) as Hto'.
  pose proof (elem_of_interval_ends sizes s to Hs Hs_to) as Hend.
  rewrite to_uint32_small, <- Heq in Hend by lia.
  apply elem_of_interval_starts in Hend as (s' & Hs' & Hf).
  pose proof (Hord s to Hs Hs_to).
  assert (From (scCriteria s') ≤ From (scCriteria s))%Z; [|lia].
  apply Hmax, elem_of_filter_bool. split; [done|lia].
Qed.

(** A size configuration that satisfies the schema and passes
[validateIntervals] has a class for every node count, so [reconcile] never
fails to find the size of a cluster whose nodes it can count. *)
Theorem validated_sizes_cover sizes n :
  schema_valid sizes → validateIntervals sizes = [] → in_uint32 n →
  ∃ s, last_class (in_class n) sizes = Some s ∧ in_class n s = true.
Proof.
  intros Hschema Hval Hn. destruct (classes_cover sizes n Hschema Hval Hn) as (s & Hs & Hin).
  unfold last_class. destruct (last _) as [s'|] eqn:E.
  - exists s'. split; [done|]. by apply last_filter_Some in E as [??].
  - rewrite (last_filter_None _ _ s E Hs) in Hin. done.
Qed.

Lemma DefaultSizingConfig_schema : schema_valid DefaultSizingConfig.
Proof.
  split; try reflexivity; unfold in_uint32, DefaultSizingConfig; intros; elem_cases;
    simpl in *; simplify_eq; lia.
Qed.

Lemma validated_sizes_cover_witness :
  validateIntervals DefaultSizingConfig = [] ∧
  ∃ s, last_class (in_class 55) DefaultSizingConfig = Some s ∧ in_class 55 s = true.
Proof.
  assert (H : validateIntervals DefaultSizingConfig = []) by (vm_compute; reflexivity).
  split; [exact H|].
  apply (validated_sizes_cover DefaultSizingConfig 55 DefaultSizingConfig_schema H).
  unfold in_uint32. lia.
Defined.

Definition overlapping_sizes : list SizeConfiguration :=
  [mkSize "small" (mkCriteria 0 (Some 10%Z)) None;
   mkSize "medium" (mkCriteria 11 (Some 20%Z)) None;
   mkSize "medium2" (mkCriteria 11 (Some 20%Z)) None;
   mkSize "large" (mkCriteria 21 None) None].

(** The validation asks for non-overlapping classes but compares only the
sets of their ends: a configuration with two classes for the same node counts
satisfies the schema and passes. *)
Theorem validation_accepts_overlap :
  ∃ sizes n s1 s2,
    schema_valid sizes ∧ validateSizeConfigurations sizes = [] ∧
    s1 ∈ sizes ∧ s2 ∈ sizes ∧ scName s1 ≠ scName s2 ∧
    in_class n s1 = true ∧ in_class n s2 = true.
Proof.
  exists overlapping_sizes, 15%Z, (mkSize "medium" (mkCriteria 11 (Some 20%Z)) None),
    (mkSize "medium2" (mkCriteria 11 (Some 20%Z)) None).
  split_and!; try reflexivity; try done; try (unfold overlapping_sizes; set_solver).
  split; try reflexivity; unfold in_uint32, overlapping_sizes; intros; elem_cases;
    simpl in *; simplify_eq; lia.
Qed.

End ClusterSizing.
