(* ===== verification/ClusterSizingProofs.v ===== *)
(** What the hosted cluster sizing reconciler guarantees: the sliding window
count, the conditions it sends, that a size transition respects the delay and
the concurrency limit, that the label follows the status, which errors
surface, and that a transition settles in three reconciliations. *)
From S2P Require Import Prelude GoSort Api ClusterSizing.
Import ClusterSizing.

#[local] Open Scope Z_scope.

Module ClusterSizingProofs.

(** *** The sliding window *)

(** The clusters whose last transition lies inside the window. *)
Definition in_window (cutoff : Time) (hc : HostedCluster) : bool :=
  match previousTransitionFor hc with
  | Some (t, _) => time_after t cutoff
  | None => false
  end.

Definition window_count (cutoff : Time) (hcs : list HostedCluster) : nat :=
  length (List.filter (in_window cutoff) hcs).

Arguments window_count cutoff%_Z hcs.

Lemma window_fold cutoff hcs n o :
  let '(n', o') := foldl (window_step cutoff) (n, o) hcs in
  n' = (n + Z.of_nat (window_count cutoff hcs))%Z ∧
  (o' ≤ o)%Z ∧
  (∀ hc t s, hc ∈ hcs → previousTransitionFor hc = Some (t, s) → (cutoff < t)%Z → (o' ≤ t)%Z) ∧
  (o' = o ∨ ∃ hc s, hc ∈ hcs ∧ previousTransitionFor hc = Some (o', s) ∧ (cutoff < o')%Z).
Proof.
  revert n o. induction hcs as [|hc hcs IH]; intros n o; cbn [foldl].
  { unfold window_count; simpl. split_and!; [lia|lia|set_solver|auto]. }
  specialize (IH (window_step cutoff (n, o) hc).1 (window_step cutoff (n, o) hc).2).
  rewrite <- surjective_pairing in IH.
  destruct (foldl _ _ hcs) as [n' o']. destruct IH as (Hn & Ho & Hmin & Hwit).
  unfold window_step, window_count, in_window, time_after, time_before in *; simpl in *.
  destruct (previousTransitionFor hc) as [[t s]|] eqn:Ht; simpl in *.
  - destruct (Z.ltb_spec cutoff t) as [Hc|Hc]; simpl in *.
    + destruct (Z.ltb_spec t o); split_and!; try lia.
      1,3: intros hc' t' s' [->|Hin]%elem_of_cons ??; [simplify_eq; lia|eauto].
      all: destruct Hwit as [->|(hc' & s' & ? & ? & ?)]; [|right; exists hc', s'; set_solver].
      * right. exists hc, s. set_solver.
      * by left.
    + split_and!; try lia.
      * intros hc' t' s' [->|Hin]%elem_of_cons ??; [simplify_eq; lia|eauto].
      * destruct Hwit as [->|(hc' & s' & ? & ? & ?)]; [by left|right; exists hc', s'; set_solver].
  - split_and!; try lia.
    + intros hc' t' s' [->|Hin]%elem_of_cons ??; [simplify_eq|eauto].
    + destruct Hwit as [->|(hc' & s' & ? & ? & ?)]; [by left|right; exists hc', s'; set_solver].
Qed.

Lemma filter_length_lt {A} (p q : A → bool) l x :
  (∀ y, q y = true → p y = true) → x ∈ l → p x = true → q x = false →
  (length (List.filter q l) < length (List.filter p l))%nat.
Proof.
  intros Hqp Hx Hp Hq. induction l as [|y l IH]; [by apply not_elem_of_nil in Hx|].
  assert (Hle : ∀ l, (length (List.filter q l) ≤ length (List.filter p l))%nat).
  { clear -Hqp. intros l. induction l as [|z l IH]; simpl; [lia|].
    specialize (Hqp z). destruct (q z), (p z); simpl; lia. }
  simpl. apply elem_of_cons in Hx as [->|Hx].
  - rewrite Hp, Hq. simpl. specialize (Hle l). lia.
  - specialize (IH Hx). specialize (Hqp y). destruct (q y), (p y); simpl; lia.
Qed.

(** with no transition recorded in the future, the reported duration is
how long the count stays: the count is the number of clusters whose last
transition is younger than the window, the duration is positive and at most
the window, and after it at least one of these clusters has left the window. *)
Theorem sliding_window_next_change hcs window now n d :
  (0 < window ≤ max_int64)%Z →
  (∀ hc t s, hc ∈ hcs → previousTransitionFor hc = Some (t, s) → (t ≤ now)%Z) →
  transitionsWithinSlidingWindow hcs window now = (n, d) →
  n = Z.of_nat (window_count (now - window) hcs) ∧
  ((0 < n)%Z → (0 < d ≤ window)%Z ∧ (window_count (now + d - window) hcs < window_count (now - window) hcs)%nat).
Proof.
  intros Hw Hpast Ht. unfold transitionsWithinSlidingWindow, time_add in Ht.
  replace (now + dur_neg window)%Z with (now - window)%Z in Ht
    by (unfold dur_neg; rewrite to_int64_small; unfold max_int64 in Hw; lia).
  pose proof (window_fold (now - window) hcs 0 now) as Hf.
  destruct (foldl _ _ hcs) as [n' o]. destruct Hf as (Hn & Ho & Hmin & Hwit).
  injection Ht as Hn' Hd. subst n'. split; [lia|]. intros Hpos.
  assert (Hex : ∃ hc s, hc ∈ hcs ∧ previousTransitionFor hc = Some (o, s) ∧ (now - window < o)%Z).
  { destruct Hwit as [->|Hex]; [|done].
    assert (Hne : List.filter (in_window (now - window)%Z) hcs ≠ []).
    { intros Hnil. unfold window_count in Hn. rewrite Hnil in Hn. simpl in Hn. lia. }
    destruct (List.filter _ hcs) as [|hc l] eqn:Hfl; [done|].
    assert (Hin : hc ∈ List.filter (in_window (now - window)%Z) hcs) by (rewrite Hfl; left).
    apply elem_of_filter_bool in Hin as [Hin Hw']. unfold in_window, time_after in Hw'.
    destruct (previousTransitionFor hc) as [[t s]|] eqn:Hp; [|done].
    exists hc, s. assert (t = now) as ->; [|split_and!; [done|done|lia]].
    assert (t ≤ now)%Z by eauto. assert (now ≤ t)%Z by (eapply Hmin; eauto; lia). lia. }
  destruct Hex as (hc & s & Hin & Hp & Hlt).
  assert (Hd' : d = (o + window - now)%Z).
  { unfold time_sub, min_int64, max_int64 in *. lia. }
  split; [lia|]. apply (filter_length_lt _ _ _ hc); [|done| |].
  - intros hc' H'. unfold in_window, time_after in *.
    destruct (previousTransitionFor hc') as [[t' s']|]; [|done]. lia.
  - unfold in_window, time_after. rewrite Hp. lia.
  - unfold in_window, time_after. rewrite Hp. lia.
Qed.

Definition sized_cluster (name size : string) (t : Time) : HostedCluster :=
  mkHC "clusters" name false None {[HostedClusterSizeLabel := size]} ∅
    [mkCondition ClusterSizeComputed ConditionTrue 0 t size "m"] [].

Lemma sliding_window_next_change_witness :
  transitionsWithinSlidingWindow [sized_cluster "a" "small" 95; sized_cluster "b" "large" 50] 10 100 = (1%Z, 5%Z) ∧
  (window_count 95 [sized_cluster "a" "small" 95; sized_cluster "b" "large" 50] < 1)%nat.
Proof.
  split; [reflexivity|].
  apply (sliding_window_next_change [sized_cluster "a" "small" 95; sized_cluster "b" "large" 50] 10 100 1 5);
    [unfold max_int64; lia| |reflexivity|lia].
  intros hc t s Hin. elem_cases; vm_compute; intros; simplify_eq; done.
Defined.

(** *** The conditions sent to the API *)

Ltac managed_updates :=
  let u := fresh in let Hu := fresh in
  intros u Hu; elem_cases; simpl; unfold managedConditions; set_solver.

Section Proofs.
Context `{SliceSort} (parse_rfc3339 : string → option Time) (r : reconciler).

Lemma managed_bool t : bool_decide (t ∈ managedConditions) = true ↔ t ∈ managedConditions.
Proof. apply bool_decide_eq_true. Qed.

Lemma conditions_Ret existing updated :
  (∀ u, u ∈ updated → caType u ∈ managedConditions) →
  ∃ cs, conditions existing updated = Ret cs.
Proof.
  intros Hm. unfold conditions. case_match eqn:E; [eauto|].
  assert (E' : forallb (λ u, bool_decide (caType u ∈ managedConditions)) updated = true); [|congruence].
  apply forallb_forall. intros u Hu. apply managed_bool, Hm. by apply list_elem_of_In.
Qed.

Lemma conditions_types_NoDup existing updated cs :
  NoDup (caType <$> updated) → NoDup (Meta.types_of existing) →
  conditions existing updated = Ret cs → NoDup (caType <$> cs).
Proof.
  intros Hu He. unfold conditions. case_match; [|done]. intros [= <-].
  rewrite sort_slice_perm, fmap_app. apply NoDup_app. split_and!; [done| |].
  - intros t Ht. rewrite <- list_fmap_compose, list_elem_of_fmap.
    intros (c & -> & Hc). apply elem_of_filter_bool in Hc as [_ Hc].
    apply andb_true_iff in Hc as [Hc _]. rewrite negb_true_iff, bool_decide_eq_false in Hc. by apply Hc.
  - rewrite <- list_fmap_compose. change (caType ∘ keep_condition) with cType.
    by apply NoDup_fmap_filter.
Qed.

(** the list sent with each server-side apply is sorted by type, holds
exactly the updated conditions and the existing managed ones of other types,
and names no type twice when neither input does, so no managed condition is
dropped and none is claimed twice. *)
Theorem conditions_complete existing updated cs :
  conditions existing updated = Ret cs →
  StronglySorted (sorts_before (λ a b, str_lt (caType a) (caType b))) cs ∧
  (∀ u, u ∈ cs ↔ u ∈ updated ∨
     ∃ c, c ∈ existing ∧ u = keep_condition c ∧ cType c ∈ managedConditions ∧
          cType c ∉ (caType <$> updated)) ∧
  (NoDup (caType <$> updated) → NoDup (Meta.types_of existing) → NoDup (caType <$> cs)).
Proof.
  unfold conditions. case_match eqn:H0; [|done]. intros [= <-].
  set (kept := List.filter _ existing).
  assert (Hk : ∀ c, c ∈ kept ↔ c ∈ existing ∧ cType c ∈ managedConditions ∧ cType c ∉ (caType <$> updated)).
  { intros c. unfold kept. rewrite elem_of_filter_bool, andb_true_iff, negb_true_iff,
      bool_decide_eq_true, bool_decide_eq_false. naive_solver. }
  split_and!.
  - apply sort_slice_sorted, StrictWeak_on. apply _.
  - intros u. rewrite sort_slice_perm, elem_of_app, list_elem_of_fmap.
    setoid_rewrite Hk. naive_solver.
  - intros Hu He. eapply conditions_types_NoDup; [exact Hu|exact He|]. unfold conditions.
    by rewrite H0.
Qed.

(** *** What a call to [applyCfgFor] sends *)

Lemma applyCfgFor_spec hc updated o :
  applyCfgFor hc updated = Ret o →
  (o = None ∧ ∀ u, u ∈ updated → conditionPresent hc u = true) ∨
  (∃ cs, o = Some (ApplyStatus cs) ∧
     conditions (hcConditions hc) (List.filter (λ u, negb (conditionPresent hc u)) updated) = Ret cs).
Proof.
  unfold applyCfgFor. case_bool_decide as Hnil.
  - intros [= <-]. left. split; [done|]. intros u Hu.
    destruct (conditionPresent hc u) eqn:E; [done|].
    assert (Hin : u ∈ List.filter (λ u, negb (conditionPresent hc u)) updated)
      by (apply elem_of_filter_bool; by rewrite E).
    rewrite Hnil in Hin. by apply not_elem_of_nil in Hin.
  - destruct (conditions _ _) as [cs|?|]; intros; simplify_eq/=. right. eauto.
Qed.

Lemma applyCfgFor_Ret hc updated :
  (∀ u, u ∈ updated → caType u ∈ managedConditions) → ∃ o, applyCfgFor hc updated = Ret o.
Proof.
  intros Hm. unfold applyCfgFor. case_bool_decide; [eauto|].
  destruct (conditions_Ret (hcConditions hc) (List.filter (λ u, negb (conditionPresent hc u)) updated))
    as [cs ->]; simpl; eauto.
  intros u [??]%elem_of_filter_bool. auto.
Qed.

(** A condition without an observed generation is one of the updates. *)
Lemma applyCfgFor_fresh hc updated cs u :
  applyCfgFor hc updated = Ret (Some (ApplyStatus cs)) →
  u ∈ cs → caObservedGeneration u = None → u ∈ updated.
Proof.
  intros [[? _]|(cs' & [= <-] & Hc)]%applyCfgFor_spec Hu Hg; [done|].
  unfold conditions in Hc. case_match; [|done]. injection Hc as Hc. subst cs.
  rewrite sort_slice_perm, elem_of_app, list_elem_of_fmap in Hu.
  destruct Hu as [[? _]%elem_of_filter_bool|(c & -> & _)]; done.
Qed.

Lemma action_of_cfg_status requeue cfg a cs :
  action_of_cfg requeue cfg = Some a → applyCfg a = Some (ApplyStatus cs) → cfg = Some (ApplyStatus cs).
Proof. destruct cfg; simpl; intros; simplify_eq/=; done. Qed.

Lemma action_of_cfg_labels hc updated requeue cfg a m :
  applyCfgFor hc updated = Ret cfg → action_of_cfg requeue cfg = Some a →
  applyCfg a ≠ Some (ApplyLabels m).
Proof.
  intros [[-> _]|(cs & -> & _)]%applyCfgFor_spec; intros; simplify_eq/=; done.
Qed.

Definition label_of (hc : HostedCluster) : option string := hcLabels hc !! HostedClusterSizeLabel.
Definition last_size (hc : HostedCluster) : string := from_option snd "" (previousTransitionFor hc).

(** The label agrees with the last recorded transition. *)
Definition in_sync (hc : HostedCluster) : Prop :=
  default "" (label_of hc) = last_size hc ∧
  (is_Some (previousTransitionFor hc) → is_Some (label_of hc)).

#[local] Instance in_sync_dec hc : Decision (in_sync hc).
Proof. unfold in_sync. apply _. Defined.

Lemma sync_test hc :
  (bool_decide (is_Some (previousTransitionFor hc)) && negb (bool_decide (is_Some (label_of hc))))
  || negb (str_eqb (default "" (label_of hc)) (last_size hc)) = false ↔ in_sync hc.
Proof.
  unfold in_sync. rewrite orb_false_iff, andb_false_iff, !negb_false_iff, str_eqb_eq.
  rewrite bool_decide_eq_false, bool_decide_eq_true.
  destruct (previousTransitionFor hc) as [x|], (label_of hc) as [y|]; simpl; split;
    intros [??]; split; auto; try naive_solver.
Qed.

(** [reconcile] with its early returns taken: the cluster is processed when the
configuration is valid and the cluster is neither deleted nor paused. *)
Definition active (config : ClusterSizingConfiguration) (hc : HostedCluster) : Prop :=
  existsb (λ c, str_eqb (cType c) ClusterSizingConfigurationValidType
                && bool_decide (cStatus c = ConditionTrue)) (configConditions config) = true ∧
  hcDeleting hc = false ∧
  ∃ d, ProcessPausedUntilField parse_rfc3339 (hcPausedUntil hc) (now r) = Ret (false, d).

Definition label_action (hc : HostedCluster) : action :=
  mkAction 0 (Some (ApplyLabels {[HostedClusterSizeLabel := last_size hc]})).

(** The conditions that clear a finished transition. *)
Definition settled_conditions (t : Time) : list ConditionApply :=
  [mkApply ClusterSizeTransitionPending ConditionFalse None t "ClusterSizeTransitioned" transitioned_message;
   mkApply ClusterSizeTransitionRequired ConditionFalse None t AsExpectedReason transitioned_message].

Lemma reconcile_active config hc :
  active config hc →
  reconcile parse_rfc3339 r config hc =
  (if decide (in_sync hc) then
     computeSizeClass r config hc (bool_decide (is_Some (label_of hc))) ≫= λ found,
     match found with
     | None | Some None => Ret None
     | Some (Some sizeClass) =>
         if bool_decide (is_Some (label_of hc)) && str_eqb (scName sizeClass) (default "" (label_of hc)) then
           match previousTransitionFor hc with
           | None => Panic
           | Some (t, _) =>
               applyCfgFor hc (settled_conditions t) ≫= λ cfg, Ret (action_of_cfg 0 cfg)
           end
         else transition r config hc (label_of hc) sizeClass
     end
   else Ret (Some (label_action hc))).
Proof.
  intros (Hv & Hdel & d & Hp). unfold reconcile. rewrite Hv, Hdel, Hp. simpl.
  destruct (decide (in_sync hc)) as [Hs|Hs].
  - apply sync_test in Hs. unfold label_of, last_size in Hs. rewrite Hs. done.
  - rewrite <- sync_test in Hs. apply not_false_iff_true in Hs.
    unfold label_of, last_size in Hs. by rewrite Hs.
Qed.

Lemma reconcile_inactive config hc :
  active config hc ∨
  reconcile parse_rfc3339 r config hc = Ret None ∨
  (∃ d, reconcile parse_rfc3339 r config hc = Ret (Some (mkAction d None))).
Proof.
  unfold active, reconcile. destruct (existsb _ _); simpl; [|by auto].
  destruct (hcDeleting hc); simpl; [by auto|].
  destruct (ProcessPausedUntilField _ _ _) as [[[|] d]|?|] eqn:E; eauto 6.
  unfold ProcessPausedUntilField in E. repeat case_match; done.
Qed.

(** *** Transitions *)

(** What has to hold for a cluster to change size. *)
Record may_transition (config : ClusterSizingConfiguration) (hc : HostedCluster)
    (sizeClass : SizeConfiguration) : Prop := {
  mt_delay :
    (transition_delay config (increasing_size config (label_of hc) sizeClass)
       ≤ time_sub (now r) (delay_start hc sizeClass));
  mt_concurrency :
    mget (hcAnnotations hc) HostedClusterScheduledAnnotation = "true" →
    ∃ hcs, listHostedClusters r = Ret hcs ∧
           to_int32 (transitionsWithinSlidingWindow hcs (SlidingWindow config) (now r)).1 < Limit config;
}.

Definition transition_conditions (sizeClass : SizeConfiguration) : list ConditionApply :=
  [mkApply ClusterSizeComputed ConditionTrue None (now r) (scName sizeClass) transitioned_message;
   mkApply ClusterSizeTransitionPending ConditionFalse None (now r)
     "ClusterSizeTransitioned" transitioned_message;
   mkApply ClusterSizeTransitionRequired ConditionFalse None (now r)
     AsExpectedReason transitioned_message].

(** [transition] either sends the transition, or keeps waiting. *)
Lemma transition_cases config hc sizeClass o :
  transition r config hc (label_of hc) sizeClass = Ret o →
  (may_transition config hc sizeClass ∧
     ∃ cfg, applyCfgFor hc (transition_conditions sizeClass) = Ret cfg ∧ o = action_of_cfg 0 cfg) ∨
  (∃ reason message d cfg,
     applyCfgFor hc (waiting_conditions r reason message sizeClass) = Ret cfg ∧ o = action_of_cfg d cfg).
Proof.
  unfold transition. case_match eqn:Hd.
  { destruct (applyCfgFor _ _) as [cfg|?|] eqn:E; simpl; intros; simplify_eq. right. eauto 8. }
  apply Z.ltb_ge in Hd.
  destruct (str_eqb _ "true") eqn:Hs; simpl.
  - destruct (listHostedClusters r) as [hcs|?|] eqn:Hl; simpl; try done.
    destruct (transitionsWithinSlidingWindow _ _ _) as [changes dur] eqn:Hw. simpl.
    destruct (Z.leb_spec (Limit config) (to_int32 changes)).
    + destruct (applyCfgFor _ _) as [cfg|?|] eqn:E; simpl; intros; simplify_eq. right. eauto 8.
    + fold (transition_conditions sizeClass).
      destruct (applyCfgFor _ _) as [cfg|?|] eqn:E; simpl; intros; simplify_eq. left. split; [|eauto].
      split; [done|]. intros _. exists hcs. by rewrite Hw.
  - fold (transition_conditions sizeClass).
    destruct (applyCfgFor _ _) as [cfg|?|] eqn:E; simpl; intros; simplify_eq. left. split; [|eauto].
    split; [done|]. intros Ht. by apply str_eqb_neq in Hs.
Qed.

(** The reconciliations that end in a status update. *)
Lemma reconcile_status config hc a cs :
  reconcile parse_rfc3339 r config hc = Ret (Some a) → applyCfg a = Some (ApplyStatus cs) →
  active config hc ∧ in_sync hc ∧
  ∃ sizeClass,
    computeSizeClass r config hc (bool_decide (is_Some (label_of hc))) = Ret (Some (Some sizeClass)) ∧
    ((label_of hc = Some (scName sizeClass) ∧ ∃ t, applyCfgFor hc (settled_conditions t) = Ret (Some (ApplyStatus cs))) ∨
     (label_of hc ≠ Some (scName sizeClass) ∧ transition r config hc (label_of hc) sizeClass = Ret (Some a))).
Proof.
  intros Hr Ha. destruct (reconcile_inactive config hc) as [Hact|[Hn|[d Hn]]];
    [|congruence|rewrite Hn in Hr; simplify_eq; done].
  split; [done|]. rewrite (reconcile_active config hc Hact) in Hr.
  destruct (decide (in_sync hc)) as [Hs|]; [|by simplify_eq]. split; [done|].
  destruct (computeSizeClass _ _ _ _) as [[[sizeClass|]|]|?|]; simplify_eq/=.
  exists sizeClass. split; [done|]. destruct (label_of hc) as [l|] eqn:Hl; simpl in Hr.
  - destruct (str_eqb (scName sizeClass) l) eqn:Hn.
    + apply str_eqb_eq in Hn as <-. left. split; [done|].
      destruct (previousTransitionFor hc) as [[t ?]|]; [|done].
      destruct (applyCfgFor _ _) as [cfg|?|] eqn:E; simplify_eq/=.
      rewrite <- (action_of_cfg_status _ _ _ _ Hr Ha). eauto.
    + apply str_eqb_neq in Hn. right. split; [congruence|done].
  - right. split; [done|done].
Qed.

(** A status update that records a newly computed size. *)
Definition records_transition (a : action) (size : string) : Prop :=
  ∃ cs u, applyCfg a = Some (ApplyStatus cs) ∧ u ∈ cs ∧ caType u = ClusterSizeComputed ∧
          caObservedGeneration u = None ∧ caReason u = size.

Lemma reconcile_transition config hc a size :
  reconcile parse_rfc3339 r config hc = Ret (Some a) → records_transition a size →
  active config hc ∧ in_sync hc ∧ label_of hc ≠ Some size ∧
  ∃ sizeClass cs,
    size = scName sizeClass ∧
    computeSizeClass r config hc (bool_decide (is_Some (label_of hc))) = Ret (Some (Some sizeClass)) ∧
    may_transition config hc sizeClass ∧
    a = mkAction 0 (Some (ApplyStatus cs)) ∧
    applyCfgFor hc (transition_conditions sizeClass) = Ret (Some (ApplyStatus cs)).
Proof.
  intros Hr (cs & u & Ha & Hu & Ht & Hg & <-).
  destruct (reconcile_status _ _ _ _ Hr Ha) as (Hact & Hs & sizeClass & Hc & [(_ & t & Hcfg)|[Hl Htr]]).
  { pose proof (applyCfgFor_fresh _ _ _ _ Hcfg Hu Hg) as Hin.
    unfold settled_conditions in Hin. elem_cases; done. }
  destruct (transition_cases _ _ _ _ Htr) as [[Hmt (cfg & Hcfg & Ho)]|(reason & msg & d & cfg & Hcfg & Ho)].
  - symmetry in Ho. pose proof (action_of_cfg_status _ _ _ _ Ho Ha) as ->.
    pose proof (applyCfgFor_fresh _ _ _ _ Hcfg Hu Hg) as Hin.
    assert (Hname : caReason u = scName sizeClass).
    { unfold transition_conditions in Hin. elem_cases; done. }
    rewrite Hname. split_and!; try done. exists sizeClass, cs. simplify_eq/=. done.
  - symmetry in Ho. pose proof (action_of_cfg_status _ _ _ _ Ho Ha) as ->.
    pose proof (applyCfgFor_fresh _ _ _ _ Hcfg Hu Hg) as Hin.
    unfold waiting_conditions in Hin. elem_cases; done.
Qed.

(** C25: a HostedCluster changes size only when it may: the sizing configuration is
marked valid, the cluster is neither being deleted nor paused, the new size is the
one computed for it and differs from its label, the label agrees with the last
recorded size, the configured delay for the direction of the change has passed
since the last transition (or since this size was first asked for), and, if the
cluster is annotated as scheduled, fewer clusters than the concurrency limit
changed size within the sliding window. *)
Theorem size_transition_safe config hc a size :
  reconcile parse_rfc3339 r config hc = Ret (Some a) → records_transition a size →
  (∃ c, c ∈ configConditions config ∧ cType c = ClusterSizingConfigurationValidType ∧ cStatus c = ConditionTrue) ∧
  hcDeleting hc = false ∧
  (∃ d, ProcessPausedUntilField parse_rfc3339 (hcPausedUntil hc) (now r) = Ret (false, d)) ∧
  default "" (label_of hc) = last_size hc ∧ label_of hc ≠ Some size ∧
  ∃ sizeClass,
    size = scName sizeClass ∧
    computeSizeClass r config hc (bool_decide (is_Some (label_of hc))) = Ret (Some (Some sizeClass)) ∧
    may_transition config hc sizeClass.
Proof.
  intros Hr Hrec. destruct (reconcile_transition _ _ _ _ Hr Hrec)
    as ((Hvalid & Hdel & Hpause) & [Hsync _] & Hl & sizeClass & cs & ? & ? & ? & _).
  apply existsb_elem in Hvalid as (c & Hc & [Ht%str_eqb_eq Hst%bool_decide_eq_true]%andb_prop).
  split_and!; eauto 8.
Qed.

(** labels and status never change in the same step: a status update is
sent only for a cluster whose label agrees with the recorded size, and a label
update sets the recorded size on a cluster whose label disagrees. *)
Theorem label_follows_status config hc a :
  reconcile parse_rfc3339 r config hc = Ret (Some a) →
  (∀ cs, applyCfg a = Some (ApplyStatus cs) → in_sync hc) ∧
  (∀ m, applyCfg a = Some (ApplyLabels m) →
     ¬ in_sync hc ∧ m = {[HostedClusterSizeLabel := last_size hc]} ∧ requeueAfter a = 0).
Proof.
  intros Hr. split.
  { intros cs Ha. by destruct (reconcile_status _ _ _ _ Hr Ha) as (_ & ? & _). }
  intros m Ha. destruct (reconcile_inactive config hc) as [Hact|[Hn|[d Hn]]];
    [|congruence|rewrite Hn in Hr; simplify_eq; done].
  rewrite (reconcile_active config hc Hact) in Hr.
  destruct (decide (in_sync hc)) as [Hs|]; [exfalso|by simplify_eq/=].
  destruct (computeSizeClass _ _ _ _) as [[[sizeClass|]|]|?|]; simplify_eq/=.
  destruct (_ && _).
  - destruct (previousTransitionFor hc) as [[t ?]|]; [|done].
    destruct (applyCfgFor _ _) as [cfg|?|] eqn:E; simplify_eq/=.
    by eapply action_of_cfg_labels.
  - destruct (transition_cases _ _ _ _ Hr) as [[_ (cfg & Hcfg & Ho)]|(reason & msg & d & cfg & Hcfg & Ho)];
      symmetry in Ho; by eapply action_of_cfg_labels.
Qed.

(** the only error [reconcile] reports is a failure to list the clusters
for the concurrency limit; any error met while counting nodes, a failure to
list the node pools or to read the release labels included, ends the
reconciliation as if nothing had to be done. *)
Theorem node_count_errors_are_dropped config hc e :
  reconcile parse_rfc3339 r config hc = Throw e →
  e = ErrOther "failed to list hosted clusters when calculating concurrency" ∧
  ∃ e', listHostedClusters r = Throw e'.
Proof.
  intros Hr. destruct (reconcile_inactive config hc) as [Hact|[Hn|[d Hn]]]; [|congruence..].
  rewrite (reconcile_active config hc Hact) in Hr.
  assert (Hcfg : ∀ updated, (∀ u, u ∈ updated → caType u ∈ managedConditions) →
            applyCfgFor hc updated ≠ Throw e).
  { intros updated Hm. destruct (applyCfgFor_Ret hc updated Hm) as [o ->]. done. }
  destruct (decide (in_sync hc)); [|done].
  destruct (computeSizeClass _ _ _ _) as [[[sizeClass|]|]|?|] eqn:Hc; simplify_eq/=.
  - destruct (_ && _).
    + destruct (previousTransitionFor hc) as [[t ?]|]; [|done].
      destruct (applyCfgFor _ _) as [cfg|?|] eqn:E; simplify_eq/=. exfalso.
      eapply Hcfg; [|exact E]. managed_updates.
    + unfold transition in Hr. case_match.
      { destruct (applyCfgFor _ _) as [cfg|?|] eqn:E; simplify_eq/=. exfalso.
        eapply Hcfg; [|exact E]. managed_updates. }
      destruct (str_eqb _ "true"); [|simpl in Hr].
      * destruct (listHostedClusters r) as [hcs|e'|]; simplify_eq/=; [|eauto].
        destruct (transitionsWithinSlidingWindow _ _ _) as [changes dur]; simpl in Hr.
        destruct (_ <=? _); simpl in Hr;
          (destruct (applyCfgFor _ _) as [cfg|?|] eqn:E; simplify_eq/=; exfalso;
           eapply Hcfg; [|exact E]; managed_updates).
      * destruct (applyCfgFor _ _) as [cfg|?|] eqn:E; simplify_eq/=. exfalso.
        eapply Hcfg; [|exact E]. managed_updates.
  - exfalso. unfold computeSizeClass in Hc. repeat case_match; simplify_eq.
Qed.

(** *** Panics *)

Lemma computeSizeClass_elem config hc b sizeClass :
  computeSizeClass r config hc b = Ret (Some (Some sizeClass)) → sizeClass ∈ Sizes config.
Proof.
  unfold computeSizeClass, last_class.
  destruct (negb _); [by intros [= [? _]%last_filter_Some]|].
  destruct (str_eqb _ "true").
  - destruct (Sizes config) as [|first sizes]; [done|].
    destruct (List.find _ (first :: sizes)) as [c|] eqn:Hf;
      [apply find_Some_elem in Hf as [Hin _]|];
      destruct (negb _); intros; simplify_eq; try done; left.
  - destruct (determineNodeCount _ _ _); [|done..]. by intros [= [? _]%last_filter_Some].
Qed.

Lemma sum_replicas_no_panic kas b n nps : sum_replicas kas b n nps ≠ Panic.
Proof. revert n. induction nps as [|np nps IH]; intros n; simpl; [done|]. repeat case_match; try done; apply IH. Qed.

(** The readers of the reconciler do not panic. *)
Record readers_total : Prop := {
  rt_hcco hc : hccoReportsNodeCount r hc ≠ Panic;
  rt_nodePools hc : nodePoolsForHostedCluster r hc ≠ Panic;
  rt_hcp hc : hostedControlPlaneNodeCount r hc ≠ Panic;
  rt_list : listHostedClusters r ≠ Panic;
}.

Lemma computeSizeClass_no_panic config hc b :
  readers_total → computeSizeClass r config hc b ≠ Panic.
Proof.
  intros [Hhcco Hnps Hhcp _]. unfold computeSizeClass.
  destruct (negb _); [done|]. destruct (str_eqb _ "true"); [by destruct (Sizes config)|].
  assert (Hd : determineNodeCount r hc b ≠ Panic).
  { unfold determineNodeCount. specialize (Hhcco hc). specialize (Hnps hc). specialize (Hhcp hc).
    destruct (hccoReportsNodeCount r hc) as [[|]|?|]; try done.
    - by destruct (hostedControlPlaneNodeCount r hc) as [[n|]|?|].
    - destruct (nodePoolsForHostedCluster r hc); try done. apply sum_replicas_no_panic. }
  by destruct (determineNodeCount r hc b).
Qed.

Lemma applyCfgFor_no_panic hc updated (k : option applyConfiguration → option action) :
  (∀ u, u ∈ updated → caType u ∈ managedConditions) →
  applyCfgFor hc updated ≫= (λ cfg, Ret (k cfg)) ≠ Panic.
Proof. intros Hm. by destruct (applyCfgFor_Ret hc updated Hm) as [o ->]. Qed.

Lemma transition_no_panic config hc l sizeClass :
  listHostedClusters r ≠ Panic → transition r config hc l sizeClass ≠ Panic.
Proof.
  intros Hlist. unfold transition. case_match; [apply applyCfgFor_no_panic; managed_updates|].
  destruct (str_eqb _ "true"); simpl; [|apply applyCfgFor_no_panic; managed_updates].
  destruct (listHostedClusters r) as [hcs|?|]; simpl; try done.
  destruct (transitionsWithinSlidingWindow _ _ _) as [changes dur]; simpl.
  destruct (_ <=? _); apply applyCfgFor_no_panic; managed_updates.
Qed.

(** with non-empty class names and API readers that do not panic,
[reconcile] does not panic: the dereference of the last transition time and
the check for unmanaged condition types are safe. *)
Theorem reconcile_no_panic config hc :
  (∀ s, s ∈ Sizes config → scName s ≠ "") → readers_total →
  reconcile parse_rfc3339 r config hc ≠ Panic.
Proof.
  intros Hnames Hrd.
  destruct (reconcile_inactive config hc) as [Hact|[Hn|[d Hn]]]; [|congruence..].
  rewrite (reconcile_active config hc Hact).
  destruct (decide (in_sync hc)) as [[Hsync _]|]; [|done].
  pose proof (computeSizeClass_no_panic config hc (bool_decide (is_Some (label_of hc))) Hrd) as Hnp.
  destruct (computeSizeClass _ _ _ _) as [[[sizeClass|]|]|?|] eqn:Hc; simpl; try done.
  destruct (_ && _) eqn:Hl; [|apply transition_no_panic, Hrd].
  apply andb_true_iff in Hl as [_ Hl%str_eqb_eq].
  destruct (previousTransitionFor hc) as [[t ?]|] eqn:Hp.
  - apply applyCfgFor_no_panic. managed_updates.
  - apply computeSizeClass_elem, Hnames in Hc. unfold last_size in Hsync. rewrite Hp in Hsync.
    simpl in Hsync. congruence.
Qed.

End Proofs.

Lemma conditions_complete_witness :
  ∃ cs, conditions [mkCondition ClusterSizeComputed ConditionTrue 0 7 "small" "m"]
          [mkApply ClusterSizeTransitionPending ConditionTrue None 9 "x" "y"] = Ret cs ∧
        NoDup (caType <$> cs).
Proof.
  eexists. split; [vm_compute; reflexivity|].
  apply (conditions_complete [mkCondition ClusterSizeComputed ConditionTrue 0 7 "small" "m"]
           [mkApply ClusterSizeTransitionPending ConditionTrue None 9 "x" "y"]);
    [vm_compute; reflexivity|..]; vm_compute; apply NoDup_singleton.
Defined.

(** *** Settling *)

(** The condition the API stores for an applied one. *)
Definition stored (u : ConditionApply) : Condition :=
  mkCondition (caType u) (caStatus u) (default 0 (caObservedGeneration u)) (caLastTransitionTime u)
    (caReason u) (caMessage u).

(** What the reconciler relies on in the API server: a server-side apply of
labels merges them, a server-side apply of a status stores the conditions that
were sent (the list is keyed by type) and touches nothing else. *)
Class ServerSideApply : Type := {
  ssa : HostedCluster → applyConfiguration → HostedCluster;
  ssa_paused hc cfg : hcPausedUntil (ssa hc cfg) = hcPausedUntil hc;
  ssa_deleting hc cfg : hcDeleting (ssa hc cfg) = hcDeleting hc;
  ssa_annotations hc cfg : hcAnnotations (ssa hc cfg) = hcAnnotations hc;
  ssa_labels hc m : hcLabels (ssa hc (ApplyLabels m)) = m ∪ hcLabels hc;
  ssa_labels_conditions hc m : hcConditions (ssa hc (ApplyLabels m)) = hcConditions hc;
  ssa_status_labels hc cs : hcLabels (ssa hc (ApplyStatus cs)) = hcLabels hc;
  ssa_status hc cs u : u ∈ cs → stored u ∈ hcConditions (ssa hc (ApplyStatus cs));
  ssa_status_types hc cs :
    NoDup (Meta.types_of (hcConditions hc)) → NoDup (caType <$> cs) →
    NoDup (Meta.types_of (hcConditions (ssa hc (ApplyStatus cs))));
}.

Lemma NoDup_types_eq (l : list Condition) c d :
  NoDup (Meta.types_of l) → c ∈ l → d ∈ l → cType c = cType d → c = d.
Proof.
  unfold Meta.types_of. induction l as [|x l IH]; intros Hnd Hc Hd Ht; [by apply not_elem_of_nil in Hc|].
  rewrite fmap_cons in Hnd. apply NoDup_cons in Hnd as [Hx Hnd].
  apply elem_of_cons in Hc as [->|Hc], Hd as [->|Hd]; auto; exfalso; apply Hx.
  - rewrite Ht. by apply list_elem_of_fmap_2.
  - rewrite <- Ht. by apply list_elem_of_fmap_2.
Qed.

Lemma condition_true_Some t l c :
  NoDup (Meta.types_of l) → c ∈ l → cType c = t → cStatus c = ConditionTrue →
  condition_true t l = Some (cLastTransitionTime c, cReason c).
Proof.
  intros Hnd Hc Ht Hs. unfold condition_true. destruct (List.find _ l) as [d|] eqn:Hf; simpl.
  - apply find_Some_elem in Hf as [Hd Hp]. apply andb_true_iff in Hp as [Hp%str_eqb_eq _].
    by rewrite (NoDup_types_eq l d c) by (congruence || done).
  - rewrite find_None_elem in Hf. specialize (Hf c Hc).
    by rewrite <- Ht, str_eqb_refl, bool_decide_eq_true_2 in Hf.
Qed.

Section Settle.
Context `{SliceSort} `{ServerSideApply} (parse_rfc3339 : string → option Time).

(** Every update of [applyCfgFor] is in the list it sends, fresh or kept. *)
Lemma applyCfgFor_has hc updated cs u :
  NoDup (caType <$> updated) → (∀ u, u ∈ updated → caType u ∈ managedConditions) →
  applyCfgFor hc updated = Ret (Some (ApplyStatus cs)) → u ∈ updated →
  ∃ u', u' ∈ cs ∧ caType u' = caType u ∧ caStatus u' = caStatus u ∧
        caReason u' = caReason u ∧ caMessage u' = caMessage u.
Proof.
  intros Hnd Hm [[? _]|(cs' & [= <-] & Hc)]%applyCfgFor_spec Hu; [done|].
  unfold conditions in Hc. case_match; [|done]. injection Hc as <-.
  setoid_rewrite sort_slice_perm. setoid_rewrite elem_of_app.
  destruct (conditionPresent hc u) eqn:Hp.
  - apply existsb_elem in Hp as (c & Hin & Hp).
    rewrite !andb_true_iff, !str_eqb_eq, bool_decide_eq_true in Hp. destruct Hp as [[[Ht Hs] Hr] Hmsg].
    exists (keep_condition c). split; [right|done].
    apply list_elem_of_fmap_2, elem_of_filter_bool. split; [done|].
    rewrite andb_true_iff, negb_true_iff, bool_decide_eq_false, bool_decide_eq_true, Ht.
    split; [|auto]. intros (u' & Hu' & Hin')%list_elem_of_fmap.
    apply elem_of_filter_bool in Hin' as [Hin' Hp'].
    assert (u = u') as <-.
    { clear -Hnd Hu Hin' Hu'. induction updated as [|x l IH]; [by apply not_elem_of_nil in Hu|].
      rewrite fmap_cons in Hnd. apply NoDup_cons in Hnd as [Hx Hnd].
      apply elem_of_cons in Hu as [->|Hu], Hin' as [->|Hin']; auto; exfalso; apply Hx.
      - rewrite Hu'. by apply list_elem_of_fmap_2.
      - rewrite <- Hu'. by apply list_elem_of_fmap_2. }
    assert (conditionPresent hc u = true); [|by destruct (conditionPresent hc u)].
    apply existsb_elem. exists c. split; [done|].
    by rewrite Ht, Hr, Hmsg, !str_eqb_refl, bool_decide_eq_true_2.
  - exists u. split; [left|done]. apply elem_of_filter_bool. by rewrite Hp.
Qed.

Lemma applyCfgFor_types_NoDup hc updated cs :
  NoDup (caType <$> updated) → NoDup (Meta.types_of (hcConditions hc)) →
  applyCfgFor hc updated = Ret (Some (ApplyStatus cs)) → NoDup (caType <$> cs).
Proof.
  intros Hu He [[? _]|(cs' & [= <-] & Hc)]%applyCfgFor_spec; [done|].
  eapply conditions_types_NoDup; [|exact He|exact Hc]. by apply NoDup_fmap_filter.
Qed.

Lemma transition_conditions_NoDup r sizeClass : NoDup (caType <$> transition_conditions r sizeClass).
Proof. apply (bool_decide_unpack _). vm_compute. done. Qed.

Lemma settled_no_update hc t :
  (∀ u, u ∈ settled_conditions t → conditionPresent hc u = true) →
  applyCfgFor hc (settled_conditions t) = Ret None.
Proof.
  intros Hall. unfold applyCfgFor. rewrite bool_decide_eq_true_2; [done|].
  destruct (List.filter _ _) as [|u l] eqn:Hf; [done|].
  assert (Hin : u ∈ List.filter (λ u, negb (conditionPresent hc u)) (settled_conditions t))
    by (rewrite Hf; left).
  apply elem_of_filter_bool in Hin as [Hin Hp]. by rewrite (Hall u Hin) in Hp.
Qed.

Lemma transition_managed r sizeClass u :
  u ∈ transition_conditions r sizeClass → caType u ∈ managedConditions.
Proof. revert u. unfold transition_conditions. managed_updates. Qed.

(** The conditions of a settled cluster are among those of the transition. *)
Lemma transition_present hc hc' r sizeClass cs t u :
  applyCfgFor hc (transition_conditions r sizeClass) = Ret (Some (ApplyStatus cs)) →
  hcConditions hc' = hcConditions (ssa hc (ApplyStatus cs)) →
  u ∈ settled_conditions t → conditionPresent hc' u = true.
Proof.
  intros Hcfg Hc' Hu.
  assert (Hu' : ∃ v, v ∈ transition_conditions r sizeClass ∧ caType v = caType u ∧
            caStatus v = caStatus u ∧ caReason v = caReason u ∧ caMessage v = caMessage u).
  { unfold settled_conditions in Hu. unfold transition_conditions. elem_cases.
    - eexists. split; [right; left|done].
    - eexists. split; [right; right; left|done]. }
  destruct Hu' as (v & Hv & Ht & Hs & Hrn & Hm).
  destruct (applyCfgFor_has _ _ _ _ (transition_conditions_NoDup r sizeClass)
              (transition_managed r sizeClass) Hcfg Hv) as (w & Hw & Ht' & Hs' & Hrn' & Hm').
  apply existsb_elem. exists (stored w). split; [rewrite Hc'; by apply ssa_status|].
  simpl. rewrite Ht', Hs', Hrn', Hm', Ht, Hs, Hrn, Hm.
  by rewrite !str_eqb_refl, bool_decide_eq_true_2.
Qed.

(** What a transition writes is read back as the last transition. *)
Lemma transition_read_back hc a r sizeClass cs :
  NoDup (Meta.types_of (hcConditions hc)) → records_transition a (scName sizeClass) →
  applyCfg a = Some (ApplyStatus cs) →
  applyCfgFor hc (transition_conditions r sizeClass) = Ret (Some (ApplyStatus cs)) →
  ∃ t, previousTransitionFor (ssa hc (ApplyStatus cs)) = Some (t, scName sizeClass).
Proof.
  intros Hnd (cs' & u & Ha & Hu & Ht & Hg & Hreason) Ha' Hcfg.
  rewrite Ha' in Ha. injection Ha as <-.
  pose proof (applyCfgFor_fresh _ _ _ _ Hcfg Hu Hg) as Hin.
  exists (cLastTransitionTime (stored u)). rewrite <- Hreason. unfold previousTransitionFor.
  apply (condition_true_Some _ _ (stored u)); [|by apply ssa_status|done|].
  - apply ssa_status_types; [done|].
    eapply applyCfgFor_types_NoDup; [apply transition_conditions_NoDup|exact Hnd|exact Hcfg].
  - unfold transition_conditions in Hin. elem_cases; done.
Qed.

(** A size transition settles: once its status is applied the next
reconciliation sets the label to the new size and nothing else, and once the
label is applied too, as long as the same size is computed, reconciling again
does nothing. *)
Theorem transition_settles r config hc a size :
  NoDup (Meta.types_of (hcConditions hc)) →
  reconcile parse_rfc3339 r config hc = Ret (Some a) → records_transition a size →
  ∃ cfg, applyCfg a = Some cfg ∧
    let hc1 := ssa hc cfg in
    let hc2 := ssa hc1 (ApplyLabels {[HostedClusterSizeLabel := size]}) in
    (∀ r1, active parse_rfc3339 r1 config hc1 →
       reconcile parse_rfc3339 r1 config hc1 =
       Ret (Some (mkAction 0 (Some (ApplyLabels {[HostedClusterSizeLabel := size]}))))) ∧
    label_of hc2 = Some size ∧
    (∀ r2 sizeClass, active parse_rfc3339 r2 config hc2 →
       computeSizeClass r2 config hc2 true = Ret (Some (Some sizeClass)) → scName sizeClass = size →
       reconcile parse_rfc3339 r2 config hc2 = Ret None).
Proof.
  intros Hnd Hr Hrec.
  destruct (reconcile_transition _ _ _ _ _ _ Hr Hrec)
    as (_ & _ & Hl & sizeClass & cs & -> & _ & _ & -> & Hcfg).
  destruct (transition_read_back _ _ _ _ _ Hnd Hrec eq_refl Hcfg) as [t Hp1].
  exists (ApplyStatus cs). split; [done|]. cbn zeta. set (hc1 := ssa hc _) in *.
  set (hc2 := ssa hc1 (ApplyLabels {[HostedClusterSizeLabel := scName sizeClass]})).
  assert (Hl1 : label_of hc1 = label_of hc) by (unfold label_of, hc1; by rewrite ssa_status_labels).
  assert (Hp2 : previousTransitionFor hc2 = Some (t, scName sizeClass)).
  { unfold previousTransitionFor in *. unfold hc2. by rewrite ssa_labels_conditions. }
  assert (Hl2 : label_of hc2 = Some (scName sizeClass)).
  { unfold label_of, hc2. rewrite ssa_labels. by simplify_map_eq. }
  split_and!; [|done|].
  - intros r1 Hact. rewrite (reconcile_active _ _ _ _ Hact). rewrite decide_False.
    + unfold label_action, last_size. by rewrite Hp1.
    + intros [Hd Hsome]. rewrite Hl1, Hp1 in Hsome. destruct Hsome as [l Hl']; [done|].
      unfold last_size in Hd. rewrite Hl1, Hl', Hp1 in Hd. simpl in Hd. congruence.
  - intros r2 sc Hact Hc Hn. rewrite (reconcile_active _ _ _ _ Hact). rewrite decide_True.
    2: { unfold in_sync, last_size. by rewrite Hl2, Hp2. }
    rewrite Hl2. rewrite bool_decide_eq_true_2 by eauto. rewrite Hc. simpl.
    rewrite Hn, str_eqb_refl, Hp2. rewrite settled_no_update; [done|]. intros u.
    apply (transition_present hc hc2 r sizeClass cs); [done|]. unfold hc2. apply ssa_labels_conditions.
Qed.

End Settle.

(** *** A concrete reconciliation *)

Definition valid_config : ClusterSizingConfiguration :=
  mkConfig DefaultSizingConfig (10 * minute) 5 (30 * second) (10 * minute)
    [mkCondition ClusterSizingConfigurationValidType ConditionTrue 0 0 AsExpectedReason ""].

Definition example_time : Time := 63000000000 * second.

Definition example_reconciler (node_pools : go sizing_error (list NodePool)) (all : list HostedCluster) : reconciler :=
  mkReconciler example_time (Ret valid_config) (λ _ _, Throw ErrNotFound) (Ret all)
    (λ _, Ret false) (λ _, node_pools) (λ _, Ret None).

Definition new_cluster : HostedCluster :=
  mkHC "clusters" "new" false None ∅ {[HostedClusterScheduledAnnotation := "true"]} [] [].

Definition no_rfc3339 (s : string) : option Time := None.

Definition example_transition : go sizing_error (option action) :=
  reconcile no_rfc3339 (example_reconciler (Ret [mkNP false (Some 12) 0; mkNP true None 3]) [new_cluster])
    valid_config new_cluster.

Definition example_cs : list ConditionApply :=
  [mkApply ClusterSizeComputed ConditionTrue None example_time "medium" transitioned_message;
   mkApply ClusterSizeTransitionPending ConditionFalse None example_time "ClusterSizeTransitioned" transitioned_message;
   mkApply ClusterSizeTransitionRequired ConditionFalse None example_time AsExpectedReason transitioned_message].

Lemma example_transition_eq : example_transition = Ret (Some (mkAction 0 (Some (ApplyStatus example_cs)))).
Proof. vm_compute. reflexivity. Qed.

Lemma size_transition_safe_witness :
  label_of new_cluster ≠ Some "medium" ∧
  ∃ sizeClass, "medium" = scName sizeClass ∧
    may_transition (example_reconciler (Ret [mkNP false (Some 12) 0; mkNP true None 3]) [new_cluster])
      valid_config new_cluster sizeClass.
Proof.
  destruct (size_transition_safe no_rfc3339
    (example_reconciler (Ret [mkNP false (Some 12) 0; mkNP true None 3]) [new_cluster])
    valid_config new_cluster _ "medium" example_transition_eq) as (_ & _ & _ & _ & Hl & sizeClass & Hn & _ & Hm).
  - exists example_cs, (mkApply ClusterSizeComputed ConditionTrue None example_time "medium" transitioned_message).
    split_and!; try reflexivity. left.
  - split; [exact Hl|]. exists sizeClass. split; [exact Hn|exact Hm].
Defined.

Lemma label_follows_status_witness : in_sync new_cluster.
Proof.
  apply (label_follows_status no_rfc3339
    (example_reconciler (Ret [mkNP false (Some 12) 0; mkNP true None 3]) [new_cluster])
    valid_config new_cluster _ example_transition_eq) with example_cs. reflexivity.
Defined.

(** The same cluster with a failing node pool listing, and with a failing
cluster listing. *)
Lemma node_count_errors_are_dropped_witness :
  reconcile no_rfc3339 (example_reconciler (Throw (ErrOther "timeout")) [new_cluster]) valid_config new_cluster
    = Ret None ∧
  ∃ e', listHostedClusters
    (mkReconciler example_time (Ret valid_config) (λ _ _, Throw ErrNotFound) (Throw (ErrOther "timeout"))
       (λ _, Ret false) (λ _, Ret [mkNP false (Some 12) 0]) (λ _, Ret None)) = Throw e'.
Proof.
  split; [reflexivity|].
  apply (node_count_errors_are_dropped no_rfc3339
    (mkReconciler example_time (Ret valid_config) (λ _ _, Throw ErrNotFound) (Throw (ErrOther "timeout"))
       (λ _, Ret false) (λ _, Ret [mkNP false (Some 12) 0]) (λ _, Ret None)) valid_config new_cluster
    (ErrOther "failed to list hosted clusters when calculating concurrency")).
  vm_compute. reflexivity.
Defined.

Lemma reconcile_no_panic_witness :
  reconcile no_rfc3339 (example_reconciler (Ret []) [new_cluster]) valid_config new_cluster ≠ Panic.
Proof.
  apply (reconcile_no_panic no_rfc3339 (example_reconciler (Ret []) [new_cluster]) valid_config new_cluster).
  - intros s. unfold valid_config, DefaultSizingConfig. simpl. intros Hs. elem_cases; done.
  - split; done.
Defined.

(** A server-side apply on records: labels are merged, the stored conditions of
the managed types are replaced by the ones sent. *)
#[export] Instance record_apply : ServerSideApply.
Proof.
  refine {| ssa hc cfg :=
    match cfg with
    | ApplyLabels m =>
        mkHC (hcNamespace hc) (hcName hc) (hcDeleting hc) (hcPausedUntil hc) (m ∪ hcLabels hc)
          (hcAnnotations hc) (hcConditions hc) (hcFinalizers hc)
    | ApplyStatus cs =>
        mkHC (hcNamespace hc) (hcName hc) (hcDeleting hc) (hcPausedUntil hc) (hcLabels hc)
          (hcAnnotations hc)
          (List.filter (λ c, negb (bool_decide (cType c ∈ caType <$> cs))) (hcConditions hc) ++ (stored <$> cs))
          (hcFinalizers hc)
    end |}; intros; try (by destruct cfg); try done; simpl.
  - apply elem_of_app. right. by apply list_elem_of_fmap_2.
  - unfold Meta.types_of in *. rewrite fmap_app, <- list_fmap_compose.
    change (cType ∘ stored) with caType. apply NoDup_app. split_and!; [by apply NoDup_fmap_filter| |done].
    intros t (c & -> & Hc)%list_elem_of_fmap. apply elem_of_filter_bool in Hc as [_ Hc].
    by rewrite negb_true_iff, bool_decide_eq_false in Hc.
Defined.

Lemma transition_settles_witness :
  ∃ cfg, Some (ApplyStatus example_cs) = Some cfg ∧
    label_of (ssa (ssa new_cluster cfg) (ApplyLabels {[HostedClusterSizeLabel := "medium"]})) = Some "medium".
Proof.
  destruct (transition_settles no_rfc3339
    (example_reconciler (Ret [mkNP false (Some 12) 0; mkNP true None 3]) [new_cluster])
    valid_config new_cluster (mkAction 0 (Some (ApplyStatus example_cs))) "medium")
    as (cfg & Hcfg & _ & Hl & _).
  - apply NoDup_nil_2.
  - exact example_transition_eq.
  - exists example_cs, (mkApply ClusterSizeComputed ConditionTrue None example_time "medium" transitioned_message).
    split_and!; try reflexivity. left.
  - exists cfg. split; [exact Hcfg|exact Hl].
Defined.

End ClusterSizingProofs.
