(* ===== verification/Upsert.v ===== *)
(** Create-or-update with defaulting: [support/upsert/upsert.go] and
[support/upsert/loopdetector.go].  Every reconciler of HyperShift writes its
objects through [CreateOrUpdate]; before comparing the desired object with the
one on the server it copies the fields the server defaulted, so that unset
fields are not reverted over and over, and a loop detector counts the updates
that were never followed by a no-op. *)
From S2P Require Import Prelude Api.

(** *** The API client *)

Inductive api_error : Type :=
  | NotFound
  | AlreadyExists
  | Conflict
  | MutateFailed (msg : string)
  | KeyChanged
  | NoMatch
  | OtherError (msg : string)
  | Wrapped (msg : string) (err : api_error).

#[export] Instance api_error_eq_dec : EqDecision api_error.
Proof. solve_decision. Defined.

(** [apierrors.IsNotFound], [meta.IsNoMatchError]; the first looks through
wrapped errors. *)
Fixpoint IsNotFound (e : api_error) : bool :=
  match e with NotFound => true | Wrapped _ e => IsNotFound e | _ => false end.
Definition IsNoMatchError (e : api_error) : bool := bool_decide (e = NoMatch).

(** [crclient.Client] for objects [O] named by [K] in a cluster state [S].
[Create], [Update] and [Status().Update] return the object as the server
stored it, which the client decodes into the caller's object. *)
Class Client (S K O : Type) : Type := {
  c_get : K → S → go api_error O;
  c_create : K → O → S → go api_error O * S;
  c_update : K → O → S → go api_error O * S;
  c_status_update : K → O → S → go api_error O * S;
  c_delete : K → S → go api_error unit * S;
}.

(** What the sources rely on: a read gives what is stored, and a write that
succeeds stores the object as the server admits it ([admit_object], which sees
the object stored before and fills in the server's defaults) and touches no
other object.  A deletion that succeeds removes the object, or, when it has to
end gracefully or a finalizer holds it, leaves it there as [terminating]. *)
Class ClientLaws (S K O : Type) `{Countable K} `{Client S K O} : Type := {
  view : S → gmap K O;
  admit_object : option O → O → O;
  get_stored k s o : c_get k s = Ret o ↔ view s !! k = Some o;
  get_missing k s e : c_get k s = Throw e → IsNotFound e = true → view s !! k = None;
  create_stored k o s o' s' : c_create k o s = (Ret o', s') →
    o' = admit_object None o ∧ view s' = <[k := o']> (view s);
  update_stored k o s o' s' : c_update k o s = (Ret o', s') →
    o' = admit_object (view s !! k) o ∧ view s' = <[k := o']> (view s);
  status_stored k o s o' s' : c_status_update k o s = (Ret o', s') →
    view s' = <[k := o']> (view s);
  terminating : O → O → Prop;
  delete_requested k s s' : c_delete k s = (Ret (), s') →
    view s' = delete k (view s) ∨
    ∃ o o', view s !! k = Some o ∧ terminating o o' ∧ view s' = <[k := o']> (view s);
  delete_missing k s e s' : c_delete k s = (Throw e, s') → IsNotFound e = true →
    view s' = delete k (view s);
}.

(** What a deletion makes of the objects. *)
Definition removed {S K O : Type} `{ClientLaws S K O} (k : K) (m m' : gmap K O) : Prop :=
  m' = delete k m ∨ ∃ o o', m !! k = Some o ∧ terminating o o' ∧ m' = <[k := o']> m.

Module Upsert.

(** *** Defaulting of single fields *)

(** [if mutated.F == nil { mutated.F = original.F }] *)
Definition default_opt {A} (original mutated : option A) : option A :=
  match mutated with None => original | Some _ => mutated end.
(** [if mutated.F == "" { mutated.F = original.F }] *)
Definition default_str (original mutated : string) : string :=
  if str_eqb mutated "" then original else mutated.
(** [if mutated.F == 0 { mutated.F = original.F }] *)
Definition default_int (original mutated : Z) : Z :=
  if (mutated =? 0)%Z then original else mutated.
(** [if original.F != nil && mutated.F != nil { d(original.F, mutated.F) }] *)
Definition default_both {A} (d : A → A → A) (original mutated : option A) : option A :=
  match original, mutated with Some o, Some m => Some (d o m) | _, _ => mutated end.
(** [if mutated.F == nil && original.F != nil { mutated.F = original.F }] followed
by [if mutated.F != nil && original.F != nil { d(original.F, mutated.F) }], where
[d] leaves [original.F] itself alone. *)
Definition default_ptr {A} (d : A → A → A) (original mutated : option A) : option A :=
  match mutated, original with
  | None, _ => original
  | Some m, Some o => Some (d o m)
  | Some m, None => Some m
  end.
(** [for i := range original.F { if i >= len(mutated.F) { break }; d(&original.F[i], &mutated.F[i]) }] *)
Fixpoint default_list {A} (d : A → A → A) (original mutated : list A) : list A :=
  match original, mutated with
  | o :: os, m :: ms => d o m :: default_list d os ms
  | _, _ => mutated
  end.

(** *** Pod specs *)

(** The fields a defaulting function does not look at are kept as one opaque
value, [*Rest]. *)
Record ContainerPort : Type := mkPort { portProtocol : string; portRest : string }.

(** [ValueFrom.FieldRef.APIVersion], each level a pointer. *)
Record EnvVar : Type := mkEnv { envValueFrom : option (option string); envRest : string }.

Record Probe : Type := mkProbe {
  TimeoutSeconds : Z; PeriodSeconds : Z; SuccessThreshold : Z; FailureThreshold : Z;
  HTTPGetScheme : option string;
  probeRest : string;
}.

Record SecurityContext : Type := mkSC { RunAsUser : option Z; scRest : string }.

Record Container : Type := mkContainer {
  ImagePullPolicy : string;
  TerminationMessagePath : string;
  TerminationMessagePolicy : string;
  LivenessProbe : option Probe;
  ReadinessProbe : option Probe;
  cEnv : list EnvVar;
  cPorts : list ContainerPort;
  cSecurityContext : option SecurityContext;
  containerRest : string;
}.

(** [Secret.DefaultMode] and [ConfigMap.DefaultMode] of a volume source. *)
Record Volume : Type := mkVolume {
  vSecretMode : option (option Z);
  vConfigMapMode : option (option Z);
  volumeRest : string;
}.

Record PodSpec : Type := mkPodSpec {
  InitContainers : list Container;
  Containers : list Container;
  DNSPolicy : string;
  ServiceAccountName : string;
  DeprecatedServiceAccount : string;
  RestartPolicy : string;
  SchedulerName : string;
  TerminationGracePeriodSeconds : option Z;
  Volumes : list Volume;
  podSecurityContext : option string;
  podRest : string;
}.

(** [func defaultContainerPort(original, mutated *corev1.ContainerPort)] *)
Definition defaultContainerPort (o m : ContainerPort) : ContainerPort :=
  mkPort (default_str (portProtocol o) (portProtocol m)) (portRest m).

(** [func defaultEnv(original, mutated *corev1.EnvVar)] *)
Definition defaultEnv (o m : EnvVar) : EnvVar :=
  mkEnv (default_both (default_both default_str) (envValueFrom o) (envValueFrom m)) (envRest m).

(** [func defaultProbe(original, mutated *corev1.Probe)] *)
Definition defaultProbe (o m : Probe) : Probe :=
  mkProbe (default_int (TimeoutSeconds o) (TimeoutSeconds m))
    (default_int (PeriodSeconds o) (PeriodSeconds m))
    (default_int (SuccessThreshold o) (SuccessThreshold m))
    (default_int (FailureThreshold o) (FailureThreshold m))
    (default_both default_str (HTTPGetScheme o) (HTTPGetScheme m))
    (probeRest m).

(** The [switch] of [defaultContainer] on the termination message policy. *)
Definition default_policy (o m : string) : string :=
  if negb (str_eqb m "") then m else if negb (str_eqb o "") then o else "FallbackToLogsOnError".

(** [func defaultContainer(original, mutated *corev1.Container)] *)
Definition defaultContainer (o m : Container) : Container :=
  mkContainer
    (default_str (ImagePullPolicy o) (ImagePullPolicy m))
    (default_str (TerminationMessagePath o) (TerminationMessagePath m))
    (default_policy (TerminationMessagePolicy o) (TerminationMessagePolicy m))
    (default_both defaultProbe (LivenessProbe o) (LivenessProbe m))
    (default_both defaultProbe (ReadinessProbe o) (ReadinessProbe m))
    (default_list defaultEnv (cEnv o) (cEnv m))
    (default_list defaultContainerPort (cPorts o) (cPorts m))
    (default_ptr (λ so sm, mkSC (default_opt (RunAsUser so) (RunAsUser sm)) (scRest sm))
       (cSecurityContext o) (cSecurityContext m))
    (containerRest m).

(** [func defaultVolume(original, mutated *corev1.Volume)] *)
Definition defaultVolume (o m : Volume) : Volume :=
  mkVolume (default_both default_opt (vSecretMode o) (vSecretMode m))
    (default_both default_opt (vConfigMapMode o) (vConfigMapMode m)) (volumeRest m).

(** [func defaultPodSpec(original, mutated *corev1.PodSpec)] *)
Definition defaultPodSpec (o m : PodSpec) : PodSpec :=
  mkPodSpec
    (default_list defaultContainer (InitContainers o) (InitContainers m))
    (default_list defaultContainer (Containers o) (Containers m))
    (default_str (DNSPolicy o) (DNSPolicy m))
    (default_str (ServiceAccountName o) (ServiceAccountName m))
    (default_str (DeprecatedServiceAccount o) (DeprecatedServiceAccount m))
    (default_str (RestartPolicy o) (RestartPolicy m))
    (default_str (SchedulerName o) (SchedulerName m))
    (default_opt (TerminationGracePeriodSeconds o) (TerminationGracePeriodSeconds m))
    (default_list defaultVolume (Volumes o) (Volumes m))
    (default_opt (podSecurityContext o) (podSecurityContext m))
    (podRest m).

(** *** Workloads *)

(** [RollingUpdateDeployment]: [MaxSurge] and [MaxUnavailable] *)
Record RollingUpdate : Type := mkRolling { MaxSurge : option string; MaxUnavailable : option string }.

Record DeploymentSpec : Type := mkDeployment {
  ProgressDeadlineSeconds : option Z;
  dReplicas : option Z;
  dStrategyType : string;
  dRollingUpdate : option RollingUpdate;
  dRevisionHistoryLimit : option Z;
  dTemplate : PodSpec;
  dRest : string;
}.

(** [func defaultDeploymentSpec(original, mutated *appsv1.DeploymentSpec)] *)
Definition defaultDeploymentSpec (o m : DeploymentSpec) : DeploymentSpec :=
  mkDeployment
    (default_opt (ProgressDeadlineSeconds o) (ProgressDeadlineSeconds m))
    (default_opt (dReplicas o) (dReplicas m))
    (default_str (dStrategyType o) (dStrategyType m))
    (default_ptr (λ ro rm, mkRolling (default_opt (MaxSurge ro) (MaxSurge rm))
                             (default_opt (MaxUnavailable ro) (MaxUnavailable rm)))
       (dRollingUpdate o) (dRollingUpdate m))
    (default_opt (dRevisionHistoryLimit o) (dRevisionHistoryLimit m))
    (defaultPodSpec (dTemplate o) (dTemplate m))
    (dRest m).

Record DaemonSetSpec : Type := mkDaemonSet {
  dsRevisionHistoryLimit : option Z;
  dsStrategyType : string;
  dsRollingUpdate : option string;
  dsTemplate : PodSpec;
  dsRest : string;
}.

(** [func defaultDaemonSetSpec(original, mutated *appsv1.DaemonSetSpec)] *)
Definition defaultDaemonSetSpec (o m : DaemonSetSpec) : DaemonSetSpec :=
  mkDaemonSet
    (default_opt (dsRevisionHistoryLimit o) (dsRevisionHistoryLimit m))
    (default_str (dsStrategyType o) (dsStrategyType m))
    (default_opt (dsRollingUpdate o) (dsRollingUpdate m))
    (defaultPodSpec (dsTemplate o) (dsTemplate m))
    (dsRest m).

(** A volume claim template: [Spec.VolumeMode], [Spec.StorageClassName] and the
whole [Status]. *)
Record VolumeClaim : Type := mkClaim {
  VolumeMode : option string;
  StorageClassName : option string;
  claimStatus : string;
  claimRest : string;
}.

(** [func defaultVolumeClaim(original, mutated *corev1.PersistentVolumeClaimSpec)] *)
Definition defaultVolumeClaim (o m : VolumeClaim) : VolumeClaim :=
  mkClaim (default_opt (VolumeMode o) (VolumeMode m))
    (default_opt (StorageClassName o) (StorageClassName m)) (claimStatus m) (claimRest m).

Definition set_claimStatus (status : string) (c : VolumeClaim) : VolumeClaim :=
  mkClaim (VolumeMode c) (StorageClassName c) status (claimRest c).

Record StatefulSetSpec : Type := mkStatefulSet {
  ssReplicas : option Z;
  PodManagementPolicy : string;
  ssRollingUpdate : option (option Z);
  ssRevisionHistoryLimit : option Z;
  ssTemplate : PodSpec;
  VolumeClaimTemplates : list VolumeClaim;
  ssRest : string;
}.

(** [func defaultStatefulSetSpec(original, mutated *appsv1.StatefulSetSpec)] *)
Definition defaultStatefulSetSpec (o m : StatefulSetSpec) : StatefulSetSpec :=
  mkStatefulSet
    (default_opt (ssReplicas o) (ssReplicas m))
    (default_str (PodManagementPolicy o) (PodManagementPolicy m))
    (default_ptr default_opt (ssRollingUpdate o) (ssRollingUpdate m))
    (default_opt (ssRevisionHistoryLimit o) (ssRevisionHistoryLimit m))
    (defaultPodSpec (ssTemplate o) (ssTemplate m))
    (default_list (λ co cm, set_claimStatus (claimStatus co) (defaultVolumeClaim co cm))
       (VolumeClaimTemplates o) (VolumeClaimTemplates m))
    (ssRest m).

Record CronJobSpec : Type := mkCronJob {
  ConcurrencyPolicy : string;
  FailedJobsHistoryLimit : option Z;
  ActiveDeadlineSeconds : option Z;
  BackoffLimit : option Z;
  StartingDeadlineSeconds : option Z;
  SuccessfulJobsHistoryLimit : option Z;
  Suspend : option bool;
  cjTemplate : PodSpec;
  cjRest : string;
}.

(** [func defaultCronJobSpec(original, mutated *batchv1.CronJobSpec)] *)
Definition defaultCronJobSpec (o m : CronJobSpec) : CronJobSpec :=
  mkCronJob
    (default_str (ConcurrencyPolicy o) (ConcurrencyPolicy m))
    (default_opt (FailedJobsHistoryLimit o) (FailedJobsHistoryLimit m))
    (default_opt (ActiveDeadlineSeconds o) (ActiveDeadlineSeconds m))
    (default_opt (BackoffLimit o) (BackoffLimit m))
    (default_opt (StartingDeadlineSeconds o) (StartingDeadlineSeconds m))
    (default_opt (SuccessfulJobsHistoryLimit o) (SuccessfulJobsHistoryLimit m))
    (default_opt (Suspend o) (Suspend m))
    (defaultPodSpec (cjTemplate o) (cjTemplate m))
    (cjRest m).

(** *** Services and routes *)

(** [intstr.IntOrString] *)
Inductive IntOrString : Type := FromInt (i : Z) | FromString (s : string).
Definition IntOrString_String (v : IntOrString) : string :=
  match v with FromInt i => itoa i | FromString s => s end.

Record ServicePort : Type := mkServicePort {
  spPort : Z; spProtocol : string; spTargetPort : IntOrString; spRest : string }.

Record ServiceSpec : Type := mkService {
  ClusterIP : string;
  ClusterIPs : option (list string);
  IPFamilies : option (list string);
  IPFamilyPolicy : option string;
  sPorts : list ServicePort;
  SessionAffinity : string;
  sType : string;
  sRest : string;
}.

(** The loop body of [defaultServiceSpec] over the ports. *)
Definition defaultServicePort (o m : ServicePort) : ServicePort :=
  mkServicePort (spPort m) (default_str (spProtocol o) (spProtocol m))
    (if str_eqb (IntOrString_String (spTargetPort m)) "0" then FromInt (spPort m) else spTargetPort m)
    (spRest m).

(** [func defaultServiceSpec(original, mutated *corev1.ServiceSpec)] *)
Definition defaultServiceSpec (o m : ServiceSpec) : ServiceSpec :=
  mkService
    (default_str (ClusterIP o) (ClusterIP m))
    (default_opt (ClusterIPs o) (ClusterIPs m))
    (default_opt (IPFamilies o) (IPFamilies m))
    (default_opt (IPFamilyPolicy o) (IPFamilyPolicy m))
    (default_list defaultServicePort (sPorts o) (sPorts m))
    (default_str (SessionAffinity o) (SessionAffinity m))
    (default_str (sType o) (sType m))
    (sRest m).

Record RouteSpec : Type := mkRoute { toWeight : option Z; WildcardPolicy : string; rRest : string }.

(** [func defaultRouteSpec(original, mutated *routev1.RouteSpec)] *)
Definition defaultRouteSpec (o m : RouteSpec) : RouteSpec :=
  mkRoute (default_opt (toWeight o) (toWeight m))
    (default_str (WildcardPolicy o) (WildcardPolicy m)) (rRest m).

(** *** Custom resource definitions and webhooks *)

Record CRDSpec : Type := mkCRD { Conversion : option string; crdRest : string }.

(** [func defaultCRDSpec(original, mutated *apiextensionsv1.CustomResourceDefinitionSpec)] *)
Definition defaultCRDSpec (o m : CRDSpec) : CRDSpec :=
  match Conversion m with None => mkCRD (Some "None") (crdRest m) | Some _ => m end.

Record WebhookRule : Type := mkRule { ruleScope : option string; ruleRest : string }.

Record MutatingWebhook : Type := mkWebhook {
  whRules : list WebhookRule;
  FailurePolicy : option string;
  MatchPolicy : option string;
  NamespaceSelector : option string;
  ObjectSelector : option string;
  whTimeoutSeconds : option Z;
  ReinvocationPolicy : option string;
  whRest : string;
}.

Definition defaultWebhookRule (o m : WebhookRule) : WebhookRule :=
  mkRule (default_opt (ruleScope o) (ruleScope m)) (ruleRest m).

(** One iteration of the loop over the webhooks. *)
Definition defaultWebhook (o m : MutatingWebhook) : MutatingWebhook :=
  if (length (whRules m) =? length (whRules o))%nat then
    mkWebhook
      (default_list defaultWebhookRule (whRules o) (whRules m))
      (default_opt (FailurePolicy o) (FailurePolicy m))
      (default_opt (MatchPolicy o) (MatchPolicy m))
      (default_opt (NamespaceSelector o) (NamespaceSelector m))
      (default_opt (ObjectSelector o) (ObjectSelector m))
      (default_opt (whTimeoutSeconds o) (whTimeoutSeconds m))
      (default_opt (ReinvocationPolicy o) (ReinvocationPolicy m))
      (whRest m)
  else m.

(** [func defaultMutatingWebhookConfiguration(original, mutated *[]admissionregistrationv1.MutatingWebhook)] *)
Definition defaultMutatingWebhookConfiguration (o m : list MutatingWebhook) : list MutatingWebhook :=
  if (length o =? length m)%nat then default_list defaultWebhook o m else m.

(** *** Service accounts *)

Record ServiceAccountSpec : Type := mkServiceAccount {
  ImagePullSecrets : list string; saSecrets : list string; saRest : string }.

(** [func preserveServiceAccountPullSecrets(original, mutated *corev1.ServiceAccount)]:
the set of the mutated pull secrets is built once, before the loop. *)
Definition preserveServiceAccountPullSecrets (o m : ServiceAccountSpec) : ServiceAccountSpec :=
  mkServiceAccount
    (ImagePullSecrets m ++
     List.filter (λ p, negb (bool_decide (p ∈ ImagePullSecrets m))) (ImagePullSecrets o))
    (saSecrets o) (saRest m).

(** *** Unstructured data *)

(** [map[string]any] and its leaves. *)
#[warnings="-register-all"]
Inductive json : Type :=
  | JLeaf (s : string)
  | JList (l : list json)
  | JMap (fields : list (string * json)).

Fixpoint json_eqb (u v : json) : bool :=
  match u, v with
  | JLeaf s, JLeaf t => str_eqb s t
  | JList l, JList k =>
      (fix go l k := match l, k with
                     | [], [] => true
                     | x :: l, y :: k => json_eqb x y && go l k
                     | _, _ => false end) l k
  | JMap l, JMap k =>
      (fix go l k := match l, k with
                     | [], [] => true
                     | (a, x) :: l, (b, y) :: k => str_eqb a b && json_eqb x y && go l k
                     | _, _ => false end) l k
  | _, _ => false
  end.

Lemma json_eqb_eq : ∀ u v, json_eqb u v = true → u = v.
Proof.
  fix IH 1. intros [s|l|l] [t|k|k]; simpl; try done.
  - intros ?%str_eqb_eq. by subst.
  - intros Hl. f_equal. revert k Hl. induction l as [|x l IHl]; intros [|y k]; try done.
    intros [Hx Hl]%andb_prop. f_equal; auto.
  - intros Hl. f_equal. revert k Hl. induction l as [|[a x] l IHl]; intros [|[b y] k]; try done.
    intros [[Ha%str_eqb_eq Hx]%andb_prop Hl]%andb_prop. subst. f_equal; [|auto].
    f_equal. auto.
Qed.

Lemma json_eqb_refl : ∀ u, json_eqb u u = true.
Proof.
  fix IH 1. intros [s|l|l]; simpl.
  - apply str_eqb_refl.
  - induction l as [|x l IHl]; [done|]. by rewrite IH, IHl.
  - induction l as [|[k x] l IHl]; [done|]. by rewrite str_eqb_refl, IH, IHl.
Qed.

#[export] Instance json_eq_dec : EqDecision json.
Proof.
  intros u v. destruct (json_eqb u v) eqn:E; [left; by apply json_eqb_eq|].
  right. intros ->. by rewrite json_eqb_refl in E.
Defined.

(** [metav1.LabelSelector] *)
Record LabelSelector : Type := mkSelector {
  MatchLabels : StringMap;
  MatchExpressions : list (string * string * list string);
}.

(** *** Objects *)

(** The API objects the package tells apart; any other object is its Go type
and its contents. *)
Inductive ObjectBody : Type :=
  | Deployment (selector : option string) (spec : DeploymentSpec)
  | DaemonSet (spec : DaemonSetSpec)
  | StatefulSet (spec : StatefulSetSpec)
  | CronJob (spec : CronJobSpec)
  | Service (spec : ServiceSpec)
  | ServiceAccount (spec : ServiceAccountSpec)
  | Route (spec : RouteSpec)
  | CustomResourceDefinition (spec : CRDSpec)
  | MutatingWebhookConfiguration (webhooks : list MutatingWebhook)
  | Job (spec : string)
  | MachineSet (selector : LabelSelector) (contents : json)
  | Secret (immutable : option bool) (data : option StringMap) (contents : json)
  | OtherObject (goType : string) (contents : json).

Record Object : Type := mkObject {
  oNamespace : string;
  oName : string;
  oUID : string;
  oLabels : option StringMap;
  oAnnotations : option StringMap;
  oFinalizers : list string;
  oResourceVersion : string;
  oDeletionTimestamp : option Time;
  oBody : ObjectBody;
  oStatus : list (string * string);
}.

#[export] Instance ContainerPort_eq_dec : EqDecision ContainerPort. Proof. solve_decision. Defined.
#[export] Instance EnvVar_eq_dec : EqDecision EnvVar. Proof. solve_decision. Defined.
#[export] Instance Probe_eq_dec : EqDecision Probe. Proof. solve_decision. Defined.
#[export] Instance SecurityContext_eq_dec : EqDecision SecurityContext. Proof. solve_decision. Defined.
#[export] Instance Container_eq_dec : EqDecision Container. Proof. solve_decision. Defined.
#[export] Instance Volume_eq_dec : EqDecision Volume. Proof. solve_decision. Defined.
#[export] Instance PodSpec_eq_dec : EqDecision PodSpec. Proof. solve_decision. Defined.
#[export] Instance RollingUpdate_eq_dec : EqDecision RollingUpdate. Proof. solve_decision. Defined.
#[export] Instance DeploymentSpec_eq_dec : EqDecision DeploymentSpec. Proof. solve_decision. Defined.
#[export] Instance DaemonSetSpec_eq_dec : EqDecision DaemonSetSpec. Proof. solve_decision. Defined.
#[export] Instance VolumeClaim_eq_dec : EqDecision VolumeClaim. Proof. solve_decision. Defined.
#[export] Instance StatefulSetSpec_eq_dec : EqDecision StatefulSetSpec. Proof. solve_decision. Defined.
#[export] Instance CronJobSpec_eq_dec : EqDecision CronJobSpec. Proof. solve_decision. Defined.
#[export] Instance IntOrString_eq_dec : EqDecision IntOrString. Proof. solve_decision. Defined.
#[export] Instance ServicePort_eq_dec : EqDecision ServicePort. Proof. solve_decision. Defined.
#[export] Instance ServiceSpec_eq_dec : EqDecision ServiceSpec. Proof. solve_decision. Defined.
#[export] Instance ServiceAccountSpec_eq_dec : EqDecision ServiceAccountSpec. Proof. solve_decision. Defined.
#[export] Instance RouteSpec_eq_dec : EqDecision RouteSpec. Proof. solve_decision. Defined.
#[export] Instance CRDSpec_eq_dec : EqDecision CRDSpec. Proof. solve_decision. Defined.
#[export] Instance WebhookRule_eq_dec : EqDecision WebhookRule. Proof. solve_decision. Defined.
#[export] Instance MutatingWebhook_eq_dec : EqDecision MutatingWebhook. Proof. solve_decision. Defined.
#[export] Instance LabelSelector_eq_dec : EqDecision LabelSelector. Proof. solve_decision. Defined.
#[export] Instance ObjectBody_eq_dec : EqDecision ObjectBody. Proof. solve_decision. Defined.
#[export] Instance Object_eq_dec : EqDecision Object. Proof. solve_decision. Defined.

Definition set_body (b : ObjectBody) (o : Object) : Object :=
  mkObject (oNamespace o) (oName o) (oUID o) (oLabels o) (oAnnotations o) (oFinalizers o)
    (oResourceVersion o) (oDeletionTimestamp o) b (oStatus o).

(** [fmt.Sprintf("%T", obj)] *)
Definition goTypeName (o : Object) : string :=
  match oBody o with
  | Deployment _ _ => "*v1.Deployment"
  | DaemonSet _ => "*v1.DaemonSet"
  | StatefulSet _ => "*v1.StatefulSet"
  | CronJob _ => "*v1.CronJob"
  | Service _ => "*v1.Service"
  | ServiceAccount _ => "*v1.ServiceAccount"
  | Route _ => "*v1.Route"
  | CustomResourceDefinition _ => "*v1.CustomResourceDefinition"
  | MutatingWebhookConfiguration _ => "*v1.MutatingWebhookConfiguration"
  | Job _ => "*v1.Job"
  | MachineSet _ _ => "*v1beta1.MachineSet"
  | Secret _ _ _ => "*v1.Secret"
  | OtherObject t _ => t
  end.

(** [crclient.ObjectKeyFromObject(obj)] *)
Definition ObjectKeyFromObject (o : Object) : string * string := (oNamespace o, oName o).

(** An object on the server: its type and its key. *)
Definition ObjectRef : Type := string * (string * string).
Definition ref_of (o : Object) : ObjectRef := (goTypeName o, ObjectKeyFromObject o).

(** [var withStatusSubresource] *)
Definition withStatusSubresource : list string :=
  ["*v1beta2.AWSCluster"; "*v1.ClusterOperator"; "*v1alpha1.KubevirtCluster";
   "*v1beta1.Cluster"; "*v1beta1.AzureCluster"; "*v1beta1.GCPCluster";
   "*v1beta2.IBMPowerVSCluster"].

(** [func hasStatusSubResource(o crclient.Object) bool] *)
Definition hasStatusSubResource (o : Object) : bool :=
  bool_decide (goTypeName o ∈ withStatusSubresource).

(** The [switch existingTyped := existing.(type)] of
[createOrUpdateProvider.update]; the assertion [obj.( *T)] panics when the
mutated object has another type. *)
Definition defaultObject (existing obj : Object) : go api_error Object :=
  match oBody existing, oBody obj with
  | Deployment _ o, Deployment sel m => Ret (set_body (Deployment sel (defaultDeploymentSpec o m)) obj)
  | DaemonSet o, DaemonSet m => Ret (set_body (DaemonSet (defaultDaemonSetSpec o m)) obj)
  | StatefulSet o, StatefulSet m => Ret (set_body (StatefulSet (defaultStatefulSetSpec o m)) obj)
  | CronJob o, CronJob m => Ret (set_body (CronJob (defaultCronJobSpec o m)) obj)
  | Service o, Service m => Ret (set_body (Service (defaultServiceSpec o m)) obj)
  | ServiceAccount o, ServiceAccount m =>
      Ret (set_body (ServiceAccount (preserveServiceAccountPullSecrets o m)) obj)
  | Route o, Route m => Ret (set_body (Route (defaultRouteSpec o m)) obj)
  | CustomResourceDefinition o, CustomResourceDefinition m =>
      Ret (set_body (CustomResourceDefinition (defaultCRDSpec o m)) obj)
  | MutatingWebhookConfiguration o, MutatingWebhookConfiguration m =>
      Ret (set_body (MutatingWebhookConfiguration (defaultMutatingWebhookConfiguration o m)) obj)
  | (Job _ | MachineSet _ _ | Secret _ _ _ | OtherObject _ _), _ => Ret obj
  | _, _ => Panic
  end.

(** *** The update loop detector *)

Record updateLoopDetector : Type := mkDetector {
  hasNoOpUpdate : gset string;
  updateEventCount : gmap string Z;
}.

(** [func newUpdateLoopDetector() *updateLoopDetector] *)
Definition newUpdateLoopDetector : updateLoopDetector := mkDetector ∅ ∅.

(** [func updateLoopThreshold(o runtime.Object) int] *)
Definition updateLoopThreshold : Z := 10.

(** [func ( *updateLoopDetector) keyFor]; [NamespacedName.String] joins with a slash. *)
Definition keyFor (obj : Object) (key : string * string) : string :=
  goTypeName obj +:+ " " +:+ key.1 +:+ "/" +:+ key.2.

(** [func (uld *updateLoopDetector) recordNoOpUpdate] *)
Definition recordNoOpUpdate (uld : updateLoopDetector) (obj : Object) (key : string * string)
    : updateLoopDetector :=
  mkDetector ({[keyFor obj key]} ∪ hasNoOpUpdate uld) (updateEventCount uld).

(** [func (uld *updateLoopDetector) recordActualUpdate]: the new detector and
the warning, if one is logged. *)
Definition recordActualUpdate (uld : updateLoopDetector) (original : Object)
    (key : string * string) : updateLoopDetector * option (string * Z) :=
  if str_eqb (goTypeName original) "*v1beta1.AWSEndpointService" then (uld, None) else
  let cacheKey := keyFor original key in
  if bool_decide (cacheKey ∈ hasNoOpUpdate uld) then (uld, None) else
  let count := (default 0 (updateEventCount uld !! cacheKey) + 1)%Z in
  let uld' := mkDetector (hasNoOpUpdate uld) (<[cacheKey := count]> (updateEventCount uld)) in
  if (count <? updateLoopThreshold)%Z then (uld', None) else (uld', Some (cacheKey, count)).

(** *** [CreateOrUpdate] *)

(** [controllerutil.OperationResult] *)
Inductive OperationResult : Type :=
  OperationResultNone | OperationResultCreated | OperationResultUpdated.

(** The cluster, the provider's detector (nil when the provider was made
without one) and the warnings logged so far. *)
Record world (S : Type) : Type := mkWorld {
  w_cluster : S;
  w_detector : option updateLoopDetector;
  w_warnings : list (string * Z);
}.
Arguments mkWorld {S} _ _ _.
Arguments w_cluster {S} _.
Arguments w_detector {S} _.
Arguments w_warnings {S} _.

(** [func New(enableUpdateLoopDetector bool) CreateOrUpdateProvider] *)
Definition New {S} (enableUpdateLoopDetector : bool) (s : S) : world S :=
  mkWorld s (if enableUpdateLoopDetector then Some newUpdateLoopDetector else None) [].

(** [equality.Semantic.DeepEqual] of apimachinery. *)
Class SemanticEqual : Type := {
  DeepEqual : Object → Object → bool;
  DeepEqual_refl o : DeepEqual o o = true;
}.

Section Provider.
Context {S : Type} `{!Client S ObjectRef Object} `{!SemanticEqual}.

(** Runs a client call in the world. *)
Definition run {A} (c : S → go api_error A * S) : st (world S) api_error A := λ w,
  let '(r, s) := c (w_cluster w) in (r, mkWorld s (w_detector w) (w_warnings w)).

(** [if p.loopDetector != nil { p.loopDetector.recordNoOpUpdate(obj, key) }] *)
Definition noteNoOp (obj : Object) (key : string * string) : st (world S) api_error unit := λ w,
  (Ret (), mkWorld (w_cluster w)
     (match w_detector w with Some d => Some (recordNoOpUpdate d obj key) | None => None end)
     (w_warnings w)).

(** [if p.loopDetector != nil { p.loopDetector.recordActualUpdate(existing, obj, key) }] *)
Definition noteUpdate (existing : Object) (key : string * string) : st (world S) api_error unit := λ w,
  match w_detector w with
  | None => (Ret (), w)
  | Some d =>
      let '(d', warning) := recordActualUpdate d existing key in
      (Ret (), mkWorld (w_cluster w) (Some d') (w_warnings w ++ option_list warning))
  end.

(** [func mutate(f controllerutil.MutateFn, key crclient.ObjectKey, obj crclient.Object) error] *)
Definition mutate (f : Object → go api_error Object) (key : string * string) (obj : Object)
    : go api_error Object :=
  obj' ← f obj;
  if bool_decide (key = ObjectKeyFromObject obj') then Ret obj' else Throw KeyChanged.

(** [func (p *createOrUpdateProvider) update] *)
Definition update (obj existing : Object) : st (world S) api_error (OperationResult * Object) :=
  let key := ObjectKeyFromObject obj in
  obj ← st_lift (defaultObject existing obj);
  if DeepEqual existing obj then
    _ ← noteNoOp obj key;
    mret (OperationResultNone, obj)
  else
    _ ← noteUpdate existing key;
    obj' ← run (c_update (ref_of obj) obj);
    mret (OperationResultUpdated, obj').

(** The trailing status update of both branches of [CreateOrUpdate]. *)
Definition updateStatus (f : Object → go api_error Object) (key : string * string)
    (result : OperationResult) (obj : Object) : st (world S) api_error (OperationResult * Object) :=
  if hasStatusSubResource obj then
    obj ← st_lift (mutate f key obj);
    obj ← run (c_status_update (ref_of obj) obj);
    mret (result, obj)
  else mret (result, obj).

(** [func (p *createOrUpdateProvider) CreateOrUpdate]: the result and the
caller's object after the call. *)
Definition CreateOrUpdate (obj : Object) (f : Object → go api_error Object)
    : st (world S) api_error (OperationResult * Object) := λ w,
  let key := ObjectKeyFromObject obj in
  match c_get (ref_of obj) (w_cluster w) with
  | Panic => (Panic, w)
  | Throw err =>
      if negb (IsNotFound err) then (Throw err, w) else
      (obj ← st_lift (mutate f key obj);
       obj ← run (c_create (ref_of obj) obj);
       updateStatus f key OperationResultCreated obj) w
  | Ret existing =>
      (obj ← st_lift (mutate f key existing);
       r ← update obj existing;
       let '(result, obj) := r in
       match result with
       | OperationResultNone => mret (result, obj)
       | _ => updateStatus f key OperationResultUpdated obj
       end) w
  end.

End Provider.

End Upsert.
