(* ===== verification/UpsertProofs.v ===== *)
(** The laws of the defaulting functions of [support/upsert/upsert.go] and of
[CreateOrUpdate]: a value the caller sets is never lost, a field the caller
leaves unset keeps what the server put there, and a caller that keeps asking
for the same object causes no further update. *)
From S2P Require Import Prelude Api Upsert.

Module UpsertProofs.
Import Upsert.

(** *** Lawful defaulting *)

(** [fills m r]: [r] is [m] with some of its unset fields filled in. [served r]:
the fields the server always sets are set. *)
Class Defaulting {A} (d : A → A → A) (fills : A → A → Prop) (served : A → Prop) : Prop := {
  fills_refl m : fills m m;
  fills_trans m r s : fills m r → fills r s → fills m s;
  fills_default o m : fills m (d o m);
  default_fills o m : fills m o → served o → d o m = o;
}.

Definition always {A} (_ : A) : Prop := True.
Definition keep {A} (_ m : A) : A := m.

Definition fills_opt {A} (m r : option A) : Prop := m = None ∨ m = r.
Definition fills_str (m r : string) : Prop := m = "" ∨ m = r.
Definition fills_int (m r : Z) : Prop := m = 0%Z ∨ m = r.
(** A pointer that is filled in when nil, and whose target is defaulted otherwise. *)
Definition fills_ptr {A} (fills : A → A → Prop) (m r : option A) : Prop :=
  match m, r with
  | None, _ => True
  | Some m, Some r => fills m r
  | Some _, None => False
  end.
Definition served_ptr {A} (served : A → Prop) (r : option A) : Prop :=
  match r with Some r => served r | None => True end.
#[export] Instance opt_Defaulting {A} : Defaulting (@default_opt A) fills_opt always.
Proof.
  split; unfold fills_opt.
  - naive_solver.
  - naive_solver.
  - intros o [m|]; simpl; naive_solver.
  - intros o m [-> | ->] _; [done|by destruct o].
Qed.
#[export] Instance str_Defaulting : Defaulting default_str fills_str always.
Proof.
  split; unfold fills_str, default_str, str_eqb.
  - naive_solver.
  - naive_solver.
  - intros o m. case_bool_decide; naive_solver.
  - intros o m [-> | ->] _; case_bool_decide; naive_solver.
Qed.
#[export] Instance int_Defaulting : Defaulting default_int fills_int always.
Proof.
  split; unfold fills_int, default_int.
  - naive_solver.
  - naive_solver.
  - intros o m. destruct (Z.eqb_spec m 0); naive_solver.
  - intros o m [-> | ->] _; [done|]. destruct (Z.eqb_spec o 0); naive_solver.
Qed.
#[export] Instance keep_Defaulting {A} : Defaulting (@keep A) (=) always.
Proof. split; unfold keep; intros; by simplify_eq. Qed.

#[export] Instance ptr_Defaulting {A} (d : A → A → A) fills served :
  Defaulting d fills served → Defaulting (default_ptr d) (fills_ptr fills) (served_ptr served).
Proof.
  intros H. split.
  - intros [m|]; simpl; [apply fills_refl|done].
  - intros [m|] [r|] [s|]; simpl; try done. apply fills_trans.
  - intros [o|] [m|]; simpl; try done; [apply fills_default|apply fills_refl].
  - intros [o|] [m|] Hf Hs; simpl in *; try done. f_equal. by apply default_fills.
Qed.

#[export] Instance both_Defaulting {A} (d : A → A → A) fills served :
  Defaulting d fills served →
  Defaulting (default_both d) (option_Forall2 fills) (served_ptr served).
Proof.
  intros H. split.
  - intros [m|]; constructor. apply fills_refl.
  - intros m r s [] Hs; inversion Hs; subst; constructor. by eapply fills_trans.
  - intros [o|] [m|]; constructor; [apply fills_default|apply fills_refl].
  - intros o m [m' o' Hf|] Hs; simpl in *; [|done]. f_equal. by apply default_fills.
Qed.

#[export] Instance list_Defaulting {A} (d : A → A → A) fills served :
  Defaulting d fills served →
  Defaulting (default_list d) (Forall2 fills) (Forall served).
Proof.
  intros H.
  assert (Hrefl : ∀ m, Forall2 fills m m).
  { induction m; constructor; [apply fills_refl|done]. }
  split; [done| | |].
  - intros m r s Hmr. revert s. induction Hmr; intros s Hrs; inversion Hrs; subst; constructor;
      [by eapply fills_trans|auto].
  - induction o as [|x o IH]; intros [|m ms]; simpl; auto. constructor; [apply fills_default|auto].
  - intros o m Hf. induction Hf as [|m r ms rs Hm Hf IH]; simpl; [done|].
    intros [Hs Hss]%Forall_cons. f_equal; [by apply default_fills|auto].
Qed.

(** Nothing is asked of what the server stores. *)
Lemma served_ptr_always {A} (served : A → Prop) (o : option A) :
  (∀ x, served x) → served_ptr served o.
Proof. by destruct o; simpl. Qed.
Lemma served_list_always {A} (served : A → Prop) (l : list A) :
  (∀ x, served x) → Forall served l.
Proof. intros H. by apply Forall_true. Qed.
Lemma always_intro {A} (x : A) : always x.
Proof. done. Qed.

Create HintDb served.
#[export] Hint Resolve served_ptr_always served_list_always always_intro : served.

Ltac fields := repeat match goal with |- _ ∧ _ => split end.

(** A record whose fields are defaulted one by one: each law follows from the
laws of the fields. *)
Ltac defaulting_record :=
  split; simpl;
  [ intros []; fields; simpl; first [apply fills_refl | done]
  | intros [] [] [] ??; simpl in *; destruct_and!; fields;
    first [congruence | by eapply fills_trans]
  | intros [] []; fields; simpl; first [apply fills_default | done]
  | intros [] [] ??; simpl in *; destruct_and!; subst;
    f_equal; first [done | apply default_fills; eauto with served] ].

(** *** Pod specs *)

Definition fills_ContainerPort (m r : ContainerPort) : Prop :=
  fills_str (portProtocol m) (portProtocol r) ∧ portRest m = portRest r.
#[export] Instance ContainerPort_Defaulting :
  Defaulting defaultContainerPort fills_ContainerPort always.
Proof. unfold fills_ContainerPort, defaultContainerPort. defaulting_record. Qed.

Definition fills_EnvVar (m r : EnvVar) : Prop :=
  option_Forall2 (option_Forall2 fills_str) (envValueFrom m) (envValueFrom r) ∧
  envRest m = envRest r.

#[export] Instance EnvVar_Defaulting : Defaulting defaultEnv fills_EnvVar always.
Proof. unfold fills_EnvVar, defaultEnv. defaulting_record. Qed.

Definition fills_Probe (m r : Probe) : Prop :=
  fills_int (TimeoutSeconds m) (TimeoutSeconds r) ∧
  fills_int (PeriodSeconds m) (PeriodSeconds r) ∧
  fills_int (SuccessThreshold m) (SuccessThreshold r) ∧
  fills_int (FailureThreshold m) (FailureThreshold r) ∧
  option_Forall2 fills_str (HTTPGetScheme m) (HTTPGetScheme r) ∧
  probeRest m = probeRest r.
#[export] Instance Probe_Defaulting : Defaulting defaultProbe fills_Probe always.
Proof. unfold fills_Probe, defaultProbe. defaulting_record. Qed.

Definition fills_SC (m r : SecurityContext) : Prop :=
  fills_opt (RunAsUser m) (RunAsUser r) ∧ scRest m = scRest r.
#[export] Instance SC_Defaulting : Defaulting
  (λ so sm, mkSC (default_opt (RunAsUser so) (RunAsUser sm)) (scRest sm)) fills_SC always.
Proof. unfold fills_SC. defaulting_record. Qed.

(** The termination message policy has a default of its own. *)
#[export] Instance policy_Defaulting : Defaulting default_policy fills_str (λ r, r ≠ "").
Proof.
  split; unfold fills_str, default_policy, str_eqb.
  - naive_solver.
  - naive_solver.
  - intros o m. repeat case_bool_decide; naive_solver.
  - intros o m [-> | ->] ?; repeat case_bool_decide; naive_solver.
Qed.

Definition fills_Container (m r : Container) : Prop :=
  fills_str (ImagePullPolicy m) (ImagePullPolicy r) ∧
  fills_str (TerminationMessagePath m) (TerminationMessagePath r) ∧
  fills_str (TerminationMessagePolicy m) (TerminationMessagePolicy r) ∧
  option_Forall2 fills_Probe (LivenessProbe m) (LivenessProbe r) ∧
  option_Forall2 fills_Probe (ReadinessProbe m) (ReadinessProbe r) ∧
  Forall2 fills_EnvVar (cEnv m) (cEnv r) ∧
  Forall2 fills_ContainerPort (cPorts m) (cPorts r) ∧
  fills_ptr fills_SC (cSecurityContext m) (cSecurityContext r) ∧
  containerRest m = containerRest r.
Definition served_Container (r : Container) : Prop := TerminationMessagePolicy r ≠ "".
#[export] Instance Container_Defaulting :
  Defaulting defaultContainer fills_Container served_Container.
Proof.
  unfold fills_Container, served_Container, defaultContainer. defaulting_record.
Qed.

Definition fills_Volume (m r : Volume) : Prop :=
  option_Forall2 fills_opt (vSecretMode m) (vSecretMode r) ∧
  option_Forall2 fills_opt (vConfigMapMode m) (vConfigMapMode r) ∧
  volumeRest m = volumeRest r.
#[export] Instance Volume_Defaulting : Defaulting defaultVolume fills_Volume always.
Proof. unfold fills_Volume, defaultVolume. defaulting_record. Qed.

Definition fills_PodSpec (m r : PodSpec) : Prop :=
  Forall2 fills_Container (InitContainers m) (InitContainers r) ∧
  Forall2 fills_Container (Containers m) (Containers r) ∧
  fills_str (DNSPolicy m) (DNSPolicy r) ∧
  fills_str (ServiceAccountName m) (ServiceAccountName r) ∧
  fills_str (DeprecatedServiceAccount m) (DeprecatedServiceAccount r) ∧
  fills_str (RestartPolicy m) (RestartPolicy r) ∧
  fills_str (SchedulerName m) (SchedulerName r) ∧
  fills_opt (TerminationGracePeriodSeconds m) (TerminationGracePeriodSeconds r) ∧
  Forall2 fills_Volume (Volumes m) (Volumes r) ∧
  fills_opt (podSecurityContext m) (podSecurityContext r) ∧
  podRest m = podRest r.
Definition served_PodSpec (r : PodSpec) : Prop :=
  Forall served_Container (InitContainers r) ∧ Forall served_Container (Containers r).
#[export] Instance PodSpec_Defaulting : Defaulting defaultPodSpec fills_PodSpec served_PodSpec.
Proof. unfold fills_PodSpec, served_PodSpec, defaultPodSpec. defaulting_record. Qed.

(** *** Workloads *)

Definition fills_Rolling (m r : RollingUpdate) : Prop :=
  fills_opt (MaxSurge m) (MaxSurge r) ∧ fills_opt (MaxUnavailable m) (MaxUnavailable r).
#[export] Instance Rolling_Defaulting : Defaulting
  (λ ro rm, mkRolling (default_opt (MaxSurge ro) (MaxSurge rm))
              (default_opt (MaxUnavailable ro) (MaxUnavailable rm))) fills_Rolling always.
Proof. unfold fills_Rolling. defaulting_record. Qed.

Definition fills_Deployment (m r : DeploymentSpec) : Prop :=
  fills_opt (ProgressDeadlineSeconds m) (ProgressDeadlineSeconds r) ∧
  fills_opt (dReplicas m) (dReplicas r) ∧
  fills_str (dStrategyType m) (dStrategyType r) ∧
  fills_ptr fills_Rolling (dRollingUpdate m) (dRollingUpdate r) ∧
  fills_opt (dRevisionHistoryLimit m) (dRevisionHistoryLimit r) ∧
  fills_PodSpec (dTemplate m) (dTemplate r) ∧
  dRest m = dRest r.
#[export] Instance Deployment_Defaulting :
  Defaulting defaultDeploymentSpec fills_Deployment (λ r, served_PodSpec (dTemplate r)).
Proof. unfold fills_Deployment, defaultDeploymentSpec. defaulting_record. Qed.

Definition fills_DaemonSet (m r : DaemonSetSpec) : Prop :=
  fills_opt (dsRevisionHistoryLimit m) (dsRevisionHistoryLimit r) ∧
  fills_str (dsStrategyType m) (dsStrategyType r) ∧
  fills_opt (dsRollingUpdate m) (dsRollingUpdate r) ∧
  fills_PodSpec (dsTemplate m) (dsTemplate r) ∧
  dsRest m = dsRest r.
#[export] Instance DaemonSet_Defaulting :
  Defaulting defaultDaemonSetSpec fills_DaemonSet (λ r, served_PodSpec (dsTemplate r)).
Proof. unfold fills_DaemonSet, defaultDaemonSetSpec. defaulting_record. Qed.

(** The status of a volume claim template is left out: it follows the server,
whatever the caller set ([follows_server]). *)
Definition fills_Claim (m r : VolumeClaim) : Prop :=
  fills_opt (VolumeMode m) (VolumeMode r) ∧
  fills_opt (StorageClassName m) (StorageClassName r) ∧
  claimRest m = claimRest r.
#[export] Instance Claim_Defaulting : Defaulting
  (λ co cm, set_claimStatus (claimStatus co) (defaultVolumeClaim co cm)) fills_Claim always.
Proof. unfold fills_Claim, set_claimStatus, defaultVolumeClaim. defaulting_record. Qed.

Definition fills_StatefulSet (m r : StatefulSetSpec) : Prop :=
  fills_opt (ssReplicas m) (ssReplicas r) ∧
  fills_str (PodManagementPolicy m) (PodManagementPolicy r) ∧
  fills_ptr fills_opt (ssRollingUpdate m) (ssRollingUpdate r) ∧
  fills_opt (ssRevisionHistoryLimit m) (ssRevisionHistoryLimit r) ∧
  fills_PodSpec (ssTemplate m) (ssTemplate r) ∧
  Forall2 fills_Claim (VolumeClaimTemplates m) (VolumeClaimTemplates r) ∧
  ssRest m = ssRest r.
#[export] Instance StatefulSet_Defaulting :
  Defaulting defaultStatefulSetSpec fills_StatefulSet (λ r, served_PodSpec (ssTemplate r)).
Proof. unfold fills_StatefulSet, defaultStatefulSetSpec. defaulting_record. Qed.

Definition fills_CronJob (m r : CronJobSpec) : Prop :=
  fills_str (ConcurrencyPolicy m) (ConcurrencyPolicy r) ∧
  fills_opt (FailedJobsHistoryLimit m) (FailedJobsHistoryLimit r) ∧
  fills_opt (ActiveDeadlineSeconds m) (ActiveDeadlineSeconds r) ∧
  fills_opt (BackoffLimit m) (BackoffLimit r) ∧
  fills_opt (StartingDeadlineSeconds m) (StartingDeadlineSeconds r) ∧
  fills_opt (SuccessfulJobsHistoryLimit m) (SuccessfulJobsHistoryLimit r) ∧
  fills_opt (Suspend m) (Suspend r) ∧
  fills_PodSpec (cjTemplate m) (cjTemplate r) ∧
  cjRest m = cjRest r.
#[export] Instance CronJob_Defaulting :
  Defaulting defaultCronJobSpec fills_CronJob (λ r, served_PodSpec (cjTemplate r)).
Proof. unfold fills_CronJob, defaultCronJobSpec. defaulting_record. Qed.

(** *** Services, routes and the other kinds *)

(** A target port that prints as 0 becomes the port itself. *)
Definition fills_ServicePort (m r : ServicePort) : Prop :=
  spPort m = spPort r ∧ spRest m = spRest r ∧
  fills_str (spProtocol m) (spProtocol r) ∧
  (spTargetPort m = spTargetPort r ∨
   IntOrString_String (spTargetPort m) = "0" ∧ spTargetPort r = FromInt (spPort m)).
Definition served_ServicePort (r : ServicePort) : Prop :=
  IntOrString_String (spTargetPort r) ≠ "0".
#[export] Instance ServicePort_Defaulting :
  Defaulting defaultServicePort fills_ServicePort served_ServicePort.
Proof.
  unfold fills_ServicePort, served_ServicePort, defaultServicePort. split; simpl.
  - intros m. fields; try done; [apply fills_refl|auto].
  - intros m r s (? & ? & ? & ?) (? & ? & ? & ?). fields; try congruence.
    { by eapply fills_trans. }
    intuition congruence.
  - intros o m. fields; try done; [apply fills_default|].
    unfold str_eqb. case_bool_decide; auto.
  - intros [] [] (? & ? & ? & Ht) Hs; simpl in *; subst. f_equal; [by apply default_fills|].
    unfold str_eqb. case_bool_decide; naive_solver.
Qed.

Definition fills_Service (m r : ServiceSpec) : Prop :=
  fills_str (ClusterIP m) (ClusterIP r) ∧
  fills_opt (ClusterIPs m) (ClusterIPs r) ∧
  fills_opt (IPFamilies m) (IPFamilies r) ∧
  fills_opt (IPFamilyPolicy m) (IPFamilyPolicy r) ∧
  Forall2 fills_ServicePort (sPorts m) (sPorts r) ∧
  fills_str (SessionAffinity m) (SessionAffinity r) ∧
  fills_str (sType m) (sType r) ∧
  sRest m = sRest r.
#[export] Instance Service_Defaulting :
  Defaulting defaultServiceSpec fills_Service (λ r, Forall served_ServicePort (sPorts r)).
Proof. unfold fills_Service, defaultServiceSpec. defaulting_record. Qed.

Definition fills_Route (m r : RouteSpec) : Prop :=
  fills_opt (toWeight m) (toWeight r) ∧
  fills_str (WildcardPolicy m) (WildcardPolicy r) ∧ rRest m = rRest r.
#[export] Instance Route_Defaulting : Defaulting defaultRouteSpec fills_Route always.
Proof. unfold fills_Route, defaultRouteSpec. defaulting_record. Qed.

(** Conversion is defaulted to the constant strategy [None]. *)
Definition fills_CRD (m r : CRDSpec) : Prop :=
  (Conversion m = Conversion r ∨ Conversion m = None ∧ Conversion r = Some "None") ∧
  crdRest m = crdRest r.
#[export] Instance CRD_Defaulting :
  Defaulting defaultCRDSpec fills_CRD (λ r, Conversion r ≠ None).
Proof.
  unfold fills_CRD, defaultCRDSpec. split.
  - naive_solver.
  - naive_solver congruence.
  - intros o m. destruct (Conversion m) eqn:E; simpl; naive_solver.
  - intros [co ro] [cm rm] [Hc Hr] Hs; simpl in *; subst.
    destruct Hc as [<- | [-> ->]]; [by destruct cm|done].
Qed.

Definition fills_Rule (m r : WebhookRule) : Prop :=
  fills_opt (ruleScope m) (ruleScope r) ∧ ruleRest m = ruleRest r.
#[export] Instance Rule_Defaulting : Defaulting defaultWebhookRule fills_Rule always.
Proof. unfold fills_Rule, defaultWebhookRule. defaulting_record. Qed.

Definition fills_Webhook (m r : MutatingWebhook) : Prop :=
  Forall2 fills_Rule (whRules m) (whRules r) ∧
  fills_opt (FailurePolicy m) (FailurePolicy r) ∧
  fills_opt (MatchPolicy m) (MatchPolicy r) ∧
  fills_opt (NamespaceSelector m) (NamespaceSelector r) ∧
  fills_opt (ObjectSelector m) (ObjectSelector r) ∧
  fills_opt (whTimeoutSeconds m) (whTimeoutSeconds r) ∧
  fills_opt (ReinvocationPolicy m) (ReinvocationPolicy r) ∧
  whRest m = whRest r.

Lemma Webhook_refl m : fills_Webhook m m.
Proof. unfold fills_Webhook. fields; first [apply fills_refl | done]. Qed.

#[export] Instance Webhook_Defaulting : Defaulting defaultWebhook fills_Webhook always.
Proof.
  unfold defaultWebhook. split.
  - apply Webhook_refl.
  - intros [] [] [] ??; unfold fills_Webhook in *; simpl in *; destruct_and!; fields;
      first [congruence | by eapply fills_trans].
  - intros o m. case_match; [|apply Webhook_refl].
    unfold fills_Webhook. fields; simpl; first [apply fills_default | done].
  - intros [] [] Hf _; unfold fills_Webhook in Hf; simpl in *; destruct_and!; subst.
    rewrite (proj2 (Nat.eqb_eq _ _)); [|by eapply Forall2_length].
    f_equal; apply default_fills; eauto with served.
Qed.

#[export] Instance WebhookConfiguration_Defaulting :
  Defaulting defaultMutatingWebhookConfiguration (Forall2 fills_Webhook) (Forall always).
Proof.
  unfold defaultMutatingWebhookConfiguration. split.
  - apply fills_refl.
  - intros m r s. apply fills_trans.
  - intros o m. case_match; [apply fills_default|apply fills_refl].
  - intros o m Hf Hs. rewrite (proj2 (Nat.eqb_eq _ _)); [by apply default_fills|].
    symmetry. by eapply Forall2_length.
Qed.

(** The server appends pull secrets the caller does not list.  The secrets of the
account are left out: they follow the server, whatever the caller set
([follows_server]). *)
Definition fills_ServiceAccount (m r : ServiceAccountSpec) : Prop :=
  (∃ extra, ImagePullSecrets r = ImagePullSecrets m ++ extra ∧
            ∀ p, p ∈ extra → p ∉ ImagePullSecrets m) ∧
  saRest m = saRest r.

Lemma filter_fresh (m extra : list string) :
  (∀ p, p ∈ extra → p ∉ m) →
  List.filter (λ p, negb (bool_decide (p ∈ m))) (m ++ extra) = extra.
Proof.
  intros Hx. rewrite List.filter_app.
  assert (Hm : ∀ l, (∀ p, p ∈ l → p ∈ m) → List.filter (λ p, negb (bool_decide (p ∈ m))) l = []).
  { induction l as [|p l IH]; intros Hl; simpl; [done|].
    rewrite bool_decide_true by (apply Hl; left). apply IH. intros; apply Hl; by right. }
  rewrite Hm by done. simpl. induction extra as [|p l IH]; simpl; [done|].
  rewrite bool_decide_false by (apply Hx; left). simpl. f_equal. apply IH.
  intros; apply Hx; by right.
Qed.

#[export] Instance ServiceAccount_Defaulting :
  Defaulting preserveServiceAccountPullSecrets fills_ServiceAccount always.
Proof.
  unfold fills_ServiceAccount, preserveServiceAccountPullSecrets. split; simpl.
  - intros m. split; [|done]. exists []. rewrite app_nil_r. split; [done|]. by intros p ?%not_elem_of_nil.
  - intros m r s [(e1 & E1 & H1) ->] [(e2 & E2 & H2) ->]. split; [|done].
    exists (e1 ++ e2). rewrite E2, E1, app_assoc. split; [done|].
    intros p [Hp|Hp]%elem_of_app Hm; [by apply (H1 p)|apply (H2 p Hp)]. rewrite E1. set_solver.
  - intros o m. split; [|done]. eexists. split; [done|].
    intros p [_ Hp]%elem_of_filter_bool. by case_bool_decide.
  - intros [] [] [(e & E & H) Hr] _; simpl in *; subst. by rewrite filter_fresh.
Qed.

(** *** Whole objects *)

Definition fills_Body (m r : ObjectBody) : Prop :=
  match m, r with
  | Deployment sm m, Deployment sr r => sm = sr ∧ fills_Deployment m r
  | DaemonSet m, DaemonSet r => fills_DaemonSet m r
  | StatefulSet m, StatefulSet r => fills_StatefulSet m r
  | CronJob m, CronJob r => fills_CronJob m r
  | Service m, Service r => fills_Service m r
  | ServiceAccount m, ServiceAccount r => fills_ServiceAccount m r
  | Route m, Route r => fills_Route m r
  | CustomResourceDefinition m, CustomResourceDefinition r => fills_CRD m r
  | MutatingWebhookConfiguration m, MutatingWebhookConfiguration r => Forall2 fills_Webhook m r
  | Job m, Job r => m = r
  | MachineSet sm m, MachineSet sr r => sm = sr ∧ m = r
  | Secret im dm m, Secret ir dr r => im = ir ∧ dm = dr ∧ m = r
  | OtherObject tm m, OtherObject tr r => tm = tr ∧ m = r
  | _, _ => False
  end.

(** The server sets the termination message policy of every container, the
target port of every service port and the conversion of every definition. *)
Definition served_Body (r : ObjectBody) : Prop :=
  match r with
  | Deployment _ r => served_PodSpec (dTemplate r)
  | DaemonSet r => served_PodSpec (dsTemplate r)
  | StatefulSet r => served_PodSpec (ssTemplate r)
  | CronJob r => served_PodSpec (cjTemplate r)
  | Service r => Forall served_ServicePort (sPorts r)
  | CustomResourceDefinition r => Conversion r ≠ None
  | _ => True
  end.

(** Everything but the body is the same. *)
Definition same_frame (m r : Object) : Prop := set_body (oBody r) m = r.

Lemma fills_Body_refl b : fills_Body b b.
Proof. destruct b; simpl; fields; try done; apply fills_refl. Qed.

Lemma fills_Body_trans m r s : fills_Body m r → fills_Body r s → fills_Body m s.
Proof.
  destruct m, r; simpl; try done; destruct s; simpl; try done; intros; destruct_and?; fields;
    first [congruence | by eapply fills_trans].
Qed.

Lemma fills_Body_type m r o : fills_Body m r → goTypeName (set_body m o) = goTypeName (set_body r o).
Proof. unfold goTypeName; simpl. destruct m, r; simpl; naive_solver. Qed.

(** The type assertion [obj.( *T)] succeeds. *)
Definition same_kind (e m : ObjectBody) : bool :=
  match e, m with
  | Deployment _ _, Deployment _ _ | DaemonSet _, DaemonSet _ | StatefulSet _, StatefulSet _
  | CronJob _, CronJob _ | Service _, Service _ | ServiceAccount _, ServiceAccount _
  | Route _, Route _ | CustomResourceDefinition _, CustomResourceDefinition _
  | MutatingWebhookConfiguration _, MutatingWebhookConfiguration _
  | Job _, _ | MachineSet _ _, _ | Secret _ _ _, _ | OtherObject _ _, _ => true
  | _, _ => false
  end.

Lemma fills_Body_kind m r : fills_Body m r → same_kind r m = true.
Proof. by destruct m, r. Qed.

Lemma defaultObject_spec e m :
  same_kind (oBody e) (oBody m) = true →
  ∃ b, defaultObject e m = Ret (set_body b m) ∧ fills_Body (oBody m) b ∧
       (fills_Body (oBody m) (oBody e) → served_Body (oBody e) → b = oBody e).
Proof.
  destruct m as [???????? bm ?], e as [???????? be ?]; unfold defaultObject; simpl.
  destruct be, bm; simpl; try done; intros _;
    (eexists; split; [reflexivity|]; split;
     [simpl; fields; first [apply fills_default | done | apply fills_refl]
     |simpl; intros Hf Hs; destruct_and?; simplify_eq; try done; f_equal; apply default_fills;
      by eauto with served]).
Qed.

Lemma defaultObject_type e m d :
  defaultObject e m = Ret d →
  goTypeName d = goTypeName m ∧ ObjectKeyFromObject d = ObjectKeyFromObject m.
Proof.
  unfold defaultObject, goTypeName. destruct (oBody e), (oBody m) eqn:E; intros [= <-]; simpl;
    by rewrite ?E.
Qed.

(** The two fields in which the server's value replaces the caller's: the secrets
of a ServiceAccount, and the status of each claim template of a StatefulSet that
the server has a template for. *)
Definition follows_server (e m o : ObjectBody) : Prop :=
  match e, m, o with
  | ServiceAccount e, ServiceAccount _, ServiceAccount o => saSecrets o = saSecrets e
  | StatefulSet e, StatefulSet m, StatefulSet o => ∀ i,
      claimStatus <$> VolumeClaimTemplates o !! i =
      claimStatus <$> match VolumeClaimTemplates e !! i, VolumeClaimTemplates m !! i with
                      | Some ce, Some _ => Some ce
                      | _, cm => cm
                      end
  | _, _, _ => True
  end.

Lemma default_list_lookup {A} (d : A → A → A) o m i :
  default_list d o m !! i =
    match o !! i, m !! i with Some x, Some y => Some (d x y) | _, y => y end.
Proof.
  revert m i. induction o as [|x o IH]; intros [|y m] [|i]; simpl; try done.
  by destruct (o !! i).
Qed.

Lemma defaultObject_follows e m o :
  defaultObject e m = Ret o → follows_server (oBody e) (oBody m) (oBody o).
Proof.
  unfold defaultObject, follows_server.
  destruct (oBody e), (oBody m) eqn:Hm; intros [= <-]; simpl; rewrite ?Hm; try done.
  intros i. rewrite default_list_lookup. by destruct (_ !! i), (_ !! i).
Qed.

(** C27: For every pair of a stored and a mutated object, defaulting fails only
by a panicking type assertion, when the two are of different kinds.  Otherwise
the value of every field the caller sets is kept and unset fields are filled
in, with two exceptions: the secrets of a ServiceAccount and the status of the
claim templates of a StatefulSet always become the server's.  A target port that
prints as 0 counts as unset and becomes the port, and pull secrets of a
ServiceAccount that the caller does not list are appended.  When the caller's
body differs from the server's only by unset fields and these two, the result is
exactly the server's body, so values the server defaulted are not reverted. *)
Theorem defaulting_keeps_intent e m :
  match defaultObject e m with
  | Ret o => same_kind (oBody e) (oBody m) = true ∧
             same_frame m o ∧ fills_Body (oBody m) (oBody o) ∧
             follows_server (oBody e) (oBody m) (oBody o) ∧
             (fills_Body (oBody m) (oBody e) → served_Body (oBody e) → oBody o = oBody e)
  | Throw _ => False
  | Panic => same_kind (oBody e) (oBody m) = false
  end.
Proof.
  destruct (same_kind (oBody e) (oBody m)) eqn:Hk.
  - destruct (defaultObject_spec e m Hk) as (b & Hd & ? & ?). rewrite Hd.
    apply defaultObject_follows in Hd. by split_and!.
  - unfold defaultObject. by destruct (oBody e), (oBody m).
Qed.

(** *** The defaults of the server *)

Create HintDb admission.

(** The defaults the API server documents for a Deployment, in the field comments
of [k8s.io/api/apps/v1/types.go] and [k8s.io/api/core/v1/types.go].  [pullPolicy]
gives the pull policy for the image among the other fields of a container;
[otherDefaults] stands for the defaults of the fields that no defaulting function
of [upsert.go] looks at. *)
Class ServerDefaults : Type := {
  pullPolicy : string → string;
  otherDefaults : string → string;
}.

Section ServerDefaults.
Context `{!ServerDefaults}.

Definition SetDefaults_ContainerPort (p : ContainerPort) : ContainerPort :=
  mkPort (default_str "TCP" (portProtocol p)) (otherDefaults (portRest p)).
Definition SetDefaults_EnvVar (e : EnvVar) : EnvVar :=
  mkEnv (option_map (option_map (default_str "v1")) (envValueFrom e)) (otherDefaults (envRest e)).
Definition SetDefaults_Probe (p : Probe) : Probe :=
  mkProbe (default_int 1 (TimeoutSeconds p)) (default_int 10 (PeriodSeconds p))
    (default_int 1 (SuccessThreshold p)) (default_int 3 (FailureThreshold p))
    (default_str "HTTP" <$> HTTPGetScheme p) (otherDefaults (probeRest p)).
Definition SetDefaults_SC (c : SecurityContext) : SecurityContext :=
  mkSC (RunAsUser c) (otherDefaults (scRest c)).
Definition SetDefaults_Container (c : Container) : Container :=
  mkContainer (default_str (pullPolicy (containerRest c)) (ImagePullPolicy c))
    (default_str "/dev/termination-log" (TerminationMessagePath c))
    (default_str "File" (TerminationMessagePolicy c))
    (SetDefaults_Probe <$> LivenessProbe c) (SetDefaults_Probe <$> ReadinessProbe c)
    (SetDefaults_EnvVar <$> cEnv c) (SetDefaults_ContainerPort <$> cPorts c)
    (SetDefaults_SC <$> cSecurityContext c) (otherDefaults (containerRest c)).
(** File modes are 0644. *)
Definition SetDefaults_Volume (v : Volume) : Volume :=
  mkVolume (default_opt (Some 420%Z) <$> vSecretMode v) (default_opt (Some 420%Z) <$> vConfigMapMode v)
    (otherDefaults (volumeRest v)).
(** [serviceAccount] is an alias of [serviceAccountName]. *)
Definition SetDefaults_PodSpec (p : PodSpec) : PodSpec :=
  let account := default_str (DeprecatedServiceAccount p) (ServiceAccountName p) in
  mkPodSpec (SetDefaults_Container <$> InitContainers p) (SetDefaults_Container <$> Containers p)
    (default_str "ClusterFirst" (DNSPolicy p)) account account
    (default_str "Always" (RestartPolicy p)) (default_str "default-scheduler" (SchedulerName p))
    (default_opt (Some 30%Z) (TerminationGracePeriodSeconds p)) (SetDefaults_Volume <$> Volumes p)
    (default_opt (Some (otherDefaults "{}")) (otherDefaults <$> podSecurityContext p))
    (otherDefaults (podRest p)).
Definition SetDefaults_Deployment (d : DeploymentSpec) : DeploymentSpec :=
  let type := default_str "RollingUpdate" (dStrategyType d) in
  let rolling :=
    if str_eqb type "RollingUpdate" then
      let r := default (mkRolling None None) (dRollingUpdate d) in
      Some (mkRolling (default_opt (Some "25%") (MaxSurge r)) (default_opt (Some "25%") (MaxUnavailable r)))
    else dRollingUpdate d in
  mkDeployment (default_opt (Some 600%Z) (ProgressDeadlineSeconds d))
    (default_opt (Some 1%Z) (dReplicas d)) type rolling
    (default_opt (Some 10%Z) (dRevisionHistoryLimit d)) (SetDefaults_PodSpec (dTemplate d))
    (otherDefaults (dRest d)).

(** The server finds nothing to default in the fields the defaulting functions do
not look at. *)
Definition complete (rest : string) : Prop := otherDefaults rest = rest.
Definition complete_opt {A} (P : A → Prop) (o : option A) : Prop :=
  match o with Some x => P x | None => True end.
Definition complete_Container (c : Container) : Prop :=
  complete_opt (λ p, complete (probeRest p)) (LivenessProbe c) ∧
  complete_opt (λ p, complete (probeRest p)) (ReadinessProbe c) ∧
  Forall (λ e, complete (envRest e)) (cEnv c) ∧
  Forall (λ p, complete (portRest p)) (cPorts c) ∧
  complete_opt (λ s, complete (scRest s)) (cSecurityContext c) ∧
  complete (containerRest c).
Definition complete_PodSpec (p : PodSpec) : Prop :=
  Forall complete_Container (InitContainers p) ∧ Forall complete_Container (Containers p) ∧
  Forall (λ v, complete (volumeRest v)) (Volumes p) ∧
  complete_opt complete (podSecurityContext p) ∧ complete (podRest p).
Definition complete_Deployment (d : DeploymentSpec) : Prop :=
  complete_PodSpec (dTemplate d) ∧ complete (dRest d).
(** The deprecated name of the service account is unset or the same. *)
Definition alias_agrees (p : PodSpec) : Prop :=
  DeprecatedServiceAccount p = "" ∨ DeprecatedServiceAccount p = ServiceAccountName p.

(** A spec that is filled in by [m] is still filled in by what the server makes
of [m]. *)
Lemma rest_kept (b m : string) : b = m → complete b → b = otherDefaults m.
Proof. by intros <- ->. Qed.

Lemma default_str_fills k (b m : string) : fills_str b m → fills_str b (default_str k m).
Proof. intros Hb. eapply fills_trans; [exact Hb|apply fills_default]. Qed.
Lemma default_int_fills k (b m : Z) : fills_int b m → fills_int b (default_int k m).
Proof. intros Hb. eapply fills_trans; [exact Hb|apply fills_default]. Qed.
Lemma default_opt_fills {A} k (b m : option A) : fills_opt b m → fills_opt b (default_opt k m).
Proof. intros Hb. eapply fills_trans; [exact Hb|apply fills_default]. Qed.

Lemma fmap_list_fills {A} (fills : A → A → Prop) (P : A → Prop) (f : A → A) bs ms :
  (∀ b m, fills b m → P b → fills b (f m)) →
  Forall2 fills bs ms → Forall P bs → Forall2 fills bs (f <$> ms).
Proof.
  intros Hf. induction 1; simpl; [constructor|]. inversion 1; subst. constructor; auto.
Qed.

Lemma fmap_option_fills {A} (fills : A → A → Prop) (P : A → Prop) (f : A → A) b m :
  (∀ b m, fills b m → P b → fills b (f m)) →
  option_Forall2 fills b m → complete_opt P b → option_Forall2 fills b (f <$> m).
Proof. intros Hf [] ?; constructor; auto. Qed.

Lemma fmap_ptr_fills {A} (fills : A → A → Prop) (P : A → Prop) (f : A → A) b m :
  (∀ b m, fills b m → P b → fills b (f m)) →
  fills_ptr fills b m → complete_opt P b → fills_ptr fills b (f <$> m).
Proof. intros Hf. destruct b, m; simpl; auto. Qed.

Hint Resolve rest_kept default_str_fills default_int_fills default_opt_fills : admission.

Lemma SetDefaults_Probe_fills b m :
  fills_Probe b m → complete (probeRest b) → fills_Probe b (SetDefaults_Probe m).
Proof.
  unfold fills_Probe. intros ? Hr; destruct_and!; fields; simpl; eauto with admission.
  apply (fmap_option_fills _ always); unfold complete_opt; auto with admission. by case_match.
Qed.

Lemma SetDefaults_EnvVar_fills b m :
  fills_EnvVar b m → complete (envRest b) → fills_EnvVar b (SetDefaults_EnvVar m).
Proof.
  intros [Hv ?] Hr. split; simpl; [|eauto with admission].
  destruct Hv as [? ? [? ? ?|]|]; simpl; constructor; constructor; auto with admission.
Qed.

Lemma SetDefaults_Container_fills b m :
  fills_Container b m → complete_Container b → fills_Container b (SetDefaults_Container m).
Proof.
  unfold fills_Container, complete_Container. intros ? Hr; destruct_and!; fields; simpl;
    eauto with admission.
  - eapply fmap_option_fills; [exact SetDefaults_Probe_fills|done..].
  - eapply fmap_option_fills; [exact SetDefaults_Probe_fills|done..].
  - eapply fmap_list_fills; [exact SetDefaults_EnvVar_fills|done..].
  - eapply fmap_list_fills; [|done..]. intros p q [] ?. split; simpl; auto with admission.
  - eapply fmap_ptr_fills; [|done..]. intros p q [] ?. split; simpl; auto with admission.
Qed.

Lemma SetDefaults_Volume_fills b m :
  fills_Volume b m → complete (volumeRest b) → fills_Volume b (SetDefaults_Volume m).
Proof.
  intros (H1 & H2 & ?) Hr. split_and!; simpl; [| |eauto with admission].
  - destruct H1; simpl; constructor; auto with admission.
  - destruct H2; simpl; constructor; auto with admission.
Qed.

Lemma account_fills b m :
  alias_agrees b → fills_str (ServiceAccountName b) (ServiceAccountName m) →
  fills_str (DeprecatedServiceAccount b) (DeprecatedServiceAccount m) →
  let account := default_str (DeprecatedServiceAccount m) (ServiceAccountName m) in
  fills_str (ServiceAccountName b) account ∧ fills_str (DeprecatedServiceAccount b) account.
Proof.
  unfold alias_agrees, fills_str, default_str, str_eqb. intros. case_bool_decide; intuition congruence.
Qed.

Lemma SetDefaults_PodSpec_fills b m :
  fills_PodSpec b m → complete_PodSpec b → alias_agrees b → fills_PodSpec b (SetDefaults_PodSpec m).
Proof.
  unfold fills_PodSpec, complete_PodSpec. intros ? Hr Ha; destruct_and!.
  destruct (account_fills b m) as [? ?]; [done..|]. fields; simpl; eauto with admission.
  - eapply fmap_list_fills; [exact SetDefaults_Container_fills|done..].
  - eapply fmap_list_fills; [exact SetDefaults_Container_fills|done..].
  - eapply fmap_list_fills; [exact SetDefaults_Volume_fills|done..].
  - apply default_opt_fills. unfold fills_opt, complete_opt, complete in *.
    destruct (podSecurityContext b) as [c|]; [right|by left].
    destruct (podSecurityContext m); naive_solver congruence.
Qed.

Lemma SetDefaults_PodSpec_served p : served_PodSpec (SetDefaults_PodSpec p).
Proof.
  split; simpl; apply Forall_fmap, Forall_true; intros c;
    unfold served_Container, default_str; simpl; unfold default_str; by str_cases.
Qed.

Lemma SetDefaults_Deployment_fills b m :
  fills_Deployment b m → complete_Deployment b → alias_agrees (dTemplate b) →
  fills_Deployment b (SetDefaults_Deployment m).
Proof.
  unfold fills_Deployment, complete_Deployment. intros ? Hr Ha; destruct_and!.
  fields; simpl; eauto using SetDefaults_PodSpec_fills with admission.
  case_match; [|done]. destruct (dRollingUpdate b) as [rb|], (dRollingUpdate m) as [rm|]; simpl in *; try done.
  unfold fills_Rolling in *. destruct_and!. split; simpl; auto with admission.
Qed.

End ServerDefaults.

(** *** The provider *)

Section Provider.
Context {S : Type} `{!Client S ObjectRef Object} `{!ClientLaws S ObjectRef Object}.
Context `{!SemanticEqual}.
Implicit Types (w : world S) (e m obj : Object).

Definition after_noop w m : world S :=
  mkWorld (w_cluster w)
    (match w_detector w with
     | Some d => Some (recordNoOpUpdate d m (ObjectKeyFromObject m))
     | None => None
     end)
    (w_warnings w).

Lemma set_body_eta o : set_body (oBody o) o = o.
Proof. by destruct o. Qed.

Lemma update_noop w e m o :
  defaultObject e m = Ret o → DeepEqual e o = true →
  update m e w = (Ret (OperationResultNone, o),
    mkWorld (w_cluster w)
      (match w_detector w with
       | Some d => Some (recordNoOpUpdate d o (ObjectKeyFromObject m)) | None => None end)
      (w_warnings w)).
Proof. intros Hd He. unfold update. simpl. unfold mbind, st_bind, st_lift. by rewrite Hd, He. Qed.

Lemma CreateOrUpdate_existing w obj f e m :
  c_get (ref_of obj) (w_cluster w) = Ret e → f e = Ret m →
  ObjectKeyFromObject m = ObjectKeyFromObject obj →
  CreateOrUpdate obj f w =
    (match update m e w with
     | (Ret (OperationResultNone, o), w') => (Ret (OperationResultNone, o), w')
     | (Ret (_, o), w') => updateStatus f (ObjectKeyFromObject obj) OperationResultUpdated o w'
     | (Throw err, w') => (Throw err, w')
     | (Panic, w') => (Panic, w')
     end).
Proof.
  intros Hg Hf Hk. unfold CreateOrUpdate. rewrite Hg.
  unfold mutate, mbind, st_bind, st_lift. simpl. rewrite Hf. simpl.
  rewrite bool_decide_true by done. by destruct (update m e w) as [[[[] ?]| |] ?].
Qed.

Lemma noop_settled w obj f e m :
  c_get (ref_of obj) (w_cluster w) = Ret e → f e = Ret m → same_frame m e →
  ObjectKeyFromObject e = ObjectKeyFromObject obj →
  fills_Body (oBody m) (oBody e) → served_Body (oBody e) →
  CreateOrUpdate obj f w = (Ret (OperationResultNone, e), after_noop w e).
Proof.
  intros Hg Hf Hs Hk Hb Hserved.
  destruct (defaultObject_spec e m (fills_Body_kind _ _ Hb)) as (b & Hd & _ & Hbe).
  rewrite Hbe, Hs in Hd by done.
  assert (Hkm : ObjectKeyFromObject m = ObjectKeyFromObject e) by (by rewrite <- Hs).
  rewrite (CreateOrUpdate_existing w obj f e m) by congruence.
  rewrite (update_noop w e m e Hd) by apply DeepEqual_refl. unfold after_noop. by rewrite Hkm.
Qed.

(** When the mutate function leaves the stored object as it is except
for fields it leaves unset and the server defaulted, [CreateOrUpdate] writes
nothing to the cluster: it returns [OperationResultNone] with the stored
object, and only the loop detector notes the no-op. *)
Theorem CreateOrUpdate_no_spurious_update w obj f e m
    (Hget : c_get (ref_of obj) (w_cluster w) = Ret e)
    (Hf : f e = Ret m)
    (Hframe : same_frame m e)
    (Hkey : ObjectKeyFromObject e = ObjectKeyFromObject obj)
    (Hfills : fills_Body (oBody m) (oBody e))
    (Hserved : served_Body (oBody e)) :
  CreateOrUpdate obj f w = (Ret (OperationResultNone, e), after_noop w e).
Proof. by eapply noop_settled. Qed.

(** The four ways [CreateOrUpdate] can succeed on an object without a status
subresource. *)
Lemma CreateOrUpdate_success w obj f r o w' :
  CreateOrUpdate obj f w = (Ret (r, o), w') →
  match c_get (ref_of obj) (w_cluster w) with
  | Throw _ =>
      ∃ m o1 s1, mutate f (ObjectKeyFromObject obj) obj = Ret m ∧
        c_create (ref_of m) m (w_cluster w) = (Ret o1, s1) ∧
        updateStatus f (ObjectKeyFromObject obj) OperationResultCreated o1
          (mkWorld s1 (w_detector w) (w_warnings w)) = (Ret (r, o), w')
  | Ret e =>
      ∃ m d, mutate f (ObjectKeyFromObject obj) e = Ret m ∧ defaultObject e m = Ret d ∧
        if DeepEqual e d
        then r = OperationResultNone ∧ o = d ∧ w_cluster w' = w_cluster w
        else ∃ o1 s1 det ws, c_update (ref_of d) d (w_cluster w) = (Ret o1, s1) ∧
          updateStatus f (ObjectKeyFromObject obj) OperationResultUpdated o1
            (mkWorld s1 det ws) = (Ret (r, o), w')
  | Panic => False
  end.
Proof.
  unfold CreateOrUpdate. destruct (c_get _ _) as [e|err|]; [| |done].
  - unfold update, mbind, st_bind, st_lift. simpl.
    destruct (mutate _ _ e) as [m| |] eqn:Hm; [|done..].
    destruct (defaultObject e m) as [d| |] eqn:Hd; [|done..].
    destruct (DeepEqual e d) eqn:He; simpl.
    + intros [= <- <- <-]. exists m, d. rewrite He. by split_and!.
    + intros Hrun. exists m, d. rewrite He. split_and!; [done..|].
      unfold noteUpdate, run in Hrun.
      destruct (w_detector w) as [det|]; simpl in Hrun.
      * destruct (recordActualUpdate _ _ _) as [det' ws]. simpl in Hrun.
        destruct (c_update _ _ _) as [[o1| |] s1]; [|done..]. eexists o1, s1, _, _. split; [done|]. exact Hrun.
      * destruct (c_update _ _ _) as [[o1| |] s1]; [|done..]. eexists o1, s1, _, _. split; [done|]. exact Hrun.
  - destruct (IsNotFound err); simpl; [|done].
    unfold mbind, st_bind, st_lift, run. simpl.
    destruct (mutate _ _ obj) as [m| |]; [|done..].
    destruct (c_create _ _ _) as [[o1| |] s1] eqn:Hc; [|done..]. intros Hrun. by exists m, o1, s1.
Qed.

Lemma updateStatus_none f key r o w :
  hasStatusSubResource o = false → updateStatus f key r o w = (Ret (r, o), w).
Proof. intros Hs. unfold updateStatus. by rewrite Hs. Qed.

Lemma mutate_Ret f key o m :
  mutate f key o = Ret m → f o = Ret m ∧ ObjectKeyFromObject m = key.
Proof.
  unfold mutate. destruct (f o) as [m'| |]; simpl; [|done..].
  case_bool_decide; [|done]. naive_solver.
Qed.

(** Objects whose kind has no status subresource, admission included. *)
Definition no_status (o : Object) : Prop := hasStatusSubResource o = false.

(** A successful [CreateOrUpdate] of an object without status
subresource leaves the cluster as the result says. [Created]: the object was
missing and what the mutate function made of the caller's object is stored, as
the server admits it. [Updated]: it existed and the mutated object with the
server's defaults is stored. [None]: it was as the mutated object already, and
nothing changed. No other object is touched, and the caller gets the object the
cluster holds after a write. *)
Lemma CreateOrUpdate_stores w obj f r o w'
    (Hrun : CreateOrUpdate obj f w = (Ret (r, o), w'))
    (Hstatus : ∀ old m, goTypeName m = goTypeName obj → no_status (admit_object old m))
    (Hf : ∀ o m, goTypeName o = goTypeName obj → f o = Ret m → goTypeName m = goTypeName obj)
    (Hview : ∀ e, view (w_cluster w) !! ref_of obj = Some e → goTypeName e = goTypeName obj) :
  match r with
  | OperationResultCreated => ∃ m,
      view (w_cluster w) !! ref_of obj = None ∧ f obj = Ret m ∧
      o = admit_object None m ∧
      view (w_cluster w') = <[ref_of obj := o]> (view (w_cluster w))
  | OperationResultUpdated => ∃ e m d,
      view (w_cluster w) !! ref_of obj = Some e ∧ f e = Ret m ∧ defaultObject e m = Ret d ∧
      DeepEqual e d = false ∧ o = admit_object (Some e) d ∧
      view (w_cluster w') = <[ref_of obj := o]> (view (w_cluster w))
  | OperationResultNone => ∃ e m,
      view (w_cluster w) !! ref_of obj = Some e ∧ f e = Ret m ∧ defaultObject e m = Ret o ∧
      DeepEqual e o = true ∧ w_cluster w' = w_cluster w
  end.
Proof.
  pose proof (CreateOrUpdate_success _ _ _ _ _ _ Hrun) as Hs. clear Hrun.
  destruct (c_get _ _) as [e|err|] eqn:Hg; [| |done].
  - apply get_stored in Hg.
    destruct Hs as (m & d & [Hfe Hk]%mutate_Ret & Hd & Hs).
    destruct (DeepEqual e d) eqn:He; [destruct Hs as (-> & -> & ?); by exists e, m|].
    assert (Ht : ref_of d = ref_of obj).
    { destruct (defaultObject_type _ _ _ Hd) as [Hdt Hdk]. unfold ref_of.
      by rewrite Hdt, Hdk, Hk, (Hf e m (Hview e Hg) Hfe). }
    destruct Hs as (o1 & s1 & det & ws & (-> & Hv)%update_stored & Hst).
    rewrite updateStatus_none in Hst by (apply Hstatus; by injection Ht).
    injection Hst as <- <- <-. rewrite Ht, Hg in *. by exists e, m, d.
  - destruct Hs as (m & o1 & s1 & [Hfe Hk]%mutate_Ret & (-> & Hv)%create_stored & Hst).
    rewrite updateStatus_none in Hst by (by eapply Hstatus, Hf).
    injection Hst as <- <- <-. exists m. unfold ref_of in Hv.
    rewrite (Hf obj m eq_refl Hfe), Hk in Hv. split_and!; try done.
    destruct (view _ !! ref_of obj) as [o|] eqn:Hv'; [|done].
    apply get_stored in Hv'. congruence.
Qed.

(** What the server makes of any object that fills in the body [b] still fills
in [b]. *)
Definition admits (b : ObjectBody) : Prop :=
  ∀ old m, fills_Body b (oBody m) →
    let a := admit_object old m in
    ObjectKeyFromObject a = ObjectKeyFromObject m ∧
    fills_Body b (oBody a) ∧ served_Body (oBody a) ∧ no_status a.

(** A call that sets the body [b] finds an object that has every value of [b], up
to the semantic equality, and changes nothing. *)
Definition settled w obj (b : ObjectBody) : Prop :=
  ∃ e o w', view (w_cluster w) !! ref_of obj = Some e ∧
    DeepEqual e o = true ∧ fills_Body b (oBody o) ∧
    CreateOrUpdate obj (λ o, Ret (set_body b o)) w = (Ret (OperationResultNone, o), w') ∧
    w_cluster w' = w_cluster w.

Lemma stored_settles b obj old m w a :
  admits b → fills_Body b (oBody m) → a = admit_object old m →
  ObjectKeyFromObject m = ObjectKeyFromObject obj →
  view (w_cluster w) !! ref_of obj = Some a → settled w obj b.
Proof.
  intros Hadm Hb -> Hk Hv. destruct (Hadm old m Hb) as (Hka & Hfa & Hsa & _).
  eexists _, _, (after_noop w _). split_and!; [done|apply DeepEqual_refl|done| |done].
  eapply noop_settled; try done.
  - by apply get_stored.
  - by destruct (admit_object old m).
  - congruence.
Qed.

(** The server's admission of Deployments is the documented one: it keeps the name,
the namespace and the selector and sets the defaults of the spec. *)
Class DeploymentAdmission := {
  server_defaults :: ServerDefaults;
  admit_deployment old m sel d : oBody m = Deployment sel d →
    ObjectKeyFromObject (admit_object old m) = ObjectKeyFromObject m ∧
    oBody (admit_object old m) = Deployment sel (SetDefaults_Deployment d);
}.

Lemma deployment_admits `{!DeploymentAdmission} sel d :
  complete_Deployment d → alias_agrees (dTemplate d) → admits (Deployment sel d).
Proof.
  intros Hc Ha old m Hm. destruct (oBody m) as [sm dm| | | | | | | | | | | |] eqn:Hb; try done.
  destruct Hm as [<- Hm]. destruct (admit_deployment old m sel dm Hb) as [Hk Hbody].
  unfold no_status, hasStatusSubResource, goTypeName. rewrite Hbody.
  split_and!; [done|split; [done|by apply SetDefaults_Deployment_fills]|apply SetDefaults_PodSpec_served|done].
Qed.

(** A body the caller computes anew on every pass settles when the server admits
it. *)
Lemma settles_when_admitted w obj b r o w'
    (Hrun : CreateOrUpdate obj (λ o, Ret (set_body b o)) w = (Ret (r, o), w'))
    (Hadmission : admits b)
    (Htype : goTypeName (set_body b obj) = goTypeName obj)
    (Hkind : ∀ e, view (w_cluster w) !! ref_of obj = Some e → same_kind (oBody e) b = true) :
  settled w' obj b.
Proof.
  pose proof (CreateOrUpdate_success _ _ _ _ _ _ Hrun) as Hs.
  destruct (c_get _ _) as [e|err|] eqn:Hg; [| |done].
  - destruct Hs as (m & d & [[= <-] Hk]%mutate_Ret & Hd & Hs). pose proof Hg as Hve%get_stored.
    destruct (defaultObject_spec e (set_body b e)) as (b' & Hd' & Hf & _); [by apply Hkind|].
    assert (d = set_body b' (set_body b e)) as -> by congruence. simpl in Hf.
    destruct (DeepEqual e _) eqn:He.
    + destruct Hs as (-> & -> & Hw). unfold settled.
      rewrite (CreateOrUpdate_existing w' obj _ e (set_body b e)) by congruence.
      rewrite (update_noop _ _ _ _ Hd He), Hw. by eexists e, _, _.
    + destruct Hs as (o1 & s1 & det & ws & (-> & Hv)%update_stored & Hst).
      rewrite updateStatus_none in Hst by by apply Hadmission. injection Hst as <- <- <-.
      eapply (stored_settles b obj _ (set_body b' (set_body b e)) _ _ Hadmission Hf eq_refl Hk). simpl.
      rewrite Hv. unfold ref_of. rewrite <- Htype, <- Hk.
      change (set_body b' (set_body b e)) with (set_body b' e).
      rewrite <- (fills_Body_type b b' e Hf). apply lookup_insert_eq.
  - destruct Hs as (m & o1 & s1 & [[= <-] Hk]%mutate_Ret & (-> & Hv)%create_stored & Hst).
    rewrite updateStatus_none in Hst by (apply Hadmission, fills_Body_refl). injection Hst as <- <- <-.
    eapply (stored_settles b obj _ (set_body b obj) _ _ Hadmission (fills_Body_refl b) eq_refl Hk).
    simpl. rewrite Hv. unfold ref_of. rewrite Htype. apply lookup_insert_eq.
Qed.

(** C26: Reconciling a Deployment whose spec the caller computes anew on every
pass settles after one successful call, when the server defaults it as the API
documents: every further call with the same spec finds nothing to do and leaves
the cluster alone, and the Deployment the cluster then holds has every value the
caller set.  The caller must itself set the fields with a server default that
the defaulting functions do not look at, and must not set the deprecated service
account to something else than the service account. *)
Theorem CreateOrUpdate_settles `{!DeploymentAdmission} w obj sel d r o w'
    (Hrun : CreateOrUpdate obj (λ o, Ret (set_body (Deployment sel d) o)) w = (Ret (r, o), w'))
    (Hcomplete : complete_Deployment d)
    (Halias : alias_agrees (dTemplate d))
    (Hobj : goTypeName obj = "*v1.Deployment")
    (Hstored : ∀ e, view (w_cluster w) !! ref_of obj = Some e →
                 ∃ sel' d', oBody e = Deployment sel' d') :
  settled w' obj (Deployment sel d).
Proof.
  eapply settles_when_admitted; [done|by apply deployment_admits|by rewrite Hobj|].
  intros e He. by destruct (Hstored e He) as (? & ? & ->).
Qed.

End Provider.

(** *** The loop detector over a history *)

(** What a provider reports to its detector. *)
Inductive event : Type := NoOp (o : Object) | Updated (o : Object).

Definition detect (d : updateLoopDetector) (ev : event) : updateLoopDetector * option (string * Z) :=
  match ev with
  | NoOp o => (recordNoOpUpdate d o (ObjectKeyFromObject o), None)
  | Updated o => recordActualUpdate d o (ObjectKeyFromObject o)
  end.

Definition detector_after (history : list event) : updateLoopDetector :=
  fold_left (λ d ev, (detect d ev).1) history newUpdateLoopDetector.

Definition cache_key (o : Object) : string := keyFor o (ObjectKeyFromObject o).

Definition is_noop (k : string) (ev : event) : bool :=
  match ev with NoOp o => str_eqb (cache_key o) k | Updated _ => false end.
Definition is_update (k : string) (ev : event) : bool :=
  match ev with
  | NoOp _ => false
  | Updated o => str_eqb (cache_key o) k && negb (str_eqb (goTypeName o) "*v1beta1.AWSEndpointService")
  end.
Definition updates (k : string) (history : list event) : Z :=
  Z.of_nat (length (List.filter (is_update k) history)).

Lemma detector_after_snoc h ev : detector_after (h ++ [ev]) = (detect (detector_after h) ev).1.
Proof. unfold detector_after. by rewrite fold_left_app. Qed.

Lemma updates_snoc k h ev :
  updates k (h ++ [ev]) = (updates k h + if is_update k ev then 1 else 0)%Z.
Proof.
  unfold updates. rewrite List.filter_app, length_app. simpl.
  destruct (is_update k ev); simpl; lia.
Qed.

(** What the detector remembers of a history. *)
Lemma detector_invariant h k :
  (k ∈ hasNoOpUpdate (detector_after h) ↔ existsb (is_noop k) h = true) ∧
  (existsb (is_noop k) h = false →
   default 0%Z (updateEventCount (detector_after h) !! k) = updates k h).
Proof.
  induction h as [|ev h [IHn IHc]] using rev_ind.
  { split; [|done]. split; [|done]. by intros ?%elem_of_empty. }
  rewrite detector_after_snoc, existsb_app, updates_snoc. simpl. rewrite orb_false_r.
  destruct ev as [o|o]; simpl.
  - rewrite orb_true_iff, orb_false_iff, elem_of_union, elem_of_singleton, IHn, str_eqb_eq.
    split; [unfold cache_key; naive_solver|]. intros [Hn _]. rewrite IHc by done. lia.
  - rewrite orb_false_r. unfold recordActualUpdate.
    destruct (str_eqb (goTypeName o) _) eqn:Ht; simpl.
    { rewrite andb_false_r. split; [done|]. intros Hn. rewrite IHc by done. lia. }
    rewrite andb_true_r. fold (cache_key o).
    destruct (bool_decide_reflect (cache_key o ∈ hasNoOpUpdate (detector_after h))) as [Hin|Hin];
      case_match eqn:Heq; simpl; (split; [done|]); intros Hn.
    all: unfold str_eqb in *; repeat case_bool_decide; subst; simpl;
      rewrite ?lookup_insert_eq, ?lookup_insert_ne by done; simpl; rewrite ?IHc by done; try lia.
    all: apply IHn in Hin; congruence.
Qed.

(** In any history of no-op and actual updates the detector warns on
an update exactly when the object is not an [AWSEndpointService], never had a
no-op update before, and this is at least its tenth update; the warning carries
that number. *)
Theorem loop_detector_warns h o k n :
  (detect (detector_after h) (Updated o)).2 = Some (k, n) ↔
  k = cache_key o ∧ goTypeName o ≠ "*v1beta1.AWSEndpointService" ∧
  existsb (is_noop k) h = false ∧ n = (updates k h + 1)%Z ∧ (10 ≤ n)%Z.
Proof.
  destruct (detector_invariant h (cache_key o)) as [Hn Hc].
  simpl. unfold recordActualUpdate, updateLoopThreshold. fold (cache_key o).
  unfold str_eqb. case_bool_decide as Ht; [naive_solver|].
  destruct (existsb (is_noop (cache_key o)) h) eqn:Hx.
  - rewrite bool_decide_true by (by apply Hn). simpl. naive_solver congruence.
  - rewrite bool_decide_false by (rewrite Hn; congruence). rewrite Hc by done.
    case_match eqn:Hlt; simpl; rewrite ?Z.ltb_lt, ?Z.ltb_ge in Hlt.
    + split; [done|]. intros (-> & _ & _ & -> & ?). lia.
    + naive_solver lia.
Qed.

(** *** A cluster *)

(** An API server that keeps its objects in a map and defaults deployments. *)
Module SampleCluster.

(** Images are pulled when they are not present, and nothing else is defaulted. *)
#[export] Instance sample_defaults : ServerDefaults := {
  pullPolicy _ := "IfNotPresent"; otherDefaults rest := rest }.

Definition admission (old : option Object) (o : Object) : Object :=
  match oBody o with
  | Deployment sel d => set_body (Deployment sel (SetDefaults_Deployment d)) o
  | _ => o
  end.

Abbreviation cluster := (gmap ObjectRef Object).

(** The deletion of an object that a finalizer holds is recorded in it. *)
Definition marked_deleted (o : Object) : Object :=
  mkObject (oNamespace o) (oName o) (oUID o) (oLabels o) (oAnnotations o) (oFinalizers o)
    (oResourceVersion o) (Some 1%Z) (oBody o) (oStatus o).

#[export] Instance map_Client : Client cluster ObjectRef Object := {
  c_get k s := match s !! k with Some o => Ret o | None => Throw NotFound end;
  c_create k o s := match s !! k with
    | Some _ => (Throw AlreadyExists, s)
    | None => let a := admission None o in (Ret a, <[k := a]> s) end;
  c_update k o s := match s !! k with
    | Some e => let a := admission (Some e) o in (Ret a, <[k := a]> s)
    | None => (Throw NotFound, s) end;
  c_status_update k o s := match s !! k with
    | Some e => (Ret o, <[k := o]> s)
    | None => (Throw NotFound, s) end;
  c_delete k s := match s !! k with
    | Some o => (Ret (), match oFinalizers o with [] => delete k s | _ => <[k := marked_deleted o]> s end)
    | None => (Throw NotFound, s) end;
}.

#[export] Program Instance map_ClientLaws : ClientLaws cluster ObjectRef Object := {
  view s := s; admit_object := admission; terminating o o' := o' = marked_deleted o }.
Next Obligation. intros k s o. simpl. case_match; split; congruence. Qed.
Next Obligation. intros k s e. simpl. by case_match. Qed.
Next Obligation. intros k o s o' s'. simpl. case_match; intros [=]; by subst. Qed.
Next Obligation. intros k o s o' s'. simpl. case_match; intros [=]; by subst. Qed.
Next Obligation. intros k o s o' s'. simpl. case_match; intros [=]; by subst. Qed.
Next Obligation.
  intros k s s'. simpl. case_match eqn:Hk; intros [=]; subst. case_match; [by left|]. right. eauto.
Qed.
Next Obligation.
  intros k s e s'. simpl. case_match eqn:Hk; intros [=] _; subst. by rewrite delete_id.
Qed.

#[export] Program Instance exact_equality : SemanticEqual := {
  DeepEqual a b := bool_decide (a = b) }.
Next Obligation. intros. by apply bool_decide_eq_true. Qed.

#[export] Program Instance sample_admission : DeploymentAdmission (S := cluster) := {
  server_defaults := sample_defaults }.
Next Obligation. intros old m sel d Hm. simpl. unfold admission. by rewrite Hm. Qed.

Lemma sample_complete d : complete_Deployment d.
Proof.
  assert (∀ c, complete_Container c).
  { intros c. unfold complete_Container, complete_opt. split_and!; try done; try case_match; try done;
      by apply Forall_true. }
  unfold complete_Deployment, complete_PodSpec, complete_opt. split_and!; try done; try case_match; try done;
    by apply Forall_true.
Qed.

(** The deployment a reconciler asks for, and the one the cluster first holds. *)
Definition container : Container :=
  mkContainer "" "" "" None None [] [] None "image: manager".
Definition pod : PodSpec := mkPodSpec [] [container] "" "manager" "" "" "" None [] None "".
Definition wanted : ObjectBody :=
  Deployment (Some "app=manager") (mkDeployment None None "" None None pod "").
Definition manager (b : ObjectBody) : Object :=
  mkObject "clusters" "manager" "" None None [] "" None b [].
Definition stored : Object := admission None (manager wanted).
Definition w0 : world cluster := New true ∅.
Definition w1 : world cluster := New true {[ref_of stored := stored]}.
Definition set_wanted : Object → go api_error Object := λ o, Ret (set_body wanted o).

End SampleCluster.
Import SampleCluster.

Lemma CreateOrUpdate_no_spurious_update_witness :
  CreateOrUpdate (manager wanted) set_wanted w1 =
    (Ret (OperationResultNone, stored), after_noop w1 stored).
Proof.
  apply (CreateOrUpdate_no_spurious_update w1 (manager wanted) set_wanted stored
           (set_body wanted stored)); try reflexivity.
  - split; [done|]. apply (SetDefaults_Deployment_fills (mkDeployment None None "" None None pod "")
      (mkDeployment None None "" None None pod "")); [apply fills_refl|apply sample_complete|by left].
  - apply SetDefaults_PodSpec_served.
Defined.

Lemma first_run : (CreateOrUpdate (manager wanted) set_wanted w0).1 =
  Ret (OperationResultCreated, stored).
Proof. vm_compute. reflexivity. Qed.

Lemma CreateOrUpdate_stores_witness :
  let '(r, w') := CreateOrUpdate (manager wanted) set_wanted w0 in
  r = Ret (OperationResultCreated, stored) ∧
  ∃ m, view (w_cluster w0) !! ref_of (manager wanted) = None ∧
       set_wanted (manager wanted) = Ret m ∧ stored = admit_object None m ∧
       view (w_cluster w') = <[ref_of (manager wanted) := stored]> (view (w_cluster w0)).
Proof.
  pose proof first_run as Hr.
  destruct (CreateOrUpdate (manager wanted) set_wanted w0) as [r w'] eqn:Hrun.
  simpl in Hr. subst r. split; [done|].
  apply (CreateOrUpdate_stores w0 (manager wanted) set_wanted _ _ w' Hrun).
  - intros old m Ht. unfold no_status, hasStatusSubResource.
    replace (goTypeName (admit_object old m)) with "*v1.Deployment"; [done|].
    simpl. unfold admission. destruct (oBody m); [reflexivity|by rewrite Ht..].
  - intros o m _ [= <-]. reflexivity.
  - intros e He. discriminate He.
Defined.

Lemma CreateOrUpdate_settles_witness :
  let '(r, w') := CreateOrUpdate (manager wanted) set_wanted w0 in
  r = Ret (OperationResultCreated, stored) ∧ settled w' (manager wanted) wanted.
Proof.
  pose proof first_run as Hr.
  destruct (CreateOrUpdate (manager wanted) set_wanted w0) as [r w'] eqn:Hrun.
  simpl in Hr. subst r. split; [done|].
  apply (CreateOrUpdate_settles w0 (manager wanted) (Some "app=manager")
           (mkDeployment None None "" None None pod "") _ _ w' Hrun).
  - apply sample_complete.
  - by left.
  - reflexivity.
  - intros e He. discriminate He.
Defined.

End UpsertProofs.
