(* ===== verification/Scheduler.v ===== *)
(** What the schedulers of hosted control planes share
([hypershift-operator/controllers/scheduler/]): the API objects they read and
write, the API server as an interface with its laws, the scheduling
annotations of [scheduler/util/scheduler.go] and the Azure scheduler
([scheduler/azure/controller.go]), which only sets them. *)
From S2P Require Import Prelude Api Quantity Upsert ClusterSizing.
From Stdlib Require Import Ascii.

Module Scheduler.
Import ClusterSizing.

(** *** Labels and annotations *)

Definition RequestServingComponentLabel : string := "hypershift.openshift.io/request-serving-component".
Definition HostedClusterLabel : string := "hypershift.openshift.io/cluster".
Definition NodeSizeLabel : string := "hypershift.openshift.io/cluster-size".
Definition TopologyAnnotation : string := "hypershift.openshift.io/topology".
Definition DedicatedRequestServingComponentsTopology : string := "dedicated-request-serving-components".
Definition RequestServingNodeAdditionalSelectorAnnotation : string :=
  "hypershift.openshift.io/request-serving-node-additional-selector".
Definition KubeAPIServerGOMemoryLimitAnnotation : string := "hypershift.openshift.io/kube-apiserver-gomemlimit".
Definition KubeAPIServerMaximumRequestsInFlight : string :=
  "hypershift.openshift.io/kube-apiserver-max-requests-inflight".
Definition KubeAPIServerMaximumMutatingRequestsInFlight : string :=
  "hypershift.openshift.io/kube-apiserver-max-mutating-requests-inflight".
Definition AWSLoadBalancerSubnetsAnnotation : string := "hypershift.openshift.io/aws-load-balancer-subnets".
Definition AWSLoadBalancerTargetNodesAnnotation : string :=
  "hypershift.openshift.io/aws-load-balancer-target-node-labels".
Definition ControlPlanePriorityClass : string := "hypershift.openshift.io/control-plane-priority-class".
Definition EtcdPriorityClass : string := "hypershift.openshift.io/etcd-priority-class".
Definition APICriticalPriorityClass : string := "hypershift.openshift.io/api-critical-priority-class".
Definition MachineHealthCheckTimeoutAnnotation : string := "hypershift.openshift.io/machine-health-check-timeout".
Definition ResourceRequestOverrideAnnotationPrefix : string := "resource-request-override.hypershift.openshift.io".
Definition GoMemLimitLabel : string := "hypershift.openshift.io/request-serving-gomemlimit".
Definition LBSubnetsLabel : string := "hypershift.openshift.io/request-serving-subnets".
Definition LabelTopologyZone : string := "topology.kubernetes.io/zone".

(** *** API objects *)

(** [types.NamespacedName] *)
Definition NamespacedName : Type := string * string.

(** [corev1.Taint] *)
Record Taint : Type := mkTaint { taintKey : string; taintValue : string; taintEffect : string }.

(** [corev1.Node]; a map without entries is decoded as the nil map. *)
Record Node : Type := mkNode {
  nodeName : string;
  nodeLabels : StringMap;
  nodeAnnotations : StringMap;
  nodeTaints : list Taint;
  nodeDeleting : bool;
  nodeCreation : Time;
}.

(** [corev1.Pod]: name, labels, node, node selector and phase *)
Record Pod : Type := mkPod {
  podNamespace : string;
  podName : string;
  podLabels : StringMap;
  podNodeName : string;
  podNodeSelector : StringMap;
  podPhase : string;
  podDeleting : bool;
}.

(** [corev1.ConfigMap] *)
Record ConfigMap : Type := mkConfigMap {
  cmNamespace : string;
  cmName : string;
  cmLabels : StringMap;
  cmData : StringMap;
}.

(** A requirement of a node or label selector: key, operator, values. *)
Record Requirement : Type := mkRequirement {
  reqKey : string;
  reqOperator : string;
  reqValues : list string;
}.

(** [corev1.PodAffinityTerm]: [LabelSelector.MatchLabels],
[LabelSelector.MatchExpressions] and [TopologyKey] *)
Record PodAffinityTerm : Type := mkTerm {
  termMatchLabels : StringMap;
  termMatchExpressions : list Requirement;
  termTopologyKey : string;
}.

(** [corev1.Affinity]: the required terms; [NodeAffinity] and the node selector
in it are pointers. *)
Record Affinity : Type := mkAffinity {
  NodeAffinity : option (option (list (list Requirement)));
  PodAffinity : option (list PodAffinityTerm);
  PodAntiAffinity : option (list PodAffinityTerm);
}.

(** [corev1.Toleration] *)
Record Toleration : Type := mkToleration {
  tolKey : string; tolOperator : string; tolValue : string; tolEffect : string }.

(** [appsv1.DeploymentSpec] and the pod template of a placeholder *)
Record DeploymentSpec : Type := mkDeploymentSpec {
  dReplicas : option Z;
  dStrategy : string;
  dSelector : StringMap;
  dTemplateLabels : StringMap;
  dNodeSelector : StringMap;
  dAffinity : option Affinity;
  dTolerations : list Toleration;
  dContainers : list (string * string);
}.

(** [appsv1.DeploymentStatus] *)
Record DeploymentStatus : Type := mkDeploymentStatus {
  AvailableReplicas : Z;
  ReadyReplicas : Z;
  UpdatedReplicas : Z;
  statusReplicas : Z;
  UnavailableReplicas : Z;
  ObservedGeneration : Z;
}.

Record Deployment : Type := mkDeployment {
  dNamespace : string;
  dName : string;
  dLabels : StringMap;
  dDeleting : bool;
  dGeneration : Z;
  dSpec : DeploymentSpec;
  dStatus : DeploymentStatus;
}.

(** [machinev1beta1.MachineSet]: [Spec.Template.Labels], the labels of the nodes
([Spec.Template.Spec.Labels]), [Spec.Replicas], [Status.AvailableReplicas] *)
Record MachineSet : Type := mkMachineSet {
  msNamespace : string;
  msName : string;
  msAnnotations : StringMap;
  msTemplateLabels : StringMap;
  msNodeLabels : StringMap;
  msReplicas : option Z;
  msAvailableReplicas : Z;
}.

(** [vpaautoscalingv1.VerticalPodAutoscaler], with the memory of a recommendation
for a container *)
Record PodUpdatePolicy : Type := mkUpdatePolicy { UpdateMode : option string; MinReplicas : option Z }.
Record TargetRef : Type := mkTargetRef { trAPIVersion : string; trKind : string; trName : string }.
Record ContainerRecommendation : Type := mkRecommendation {
  recommendedContainer : string;
  UncappedTargetMemory : option Quantity.Quantity;
}.
Record VPACondition : Type := mkVPACondition { vcType : string; vcStatus : string }.
Record VPA : Type := mkVPA {
  vpaNamespace : string;
  vpaName : string;
  vpaDeleting : bool;
  vpaAnnotations : StringMap;
  vpaUpdatePolicy : option PodUpdatePolicy;
  vpaTargetRef : option TargetRef;
  vpaRecommendation : option (list ContainerRecommendation);
  vpaConditions : list VPACondition;
}.

(** [machinev1beta1.Machine] *)
Record Machine : Type := mkMachine { machineName : string; machineLabels : StringMap }.

#[export] Instance Taint_eq_dec : EqDecision Taint. Proof. solve_decision. Defined.
#[export] Instance Node_eq_dec : EqDecision Node. Proof. solve_decision. Defined.
#[export] Instance Pod_eq_dec : EqDecision Pod. Proof. solve_decision. Defined.
#[export] Instance ConfigMap_eq_dec : EqDecision ConfigMap. Proof. solve_decision. Defined.
#[export] Instance Requirement_eq_dec : EqDecision Requirement. Proof. solve_decision. Defined.
#[export] Instance PodAffinityTerm_eq_dec : EqDecision PodAffinityTerm. Proof. solve_decision. Defined.
#[export] Instance Affinity_eq_dec : EqDecision Affinity. Proof. solve_decision. Defined.
#[export] Instance Toleration_eq_dec : EqDecision Toleration. Proof. solve_decision. Defined.
#[export] Instance DeploymentSpec_eq_dec : EqDecision DeploymentSpec. Proof. solve_decision. Defined.
#[export] Instance MachineSet_eq_dec : EqDecision MachineSet. Proof. solve_decision. Defined.

Definition hcKey (hc : HostedCluster) : NamespacedName := (hcNamespace hc, hcName hc).
Definition vpaKey (v : VPA) : NamespacedName := (vpaNamespace v, vpaName v).
Definition dKey (d : Deployment) : NamespacedName := (dNamespace d, dName d).
Definition cmKey (cm : ConfigMap) : NamespacedName := (cmNamespace cm, cmName cm).

Definition set_hcAnnotations (m : StringMap) (hc : HostedCluster) : HostedCluster :=
  mkHC (hcNamespace hc) (hcName hc) (hcDeleting hc) (hcPausedUntil hc) (hcLabels hc) m
    (hcConditions hc) (hcFinalizers hc).
Definition set_hcFinalizers (l : list string) (hc : HostedCluster) : HostedCluster :=
  mkHC (hcNamespace hc) (hcName hc) (hcDeleting hc) (hcPausedUntil hc) (hcLabels hc) (hcAnnotations hc)
    (hcConditions hc) l.

(** [ctrl.Result] *)
Record Result : Type := mkResult { Requeue : bool; RequeueAfter : Duration }.
Definition no_requeue : Result := mkResult false 0.

(** *** The API server *)

(** [client.Client] as the schedulers use it.  Label selectors are applied to the
lists where the code passes them. *)
Class Kube (S : Type) : Type := {
  k_get_hc : NamespacedName → S → go api_error HostedCluster;
  k_list_hcs : S → go api_error (list HostedCluster);
  k_update_hc : HostedCluster → S → go api_error unit * S;
  k_patch_hc : HostedCluster → HostedCluster → S → go api_error unit * S;
  k_get_sizing : S → go api_error ClusterSizingConfiguration;
  k_get_node : string → S → go api_error Node;
  k_list_nodes : S → go api_error (list Node);
  k_patch_node : Node → Node → S → go api_error unit * S;
  k_delete_node : Node → S → go api_error unit * S;
  k_get_cm : NamespacedName → S → go api_error ConfigMap;
  k_list_cms : string → S → go api_error (list ConfigMap);
  k_create_cm : ConfigMap → S → go api_error unit * S;
  k_delete_cm : ConfigMap → S → go api_error unit * S;
  k_get_deployment : NamespacedName → S → go api_error Deployment;
  k_list_deployments : string → S → go api_error (list Deployment);
  k_create_or_update_deployment : Deployment → (Deployment → Deployment) → S → go api_error Deployment * S;
  k_apply_deployment : Deployment → S → go api_error unit * S;
  k_delete_deployment : NamespacedName → S → go api_error unit * S;
  k_list_pods : string → S → go api_error (list Pod);
  k_list_machinesets : string → S → go api_error (list MachineSet);
  k_list_machines : string → S → go api_error (list Machine);
  k_scale_machineset : MachineSet → Z → S → go api_error unit * S;
  k_get_vpa : NamespacedName → S → go api_error VPA;
  k_create_or_update_vpa : VPA → (VPA → VPA) → S → go api_error VPA * S;
  k_delete_vpa : NamespacedName → S → go api_error unit * S;
}.

(** [resource.Quantity.String] *)
Class QuantityText : Type := { quantity_String : Quantity.Quantity → string }.

(** [client.HasLabels] *)
Definition has_labels (keys : list string) (labels : StringMap) : bool := forallb (mhas labels) keys.

(** [client.MatchingLabels]: every entry of the selector is a label. *)
Definition matching_labels (sel labels : StringMap) : bool := bool_decide (sel ⊆ labels).

(** *** [scheduler/util/scheduler.go] *)

(** [strings.ReplaceAll(s, ".", ",")] *)
Fixpoint dots_to_commas (s : string) : string :=
  match s with
  | EmptyString => EmptyString
  | String c s => String (if Ascii.eqb c "."%char then ","%char else c) (dots_to_commas s)
  end.

(** [func getLBSubnetsFromNodes(nodes []corev1.Node) string] *)
Definition getLBSubnetsFromNodes (nodes : list Node) : string :=
  match List.find (λ n, negb (str_eqb (mget (nodeLabels n) LBSubnetsLabel) "")) nodes with
  | Some n => dots_to_commas (mget (nodeLabels n) LBSubnetsLabel)
  | None => ""
  end.

(** [func getGoMemLimitLabelFromNodes(nodes []corev1.Node) string] *)
Definition getGoMemLimitLabelFromNodes (nodes : list Node) : string :=
  match List.find (λ n, negb (str_eqb (mget (nodeLabels n) GoMemLimitLabel) "")) nodes with
  | Some n => mget (nodeLabels n) GoMemLimitLabel
  | None => ""
  end.

(** [func SizeConfiguration(config *ClusterSizingConfiguration, size string) *SizeConfiguration] *)
Definition SizeConfigurationFor (config : ClusterSizingConfiguration) (size : string) : option SizeConfiguration :=
  List.find (λ c, str_eqb (scName c) size) (Sizes config).

(** [func configHasMHCTimeout(config *ClusterSizingConfiguration) bool] *)
Definition configHasMHCTimeout (config : ClusterSizingConfiguration) : bool :=
  existsb (λ c, match scEffects c with
                | Some e => bool_decide (is_Some (MachineHealthCheckTimeout e))
                | None => false
                end) (Sizes config).

Section Annotations.
Context `{!QuantityText}.

(** The value of one override annotation. *)
Definition request_value (r : ResourceRequest) : string :=
  let value := match rrMemory r with Some q => "memory=" +:+ quantity_String q | None => "" end in
  match rrCPU r with
  | Some q => (if str_eqb value "" then "" else value +:+ ",") +:+ "cpu=" +:+ quantity_String q
  | None => value
  end.
Definition request_key (r : ResourceRequest) : string :=
  ResourceRequestOverrideAnnotationPrefix +:+ "/" +:+ DeploymentName r +:+ "." +:+ ContainerName r.

(** [func ResourceRequestsToOverrideAnnotations(requests []ResourceRequest) map[string]string]:
a later request for the same container replaces an earlier one. *)
Definition ResourceRequestsToOverrideAnnotations (requests : list ResourceRequest) : StringMap :=
  foldl (λ m r, <[request_key r := request_value r]> m) ∅ requests.

(** [if v != nil { annotations[k] = *v }] *)
Definition set_some {A} (text : A → string) (k : string) (v : option A) (m : StringMap) : StringMap :=
  match v with Some a => <[k := text a]> m | None => m end.
(** [if v != "" { annotations[k] = v }] *)
Definition set_nonempty (k v : string) (m : StringMap) : StringMap :=
  if str_eqb v "" then m else <[k := v]> m.

(** The annotations [setHostedClusterSchedulingAnnotations] leaves for a size that
is configured. *)
Definition scheduling_annotations (size : string) (config : ClusterSizingConfiguration)
    (sizeConfig : SizeConfiguration) (nodes : list Node) (m : StringMap) : StringMap :=
  let effect {A} (f : Effects → option A) : option A := scEffects sizeConfig ≫= f in
  let m := <[HostedClusterScheduledAnnotation := "true"]> m in
  let goMemLimit := default "" (effect KASGoMemLimit) in
  let limit := getGoMemLimitLabelFromNodes nodes in
  let goMemLimit := if str_eqb limit "" then goMemLimit else limit in
  let m := set_nonempty KubeAPIServerGOMemoryLimitAnnotation goMemLimit m in
  let m := set_some id ControlPlanePriorityClass (effect ControlPlanePriorityClassName) m in
  let m := set_some id EtcdPriorityClass (effect EtcdPriorityClassName) m in
  let m := set_some id APICriticalPriorityClass (effect APICriticalPriorityClassName) m in
  let m := match effect MachineHealthCheckTimeout with
           | Some d => <[MachineHealthCheckTimeoutAnnotation := dur_string d]> m
           | None => if configHasMHCTimeout config then delete MachineHealthCheckTimeoutAnnotation m else m
           end in
  let m := set_some itoa KubeAPIServerMaximumRequestsInFlight (effect MaximumRequestsInflight) m in
  let m := set_some itoa KubeAPIServerMaximumMutatingRequestsInFlight (effect MaximumMutatingRequestsInflight) m in
  let m := ResourceRequestsToOverrideAnnotations (from_option ResourceRequests [] (scEffects sizeConfig)) ∪ m in
  match nodes with
  | [] => m
  | _ =>
      let m := set_nonempty AWSLoadBalancerSubnetsAnnotation (getLBSubnetsFromNodes nodes) m in
      <[RequestServingNodeAdditionalSelectorAnnotation := NodeSizeLabel +:+ "=" +:+ size]> m
  end.

(** [func setHostedClusterSchedulingAnnotations(hc, size, config, nodes) ( *hyperv1.HostedCluster, error)] *)
Definition setHostedClusterSchedulingAnnotations (hc : HostedCluster) (size : string)
    (config : ClusterSizingConfiguration) (nodes : list Node) : go api_error HostedCluster :=
  match SizeConfigurationFor config size with
  | None => Throw (OtherError ("could not find size configuration for size " +:+ size))
  | Some sizeConfig =>
      Ret (set_hcAnnotations (scheduling_annotations size config sizeConfig nodes (hcAnnotations hc)) hc)
  end.

Context {S : Type} `{!Kube S}.
Local Abbreviation M := (st S api_error).

Definition wrap {A} (msg : string) (m : M A) : M A := st_catch m (λ err, st_throw (Wrapped msg err)).
Definition reads {A} (f : S → go api_error A) : M A := λ s, (f s, s).

(** [func UpdateHostedCluster(ctx, c client.Client, hc, size, config, nodes) error] *)
Definition UpdateHostedCluster (hc : HostedCluster) (size : string) (config : ClusterSizingConfiguration)
    (nodes : list Node) : M unit :=
  hc' ← wrap "failed to update hostedcluster" (st_lift (setHostedClusterSchedulingAnnotations hc size config nodes));
  if bool_decide (hc' = hc) then mret ()
  else wrap "failed to update hostedcluster" (k_patch_hc hc hc').

(** [meta.FindStatusCondition(config.Status.Conditions, ClusterSizingConfigurationValidType)]
is there and true. *)
Definition config_valid (config : ClusterSizingConfiguration) : bool :=
  match Meta.FindStatusCondition (configConditions config) ClusterSizingConfigurationValidType with
  | Some c => bool_decide (cStatus c = ConditionTrue)
  | None => false
  end.

(** [time.Parse(time.RFC3339, _)] and [time.Now()] *)
Context (parse_rfc3339 : string → option Time) (now : Time).

(** *** [scheduler/azure/controller.go] *)

(** [r.Get(ctx, req.NamespacedName, hc)] with the early return when there is none. *)
Definition with_hosted_cluster (req : NamespacedName) (body : HostedCluster → M Result) : M Result := λ s,
  match k_get_hc req s with
  | Panic => (Panic, s)
  | Throw err =>
      if IsNotFound err then (Ret no_requeue, s) else (Throw (Wrapped "failed to get cluster" err), s)
  | Ret hc => body hc s
  end.

(** [util.ProcessPausedUntilField] with the early returns on an invalid field and
on a paused cluster. *)
Definition unless_paused (hc : HostedCluster) (body : M Result) : M Result :=
  match ProcessPausedUntilField parse_rfc3339 (hcPausedUntil hc) now with
  | Throw _ => mret no_requeue
  | Panic => st_panic
  | Ret (true, duration) => mret (mkResult false duration)
  | Ret (false, _) => body
  end.

(** The size label and a valid sizing configuration, or an early return. *)
Definition with_desired_size (hc : HostedCluster)
    (body : string → ClusterSizingConfiguration → M Result) : M Result :=
  let desiredSize := mget (hcLabels hc) HostedClusterSizeLabel in
  if str_eqb desiredSize "" then mret no_requeue else
  config ← wrap "could not get cluster sizing configuration" (reads k_get_sizing);
  if negb (config_valid config) then mret no_requeue else body desiredSize config.

(** [func (r *Scheduler) Reconcile(ctx, req ctrl.Request) (ctrl.Result, error)] *)
Definition azure_Reconcile (req : NamespacedName) : M Result :=
  with_hosted_cluster req (λ hc,
    if hcDeleting hc then mret no_requeue else
    unless_paused hc (
      with_desired_size hc (λ desiredSize config,
        match SizeConfigurationFor config desiredSize with
        | None => st_throw (OtherError ("could not find size configuration for size " +:+ desiredSize))
        | Some _ =>
            _ ← UpdateHostedCluster hc desiredSize config [];
            mret no_requeue
        end))).

End Annotations.

End Scheduler.
