(* ===== verification/SchedulerLaws.v ===== *)
(** What the schedulers rely on from the API server, and the reasoning rules for
code that calls it: the contents of the management cluster ([Objects]), the
effect of every call ([KubeLaws]), rules for what a command preserves whatever
its outcome, and a cluster kept in memory that satisfies the laws. *)
From S2P Require Import Prelude Api Quantity Upsert ClusterSizing Scheduler.

Module SchedulerLaws.
Import ClusterSizing Scheduler.

(** The objects of the management cluster. *)
Record Objects : Type := mkObjects {
  o_hcs : gmap NamespacedName HostedCluster;
  o_sizing : option ClusterSizingConfiguration;
  o_nodes : gmap string Node;
  o_cms : gmap NamespacedName ConfigMap;
  o_deployments : gmap NamespacedName Deployment;
  o_pods : gmap NamespacedName Pod;
  o_machinesets : gmap NamespacedName MachineSet;
  o_machines : gmap string Machine;
  o_vpas : gmap NamespacedName VPA;
}.

Definition with_hcs m v := mkObjects m (o_sizing v) (o_nodes v) (o_cms v) (o_deployments v) (o_pods v)
  (o_machinesets v) (o_machines v) (o_vpas v).
Definition with_nodes m v := mkObjects (o_hcs v) (o_sizing v) m (o_cms v) (o_deployments v) (o_pods v)
  (o_machinesets v) (o_machines v) (o_vpas v).
Definition with_cms m v := mkObjects (o_hcs v) (o_sizing v) (o_nodes v) m (o_deployments v) (o_pods v)
  (o_machinesets v) (o_machines v) (o_vpas v).
Definition with_deployments m v := mkObjects (o_hcs v) (o_sizing v) (o_nodes v) (o_cms v) m (o_pods v)
  (o_machinesets v) (o_machines v) (o_vpas v).
Definition with_machinesets m v := mkObjects (o_hcs v) (o_sizing v) (o_nodes v) (o_cms v) (o_deployments v)
  (o_pods v) m (o_machines v) (o_vpas v).
Definition with_vpas m v := mkObjects (o_hcs v) (o_sizing v) (o_nodes v) (o_cms v) (o_deployments v)
  (o_pods v) (o_machinesets v) (o_machines v) m.

Definition podKey (p : Pod) : NamespacedName := (podNamespace p, podName p).
Definition msKey (ms : MachineSet) : NamespacedName := (msNamespace ms, msName ms).

Definition scaled (n : Z) (ms : MachineSet) : MachineSet :=
  mkMachineSet (msNamespace ms) (msName ms) (msAnnotations ms) (msTemplateLabels ms) (msNodeLabels ms)
    (Some n) (msAvailableReplicas ms).

(** A hosted cluster as it is stored: one that is being deleted goes away with
its last finalizer. *)
Definition store_hc (hc : HostedCluster) (m : gmap NamespacedName HostedCluster) :=
  if hcDeleting hc && bool_decide (hcFinalizers hc = []) then delete (hcKey hc) m else <[hcKey hc := hc]> m.

Definition mark_deleting (n : Node) : Node :=
  mkNode (nodeName n) (nodeLabels n) (nodeAnnotations n) (nodeTaints n) true (nodeCreation n).

(** The effect of a write: what was asked for, or, unless the call succeeded,
nothing; a call that fails may have taken effect. *)
Definition wrote {A} (r : go api_error A) (before after target : Objects) : Prop :=
  after = target ∨ (after = before ∧ ∀ a, r ≠ Ret a).

Definition values {K A} `{Countable K} (m : gmap K A) : list A := (map_to_list m).*2.

(** A list of the objects of a kind that pass a selection, in some order, each
stored under its own key. *)
Definition listing {K A} `{Countable K} (key : A → K) (p : A → bool) (m : gmap K A) (l : list A) : Prop :=
  l ≡ₚ List.filter p (values m) ∧ ∀ x, x ∈ l → m !! key x = Some x.

Class KubeLaws (S : Type) `{!Kube S} : Type := {
  view : S → Objects;
  (** Reads give what is stored, under the object's own key. *)
  get_hc_stored k s hc : k_get_hc k s = Ret hc → o_hcs (view s) !! k = Some hc ∧ hcKey hc = k;
  get_hc_missing k s e : k_get_hc k s = Throw e → IsNotFound e = true → o_hcs (view s) !! k = None;
  list_hcs_stored s l : k_list_hcs s = Ret l → listing hcKey (λ _, true) (o_hcs (view s)) l;
  get_sizing_stored s c : k_get_sizing s = Ret c → o_sizing (view s) = Some c;
  get_node_stored k s n : k_get_node k s = Ret n → o_nodes (view s) !! k = Some n ∧ nodeName n = k;
  get_node_missing k s e : k_get_node k s = Throw e → IsNotFound e = true → o_nodes (view s) !! k = None;
  list_nodes_stored s l : k_list_nodes s = Ret l → listing nodeName (λ _, true) (o_nodes (view s)) l;
  get_cm_stored k s cm : k_get_cm k s = Ret cm → o_cms (view s) !! k = Some cm ∧ cmKey cm = k;
  get_cm_missing k s e : k_get_cm k s = Throw e → IsNotFound e = true → o_cms (view s) !! k = None;
  list_cms_stored ns s l : k_list_cms ns s = Ret l →
    listing cmKey (λ cm, str_eqb (cmNamespace cm) ns) (o_cms (view s)) l;
  get_deployment_stored k s d : k_get_deployment k s = Ret d → o_deployments (view s) !! k = Some d ∧ dKey d = k;
  get_deployment_missing k s e : k_get_deployment k s = Throw e → IsNotFound e = true →
    o_deployments (view s) !! k = None;
  list_deployments_stored ns s l : k_list_deployments ns s = Ret l →
    listing dKey (λ d, str_eqb (dNamespace d) ns) (o_deployments (view s)) l;
  list_pods_stored ns s l : k_list_pods ns s = Ret l →
    listing podKey (λ p, str_eqb (podNamespace p) ns) (o_pods (view s)) l;
  list_machinesets_stored ns s l : k_list_machinesets ns s = Ret l →
    listing msKey (λ ms, str_eqb (msNamespace ms) ns) (o_machinesets (view s)) l;
  (** An update replaces the object. *)
  update_hc_stored hc s r s' : k_update_hc hc s = (r, s') → is_Some (o_hcs (view s) !! hcKey hc) →
    wrote r (view s) (view s') (with_hcs (store_hc hc (o_hcs (view s))) (view s));
  (** A patch of the annotations of the stored object. *)
  patch_hc_stored hc m s r s' : k_patch_hc hc (set_hcAnnotations m hc) s = (r, s') →
    o_hcs (view s) !! hcKey hc = Some hc →
    wrote r (view s) (view s') (with_hcs (<[hcKey hc := set_hcAnnotations m hc]> (o_hcs (view s))) (view s));
  (** A patch with an optimistic lock: nothing happens when the node changed. *)
  patch_node_stored n n' s r s' : k_patch_node n n' s = (r, s') → nodeName n' = nodeName n →
    (o_nodes (view s) !! nodeName n = Some n ∧
     wrote r (view s) (view s') (with_nodes (<[nodeName n := n']> (o_nodes (view s))) (view s))) ∨
    (view s' = view s ∧ ∀ a, r ≠ Ret a);
  delete_node_stored n s r s' : k_delete_node n s = (r, s') →
    wrote r (view s) (view s') (with_nodes (delete (nodeName n) (o_nodes (view s))) (view s)) ∨
    wrote r (view s) (view s')
      (with_nodes (alter mark_deleting (nodeName n) (o_nodes (view s))) (view s));
  (** Creating an object that exists fails. *)
  create_cm_stored cm s r s' : k_create_cm cm s = (r, s') →
    (o_cms (view s) !! cmKey cm = None ∧
     wrote r (view s) (view s') (with_cms (<[cmKey cm := cm]> (o_cms (view s))) (view s))) ∨
    (view s' = view s ∧ ∀ a, r ≠ Ret a);
  delete_cm_stored cm s r s' : k_delete_cm cm s = (r, s') →
    wrote r (view s) (view s') (with_cms (delete (cmKey cm) (o_cms (view s))) (view s));
  (** [CreateOrUpdate] stores the object of the key with the fields the function
  sets, and nothing else changes. *)
  cou_deployment_stored d f s r s' : k_create_or_update_deployment d f s = (r, s') →
    (∀ d', r = Ret d' → dKey d' = dKey d ∧ (∃ base, dSpec d' = dSpec (f base)) ∧
       view s' = with_deployments (<[dKey d := d']> (o_deployments (view s))) (view s)) ∧
    ∃ m, view s' = with_deployments m (view s) ∧ ∀ k, k ≠ dKey d → m !! k = o_deployments (view s) !! k;
  apply_deployment_stored d s r s' : k_apply_deployment d s = (r, s') →
    ∃ d', dKey d' = dKey d ∧ dSpec d' = dSpec d ∧ dLabels d ⊆ dLabels d' ∧
    wrote r (view s) (view s') (with_deployments (<[dKey d := d']> (o_deployments (view s))) (view s));
  delete_deployment_stored k s r s' : k_delete_deployment k s = (r, s') →
    ∃ m, view s' = with_deployments m (view s) ∧ (∀ k', k' ≠ k → m !! k' = o_deployments (view s) !! k');
  scale_machineset_stored ms n s r s' : k_scale_machineset ms n s = (r, s') →
    wrote r (view s) (view s')
      (with_machinesets (alter (scaled n) (msKey ms) (o_machinesets (view s))) (view s));
  cou_vpa_stored v f s r s' : k_create_or_update_vpa v f s = (r, s') →
    (∀ v', r = Ret v' → vpaKey v' = vpaKey v ∧
       view s' = with_vpas (<[vpaKey v := v']> (o_vpas (view s))) (view s)) ∧
    ∃ m, view s' = with_vpas m (view s) ∧ ∀ k, k ≠ vpaKey v → m !! k = o_vpas (view s) !! k;
  delete_vpa_stored k s r s' : k_delete_vpa k s = (r, s') →
    ∃ m, view s' = with_vpas m (view s) ∧ ∀ k', k' ≠ k → m !! k' = o_vpas (view s) !! k';
}.

Lemma wrote_Ret {A} (a : A) before after target :
  wrote (Ret a) before after target → after = target.
Proof. intros [?|[_ H]]; [done|]. by destruct (H a). Qed.

Lemma values_elem {K A} `{Countable K} (m : gmap K A) x : x ∈ values m ↔ ∃ k, m !! k = Some x.
Proof.
  unfold values. rewrite list_elem_of_fmap. split.
  - intros ([k y] & -> & Hin). exists k. by apply elem_of_map_to_list in Hin.
  - intros [k Hk]. exists (k, x). split; [done|]. by apply elem_of_map_to_list.
Qed.

Lemma listing_elem {K A} `{Countable K} (key : A → K) p (m : gmap K A) l x :
  listing key p m l → x ∈ l → m !! key x = Some x ∧ p x = true.
Proof.
  intros [Hl Hkey] Hx. split; [by apply Hkey|]. rewrite Hl in Hx. by apply elem_of_filter_bool in Hx as [_ ?].
Qed.

Lemma listing_intro {K A} `{Countable K} (key : A → K) p (m : gmap K A) l k x :
  listing key p m l → m !! k = Some x → p x = true → x ∈ l.
Proof.
  intros [Hl _] Hk Hp. rewrite Hl. apply elem_of_filter_bool. split; [|done]. apply values_elem. by exists k.
Qed.

(** *** What a command preserves, whatever its outcome *)

Section Rules.
Context {S : Type} `{!Kube S} `{!KubeLaws S}.
Local Abbreviation M := (st S api_error).

Definition keeps (P : Objects → Prop) {A} (m : M A) : Prop :=
  ∀ s r s', m s = (r, s') → P (view s) → P (view s').

(** The same with another condition at the end. *)
Definition leads (P Q : Objects → Prop) {A} (m : M A) : Prop :=
  ∀ s r s', m s = (r, s') → P (view s) → Q (view s').

(** A command and what holds of its result and the state it leaves. *)
Definition ensures (P : Objects → Prop) {A} (m : M A) (Q : A → Objects → Prop) : Prop :=
  ∀ s r s', m s = (r, s') → P (view s) → P (view s') ∧ ∀ a, r = Ret a → Q a (view s').

Lemma keeps_ret P {A} (a : A) : keeps P (mret a).
Proof. intros s r s' [= <- <-]. done. Qed.
Lemma keeps_throw P {A} e : keeps P (st_throw (A:=A) e).
Proof. intros s r s' [= <- <-]. done. Qed.
Lemma keeps_panic P {A} : keeps P (st_panic (A:=A)).
Proof. intros s r s' [= <- <-]. done. Qed.
Lemma keeps_lift P {A} (m : go api_error A) : keeps P (st_lift m).
Proof. intros s r s' [= <- <-]. done. Qed.
Lemma keeps_reads P {A} (f : S → go api_error A) : keeps P (reads f).
Proof. intros s r s' [= <- <-]. done. Qed.

Lemma keeps_bind P {A B} (m : M A) (k : A → M B) :
  keeps P m → (∀ a, keeps P (k a)) → keeps P (m ≫= k).
Proof.
  intros Hm Hk s r s'. unfold mbind, st_bind. destruct (m s) as [[a|e|] s1] eqn:E.
  - intros H HP. eapply Hk, Hm; eauto.
  - intros [= <- <-]. by eapply Hm.
  - intros [= <- <-]. by eapply Hm.
Qed.

Lemma bind_inv {A B} (m : M A) (k : A → M B) s r s' : (m ≫= k) s = (r, s') →
  (∃ a s1, m s = (Ret a, s1) ∧ k a s1 = (r, s')) ∨
  ∃ r1, m s = (r1, s') ∧ (∀ a, r1 ≠ Ret a) ∧ (∀ b, r ≠ Ret b).
Proof.
  unfold mbind, st_bind. destruct (m s) as [[a|e|] s1]; [eauto|..]; intros [= <- <-]; right; eauto.
Qed.

Lemma wrap_inv {A} msg (m : M A) s r s' : wrap msg m s = (r, s') →
  ∃ r1, m s = (r1, s') ∧ ∀ a, r = Ret a ↔ r1 = Ret a.
Proof.
  unfold wrap, st_catch. destruct (m s) as [[a|e|] s1]; intros [= <- <-]; eexists; split; done.
Qed.

Lemma leads_bind (P R Q : Objects → Prop) {A B} (m : M A) (k : A → M B) :
  leads P R m → (∀ v, R v → Q v) → (∀ a, leads R Q (k a)) → leads P Q (m ≫= k).
Proof.
  intros Hm HRQ Hk s r s'. unfold mbind, st_bind. destruct (m s) as [[a|e|] s1] eqn:E.
  - intros Hrun HP. eapply Hk, Hm; eauto.
  - intros [= <- <-] ?. by eapply HRQ, Hm.
  - intros [= <- <-] ?. by eapply HRQ, Hm.
Qed.

Lemma leads_keeps (P Q : Objects → Prop) {A} (m : M A) : keeps Q m → (∀ v, P v → Q v) → leads P Q m.
Proof. intros Hm HPQ s r s' E HP. eapply Hm; eauto. Qed.

Lemma keeps_leads (P Q : Objects → Prop) {A} (m : M A) : keeps P m → (∀ v, P v → Q v) → leads P Q m.
Proof. intros Hm HPQ s r s' E HP. eapply HPQ, Hm; eauto. Qed.

Lemma keeps_wrap P {A} msg (m : M A) : keeps P m → keeps P (wrap msg m).
Proof.
  intros Hm s r s'. unfold wrap, st_catch. destruct (m s) as [[a|e|] s1] eqn:E;
    intros [= <- <-]; by eapply Hm.
Qed.

Lemma keeps_for P {A} (l : list A) (body : A → M unit) :
  (∀ x, x ∈ l → keeps P (body x)) → keeps P (st_for l body).
Proof.
  induction l as [|x l IH]; intros H; simpl; [apply keeps_ret|].
  apply keeps_bind; [apply H; left|]. intros _. apply IH. intros y Hy. apply H. by right.
Qed.

Lemma ensures_keeps P {A} (m : M A) Q : ensures P m Q → keeps P m.
Proof. intros H s r s' Hm HP. by apply (H s r s' Hm HP). Qed.

Lemma ensures_bind P {A B} (m : M A) (k : A → M B) Q :
  ensures P m Q → (∀ a, keeps (λ v, P v ∧ Q a v) (k a)) → keeps P (m ≫= k).
Proof.
  intros Hm Hk s r s'. unfold mbind, st_bind. destruct (m s) as [[a|e|] s1] eqn:E.
  - intros H HP. destruct (Hm _ _ _ E HP) as [HP1 HQ]. apply (Hk a _ _ _ H). auto.
  - intros [= <- <-] HP. by apply (Hm _ _ _ E HP).
  - intros [= <- <-] HP. by apply (Hm _ _ _ E HP).
Qed.

Lemma ensures_leads (P R : Objects → Prop) {A B} (m : M A) (k : A → M B) Q :
  ensures P m Q → (∀ v, P v → R v) → (∀ a, leads (λ v, P v ∧ Q a v) R (k a)) → leads P R (m ≫= k).
Proof.
  intros Hm HPR Hk s r s'. unfold mbind, st_bind. destruct (m s) as [[a|e|] s1] eqn:E.
  - intros Hrun HP. destruct (Hm _ _ _ E HP) as [HP1 HQ]. apply (Hk a _ _ _ Hrun). auto.
  - intros [= <- <-] HP. by apply HPR, (Hm _ _ _ E HP).
  - intros [= <- <-] HP. by apply HPR, (Hm _ _ _ E HP).
Qed.

Lemma ensures_pure P {A B} (m : M A) (k : A → M B) (Q : A → Prop) :
  ensures P m (λ a _, Q a) → (∀ a, Q a → keeps P (k a)) → keeps P (m ≫= k).
Proof.
  intros Hm Hk s r s'. unfold mbind, st_bind. destruct (m s) as [[a|e|] s1] eqn:E.
  - intros Hrun HP. destruct (Hm _ _ _ E HP) as [HP1 HQ]. by apply (Hk a (HQ a eq_refl) _ _ _ Hrun).
  - intros [= <- <-] HP. by apply (Hm _ _ _ E HP).
  - intros [= <- <-] HP. by apply (Hm _ _ _ E HP).
Qed.

Lemma ensures_wrap P {A} msg (m : M A) Q : ensures P m Q → ensures P (wrap msg m) Q.
Proof.
  intros Hm s r s'. unfold wrap, st_catch. destruct (m s) as [[a|e|] s1] eqn:E;
    intros [= <- <-] HP; destruct (Hm _ _ _ E HP) as [??]; split; naive_solver.
Qed.

(** A read, and what it says of the state it was made in. *)
Lemma ensures_reads P {A} (f : S → go api_error A) (Q : A → Objects → Prop) :
  (∀ s a, f s = Ret a → P (view s) → Q a (view s)) → ensures P (reads f) Q.
Proof. intros H s r s' [= <- <-] HP. split; [done|]. eauto. Qed.

Lemma keeps_weaken P P' {A} (m : M A) :
  keeps P m → (∀ v, P' v → P v) → (∀ v, P v → P' v) → keeps P' m.
Proof. intros Hm H1 H2 s r s' E HP. eapply H2, Hm, H1; eauto. Qed.

(** A command that leaves one part of the cluster alone. *)
Lemma keeps_and P Q {A} (m : M A) : keeps P m → keeps Q m → keeps (λ v, P v ∧ Q v) m.
Proof. intros HP HQ s r s' E [??]. split; [by eapply HP|by eapply HQ]. Qed.

End Rules.

(** *** A cluster in memory *)

Section InMemory.

(** Every call succeeds when the object it is about exists; objects stored under
a key that is not theirs are an error. *)
Definition found {K A} `{EqDecision K} (key : A → K) (k : K) (o : option A) : go api_error A :=
  match o with
  | None => Throw NotFound
  | Some x => if bool_decide (key x = k) then Ret x else Throw (OtherError "corrupt")
  end.
Definition listed {K A} `{Countable K} (key : A → K) (p : A → bool) (m : gmap K A) : go api_error (list A) :=
  if bool_decide (map_Forall (λ k x, key x = k) m) then Ret (List.filter p (values m))
  else Throw (OtherError "corrupt").

#[export] Instance memory_Kube : Kube Objects := {|
  k_get_hc k v := found hcKey k (o_hcs v !! k);
  k_list_hcs v := listed hcKey (λ _, true) (o_hcs v);
  k_update_hc hc v := (Ret (), with_hcs (store_hc hc (o_hcs v)) v);
  k_patch_hc hc hc' v :=
    (if bool_decide (o_hcs v !! hcKey hc = Some hc ∧ hcKey hc' = hcKey hc)
     then (Ret (), with_hcs (<[hcKey hc := hc']> (o_hcs v)) v) else (Throw Conflict, v));
  k_get_sizing v := from_option Ret (Throw NotFound) (o_sizing v);
  k_get_node k v := found nodeName k (o_nodes v !! k);
  k_list_nodes v := listed nodeName (λ _, true) (o_nodes v);
  k_patch_node n n' v :=
    (if bool_decide (o_nodes v !! nodeName n = Some n ∧ nodeName n' = nodeName n)
     then (Ret (), with_nodes (<[nodeName n := n']> (o_nodes v)) v) else (Throw Conflict, v));
  k_delete_node n v := (Ret (), with_nodes (delete (nodeName n) (o_nodes v)) v);
  k_get_cm k v := found cmKey k (o_cms v !! k);
  k_list_cms ns v := listed cmKey (λ cm, str_eqb (cmNamespace cm) ns) (o_cms v);
  k_create_cm cm v :=
    match o_cms v !! cmKey cm with
    | None => (Ret (), with_cms (<[cmKey cm := cm]> (o_cms v)) v)
    | Some _ => (Throw AlreadyExists, v)
    end;
  k_delete_cm cm v := (Ret (), with_cms (delete (cmKey cm) (o_cms v)) v);
  k_get_deployment k v := found dKey k (o_deployments v !! k);
  k_list_deployments ns v := listed dKey (λ d, str_eqb (dNamespace d) ns) (o_deployments v);
  k_create_or_update_deployment d f v :=
    let d' := f (default d (o_deployments v !! dKey d)) in
    if bool_decide (dKey d' = dKey d)
    then (Ret d', with_deployments (<[dKey d := d']> (o_deployments v)) v) else (Throw KeyChanged, v);
  k_apply_deployment d v := (Ret (), with_deployments (<[dKey d := d]> (o_deployments v)) v);
  k_delete_deployment k v := (Ret (), with_deployments (delete k (o_deployments v)) v);
  k_list_pods ns v := listed podKey (λ p, str_eqb (podNamespace p) ns) (o_pods v);
  k_list_machinesets ns v := listed msKey (λ ms, str_eqb (msNamespace ms) ns) (o_machinesets v);
  k_list_machines ns v := Ret (values (o_machines v));
  k_scale_machineset ms n v :=
    (Ret (), with_machinesets (alter (scaled n) (msKey ms) (o_machinesets v)) v);
  k_get_vpa k v := found vpaKey k (o_vpas v !! k);
  k_create_or_update_vpa a f v :=
    let a' := f (default a (o_vpas v !! vpaKey a)) in
    if bool_decide (vpaKey a' = vpaKey a)
    then (Ret a', with_vpas (<[vpaKey a := a']> (o_vpas v)) v) else (Throw KeyChanged, v);
  k_delete_vpa k v := (Ret (), with_vpas (delete k (o_vpas v)) v);
|}.

Lemma found_Ret {K A} `{EqDecision K} (key : A → K) k o x : found key k o = Ret x → o = Some x ∧ key x = k.
Proof. destruct o; simpl; [|done]. case_bool_decide; naive_solver. Qed.
Lemma found_missing {K A} `{EqDecision K} (key : A → K) k o e :
  found key k o = Throw e → IsNotFound e = true → o = None.
Proof. destruct o; simpl; [|done]. case_bool_decide; [done|]. by intros [= <-]. Qed.
Lemma listed_Ret {K A} `{Countable K} (key : A → K) p (m : gmap K A) l :
  listed key p m = Ret l → listing key p m l.
Proof.
  unfold listed. case_bool_decide as Hm; [|done]. intros [= <-]. split; [done|].
  intros x [Hx _]%elem_of_filter_bool. apply values_elem in Hx as [k Hk].
  by rewrite (Hm k x Hk).
Qed.

#[export] Instance memory_KubeLaws : KubeLaws Objects.
Proof.
  refine {| view := id |}; unfold id; simpl.
  all: try (intros; by apply found_Ret).
  all: try (intros; by eapply found_missing).
  all: try (intros; by apply listed_Ret).
  - by intros s c; destruct (o_sizing s); naive_solver.
  - intros hc s r s' [= <- <-] _. by left.
  - intros hc m s r s' Hrun Hst. rewrite bool_decide_true in Hrun by (split; done). simplify_eq. by left.
  - intros n n' s r s'. case_bool_decide as Hb; intros [= <- <-] Hn; [|by right].
    left. split; [apply Hb|by left].
  - intros n s r s' [= <- <-]. left. by left.
  - intros cm s r s'. case_match eqn:E; intros [= <- <-]; [by right|]. left. split; [done|by left].
  - intros cm s r s' [= <- <-]. by left.
  - intros d f s r s'. case_bool_decide as Hk; intros [= <- <-].
    + split.
      * intros d' [= <-]. split; [done|]. split; [|done].
        by eexists.
      * eexists. split; [done|]. intros k Hne. by rewrite lookup_insert_ne.
    + split; [done|]. exists (o_deployments s). split; [by destruct s|done].
  - intros d s r s' [= <- <-]. exists d. repeat split; [done..|by left].
  - intros k s r s' [= <- <-]. eexists. split; [done|]. intros k' ?. by rewrite lookup_delete_ne.
  - intros ms n s r s' [= <- <-]. by left.
  - intros a f s r s'. case_bool_decide as Hk; intros [= <- <-].
    + split; [by intros a' [= <-]|]. eexists. split; [done|]. intros k Hne. by rewrite lookup_insert_ne.
    + split; [done|]. exists (o_vpas s). split; [by destruct s|done].
  - intros k s r s' [= <- <-]. eexists. split; [done|]. intros k' ?. by rewrite lookup_delete_ne.
Defined.

End InMemory.

End SchedulerLaws.
