(* ===== verification/RequestServing.v ===== *)
(** Placing hosted control planes on dedicated request serving nodes:
[hypershift-operator/controllers/scheduler/aws/dedicated_request_serving_nodes.go].
Nodes come in pairs (a label of the fleet manager), one per zone.  A reaper
deletes the nodes of hosted clusters that are gone; the first scheduler labels
and taints two free nodes of a pair for a hosted cluster; the second one also
follows the size of the cluster, records the owner of a pair in a ConfigMap
named after it, and asks for new nodes with a placeholder deployment. *)
From S2P Require Import Prelude GoSort Api Quantity Upsert ClusterSizing Scheduler.

Module RequestServing.
Import ClusterSizing Scheduler.

(** *** Constants *)

Definition ControlPlaneTaint : string := "hypershift.openshift.io/control-plane".
Definition ControlPlaneServingComponentTaint : string := "hypershift.openshift.io/request-serving-component".
Definition HostedClusterTaint : string := "hypershift.openshift.io/cluster".
Definition ControlPlaneServingComponentLabel : string := "hypershift.openshift.io/request-serving-component".
Definition OSDFleetManagerPairedNodesLabel : string := "osd-fleet-manager.openshift.io/paired-nodes".
Definition HostedClusterNameLabel : string := "hypershift.openshift.io/cluster-name".
Definition HostedClusterNamespaceLabel : string := "hypershift.openshift.io/cluster-namespace".
Definition PlaceholderLabel : string := "hypershift.openshift.io/placeholder".
Definition placeholderNamespace : string := "hypershift-request-serving-node-placeholders".
Definition autoSizerNamespace : string := placeholderNamespace.
Definition defaultPlaceholderImage : string := "registry.access.redhat.com/ubi8/pause:latest".
Definition clusterNamespaceKey : string := "clusterNamespace".
Definition clusterNameKey : string := "clusterName".
Definition pairLabelKey : string := "hypershift.openshift.io/pairlabel".
Definition schedulerFinalizer : string := "hypershift.openshift.io/dedicated-request-serving-scheduler".
Definition HostedClusterFinalizer : string := "hypershift.openshift.io/finalizer".
Definition TaintEffectNoSchedule : string := "NoSchedule".

(** [func clusterKey(hc *hyperv1.HostedCluster) string] *)
Definition clusterKey (hc : HostedCluster) : string := hcNamespace hc +:+ "-" +:+ hcName hc.

Definition label (n : Node) (k : string) : string := mget (nodeLabels n) k.
Definition has_label (n : Node) (k : string) : bool := mhas (nodeLabels n) k.
Definition pair_of (n : Node) : string := label n OSDFleetManagerPairedNodesLabel.

(** *** Claiming a node *)

(** The taint loop: the first taint of the key is set, or one is appended. *)
Fixpoint claim_taint (v : string) (taints : list Taint) : list Taint :=
  match taints with
  | [] => [mkTaint HostedClusterTaint v TaintEffectNoSchedule]
  | t :: ts =>
      if str_eqb (taintKey t) HostedClusterTaint
      then mkTaint (taintKey t) v TaintEffectNoSchedule :: ts
      else t :: claim_taint v ts
  end.

Definition claim_labels (hc : HostedCluster) (m : StringMap) : StringMap :=
  <[HostedClusterNamespaceLabel := hcNamespace hc]>
    (<[HostedClusterNameLabel := hcName hc]> (<[HostedClusterLabel := clusterKey hc]> m)).

(** The node as labelled and tainted for the hosted cluster. *)
Definition claimed (hc : HostedCluster) (n : Node) : Node :=
  mkNode (nodeName n) (claim_labels hc (nodeLabels n)) (nodeAnnotations n)
    (claim_taint (clusterKey hc) (nodeTaints n)) (nodeDeleting n) (nodeCreation n).

(** *** Helpers of [support/util] *)

(** [func IsDeploymentReady(_ context.Context, deployment *appsv1.Deployment) bool] *)
Definition IsDeploymentReady (d : Deployment) : bool :=
  let replicas := default 0%Z (dReplicas (dSpec d)) in
  let st := dStatus d in
  (replicas =? AvailableReplicas st)%Z && (replicas =? ReadyReplicas st)%Z &&
  (replicas =? UpdatedReplicas st)%Z && (replicas =? statusReplicas st)%Z &&
  (UnavailableReplicas st =? 0)%Z && (dGeneration d =? ObservedGeneration st)%Z.

Section Controllers.
Context {S : Type} `{!Kube S}.
Local Abbreviation M := (st S api_error).

(** [func DeleteIfNeeded(ctx, c client.Client, o client.Object) (exists bool, err error)] of
a deployment *)
Definition DeleteIfNeeded (key : NamespacedName) : M bool := λ s,
  match k_get_deployment key s with
  | Panic => (Panic, s)
  | Throw err =>
      if IsNotFound err || IsNoMatchError err then (Ret false, s)
      else (Throw (Wrapped "error getting *v1.Deployment" err), s)
  | Ret d =>
      if dDeleting d then (Ret true, s) else
      match k_delete_deployment key s with
      | (Panic, s') => (Panic, s')
      | (Throw err, s') =>
          if IsNotFound err then (Ret false, s') else (Throw (Wrapped "error deleting *v1.Deployment" err), s')
      | (Ret _, s') => (Ret true, s')
      end
  end.

(** *** The node reaper *)

(** [func mapHostedClusterToNodesFn(c client.Client, mgr ctrl.Manager) handler.MapFunc]: the
nodes of a hosted cluster *)
Definition mapHostedClusterToNodesFn (key : NamespacedName) (s : S) : list NamespacedName :=
  match k_list_nodes s with
  | Ret nodes =>
      (λ n, ("", nodeName n)) <$>
      List.filter (λ n, has_labels [RequestServingComponentLabel] (nodeLabels n) &&
        matching_labels {[HostedClusterLabel := key.1 +:+ "-" +:+ key.2;
                          HostedClusterNamespaceLabel := key.1;
                          HostedClusterNameLabel := key.2]} (nodeLabels n)) nodes
  | _ => []
  end.

(** [func (r *DedicatedServingComponentNodeReaper) Reconcile(ctx, req ctrl.Request) (ctrl.Result, error)] *)
Definition reaper_Reconcile (req : string) : M Result := λ s,
  match k_get_node req s with
  | Panic => (Panic, s)
  | Throw err =>
      if IsNotFound err then (Ret no_requeue, s) else (Throw (Wrapped "failed to get node" err), s)
  | Ret node =>
      if negb (has_label node RequestServingComponentLabel) then (Ret no_requeue, s) else
      if negb (has_label node HostedClusterLabel) then (Ret no_requeue, s) else
      let name := label node HostedClusterNameLabel in
      let namespace := label node HostedClusterNamespaceLabel in
      match k_get_hc (namespace, name) s with
      | Panic => (Panic, s)
      | Throw err =>
          if negb (IsNotFound err) then (Throw (Wrapped "failed to get hosted cluster" err), s) else
          (_ ← wrap "failed to delete node" (k_delete_node node); mret no_requeue) s
      | Ret _ => (Ret no_requeue, s)
      end
  end.

(** *** The scheduler without sizes *)

Section Dedicated.
Context `{!MapOrder}.

(** The first loop: the nodes already labelled for the hosted cluster, by zone. *)
Definition existing_nodes (hc : HostedCluster) (nodes : list Node) : gmap string Node :=
  foldl (λ m n,
    if nodeDeleting n then m else
    match nodeLabels n !! LabelTopologyZone with
    | None => m
    | Some zone =>
        if negb (has_label n HostedClusterLabel) then m else
        if str_eqb (label n HostedClusterLabel) (clusterKey hc) then <[zone := n]> m else m
    end) ∅ nodes.

(** A node of [nodesToUse] has the pair label of the candidate. *)
Definition paired_with (m : gmap string Node) (n : Node) : bool :=
  existsb (λ kn, str_eqb (pair_of kn.2) (pair_of n)) (range m).

(** The second loop: free nodes of new zones, paired with the ones chosen, until
there are two. *)
Fixpoint add_nodes (nodes : list Node) (m : gmap string Node) : gmap string Node :=
  match nodes with
  | [] => m
  | n :: rest =>
      match nodeLabels n !! LabelTopologyZone with
      | None => add_nodes rest m
      | Some zone =>
          if has_label n HostedClusterLabel then add_nodes rest m else
          if bool_decide (m !! zone = None) then
            if negb (bool_decide (size m = 0)) && negb (paired_with m n) then add_nodes rest m else
            let m := <[zone := n]> m in
            if bool_decide (size m = 2) then m else add_nodes rest m
          else if bool_decide (size m = 2) then m else add_nodes rest m
      end
  end.

Definition nodes_to_use (hc : HostedCluster) (nodes : list Node) : gmap string Node :=
  let m := existing_nodes hc nodes in
  if bool_decide (size m < 2) then add_nodes nodes m else m.

(** What the third loop collects: [nodeGoMemLimit], [lbSubnets], [pairLabel]. *)
Record placement : Type := mkPlacement { pGoMemLimit : string; pLBSubnets : string; pPairLabel : string }.

(** [if v != "" && acc == "" { acc = v }] *)
Definition keep_first (acc v : string) : string := if str_eqb acc "" then v else acc.

Definition collect (p : placement) (n : Node) : placement :=
  mkPlacement (keep_first (pGoMemLimit p) (label n GoMemLimitLabel))
    (keep_first (pLBSubnets p) (dots_to_commas (label n LBSubnetsLabel)))
    (keep_first (pPairLabel p) (pair_of n)).

(** One node is labelled, tainted and patched; a write to a nil label map panics. *)
Definition claim_node (hc : HostedCluster) (n : Node) : M unit :=
  if bool_decide (nodeLabels n = ∅) then st_panic else
  wrap ("failed to update labels and taints on node " +:+ nodeName n) (k_patch_node n (claimed hc n)).

Fixpoint claim_nodes (hc : HostedCluster) (nodes : list (string * Node)) (p : placement) : M placement :=
  match nodes with
  | [] => mret p
  | (_, n) :: rest => _ ← claim_node hc n; claim_nodes hc rest (collect p n)
  end.

(** The annotations of a scheduled hosted cluster. *)
Definition placement_annotations (p : placement) (m : StringMap) : StringMap :=
  let m := <[HostedClusterScheduledAnnotation := "true"]> m in
  let m := set_nonempty KubeAPIServerGOMemoryLimitAnnotation (pGoMemLimit p) m in
  let m := set_nonempty AWSLoadBalancerSubnetsAnnotation (pLBSubnets p) m in
  if str_eqb (pPairLabel p) "" then m
  else <[AWSLoadBalancerTargetNodesAnnotation := OSDFleetManagerPairedNodesLabel +:+ "=" +:+ pPairLabel p]> m.

(** [func (r *DedicatedServingComponentScheduler) Reconcile(ctx, req ctrl.Request) (ctrl.Result, error)] *)
Definition dedicated_Reconcile (req : NamespacedName) : M Result :=
  with_hosted_cluster req (λ hc,
    if hcDeleting hc then mret no_requeue else
    if negb (str_eqb (mget (hcAnnotations hc) TopologyAnnotation) DedicatedRequestServingComponentsTopology)
    then mret no_requeue else
    all ← wrap "failed to list nodes" (reads k_list_nodes);
    let nodes := List.filter (λ n, has_labels [RequestServingComponentLabel] (nodeLabels n)) all in
    let dedicated := List.filter (λ n, matching_labels {[HostedClusterLabel := clusterKey hc]} (nodeLabels n)) nodes in
    if (2 <? length dedicated)%nat then st_throw (OtherError "found too many dedicated nodes for HC") else
    if str_eqb (mget (hcAnnotations hc) HostedClusterScheduledAnnotation) "true" && (length dedicated =? 2)%nat
    then mret no_requeue else
    let nodesToUse := nodes_to_use hc nodes in
    if bool_decide (size nodesToUse < 2)
    then st_throw (OtherError "failed to find enough available nodes for cluster") else
    p ← claim_nodes hc (range nodesToUse) (mkPlacement "" "" "");
    _ ← wrap "failed to update hostedcluster annotation"
          (k_patch_hc hc (set_hcAnnotations (placement_annotations p (hcAnnotations hc)) hc));
    mret no_requeue).

End Dedicated.

(** *** The scheduler with sizes *)

(** [func (r *DedicatedServingComponentSchedulerAndSizer) filterNodeEvents(ctx, obj client.Object) []reconcile.Request] *)
Definition filterNodeEvents (node : Node) (s : S) : list NamespacedName :=
  let owner n := (label n HostedClusterNamespaceLabel, label n HostedClusterNameLabel) in
  if negb (has_label node RequestServingComponentLabel) then [] else
  if has_label node HostedClusterLabel then [owner node] else
  match nodeLabels node !! OSDFleetManagerPairedNodesLabel, k_list_nodes s with
  | Some pairLabel, Ret nodes =>
      match List.find (λ n, matching_labels {[OSDFleetManagerPairedNodesLabel := pairLabel]} (nodeLabels n) &&
                            has_label n HostedClusterLabel) nodes with
      | Some n => [owner n]
      | None => []
      end
  | _, _ => []
  end.

(** The pair ConfigMaps: [client.HasLabels{pairLabelKey}] in the namespace. *)
Definition pairConfigMaps : M (list ConfigMap) :=
  cms ← reads (k_list_cms placeholderNamespace);
  mret (List.filter (λ cm, has_labels [pairLabelKey] (cmLabels cm)) cms).
Definition owned_by (namespace name : string) (cm : ConfigMap) : bool :=
  str_eqb (mget (cmData cm) clusterNameKey) name && str_eqb (mget (cmData cm) clusterNamespaceKey) namespace.

(** [func (r *DedicatedServingComponentSchedulerAndSizer) deletePairConfigMaps(ctx, hc) error] *)
Definition deletePairConfigMaps (hc : HostedCluster) : M unit :=
  cms ← wrap "failed to list configmaps" pairConfigMaps;
  st_for cms (λ cm,
    if owned_by (hcNamespace hc) (hcName hc) cm
    then wrap "failed to delete configmap" (k_delete_cm cm) else mret ()).

(** [func (r *DedicatedServingComponentSchedulerAndSizer) ensurePairConfigMap(ctx, pairLabel, hcNamespace, hcName string) error] *)
Definition ensurePairConfigMap (pairLabel namespace name : string) : M unit := λ s,
  match k_get_cm (placeholderNamespace, pairLabel) s with
  | Panic => (Panic, s)
  | Throw err =>
      if IsNotFound err then
        wrap "failed to create" (k_create_cm
          (mkConfigMap placeholderNamespace pairLabel {[pairLabelKey := pairLabel]}
             {[clusterNamespaceKey := namespace; clusterNameKey := name]})) s
      else (Throw (Wrapped "failed to read configmap" err), s)
  | Ret cm =>
      if negb (owned_by namespace name cm)
      then (Throw (OtherError "conflict: configmap already exists for a different cluster"), s)
      else (Ret (), s)
  end.

(** [func (r *DedicatedServingComponentSchedulerAndSizer) pairLabelFromConfigMaps(ctx, namespace, name string) (string, error)] *)
Definition pairLabelFromConfigMaps (namespace name : string) : M string :=
  cms ← pairConfigMaps;
  mret (from_option cmName "" (List.find (owned_by namespace name) cms)).

(** The loop of [deploymentNodes] over the pods. *)
Fixpoint nodes_of_pods (pods : list Pod) : M (list Node) :=
  match pods with
  | [] => mret []
  | p :: rest =>
      if str_eqb (podNodeName p) "" then nodes_of_pods rest else
      n ← wrap "failed to get node" (reads (k_get_node (podNodeName p)));
      ns ← nodes_of_pods rest;
      mret (n :: ns)
  end.

(** [func (r *DedicatedServingComponentSchedulerAndSizer) deploymentNodes(ctx, deployment *appsv1.Deployment) ([]corev1.Node, error)] *)
Definition deploymentNodes (deployment : option Deployment) : M (list Node) :=
  match deployment with
  | None => mret []
  | Some d =>
      pods ← wrap "failed to list pods" (reads (k_list_pods (dNamespace d)));
      nodes_of_pods (List.filter (λ p, matching_labels (dSelector (dSpec d)) (podLabels p)) pods)
  end.

(** [func (r *DedicatedServingComponentSchedulerAndSizer) nodesFromPlaceholders(ctx, size string) ([]corev1.Node, error)] *)
Definition nodesFromPlaceholders (size : string) : M (list Node) :=
  ds ← wrap "failed to list placeholder deployments" (reads (k_list_deployments placeholderNamespace));
  deploymentNodes (List.find (λ d, str_eqb (mget (dLabels d) HostedClusterSizeLabel) size && IsDeploymentReady d) ds).

(** [func (r *DedicatedServingComponentSchedulerAndSizer) ensureHostedClusterLabelAndTaint(ctx, hc, node) error] *)
Definition ensureHostedClusterLabelAndTaint (hc : HostedCluster) (n : Node) : M unit := claim_node hc n.

(** [func placeholderDeployment(hc *hyperv1.HostedCluster) *appsv1.Deployment] *)
Definition placeholderDeployment (hc : HostedCluster) : NamespacedName := (autoSizerNamespace, clusterKey hc).

(** [func (r *DedicatedServingComponentSchedulerAndSizer) deletePlaceholderDeployment(ctx, hc) error] *)
Definition deletePlaceholderDeployment (hc : HostedCluster) : M unit :=
  _ ← DeleteIfNeeded (placeholderDeployment hc); mret ().

(** [func (r *DedicatedServingComponentSchedulerAndSizer) takenNodePairLabels(ctx) ([]string, error)] *)
Definition takenNodePairLabels : M (list string) :=
  nodes ← wrap "failed to list nodes" (reads k_list_nodes);
  let taken := List.filter
    (λ n, has_labels [HostedClusterLabel; OSDFleetManagerPairedNodesLabel] (nodeLabels n)) nodes in
  mret (sets_List (list_to_set (pair_of <$> taken))).

Definition placeholder_tolerations : list Toleration :=
  [mkToleration ControlPlaneServingComponentTaint "Equal" "true" TaintEffectNoSchedule;
   mkToleration ControlPlaneTaint "Equal" "true" TaintEffectNoSchedule].

(** [desiredSpec] of [ensurePlaceholderDeployment] *)
Definition placeholder_spec (name size pairLabel : string) (unavailableNodePairs : list string) (nodesNeeded : Z)
    : DeploymentSpec :=
  let own : StringMap := {[PlaceholderLabel := name]} in
  let nodeSelector : StringMap :=
    {[RequestServingComponentLabel := "true"; NodeSizeLabel := size]} in
  let nodeSelector := if str_eqb pairLabel "" then nodeSelector
                      else <[OSDFleetManagerPairedNodesLabel := pairLabel]> nodeSelector in
  let podAffinity := if str_eqb pairLabel "" then Some [mkTerm own [] OSDFleetManagerPairedNodesLabel] else None in
  let nodeAffinity :=
    if str_eqb pairLabel "" && negb (bool_decide (unavailableNodePairs = []))
    then Some (Some [[mkRequirement OSDFleetManagerPairedNodesLabel "NotIn" unavailableNodePairs]])
    else None in
  let podAntiAffinity :=
    [mkTerm own [] LabelTopologyZone;
     mkTerm ∅ [mkRequirement PlaceholderLabel "Exists" []] "kubernetes.io/hostname";
     mkTerm ∅ [mkRequirement PlaceholderLabel "NotIn" [name]] OSDFleetManagerPairedNodesLabel] in
  mkDeploymentSpec (Some (to_int32 nodesNeeded)) "Recreate" own own nodeSelector
    (Some (mkAffinity nodeAffinity podAffinity (Some podAntiAffinity)))
    placeholder_tolerations [("placeholder", defaultPlaceholderImage)].

Definition set_dSpec (spec : DeploymentSpec) (d : Deployment) : Deployment :=
  mkDeployment (dNamespace d) (dName d) (dLabels d) (dDeleting d) (dGeneration d) spec (dStatus d).

Definition empty_spec : DeploymentSpec := mkDeploymentSpec None "" ∅ ∅ ∅ None [] [].
Definition empty_status : DeploymentStatus := mkDeploymentStatus 0 0 0 0 0 0.

(** [func (r *DedicatedServingComponentSchedulerAndSizer) ensurePlaceholderDeployment(ctx, hc, size, pairLabel string, nodesNeeded int) ( *appsv1.Deployment, error)] *)
Definition ensurePlaceholderDeployment (hc : HostedCluster) (size pairLabel : string) (nodesNeeded : Z)
    : M Deployment :=
  let '(namespace, name) := placeholderDeployment hc in
  let deployment := mkDeployment namespace name
    {[HostedClusterNameLabel := hcName hc; HostedClusterNamespaceLabel := hcNamespace hc]} false 0
    empty_spec empty_status in
  unavailableNodePairs ← (if str_eqb pairLabel "" then takenNodePairLabels else mret []);
  wrap "failed to ensure placeholder deployment"
    (k_create_or_update_deployment deployment
       (set_dSpec (placeholder_spec name size pairLabel unavailableNodePairs nodesNeeded))).

(** The loop over the request serving nodes: [goalNodes], [availableNodes] and
[pairLabel]. *)
Record survey : Type := mkSurvey { goalNodes : list Node; availableNodes : list Node; pairLabel : string }.

Definition survey_node (hc : HostedCluster) (desiredSize : string) (v : survey) (n : Node) : survey :=
  if nodeDeleting n then v else
  if str_eqb (label n HostedClusterLabel) (clusterKey hc) then
    let p := if negb (str_eqb (pair_of n) "") && str_eqb (pairLabel v) "" then pair_of n else pairLabel v in
    if str_eqb (label n NodeSizeLabel) desiredSize && negb (str_eqb p "") && str_eqb (pair_of n) p
    then mkSurvey (goalNodes v ++ [n]) (availableNodes v) p
    else mkSurvey (goalNodes v) (availableNodes v) p
  else if str_eqb (label n HostedClusterLabel) "" then
    mkSurvey (goalNodes v) (availableNodes v ++ [n]) (pairLabel v)
  else v.

Definition survey_nodes (hc : HostedCluster) (desiredSize : string) (nodes : list Node) : survey :=
  foldl (survey_node hc desiredSize) (mkSurvey [] [] "") nodes.

(** [nodesByZone]: the first goal node of each zone. *)
Definition nodesByZone (goal : list Node) : gmap string Node :=
  foldl (λ m n, let zone := label n LabelTopologyZone in
    if str_eqb zone "" then m else
    match m !! zone with Some _ => m | None => <[zone := n]> m end) ∅ goal.

Definition requeue : Result := mkResult true 0.

(** Claims the pair of the first of the nodes, then labels and taints them all. *)
Definition claim_pair (hc : HostedCluster) (pairLabel : string) (nodes : list Node) : M unit :=
  _ ← wrap ("cannot ensure pair label " +:+ pairLabel +:+ " config map")
        (ensurePairConfigMap pairLabel (hcNamespace hc) (hcName hc));
  st_for nodes (ensureHostedClusterLabelAndTaint hc).

Section Sizer.
Context `{!QuantityText} (parse_rfc3339 : string → option Time) (now : Time).

(** Nodes of the pair without the cluster's label are labelled ("backfilling");
without a pair, the nodes of a ready placeholder of the size are claimed. The
result is set when the reconciliation returns here. *)
Definition take_nodes (hc : HostedCluster) (desiredSize pairLabel : string) (config : ClusterSizingConfiguration)
    (available : list Node) : M (option Result) :=
  if negb (str_eqb pairLabel "") then
    _ ← wrap ("cannot ensure pair label " +:+ pairLabel +:+ " config map")
          (ensurePairConfigMap pairLabel (hcNamespace hc) (hcName hc));
    let needClusterLabel := List.filter
      (λ n, str_eqb (label n NodeSizeLabel) desiredSize && str_eqb (pair_of n) pairLabel) available in
    match needClusterLabel with
    | [] => mret None
    | _ => _ ← st_for needClusterLabel (ensureHostedClusterLabelAndTaint hc); mret (Some requeue)
    end
  else
    match SizeConfigurationFor config desiredSize with
    | None => st_throw (OtherError ("could not find size configuration for size " +:+ desiredSize))
    | Some sizeConfig =>
        if (0 <? from_option Placeholders 0 (scManagement sizeConfig))%Z then
          candidateNodes ← wrap "failed to get nodes from placeholders" (nodesFromPlaceholders desiredSize);
          match candidateNodes with
          | [] => mret None
          | first :: _ =>
              if str_eqb (pair_of first) ""
              then st_throw (OtherError ("node " +:+ nodeName first +:+ " has no pair label"))
              else _ ← claim_pair hc (pair_of first) candidateNodes; mret (Some requeue)
          end
        else mret None
    end.

(** The end of [Reconcile]: the cluster is scheduled on its goal nodes, or a
placeholder deployment asks for nodes of the size, which are claimed once it is
ready. *)
Definition place (hc : HostedCluster) (desiredSize pairLabel : string) (config : ClusterSizingConfiguration)
    (goal : list Node) : M Result :=
  let zones := size (nodesByZone goal) in
  if (1 <? zones)%nat then
    _ ← UpdateHostedCluster hc desiredSize config goal;
    _ ← deletePlaceholderDeployment hc;
    mret no_requeue
  else
    let nodesNeeded := Z.max 0 (2 - Z.of_nat zones) in
    deployment ← ensurePlaceholderDeployment hc desiredSize pairLabel nodesNeeded;
    if negb (IsDeploymentReady deployment) then mret no_requeue else
    nodes ← deploymentNodes (Some deployment);
    match nodes with
    | [] => st_throw (OtherError "cannot determine pair label")
    | first :: _ =>
        if str_eqb (pair_of first) ""
        then st_throw (OtherError ("node " +:+ nodeName first +:+ " has no fleetmanager pair label"))
        else
          _ ← claim_pair hc (pair_of first) nodes;
          _ ← deletePlaceholderDeployment hc;
          mret no_requeue
    end.

(** The part of [Reconcile] for a hosted cluster with a size and a valid
configuration. *)
Definition schedule (hc : HostedCluster) (desiredSize : string) (config : ClusterSizingConfiguration) : M Result :=
  all ← wrap "failed to list nodes" (reads k_list_nodes);
  let nodes := List.filter (λ n, has_labels [RequestServingComponentLabel] (nodeLabels n)) all in
  let v := survey_nodes hc desiredSize nodes in
  pair ← (if str_eqb (pairLabel v) ""
          then wrap "failed to get pair label from configmaps" (pairLabelFromConfigMaps (hcNamespace hc) (hcName hc))
          else mret (pairLabel v));
  taken ← take_nodes hc desiredSize pair config (availableNodes v);
  match taken with
  | Some r => mret r
  | None => place hc desiredSize pair config (goalNodes v)
  end.

(** [controllerutil.ContainsFinalizer], [AddFinalizer] and [RemoveFinalizer] *)
Definition ContainsFinalizer (hc : HostedCluster) (f : string) : bool := bool_decide (f ∈ hcFinalizers hc).
Definition AddFinalizer (hc : HostedCluster) (f : string) : HostedCluster :=
  if ContainsFinalizer hc f then hc else set_hcFinalizers (hcFinalizers hc ++ [f]) hc.
Definition RemoveFinalizer (hc : HostedCluster) (f : string) : HostedCluster :=
  set_hcFinalizers (filter (λ g, g ≠ f) (hcFinalizers hc)) hc.

(** The clean-up of a hosted cluster that is being deleted. *)
Definition finalize (hc : HostedCluster) : M Result :=
  if negb (ContainsFinalizer hc schedulerFinalizer) then mret no_requeue else
  if ContainsFinalizer hc HostedClusterFinalizer then mret no_requeue else
  _ ← deletePlaceholderDeployment hc;
  _ ← deletePairConfigMaps hc;
  _ ← k_update_hc (RemoveFinalizer hc schedulerFinalizer);
  mret no_requeue.

(** [func (r *DedicatedServingComponentSchedulerAndSizer) Reconcile(ctx, req ctrl.Request) (ctrl.Result, error)] *)
Definition sizer_Reconcile (req : NamespacedName) : M Result :=
  with_hosted_cluster req (λ hc,
    if hcDeleting hc then finalize hc else
    if negb (str_eqb (mget (hcAnnotations hc) TopologyAnnotation) DedicatedRequestServingComponentsTopology)
    then mret no_requeue else
    if negb (ContainsFinalizer hc schedulerFinalizer) then
      _ ← k_update_hc (AddFinalizer hc schedulerFinalizer); mret no_requeue
    else
      unless_paused parse_rfc3339 now hc (with_desired_size hc (schedule hc))).

End Sizer.

End Controllers.

End RequestServing.
