(* ===== verification/Placeholders.v ===== *)
(** Placeholder deployments keep request serving nodes warm:
[hypershift-operator/controllers/scheduler/aws/placeholders.go].  A creator
mints the missing deployments of a size one at a time, an updater deletes the
ones that are too many and keeps the others away from the pairs of nodes that
belong to hosted clusters. *)
From S2P Require Import Prelude GoSort Semver Api Quantity Upsert ClusterSizing Scheduler RequestServing.

Module Placeholders.
Import ClusterSizing Scheduler RequestServing.

(** [func deploymentName(sizeClass string, index int) string] *)
Definition deploymentName (sizeClass : string) (index : Z) : string :=
  "placeholder-" +:+ sizeClass +:+ "-" +:+ itoa index.

(** [func parseIndex(sizeClass, name string) (int, error)] *)
Definition parseIndex (sizeClass name : string) : go api_error Z :=
  let expectedPrefix := "placeholder-" +:+ sizeClass +:+ "-" in
  if negb (has_prefix name expectedPrefix) then Throw (OtherError "deployment has invalid format") else
  match Semver.ParseInt (trim_prefix name expectedPrefix) with
  | Some i => Ret i
  | None => Throw (OtherError "invalid syntax")
  end.

(** [corev1applyconfigurations.PodAffinityTerm().WithLabelSelector(
   LabelSelector().WithMatchExpressions(LabelSelectorRequirement().WithKey(k).WithOperator(op).WithValues(vs...)))
   .WithTopologyKey(t)] *)
Definition expression_term (op : string) (vs : list string) (topology : string) : PodAffinityTerm :=
  mkTerm ∅ [mkRequirement PlaceholderLabel op vs] topology.

(** [func newDeployment(namespace, sizeClass string, placeholderIndex int, pairedNodes []string)
   *appsv1applyconfigurations.DeploymentApplyConfiguration] *)
Definition newDeployment `{!SliceSort} (namespace sizeClass : string) (placeholderIndex : Z)
    (pairedNodes : list string) : Deployment :=
  let nodeAffinity :=
    match pairedNodes with
    | [] => None
    | _ => Some (Some [[mkRequirement OSDFleetManagerPairedNodesLabel "NotIn" (sort_slice str_lt pairedNodes)]])
    end in
  let index := itoa placeholderIndex in
  let labels : StringMap := {[PlaceholderLabel := index; HostedClusterSizeLabel := sizeClass]} in
  let nodeSelector : StringMap := {[ControlPlaneServingComponentLabel := "true"; NodeSizeLabel := sizeClass]} in
  let affinity := mkAffinity nodeAffinity
    (Some [expression_term "In" [index] OSDFleetManagerPairedNodesLabel])
    (Some [expression_term "In" [index] LabelTopologyZone;
           expression_term "Exists" [] "kubernetes.io/hostname";
           expression_term "NotIn" [index] OSDFleetManagerPairedNodesLabel]) in
  mkDeployment namespace (deploymentName sizeClass placeholderIndex) labels false 0
    (mkDeploymentSpec (Some 2%Z) "Recreate" labels labels nodeSelector (Some affinity)
       placeholder_tolerations [("placeholder", defaultPlaceholderImage)])
    empty_status.

(** [func equeueClusterSizingConfigForPlaceholderResource(ctx, d client.Object) []reconcile.Request] *)
Definition equeueClusterSizingConfigForPlaceholderResource (namespace : string) : list NamespacedName :=
  if negb (str_eqb namespace placeholderNamespace) then [] else [("", "cluster")].

Section Controllers.
Context {S : Type} `{!Kube S} `{!SliceSort}.
(** [sets.Set.UnsortedList]: the elements in any order. *)
Context (unsorted : gset string → list string).
Local Abbreviation M := (st S api_error).

(** The labels of the pairs with a ConfigMap: [pairLabelsAssignedToHostedClusters]. *)
Definition assigned_labels (cms : list ConfigMap) : gset string :=
  list_to_set (List.filter (λ p, negb (str_eqb p "")) ((λ cm, mget (cmLabels cm) pairLabelKey) <$> cms)).

(** The indices of the deployments, or nothing when a name is invalid. *)
Fixpoint present_indices (ds : list Deployment) : option (list Z) :=
  match ds with
  | [] => Some []
  | d :: ds =>
      match parseIndex (mget (dLabels d) HostedClusterSizeLabel) (dName d) with
      | Ret i => cons i <$> present_indices ds
      | _ => None
      end
  end.

(** [for i := 0; i < n; i++ { if !presentIndices.Has(i) { ... break } }] *)
Definition missing_index (n : Z) (present : list Z) : option Z :=
  List.find (λ i, negb (bool_decide (i ∈ present))) (Z.of_nat <$> seq 0 (Z.to_nat n)).

Definition listDeployments (size : string) : M (list Deployment) :=
  ds ← wrap "could not list deployments" (reads (k_list_deployments placeholderNamespace));
  mret (List.filter (λ d, has_labels [PlaceholderLabel] (dLabels d) &&
                          matching_labels {[HostedClusterSizeLabel := size]} (dLabels d)) ds).
Definition listConfigMaps : M (list ConfigMap) :=
  cms ← wrap "could not list configmaps" (reads (k_list_cms placeholderNamespace));
  mret (List.filter (λ cm, has_labels [pairLabelKey] (cmLabels cm)) cms).

(** The loop of [placeholderCreator.reconcile] over the sizes: the body ends with
a return, so only the first size with placeholders is looked at. *)
Fixpoint create_missing (sizes : list SizeConfiguration) : M (option Deployment) :=
  match sizes with
  | [] => mret None
  | sizeClass :: rest =>
      let placeholders := from_option Placeholders 0%Z (scManagement sizeClass) in
      if (placeholders =? 0)%Z then create_missing rest else
      deployments ← listDeployments (scName sizeClass);
      if (placeholders <=? Z.of_nat (length deployments))%Z then mret None else
      assigned ← listConfigMaps;
      match present_indices deployments with
      | None => mret None
      | Some present =>
          match missing_index placeholders present with
          | None => mret None
          | Some i =>
              mret (Some (newDeployment placeholderNamespace (scName sizeClass) i (unsorted (assigned_labels assigned))))
          end
      end
  end.

(** [func (r *placeholderCreator) reconcile(ctx, config) ( *DeploymentApplyConfiguration, error)] *)
Definition creator_reconcile (config : ClusterSizingConfiguration) : M (option Deployment) :=
  if negb (config_valid config) then mret None else create_missing (Sizes config).

(** [func (r *placeholderCreator) Reconcile(ctx, _ ctrl.Request) (ctrl.Result, error)] *)
Definition creator_Reconcile : M Result :=
  config ← wrap "could not get cluster sizing configuration" (reads k_get_sizing);
  deployment ← creator_reconcile config;
  match deployment with
  | Some d => _ ← k_apply_deployment d; mret requeue
  | None => mret no_requeue
  end.

(** The [NotIn] values on the pair label in the node affinity of a deployment. *)
Definition existingPairLabels (d : Deployment) : gset string :=
  match dAffinity (dSpec d) with
  | Some a =>
      match NodeAffinity a with
      | Some (Some terms) =>
          list_to_set (concat (reqValues <$> List.filter
            (λ r, str_eqb (reqKey r) OSDFleetManagerPairedNodesLabel && str_eqb (reqOperator r) "NotIn")
            (concat terms)))
      | _ => ∅
      end
  | None => ∅
  end.

(** The placeholders configured for a size: the last class of the name with a
management section counts. *)
Definition wantedDeployments (size : string) (sizes : list SizeConfiguration) : Z :=
  foldl (λ n c, match scManagement c with
                | Some m => if str_eqb (scName c) size then Placeholders m else n
                | None => n
                end) 0%Z sizes.

(** [func (r *placeholderUpdater) reconcile(ctx, deployment, config) (bool, *DeploymentApplyConfiguration, error)] *)
Definition updater_reconcile (deployment : Deployment) (config : ClusterSizingConfiguration)
    : M (bool * option Deployment) :=
  let labels := dLabels deployment in
  if negb (mhas labels PlaceholderLabel) || negb (mhas labels HostedClusterSizeLabel) then mret (false, None) else
  let placeholderSize := mget labels HostedClusterSizeLabel in
  let configValid := existsb (λ c, str_eqb (cType c) ClusterSizingConfigurationValidType &&
                                   bool_decide (cStatus c = ConditionTrue)) (configConditions config) in
  if negb configValid then mret (false, None) else
  match parseIndex placeholderSize (dName deployment) with
  | Ret parsedIndex =>
      if (wantedDeployments placeholderSize (Sizes config) - 1 <? parsedIndex)%Z then mret (true, None) else
      assigned ← listConfigMaps;
      if bool_decide (assigned_labels assigned = existingPairLabels deployment) then mret (false, None)
      else mret (false, Some (newDeployment placeholderNamespace placeholderSize parsedIndex
                                (unsorted (assigned_labels assigned))))
  | _ => mret (false, None)
  end.

(** [func (r *placeholderUpdater) Reconcile(ctx, req ctrl.Request) (ctrl.Result, error)] *)
Definition updater_Reconcile (req : NamespacedName) : M Result := λ s,
  match k_get_deployment req s with
  | Panic => (Panic, s)
  | Throw err => if IsNotFound err then (Ret no_requeue, s) else (Throw (Wrapped "could not get deployment" err), s)
  | Ret deployment =>
      (if negb (str_eqb (dNamespace deployment) placeholderNamespace) then mret no_requeue else
       config ← wrap "could not get cluster sizing configuration" (reads k_get_sizing);
       r ← updater_reconcile deployment config;
       match r with
       | (true, _) => _ ← k_delete_deployment (placeholderNamespace, req.2); mret no_requeue
       | (false, Some update) => _ ← k_apply_deployment update; mret no_requeue
       | (false, None) => mret no_requeue
       end) s
  end.

End Controllers.

End Placeholders.
