(* ===== verification/NodeAutoscaler.v ===== *)
(** Scaling the machine sets behind request serving nodes:
[hypershift-operator/controllers/scheduler/aws/autoscaler.go].  One controller
scales up machine sets for the placeholder pods that wait for a node, one
scales down the machine sets of nodes a hosted cluster no longer needs, and one
keeps the machine sets of all other workloads at the size the hosted clusters
need. *)
From S2P Require Import Prelude GoSort Semver Api Quantity Upsert ClusterSizing Scheduler RequestServing.
From Stdlib Require Import Ascii.

Module NodeAutoscaler.
Import ClusterSizing Scheduler RequestServing.

Definition machineSetNamespace : string := "openshift-machine-api".
Definition machineNameNodeAnnotation : string := "machine.openshift.io/machine".
Definition machineMachineSetLabel : string := "machine.openshift.io/cluster-api-machineset".
Definition clusterAPIMachineTypeLabel : string := "machine.openshift.io/cluster-api-machine-type".
Definition nonRequestServingLabelPrefix : string := "non-serving".
Definition maxSizeMachineSetAnnotation : string := "machine.openshift.io/cluster-api-autoscaler-node-group-max-size".
Definition minSizeMachineSetAnnotation : string := "machine.openshift.io/cluster-api-autoscaler-node-group-min-size".
Definition nodeScaleDownDelay : Duration := (5 * minute)%Z.

(** *** Looking things up *)

Definition replicas_of (ms : MachineSet) : Z := default 0%Z (msReplicas ms).

(** [func machineSetSize(machineSet) string], [func machineSetPairLabel(machineSet) string],
[func isRequestServingMachineSet(machineSet) bool] *)
Definition machineSetSize (ms : MachineSet) : string := mget (msNodeLabels ms) NodeSizeLabel.
Definition machineSetPairLabel (ms : MachineSet) : string := mget (msNodeLabels ms) OSDFleetManagerPairedNodesLabel.
Definition isRequestServingMachineSet (ms : MachineSet) : bool :=
  str_eqb (mget (msNodeLabels ms) RequestServingComponentLabel) "true".

(** [func findNode(name string, nodes []corev1.Node) *corev1.Node] *)
Definition findNode (name : string) (nodes : list Node) : option Node :=
  List.find (λ n, str_eqb (nodeName n) name) nodes.

(** [func findMachineSet(name string, machineSets []MachineSet) *MachineSet] *)
Definition findMachineSet (name : string) (machineSets : list MachineSet) : option MachineSet :=
  List.find (λ ms, str_eqb (msName ms) name) machineSets.

(** [func podSize(pod *corev1.Pod) string] *)
Definition podSize (p : Pod) : string := mget (podNodeSelector p) NodeSizeLabel.

(** [func podPairLabel(pod *corev1.Pod, nodes []corev1.Node) string] *)
Definition podPairLabel (p : Pod) (nodes : list Node) : string :=
  let selected := mget (podNodeSelector p) OSDFleetManagerPairedNodesLabel in
  if str_eqb (podNodeName p) "" then selected
  else match findNode (podNodeName p) nodes with Some n => pair_of n | None => selected end.

(** [func isPodPending(p *corev1.Pod) bool] *)
Definition isPodPending (p : Pod) : bool := str_eqb (podPhase p) "Pending" && negb (podDeleting p).

(** [func nodeMachineSet(n *corev1.Node, machines []Machine) string] *)
Definition nodeMachineSet (n : Node) (machines : list Machine) : string :=
  let namespacedName := mget (nodeAnnotations n) machineNameNodeAnnotation in
  if str_eqb namespacedName "" then "" else
  match Semver.split "/"%char namespacedName with
  | [_; name] =>
      match List.find (λ m, str_eqb (machineName m) name) machines with
      | Some m => mget (machineLabels m) machineMachineSetLabel
      | None => ""
      end
  | _ => ""
  end.

(** [func labelsMatchSelector(objectLabels, selector map[string]string) bool] *)
Definition labelsMatchSelector (labels selector : StringMap) : bool :=
  if bool_decide (selector = ∅) then false else matching_labels selector labels.

(** [func matchingMachineSet(machineSet, machineSets) *MachineSet] *)
Definition matchingMachineSet (machineSet : MachineSet) (machineSets : list MachineSet) : option MachineSet :=
  List.find (λ ms, negb (str_eqb (msName ms) (msName machineSet)) &&
    str_eqb (machineSetSize ms) (machineSetSize machineSet) &&
    str_eqb (machineSetPairLabel ms) (machineSetPairLabel machineSet)) machineSets.

(** [func getPairPod(pod *corev1.Pod, pods []corev1.Pod) *corev1.Pod] *)
Definition getPairPod (pod : Pod) (pods : list Pod) : option Pod :=
  List.find (λ p, negb (str_eqb (podName p) (podName pod)) && bool_decide (podLabels pod = podLabels p)) pods.

(** [func ParseNodeSelector(str string) map[string]string] of [support/util/util.go] *)
Definition ParseNodeSelector (str : string) : StringMap :=
  if str_eqb str "" then ∅ else
  foldl (λ m part,
    match Semver.cut "="%char part with
    | Some (k, v) => if str_eqb k "" || str_eqb v "" then m else <[k := v]> m
    | None => m
    end) ∅ (Semver.split ","%char str).

(** *** Scaling up for pending placeholders *)

(** [type nodeRequirement struct] *)
Record nodeRequirement : Type := mkNeed { sizeLabel : string; needPairLabel : string; count : Z }.

(** [func addRequirement(reqs *[]nodeRequirement, sizeLabel, pairLabel string, count int)] *)
Fixpoint addRequirement (reqs : list nodeRequirement) (size pairLabel : string) (n : Z) : list nodeRequirement :=
  match reqs with
  | [] => [mkNeed size pairLabel n]
  | r :: rs =>
      if str_eqb (sizeLabel r) size && str_eqb (needPairLabel r) pairLabel
      then mkNeed (sizeLabel r) (needPairLabel r) (count r + n) :: rs
      else r :: addRequirement rs size pairLabel n
  end.

(** [func findPodPairs(pendingPods, allPods []corev1.Pod) ([]podPair, []corev1.Pod)] *)
Fixpoint find_pod_pairs (pending all : list Pod) (skip : list string) : list (Pod * Pod) * list Pod :=
  match pending with
  | [] => ([], [])
  | pod :: rest =>
      if bool_decide (podName pod ∈ skip) then find_pod_pairs rest all skip else
      match getPairPod pod all with
      | Some other =>
          let '(pairs, singles) := find_pod_pairs rest all (podName other :: skip) in
          ((pod, other) :: pairs, singles)
      | None =>
          let '(pairs, singles) := find_pod_pairs rest all skip in (pairs, pod :: singles)
      end
  end.
Definition findPodPairs (pending all : list Pod) : list (Pod * Pod) * list Pod := find_pod_pairs pending all [].

(** [func determineRequiredNodes(pendingPods, allPods []corev1.Pod, nodes []corev1.Node) []nodeRequirement] *)
Definition determineRequiredNodes (pendingPods allPods : list Pod) (nodes : list Node) : list nodeRequirement :=
  let '(podPairs, singlePods) := findPodPairs pendingPods allPods in
  let reqs := foldl (λ reqs '(p1, p2),
      let pair1 := podPairLabel p1 nodes in
      let pairLabel := if str_eqb pair1 "" then podPairLabel p2 nodes else pair1 in
      let pendingCount := Z.of_nat (length (List.filter isPodPending [p1; p2])) in
      addRequirement reqs (podSize p1) pairLabel pendingCount) [] podPairs in
  foldl (λ reqs p,
      let pairLabel := podPairLabel p nodes in
      if str_eqb pairLabel "" then reqs else addRequirement reqs (podSize p) pairLabel 1) reqs singlePods.

(** Pair labels that are taken by a hosted cluster or by a placeholder. *)
Definition taken_pair_labels (pods : list Pod) (nodes : list Node) : list string :=
  (pair_of <$> List.filter (λ n, negb (str_eqb (label n HostedClusterLabel) "")) nodes) ++
  List.filter (λ p, negb (str_eqb p "")) ((λ p, podPairLabel p nodes) <$> pods).
Definition is_taken (taken : list string) (p : string) : bool := bool_decide (p ∈ taken).

(** The loop that picks pairs of free machine sets until enough are found. *)
Fixpoint pick_pairs (candidates available : list MachineSet) (skip : list string) (need : Z)
    (picked : list MachineSet) : list MachineSet :=
  match candidates with
  | [] => picked
  | ms :: rest =>
      if bool_decide (msName ms ∈ skip) then pick_pairs rest available skip need picked else
      match matchingMachineSet ms available with
      | None => pick_pairs rest available skip need picked
      | Some other =>
          let picked := picked ++ [ms; other] in
          if (need <=? Z.of_nat (length picked))%Z then picked
          else pick_pairs rest available (msName other :: skip) need picked
      end
  end.

(** The other half of the machine sets that are coming up, when it is down. *)
Definition halves_down (pending machineSets : list MachineSet) : list MachineSet :=
  omap (λ ms, match matchingMachineSet ms machineSets with
              | Some other => if (replicas_of other =? 0)%Z then Some other else None
              | None => None
              end) pending.

(** [availableNodes], [pendingMachineSets] and [availableMachineSets] of a size *)
Definition available_nodes (size : string) (taken : list string) (nodes : list Node) : list Node :=
  List.filter (λ n,
    negb (str_eqb (label n RequestServingComponentLabel) "") &&
    str_eqb (label n NodeSizeLabel) size && negb (is_taken taken (pair_of n))) nodes.
Definition pending_machine_sets (size : string) (taken : list string) (machineSets : list MachineSet)
    (machines : list Machine) (nodes : list Node) : list MachineSet :=
  let availableNodeMachineSets := (λ n, nodeMachineSet n machines) <$> available_nodes size taken nodes in
  List.filter (λ ms,
    isRequestServingMachineSet ms && str_eqb (machineSetSize ms) size &&
    (0 <? replicas_of ms)%Z && (msAvailableReplicas ms =? 0)%Z &&
    (str_eqb (msName ms) "" || negb (bool_decide (msName ms ∈ availableNodeMachineSets))) &&
    negb (is_taken taken (machineSetPairLabel ms))) machineSets.
Definition available_machine_sets (size : string) (taken : list string) (machineSets : list MachineSet) : list MachineSet :=
  List.filter (λ ms,
    isRequestServingMachineSet ms && str_eqb (machineSetSize ms) size &&
    (replicas_of ms =? 0)%Z && negb (is_taken taken (machineSetPairLabel ms))) machineSets.

(** The body of the loop over [placeHoldersNeeded]. *)
Definition scale_for_size (r : nodeRequirement) (taken : list string) (machineSets : list MachineSet)
    (machines : list Machine) (nodes : list Node) : list MachineSet :=
  let needCount := (count r - Z.of_nat (length (available_nodes (sizeLabel r) taken nodes)))%Z in
  let pendingMachineSets := pending_machine_sets (sizeLabel r) taken machineSets machines nodes in
  let needCount := (needCount - Z.of_nat (length pendingMachineSets))%Z in
  if (needCount <? 1)%Z then [] else
  let halves := halves_down pendingMachineSets machineSets in
  let needCount := (needCount - Z.of_nat (length halves))%Z in
  if (needCount <? 1)%Z then halves else
  let availableMachineSets := available_machine_sets (sizeLabel r) taken machineSets in
  halves ++ pick_pairs availableMachineSets availableMachineSets [] needCount [].

(** [func machineSetsToScaleUp(pods, machineSets, machines, nodes) ([]MachineSet, []corev1.Pod, []nodeRequirement)],
the machine sets. *)
Definition machineSetsToScaleUp (pods : list Pod) (machineSets : list MachineSet) (machines : list Machine)
    (nodes : list Node) : list MachineSet :=
  let pendingPods := List.filter isPodPending pods in
  match pendingPods with
  | [] => []
  | _ =>
      let required := determineRequiredNodes pendingPods pods nodes in
      let specific := List.filter (λ r, negb (str_eqb (needPairLabel r) "")) required in
      let placeHoldersNeeded := List.filter (λ r, str_eqb (needPairLabel r) "") required in
      let result := mjoin ((λ r, List.filter (λ ms,
        str_eqb (machineSetPairLabel ms) (needPairLabel r) && str_eqb (machineSetSize ms) (sizeLabel r) &&
        (replicas_of ms =? 0)%Z) machineSets) <$> specific) in
      let taken := taken_pair_labels pods nodes in
      result ++ mjoin ((λ r, scale_for_size r taken machineSets machines nodes) <$> placeHoldersNeeded)
  end.

(** *** Scaling down *)

(** The machine sets of nodes, those that are scaled up. *)
Definition machine_sets_of (nodes : list Node) (machineSets : list MachineSet) (machines : list Machine) : list MachineSet :=
  omap (λ n, match findMachineSet (nodeMachineSet n machines) machineSets with
             | Some ms => if (replicas_of ms =? 0)%Z then None else Some ms
             | None => None
             end) nodes.

(** [func nodeMachineSetsToScaleDown(node, machineSets, machines, nodes) []MachineSet] *)
Definition nodeMachineSetsToScaleDown (node : Node) (machineSets : list MachineSet) (machines : list Machine)
    (nodes : list Node) : list MachineSet :=
  let nodesToScaleDown :=
    if negb (str_eqb (pair_of node) "") then
      List.filter (λ n, str_eqb (pair_of n) (pair_of node) && negb (str_eqb (label n NodeSizeLabel) "")) nodes
    else if negb (str_eqb (label node NodeSizeLabel) "") then [node] else [] in
  machine_sets_of nodesToScaleDown machineSets machines.

(** [hc.Labels[HostedClusterSizeLabel]] as a selector on nodes *)
Definition sizeLabelSelector (hc : HostedCluster) : StringMap :=
  let size := mget (hcLabels hc) HostedClusterSizeLabel in
  if str_eqb size "" then ∅ else {[NodeSizeLabel := size]}.

(** [clusterNodes]: the nodes with the pair label of the first labelled node. *)
Definition cluster_nodes (hc : HostedCluster) (nodes : list Node) : list Node :=
  match List.filter (λ n, str_eqb (label n HostedClusterLabel) (clusterKey hc)) nodes with
  | [] => []
  | first :: _ =>
      List.filter (λ n, str_eqb (pair_of n) (pair_of first) && negb (str_eqb (label n NodeSizeLabel) "")) nodes
  end.

Definition too_new (now : Time) (n : Node) : bool := time_after (time_add (nodeCreation n) nodeScaleDownDelay) now.

(** [func hostedClusterMachineSetsToScaleDown(ctx, hostedCluster, machineSets, machines, nodes) ([]MachineSet, time.Duration)] *)
Definition hostedClusterMachineSetsToScaleDown (now : Time) (hc : HostedCluster) (machineSets : list MachineSet)
    (machines : list Machine) (nodes : list Node) : list MachineSet * Duration :=
  let additionalNodeSelector := ParseNodeSelector (mget (hcAnnotations hc) RequestServingNodeAdditionalSelectorAnnotation) in
  let sizeSelector := sizeLabelSelector hc in
  if bool_decide (additionalNodeSelector = ∅) && bool_decide (sizeSelector = ∅) then ([], 0%Z) else
  let clusterNodes := cluster_nodes hc nodes in
  let activeNodes := List.filter (λ n, labelsMatchSelector (nodeLabels n) sizeSelector ||
                                       labelsMatchSelector (nodeLabels n) additionalNodeSelector) clusterNodes in
  match activeNodes with
  | [] => ([], 0%Z)
  | _ =>
      let nodesToScaleDown := List.filter (λ n, negb (bool_decide (is_Some (findNode (nodeName n) activeNodes)))) clusterNodes in
      match nodesToScaleDown with
      | [] => ([], 0%Z)
      | _ =>
          let older := List.filter (λ n, negb (too_new now n)) nodesToScaleDown in
          (machine_sets_of older machineSets machines,
           if existsb (too_new now) nodesToScaleDown then nodeScaleDownDelay else 0%Z)
      end
  end.

(** *** All other workloads *)

(** [func validateConfigForNonRequestServing(config) error] *)
Definition validateConfigForNonRequestServing (config : ClusterSizingConfiguration) : bool :=
  config_valid config &&
  forallb (λ c, bool_decide (is_Some (scManagement c ≫= NonRequestServingNodesPerZone))) (Sizes config).

(** [func validateNonRequestServingMachineSets(machineSets) error] *)
Definition validateNonRequestServingMachineSets (machineSets : list MachineSet) : bool :=
  if negb (length machineSets =? 3)%nat then false else
  let bound k ms := Semver.ParseInt (mget (msAnnotations ms) k) in
  match mapM (bound minSizeMachineSetAnnotation) machineSets, mapM (bound maxSizeMachineSetAnnotation) machineSets with
  | Some mins, Some maxs =>
      match elements (list_to_set (C := gset Z) mins), elements (list_to_set (C := gset Z) maxs) with
      | [minSize], [maxSize] => negb ((maxSize <? minSize) || (maxSize <? 1))%Z
      | _, _ => false
      end
  | _, _ => false
  end.

(** Hosted clusters per size; those without a size label count for the size that
starts at zero. *)
Definition count_by_size (config : ClusterSizingConfiguration) (hcs : list HostedCluster) : gmap string Z :=
  let size hc := mget (hcLabels hc) HostedClusterSizeLabel in
  let bump k n (m : gmap string Z) := <[k := (default 0 (m !! k) + n)%Z]> m in
  let labelled := foldl (λ m hc, if str_eqb (size hc) "" then m else bump (size hc) 1%Z m) ∅ hcs in
  let notLabeled := Z.of_nat (length (List.filter (λ hc, str_eqb (size hc) "") hcs)) in
  if (0 <? notLabeled)%Z then
    match List.find (λ c, (From (scCriteria c) =? 0)%Z) (Sizes config) with
    | Some c => bump (scName c) notLabeled labelled
    | None => labelled
    end
  else labelled.

(** A conversion of a [float64] with an integral value to [int32]; out of range,
and for the values that are not finite ([None]), the result depends on the
machine. *)
Class Float64ToInt32 : Type := {
  int32_of_float : option Z → Z;
  int32_of_float_range z : (- 2 ^ 31 ≤ int32_of_float z < 2 ^ 31)%Z;
  int32_of_float_small z : (- 2 ^ 31 ≤ z < 2 ^ 31)%Z → int32_of_float (Some z) = z;
}.

Section Sizes.
Context `{!MapOrder} `{!Float64ToInt32}.

(** [nodesNeededQty] without the buffer; the dereference of a size without nodes per
zone panics. *)
Fixpoint nodes_needed (sizes : list SizeConfiguration) (counts : list (string * Z)) (acc : Quantity.Quantity)
    : go api_error Quantity.Quantity :=
  match counts with
  | [] => Ret acc
  | (size, n) :: rest =>
      match List.find (λ c, str_eqb (scName c) size) sizes with
      | None => nodes_needed sizes rest acc
      | Some c =>
          match scManagement c ≫= NonRequestServingNodesPerZone with
          | None => Panic
          | Some q => nodes_needed sizes rest (Quantity.Add acc (Quantity.Mul q n))
          end
      end
  end.

(** [nodesNeeded] within the limits of the machine sets. *)
Definition clamp_nodes (minNodes maxNodes nodesNeeded : Z) : Z :=
  let n := if (nodesNeeded <? to_int32 minNodes)%Z then to_int32 minNodes else nodesNeeded in
  if (to_int32 maxNodes <? n)%Z then to_int32 maxNodes else n.

(** [func nonRequestServingMachineSetsToScale(ctx, config, hostedClusters, machineSets) []machineSetReplicas] *)
Definition nonRequestServingMachineSetsToScale (config : ClusterSizingConfiguration) (hcs : list HostedCluster)
    (machineSets : list MachineSet) : go api_error (list (MachineSet * Z)) :=
  qty ← nodes_needed (Sizes config) (range (count_by_size config hcs)) (Quantity.mkQuantity false 0 0);
  let qty := match NonRequestServingNodesBufferPerZone config with
             | Some b => Quantity.Add qty b
             | None => qty
             end in
  let nodesNeeded := int32_of_float (Quantity.f64_ceil (Quantity.AsApproximateFloat64 qty)) in
  match machineSets with
  | first :: _ =>
      let bound k := default 0%Z (Semver.ParseInt (mget (msAnnotations first) k)) in
      let n := clamp_nodes (bound minSizeMachineSetAnnotation) (bound maxSizeMachineSetAnnotation) nodesNeeded in
      Ret ((λ ms, (ms, n)) <$> List.filter (λ ms, negb (replicas_of ms =? n)%Z) machineSets)
  | [] => Panic
  end.

End Sizes.

(** *** The controllers *)

Section Controllers.
Context {S : Type} `{!Kube S} `{!MapOrder} `{!SliceSort} `{!Float64ToInt32}.
Local Abbreviation M := (st S api_error).

(** [for ... { if err := r.SubResource("scale").Update(...); err != nil { errs = append(errs, err) } }] and
[utilerrors.NewAggregate(errs)] *)
Fixpoint scale_all (l : list (MachineSet * Z)) (failed : bool) : M unit := λ s,
  match l with
  | [] => if failed then (Throw (OtherError "failed to scale machinesets"), s) else (Ret (), s)
  | (ms, n) :: rest =>
      match k_scale_machineset ms n s with
      | (Ret _, s') => scale_all rest failed s'
      | (Throw _, s') => scale_all rest true s'
      | (Panic, s') => (Panic, s')
      end
  end.

(** [func (r *NonRequestServingNodeAutoscaler) Reconcile(ctx, req ctrl.Request) (ctrl.Result, error)] *)
Definition nonserving_Reconcile : M Result :=
  config ← wrap "could not get cluster sizing configuration" (reads k_get_sizing);
  if negb (validateConfigForNonRequestServing config) then mret no_requeue else
  hcs ← wrap "failed to list hosted clusters" (reads k_list_hcs);
  machineSets ← wrap "failed to list machinesets" (reads (k_list_machinesets machineSetNamespace));
  let nonReqServing := List.filter (λ ms,
    has_prefix (mget (msTemplateLabels ms) clusterAPIMachineTypeLabel) nonRequestServingLabelPrefix) machineSets in
  if negb (validateNonRequestServingMachineSets nonReqServing) then mret no_requeue else
  toScale ← st_lift (nonRequestServingMachineSetsToScale config hcs nonReqServing);
  _ ← scale_all toScale false;
  mret no_requeue.

(** [func (r *MachineSetDescaler) Reconcile(ctx, req ctrl.Request) (ctrl.Result, error)] *)
Definition descaler_Reconcile (now : Time) (req : string) : M Result := λ s,
  match k_get_node req s with
  | Panic => (Panic, s)
  | Throw err => if IsNotFound err then (Ret no_requeue, s) else (Throw (Wrapped "failed to get node" err), s)
  | Ret node =>
      if negb (has_label node RequestServingComponentLabel) then (Ret no_requeue, s) else
      if negb (has_label node HostedClusterLabel) then (Ret no_requeue, s) else
      let hcName := label node HostedClusterNameLabel in
      let hcNamespace := label node HostedClusterNamespaceLabel in
      if str_eqb hcName "" || str_eqb hcNamespace "" then (Ret no_requeue, s) else
      match k_get_hc (hcNamespace, hcName) s with
      | Panic => (Panic, s)
      | found =>
          match found with
          | Throw err => if negb (IsNotFound err) then (Throw (Wrapped "failed to get hosted cluster" err), s) else
              (machineSets ← wrap "failed to list machinesets" (reads (k_list_machinesets machineSetNamespace));
               machines ← wrap "failed to list machines" (reads (k_list_machines machineSetNamespace));
               nodes ← wrap "failed to list nodes" (reads k_list_nodes);
               _ ← scale_all ((λ ms, (ms, 0%Z)) <$> nodeMachineSetsToScaleDown node machineSets machines nodes) false;
               mret no_requeue) s
          | Ret hc =>
              (machineSets ← wrap "failed to list machinesets" (reads (k_list_machinesets machineSetNamespace));
               machines ← wrap "failed to list machines" (reads (k_list_machines machineSetNamespace));
               nodes ← wrap "failed to list nodes" (reads k_list_nodes);
               let '(toScaleDown, requeueAfter) := hostedClusterMachineSetsToScaleDown now hc machineSets machines nodes in
               _ ← scale_all ((λ ms, (ms, 0%Z)) <$> toScaleDown) false;
               mret (mkResult false requeueAfter)) s
          | Panic => (Panic, s)
          end
      end
  end.

(** [func (r *RequestServingNodeAutoscaler) Reconcile(ctx, req ctrl.Request) (ctrl.Result, error)] *)
Definition autoscaler_Reconcile (namespace : string) : M Result :=
  if negb (str_eqb namespace placeholderNamespace) then mret no_requeue else
  pods ← wrap "failed to list placeholder pods" (reads (k_list_pods placeholderNamespace));
  machineSets ← wrap "failed to list machinesets" (reads (k_list_machinesets machineSetNamespace));
  machines ← wrap "failed to list machines" (reads (k_list_machines machineSetNamespace));
  nodes ← wrap "failed to list nodes" (reads k_list_nodes);
  let placeholderPods := List.filter (λ p, has_labels [PlaceholderLabel] (podLabels p)) pods in
  let sorted := sort_slice (λ a b, str_lt (msName a) (msName b)) machineSets in
  _ ← scale_all ((λ ms, (ms, 1%Z)) <$> machineSetsToScaleUp placeholderPods sorted machines nodes) false;
  mret no_requeue.

End Controllers.

End NodeAutoscaler.
