(* ===== verification/ResourceBasedAutoscaler.v ===== *)
(** Sizing a hosted cluster by what its API server needs:
[hypershift-operator/controllers/resourcebasedcpautoscaler/].  The controller
keeps a cache of how much memory the machines of each size have
([machine_sizes_cache.go]), has the vertical pod autoscaler estimate the memory of
the API server, and writes the smallest size that is large enough to an annotation
of the HostedCluster, from which the sizing controller takes it
([controller.go]). *)
From S2P Require Import Prelude GoSort Api Quantity Upsert ClusterSizing Scheduler RequestServing NodeAutoscaler.

Module ResourceBasedAutoscaler.
Import ClusterSizing Scheduler RequestServing NodeAutoscaler.

(** *** The cache of machine sizes *)

(** [type machineResources struct] *)
Record machineResources : Type := mkResources { Memory : Quantity.Quantity; CPU : Quantity.Quantity }.

(** [type machineSizesCache struct] *)
Record machineSizesCache : Type := mkCache {
  cacheGeneration : Z;
  kasMemorySizeFraction : option Quantity.Quantity;
  sizes : gmap string machineResources;
}.
Definition empty_cache : machineSizesCache := mkCache 0 None ∅.

Definition memoryMbAnnotation : string := "machine.openshift.io/memoryMb".
Definition vCPUAnnotation : string := "machine.openshift.io/vCPU".
Definition zero_quantity : Quantity.Quantity := Quantity.mkQuantity false 0 0.

(** [kubeAPIServerMemorySizeFractionDefault] *)
Definition kubeAPIServerMemorySizeFractionDefault : Quantity.float64 :=
  Quantity.f64_div (Quantity.f64_of_Z 65) (Quantity.f64_of_Z 100).

(** [resource.ParseQuantity], which rounds to at most nine decimals. *)
Class QuantityParser : Type := {
  ParseQuantity : string → option Quantity.Quantity;
  ParseQuantity_valid s q : ParseQuantity s = Some q → Quantity.valid q;
}.

(** [func sizeMemoryCapacityAvailable(csc) bool] *)
Definition sizeMemoryCapacityAvailable (csc : ClusterSizingConfiguration) : bool :=
  forallb (λ size, bool_decide (is_Some (scCapacity size ≫= capMemory))) (Sizes csc).

(** [sizes] of [updateSizesFromConfig]; [None] is the dereference of a missing capacity. *)
Fixpoint sizes_from_config (l : list SizeConfiguration) (m : gmap string machineResources)
    : option (gmap string machineResources) :=
  match l with
  | [] => Some m
  | c :: l =>
      cap ← scCapacity c;
      sizes_from_config l (<[scName c := mkResources (default zero_quantity (capMemory cap))
                                                    (default zero_quantity (capCPU cap))]> m)
  end.

(** [func (s *machineSizesCache) updateSizesFromConfig(csc) error] *)
Definition updateSizesFromConfig (s : machineSizesCache) (csc : ClusterSizingConfiguration)
    : go api_error unit * machineSizesCache :=
  match sizes_from_config (Sizes csc) ∅ with
  | None => (Panic, s)
  | Some m => (Ret (), mkCache (cscGeneration csc) (kasMemorySizeFraction s) m)
  end.

Definition hasAllSizes (csc : ClusterSizingConfiguration) (m : gmap string machineResources) : bool :=
  forallb (λ c, bool_decide (is_Some (m !! scName c))) (Sizes csc).

Section Parsing.
Context `{!QuantityParser}.

(** What a machine set says about the machines of a size. *)
Definition resources_of (ms : MachineSet) : option machineResources :=
  memoryInMB ← msAnnotations ms !! memoryMbAnnotation;
  vCPU ← msAnnotations ms !! vCPUAnnotation;
  memory ← ParseQuantity (memoryInMB +:+ "Mi");
  cpu ← ParseQuantity vCPU;
  Some (mkResources memory cpu).

(** The loop over the machine sets. *)
Fixpoint introspect (csc : ClusterSizingConfiguration) (items : list MachineSet) (m : gmap string machineResources)
    : gmap string machineResources :=
  match items with
  | [] => m
  | ms :: rest =>
      let clusterSize := machineSetSize ms in
      if str_eqb clusterSize "" then introspect csc rest m else
      if bool_decide (is_Some (m !! clusterSize)) then introspect csc rest m else
      match resources_of ms with
      | None => introspect csc rest m
      | Some resources =>
          let m := <[clusterSize := resources]> m in
          if hasAllSizes csc m then m else introspect csc rest m
      end
  end.

(** [func (s *machineSizesCache) updateSizesFromMachineSets(csc, listMachineSets) error] *)
Definition updateSizesFromMachineSets (s : machineSizesCache) (csc : ClusterSizingConfiguration)
    (machineSetList : go api_error (list MachineSet)) : go api_error unit * machineSizesCache :=
  match machineSetList with
  | Throw err => (Throw err, s)
  | Panic => (Panic, s)
  | Ret items =>
      let m := introspect csc items ∅ in
      if negb (hasAllSizes csc m)
      then (Throw (OtherError "failed to introspect all machine sizes with existing machinesets"), s)
      else (Ret (), mkCache (cscGeneration csc) (kasMemorySizeFraction s) m)
  end.

(** [fraction <= 0 || fraction > 1] *)
Definition fraction_invalid (q : Quantity.Quantity) : bool :=
  let fraction := Quantity.AsApproximateFloat64 q in
  Quantity.f64_le fraction (Quantity.f64_of_Z 0) || Quantity.f64_lt (Quantity.f64_of_Z 1) fraction.

(** [func (s *machineSizesCache) update(csc, listMachineSets, log) error] *)
Definition update (s : machineSizesCache) (csc : ClusterSizingConfiguration)
    (machineSetList : go api_error (list MachineSet)) : go api_error unit * machineSizesCache :=
  if (cscGeneration csc =? cacheGeneration s)%Z && sizeMemoryCapacityAvailable csc then (Ret (), s) else
  if from_option fraction_invalid false (KubeAPIServerMemoryFraction csc)
  then (Throw (OtherError "KubeAPIServerMemoryFraction must be between 0 and 1"), s)
  else
    let s := mkCache (cacheGeneration s) (KubeAPIServerMemoryFraction csc) (sizes s) in
    if sizeMemoryCapacityAvailable csc then updateSizesFromConfig s csc
    else updateSizesFromMachineSets s csc machineSetList.

End Parsing.

(** [func (s *machineSizesCache) kasMemoryFraction() float64] *)
Definition kasMemoryFraction (s : machineSizesCache) : Quantity.float64 :=
  match kasMemorySizeFraction s with
  | Some q => Quantity.AsApproximateFloat64 q
  | None => kubeAPIServerMemorySizeFractionDefault
  end.

Definition less_memory (a b : string * machineResources) : bool :=
  match Quantity.Cmp (Memory a.2) (Memory b.2) with Lt => true | _ => false end.

(** [func (s *machineSizesCache) sizesInOrderByMemory() []string] *)
Definition sizesInOrderByMemory `{!MapOrder} `{!SliceSort} (s : machineSizesCache) : list string :=
  (sort_slice less_memory (range (sizes s))).*1.

(** [containerMemoryCapacity >= memory] *)
Definition fits (s : machineSizesCache) (memory : Quantity.float64) (r : machineResources) : bool :=
  Quantity.f64_le memory (Quantity.f64_mul (Quantity.AsApproximateFloat64 (Memory r)) (kasMemoryFraction s)).

(** [func (s *machineSizesCache) recommendedSize(memory float64) string] *)
Definition recommendedSize `{!MapOrder} `{!SliceSort} (s : machineSizesCache) (memory : Quantity.float64) : string :=
  let sizesInOrder := sizesInOrderByMemory s in
  match List.find (λ size, from_option (fits s memory) false (sizes s !! size)) sizesInOrder with
  | Some size => size
  | None => default "" (last sizesInOrder)
  end.

(** *** The vertical pod autoscaler *)

Definition hcNamespaceAnnotation : string := "hypershift.openshift.io/cluster-namespace".
Definition hcNameAnnotation : string := "hypershift.openshift.io/cluster-name".
Definition RecommendationProvided : string := "RecommendationProvided".

(** [func hostedClusterForVPA(ctx, object client.Object) []reconcile.Request] *)
Definition hostedClusterForVPA (vpa : VPA) : list NamespacedName :=
  let ns := mget (vpaAnnotations vpa) hcNamespaceAnnotation in
  let name := mget (vpaAnnotations vpa) hcNameAnnotation in
  if str_eqb ns "" || str_eqb name "" then [] else [(ns, name)].

(** [func KubeAPIServerVerticalPodAutoscaler(ns string) *VerticalPodAutoscaler] *)
Definition KubeAPIServerVerticalPodAutoscaler (ns : string) : VPA :=
  mkVPA ns "kube-apiserver" false ∅ None None None [].

(** [func reconcileKubeAPIServerVPAFunc(vpa, hc) func() error] *)
Definition reconcileKubeAPIServerVPAFunc (hc : HostedCluster) (vpa : VPA) : VPA :=
  mkVPA (vpaNamespace vpa) (vpaName vpa) (vpaDeleting vpa)
    (<[hcNameAnnotation := hcName hc]> (<[hcNamespaceAnnotation := hcNamespace hc]> (vpaAnnotations vpa)))
    (Some (mkUpdatePolicy (Some "Off") (vpaUpdatePolicy vpa ≫= MinReplicas)))
    (Some (mkTargetRef "apps/v1" "Deployment" "kube-apiserver"))
    (vpaRecommendation vpa) (vpaConditions vpa).

(** [func findVPACondition(conditions, conditionType) *VerticalPodAutoscalerCondition] *)
Definition findVPACondition (conditions : list VPACondition) (conditionType : string) : option VPACondition :=
  List.find (λ c, str_eqb (vcType c) conditionType) conditions.

(** [func isVPAReady(vpa) (bool, error)] *)
Definition isVPAReady (vpa : VPA) : bool :=
  match vpaRecommendation vpa with
  | None => false
  | Some recommendations =>
      match findVPACondition (vpaConditions vpa) RecommendationProvided with
      | None => false
      | Some c => str_eqb (vcStatus c) "True" && negb (bool_decide (recommendations = []))
      end
  end.

(** The memory recommended for the API server; [ResourceList.Memory()] is zero when
there is no entry. *)
Definition kubeAPIServerMemory (l : list ContainerRecommendation) : option Quantity.Quantity :=
  (λ c, default zero_quantity (UncappedTargetMemory c)) <$>
    List.find (λ c, str_eqb (recommendedContainer c) "kube-apiserver") l.

(** [func recommendedClusterSize(recommendation, sizeCache) string] *)
Definition recommendedClusterSize `{!MapOrder} `{!SliceSort} (recommendation : list ContainerRecommendation)
    (sizeCache : machineSizesCache) : string :=
  match kubeAPIServerMemory recommendation with
  | None => ""
  | Some memory => recommendedSize sizeCache (Quantity.AsApproximateFloat64 memory)
  end.

(** *** The controller *)

Section Controller.
Context {S : Type} `{!Kube S} `{!MapOrder} `{!SliceSort} `{!QuantityParser}.

(** The client and the cache the controller holds. *)
Local Abbreviation M := (st (S * machineSizesCache) api_error).

Definition client {A} (m : st S api_error A) : M A := λ '(s, cache), let '(r, s') := m s in (r, (s', cache)).

(** [r.sizeCache.update(config, listMachineSets, log)] *)
Definition refresh (config : ClusterSizingConfiguration) : M unit := λ '(s, cache),
  let '(r, cache') := update cache config (k_list_machinesets machineSetNamespace s) in
  (match r with Throw err => Throw (Wrapped "failed to update machine size cache" err) | r => r end, (s, cache')).

(** [func (r *ControlPlaneAutoscalerController) updateSizeCache(ctx) error] *)
Definition updateSizeCache : M unit :=
  config ← client (wrap "failed to fetch cluster sizing configuration" (reads k_get_sizing));
  refresh config.

(** [util.DeleteIfNeeded(ctx, r, vpa)] *)
Definition deleteVPAIfNeeded (key : NamespacedName) : st S api_error bool := λ s,
  match k_get_vpa key s with
  | Panic => (Panic, s)
  | Throw err =>
      if IsNotFound err || IsNoMatchError err then (Ret false, s)
      else (Throw (Wrapped "error getting *v1.VerticalPodAutoscaler" err), s)
  | Ret v =>
      if vpaDeleting v then (Ret true, s) else
      match k_delete_vpa key s with
      | (Panic, s') => (Panic, s')
      | (Throw err, s') =>
          if IsNotFound err then (Ret false, s')
          else (Throw (Wrapped "error deleting *v1.VerticalPodAutoscaler" err), s')
      | (Ret _, s') => (Ret true, s')
      end
  end.

(** [func (r *ControlPlaneAutoscalerController) updateSizeRecommendation(ctx, vpa, hc) error] *)
Definition updateSizeRecommendation (vpa : VPA) (hc : HostedCluster) : M unit := λ '(s, cache),
  match vpaRecommendation vpa with
  | None => (Panic, (s, cache))
  | Some recommendation =>
      let size := recommendedClusterSize recommendation cache in
      if str_eqb size "" then (Ret (), (s, cache)) else
      if str_eqb (mget (hcAnnotations hc) RecommendedClusterSizeAnnotation) size then (Ret (), (s, cache)) else
      client (wrap "failed to patch HostedCluster"
        (k_patch_hc hc (set_hcAnnotations (<[RecommendedClusterSizeAnnotation := size]> (hcAnnotations hc)) hc)))
        (s, cache)
  end.

(** The hosted cluster is to be sized by the resources its API server needs. *)
Definition autoscaled (hc : HostedCluster) : bool :=
  str_eqb (mget (hcAnnotations hc) ResourceBasedControlPlaneAutoscalingAnnotation) "true" &&
  str_eqb (mget (hcAnnotations hc) TopologyAnnotation) DedicatedRequestServingComponentsTopology.

(** [Reconcile] for a hosted cluster that exists. *)
Definition reconcile_cluster (hc : HostedCluster) : M Result :=
  if hcDeleting hc then mret no_requeue else
  let vpa := KubeAPIServerVerticalPodAutoscaler (HostedControlPlaneNamespace (hcNamespace hc) (hcName hc)) in
  if negb (autoscaled hc) then _ ← client (deleteVPAIfNeeded (vpaKey vpa)); mret no_requeue else
  vpa ← client (wrap "failed to reconcile kube apiserver vpa"
          (k_create_or_update_vpa vpa (reconcileKubeAPIServerVPAFunc hc)));
  if negb (isVPAReady vpa) then mret no_requeue else
  _ ← updateSizeRecommendation vpa hc;
  mret no_requeue.

(** [r.Get(ctx, request.NamespacedName, hc)] and what follows it. *)
Definition with_cluster (request : NamespacedName) : M Result := λ '(s, cache),
  match k_get_hc request s with
  | Panic => (Panic, (s, cache))
  | Throw err => if IsNotFound err then (Ret no_requeue, (s, cache)) else (Throw err, (s, cache))
  | Ret hc => reconcile_cluster hc (s, cache)
  end.

(** [func (r *ControlPlaneAutoscalerController) Reconcile(ctx, request) (reconcile.Result, error)] *)
Definition Reconcile (request : NamespacedName) : M Result := _ ← updateSizeCache; with_cluster request.

End Controller.

End ResourceBasedAutoscaler.
