(* ===== verification/NodeAutoscalerProofs.v ===== *)
(** What the machine set autoscalers do: which machine sets they scale up and for
whom, which nodes they never take away, and within which limits they keep the
nodes of the other workloads. *)
From S2P Require Import Prelude GoSort Semver Api Quantity Upsert ClusterSizing Scheduler SchedulerLaws RequestServing NodeAutoscaler.
From Stdlib Require Import Ascii.

Module NodeAutoscalerProofs.
Import ClusterSizing Scheduler SchedulerLaws RequestServing NodeAutoscaler.

(** *** Requirements *)

(** A requirement for a size and a pair label is in the list. *)
Definition required (reqs : list nodeRequirement) (sz pr : string) : Prop :=
  ∃ r, r ∈ reqs ∧ sizeLabel r = sz ∧ needPairLabel r = pr.

Lemma required_nil sz pr : ¬ required [] sz pr.
Proof. intros (r & Hr & _). by apply elem_of_nil in Hr. Qed.

Lemma required_cons x reqs sz pr :
  required (x :: reqs) sz pr ↔ (sz = sizeLabel x ∧ pr = needPairLabel x) ∨ required reqs sz pr.
Proof. unfold required. setoid_rewrite elem_of_cons. naive_solver. Qed.

(** Adding a requirement makes it required, and changes nothing else. *)
Lemma addRequirement_required reqs sz pr n s p :
  required (addRequirement reqs sz pr n) s p ↔ required reqs s p ∨ (s = sz ∧ p = pr).
Proof.
  induction reqs as [|x reqs IH]; simpl.
  - rewrite required_cons. simpl. pose proof (required_nil s p). naive_solver.
  - destruct (_ && _) eqn:E.
    + apply andb_true_iff in E as [?%str_eqb_eq ?%str_eqb_eq].
      rewrite !required_cons. simpl. naive_solver.
    + rewrite !required_cons, IH. tauto.
Qed.

(** *** Pairs of pods *)

Lemma getPairPod_Some pod pods p : getPairPod pod pods = Some p →
  p ∈ pods ∧ podLabels p = podLabels pod ∧ podName p ≠ podName pod.
Proof.
  intros [Hp [E1 E2]%andb_true_iff]%find_Some_elem.
  apply negb_true_iff, str_eqb_neq in E1. apply bool_decide_eq_true in E2. auto.
Qed.

Lemma find_pod_pairs_elem pending all skip ps ss : find_pod_pairs pending all skip = (ps, ss) →
  (∀ p q, (p, q) ∈ ps → p ∈ pending ∧ getPairPod p all = Some q) ∧ (∀ p, p ∈ ss → p ∈ pending).
Proof.
  revert skip ps ss. induction pending as [|x pending IH]; intros skip ps ss; simpl.
  - intros [= <- <-]. split; intros *; by rewrite elem_of_nil.
  - case_bool_decide.
    { intros [Hp Hs]%IH. split; intros *; rewrite elem_of_cons; naive_solver. }
    destruct (getPairPod x all) as [y|] eqn:Hy.
    + destruct (find_pod_pairs pending all (podName y :: skip)) as [ps' ss'] eqn:E. intros [= <- <-].
      destruct (IH _ _ _ E) as [Hp Hs]. split; intros *; rewrite ?elem_of_cons; naive_solver.
    + destruct (find_pod_pairs pending all skip) as [ps' ss'] eqn:E. intros [= <- <-].
      destruct (IH _ _ _ E) as [Hp Hs]. split; intros *; rewrite ?elem_of_cons; naive_solver.
Qed.

(** No pending pod is forgotten. *)
Lemma find_pod_pairs_covers pending all skip ps ss p : find_pod_pairs pending all skip = (ps, ss) →
  p ∈ pending → podName p ∈ skip ∨ p ∈ ss ∨ (∃ q, (p, q) ∈ ps) ∨ (∃ p' q, (p', q) ∈ ps ∧ podName q = podName p).
Proof.
  revert skip ps ss. induction pending as [|x pending IH]; intros skip ps ss; simpl.
  - intros _ Hp. by apply elem_of_nil in Hp.
  - case_bool_decide.
    { intros E [->|Hp]%elem_of_cons; [by left|eauto]. }
    destruct (getPairPod x all) as [y|] eqn:Hy.
    + destruct (find_pod_pairs pending all (podName y :: skip)) as [ps' ss'] eqn:E. intros [= <- <-].
      intros [->|Hp]%elem_of_cons; [do 2 right; left; exists y; by left|].
      setoid_rewrite elem_of_cons.
      destruct (IH _ _ _ E Hp) as [[He|?]%elem_of_cons|[?|[[q ?]|(p' & q & ? & ?)]]]; naive_solver.
    + destruct (find_pod_pairs pending all skip) as [ps' ss'] eqn:E. intros [= <- <-].
      setoid_rewrite elem_of_cons. intros [->|Hp]; [auto|].
      destruct (IH _ _ _ E Hp) as [?|[?|[?|?]]]; auto.
Qed.

Lemma foldl_required {A} (F : list nodeRequirement → A → list nodeRequirement) (Q : A → string → string → Prop) :
  (∀ reqs x s p, required (F reqs x) s p ↔ required reqs s p ∨ Q x s p) →
  ∀ l reqs s p, required (foldl F reqs l) s p ↔ required reqs s p ∨ ∃ x, x ∈ l ∧ Q x s p.
Proof.
  intros HF l. induction l as [|x l IH]; intros reqs s p; simpl.
  - setoid_rewrite elem_of_nil. naive_solver.
  - rewrite IH, HF. setoid_rewrite elem_of_cons. naive_solver.
Qed.

(** The pair label a pair of pods asks for. *)
Definition pods_pair_label (nodes : list Node) (pq : Pod * Pod) : string :=
  if str_eqb (podPairLabel pq.1 nodes) "" then podPairLabel pq.2 nodes else podPairLabel pq.1 nodes.

(** What is required: one entry for each pair of pods, and one for each single pod
that asks for a pair label. *)
Lemma determineRequiredNodes_spec pending all nodes ps ss s p : findPodPairs pending all = (ps, ss) →
  required (determineRequiredNodes pending all nodes) s p ↔
  (∃ x, x ∈ ps ∧ s = podSize x.1 ∧ p = pods_pair_label nodes x) ∨
  (∃ x, x ∈ ss ∧ podPairLabel x nodes ≠ "" ∧ s = podSize x ∧ p = podPairLabel x nodes).
Proof.
  intros E. unfold determineRequiredNodes. rewrite E.
  rewrite (foldl_required _ (λ x s p, podPairLabel x nodes ≠ "" ∧ s = podSize x ∧ p = podPairLabel x nodes)).
  - rewrite (foldl_required _ (λ x s p, s = podSize x.1 ∧ p = pods_pair_label nodes x)).
    + pose proof (required_nil s p). tauto.
    + intros reqs [p1 p2] s' p'. apply addRequirement_required.
  - intros reqs x s' p'. destruct (str_eqb (podPairLabel x nodes) "") eqn:Hx.
    + apply str_eqb_eq in Hx. naive_solver.
    + apply str_eqb_neq in Hx. rewrite addRequirement_required. naive_solver.
Qed.

(** Every requirement comes from a pending pod, and its pair label from that pod or
from the pod of the same deployment. *)
Lemma determineRequiredNodes_sound pending all nodes s p : required (determineRequiredNodes pending all nodes) s p →
  ∃ x y, x ∈ pending ∧ podSize x = s ∧ (y = x ∨ getPairPod x all = Some y) ∧ podPairLabel y nodes = p.
Proof.
  destruct (findPodPairs pending all) as [ps ss] eqn:E.
  destruct (find_pod_pairs_elem _ _ _ _ _ E) as [Hp Hs].
  rewrite (determineRequiredNodes_spec _ _ _ _ _ _ _ E).
  intros [([x y] & Hx & -> & ->)|(x & Hx & _ & -> & ->)].
  - destruct (Hp _ _ Hx) as [? ?]. unfold pods_pair_label; simpl.
    destruct (str_eqb _ _); [exists x, y|exists x, x]; auto.
  - exists x, x. auto.
Qed.

(** The pods of one deployment, which have the same labels, ask for the same nodes. *)
Definition same_request (pods : list Pod) (nodes : list Node) : Prop :=
  ∀ p q, p ∈ pods → q ∈ pods → podLabels p = podLabels q →
    podSize p = podSize q ∧ podPairLabel p nodes = podPairLabel q nodes.

Lemma determineRequiredNodes_complete pending all nodes p :
  pending ⊆ all → NoDup (podName <$> all) → same_request all nodes →
  p ∈ pending → podPairLabel p nodes ≠ "" →
  required (determineRequiredNodes pending all nodes) (podSize p) (podPairLabel p nodes).
Proof.
  intros Hsub Hnd Hsame Hp Hne. destruct (findPodPairs pending all) as [ps ss] eqn:E.
  destruct (find_pod_pairs_elem _ _ _ _ _ E) as [Hps Hss].
  rewrite (determineRequiredNodes_spec _ _ _ _ _ _ _ E).
  destruct (find_pod_pairs_covers _ _ _ _ _ _ E Hp) as [Hn|[?|[[q Hq]|(p' & q & Hq & Hn)]]].
  - by apply elem_of_nil in Hn.
  - right. by exists p.
  - left. exists (p, q). unfold pods_pair_label; simpl. rewrite (proj2 (str_eqb_neq _ _)) by done. auto.
  - destruct (Hps _ _ Hq) as [Hp' (Hqa & Hl & _)%getPairPod_Some].
    assert (q = p) as ->.
    { apply list_elem_of_lookup in Hqa as [i Hi]. apply Hsub, list_elem_of_lookup in Hp as [j Hj].
      assert (i = j) as ->; [|congruence].
      eapply NoDup_lookup; [exact Hnd|rewrite list_lookup_fmap, Hi; done|].
      rewrite list_lookup_fmap, Hj. simpl. by rewrite Hn. }
    destruct (Hsame p p') as [Hz Hl']; [auto..|].
    left. exists (p', p). unfold pods_pair_label; simpl. rewrite <- Hl', <- Hz.
    rewrite (proj2 (str_eqb_neq _ _)) by done. auto.
Qed.

(** *** Scaling up *)

Lemma matchingMachineSet_Some ms l m : matchingMachineSet ms l = Some m →
  m ∈ l ∧ machineSetSize m = machineSetSize ms ∧ machineSetPairLabel m = machineSetPairLabel ms ∧ msName m ≠ msName ms.
Proof.
  intros [Hm [[E1 E2]%andb_true_iff E3]%andb_true_iff]%find_Some_elem.
  apply negb_true_iff, str_eqb_neq in E1. apply str_eqb_eq in E2, E3. auto.
Qed.

Lemma pick_pairs_elem cand avail skip need picked ms : ms ∈ pick_pairs cand avail skip need picked →
  ms ∈ picked ∨ ms ∈ cand ∨ ms ∈ avail.
Proof.
  revert skip picked. induction cand as [|x cand IH]; intros skip picked; simpl; [auto|].
  case_bool_decide; [intros [?|[?|?]]%IH; rewrite ?elem_of_cons; auto|].
  destruct (matchingMachineSet x avail) as [y|] eqn:Hy;
    [|intros [?|[?|?]]%IH; rewrite ?elem_of_cons; auto].
  apply matchingMachineSet_Some in Hy as [Hy _].
  assert (Hpy : ∀ z, z ∈ picked ++ [x; y] → z ∈ picked ∨ z ∈ x :: cand ∨ z ∈ avail).
  { intros z. rewrite elem_of_app, !elem_of_cons, elem_of_nil. naive_solver. }
  destruct (_ <=? _)%Z; [apply Hpy|].
  intros [?|[?|?]]%IH; [by apply Hpy|rewrite elem_of_cons; auto..].
Qed.

(** The loop either finds enough machine sets or has taken every free pair. *)
Lemma pick_pairs_enough cand avail skip need picked :
  (need ≤ Z.of_nat (length (pick_pairs cand avail skip need picked)))%Z ∨
  (picked ⊆ pick_pairs cand avail skip need picked ∧
   ∀ ms, ms ∈ cand → is_Some (matchingMachineSet ms avail) →
     msName ms ∈ skip ∨ msName ms ∈ msName <$> pick_pairs cand avail skip need picked).
Proof.
  revert skip picked. induction cand as [|x cand IH]; intros skip picked; simpl.
  - right. split; [done|]. intros ms Hms. by apply elem_of_nil in Hms.
  - case_bool_decide as Hsk.
    { destruct (IH skip picked) as [|[? HI]]; [by left|right; split; [done|]].
      intros ms [->|Hms]%elem_of_cons; auto. }
    destruct (matchingMachineSet x avail) as [y|] eqn:Hy.
    + destruct (_ <=? _)%Z eqn:Hn; [left; lia|].
      destruct (IH (msName y :: skip) (picked ++ [x; y])) as [|[Hsub HI]]; [by left|right].
      assert (Hxy : ∀ z, z ∈ picked ++ [x; y] → msName z ∈ msName <$>
                pick_pairs cand avail (msName y :: skip) need (picked ++ [x; y])).
      { intros z Hz. apply list_elem_of_fmap. eauto. }
      split; [intros z Hz; apply Hsub; set_solver|].
      intros ms [->|Hms]%elem_of_cons Hm; [right; apply Hxy; set_solver|].
      destruct (HI ms Hms Hm) as [[->|?]%elem_of_cons|?]; [right; apply Hxy; set_solver|auto..].
    + destruct (IH skip picked) as [|[? HI]]; [by left|right; split; [done|]].
      intros ms [->|Hms]%elem_of_cons Hm; [rewrite Hy in Hm; by destruct Hm|auto].
Qed.

Lemma is_taken_false pods nodes pr : is_taken (taken_pair_labels pods nodes) pr = false →
  (∀ n, n ∈ nodes → label n HostedClusterLabel ≠ "" → pair_of n ≠ pr) ∧
  (∀ q, q ∈ pods → podPairLabel q nodes ≠ "" → podPairLabel q nodes ≠ pr).
Proof.
  unfold is_taken, taken_pair_labels. rewrite bool_decide_eq_false, elem_of_app. intros Hn. split.
  - intros n Hin Hl <-. apply Hn. left. apply list_elem_of_fmap. exists n. split; [done|].
    apply elem_of_filter_bool. split; [done|]. by apply negb_true_iff, str_eqb_neq.
  - intros q Hin Hl <-. apply Hn. right. apply elem_of_filter_bool. split; [|by apply negb_true_iff, str_eqb_neq].
    apply list_elem_of_fmap. eauto.
Qed.

Lemma available_machine_sets_elem size taken msets ms : ms ∈ available_machine_sets size taken msets ↔
  ms ∈ msets ∧ isRequestServingMachineSet ms = true ∧ machineSetSize ms = size ∧ replicas_of ms = 0%Z ∧
  is_taken taken (machineSetPairLabel ms) = false.
Proof.
  unfold available_machine_sets. rewrite elem_of_filter_bool, !andb_true_iff, str_eqb_eq, Z.eqb_eq, negb_true_iff. tauto.
Qed.

Lemma halves_down_elem size taken msets machines nodes ms :
  ms ∈ halves_down (pending_machine_sets size taken msets machines nodes) msets →
  ms ∈ msets ∧ replicas_of ms = 0%Z ∧ machineSetSize ms = size ∧ is_taken taken (machineSetPairLabel ms) = false.
Proof.
  unfold halves_down. intros (x & Hx & Hms)%list_elem_of_omap.
  apply elem_of_filter_bool in Hx as [_ Hx]. rewrite !andb_true_iff, str_eqb_eq, negb_true_iff in Hx.
  destruct Hx as [[[[[_ Hs] _] _] _] Ht].
  destruct (matchingMachineSet x msets) as [y|] eqn:Hy; [|done].
  destruct (replicas_of y =? 0)%Z eqn:Hr; simplify_eq. apply Z.eqb_eq in Hr.
  apply matchingMachineSet_Some in Hy as (? & Hs' & Hp' & _). rewrite Hs', Hp'. auto.
Qed.

Lemma scale_for_size_elem r taken msets machines nodes ms : ms ∈ scale_for_size r taken msets machines nodes →
  ms ∈ msets ∧ replicas_of ms = 0%Z ∧ machineSetSize ms = sizeLabel r ∧ is_taken taken (machineSetPairLabel ms) = false.
Proof.
  unfold scale_for_size. destruct (_ <? 1)%Z; [by rewrite elem_of_nil|].
  destruct (_ <? 1)%Z; [apply halves_down_elem|].
  rewrite elem_of_app. intros [?%halves_down_elem|Hp%pick_pairs_elem]; [done|].
  rewrite elem_of_nil in Hp. destruct Hp as [[]|[Hp|Hp]];
    apply available_machine_sets_elem in Hp; tauto.
Qed.

Lemma machineSetsToScaleUp_elem pods msets machines nodes ms :
  ms ∈ machineSetsToScaleUp pods msets machines nodes ↔
  ∃ r, r ∈ determineRequiredNodes (List.filter isPodPending pods) pods nodes ∧
    ((needPairLabel r ≠ "" ∧ ms ∈ msets ∧ machineSetPairLabel ms = needPairLabel r ∧
      machineSetSize ms = sizeLabel r ∧ replicas_of ms = 0%Z) ∨
     (needPairLabel r = "" ∧ ms ∈ scale_for_size r (taken_pair_labels pods nodes) msets machines nodes)).
Proof.
  unfold machineSetsToScaleUp.
  destruct (List.filter isPodPending pods) as [|x l] eqn:E.
  - rewrite elem_of_nil. split; [done|]. intros (r & Hr & _). simpl in Hr. by apply elem_of_nil in Hr.
  - rewrite elem_of_app, !list_elem_of_join. setoid_rewrite list_elem_of_fmap. split.
    + intros [(? & Hms & r & -> & Hr)|(? & Hms & r & -> & Hr)]; exists r;
        rewrite elem_of_filter_bool in Hr; destruct Hr as [Hr Hn]; (split; [done|]).
      * left. apply negb_true_iff, str_eqb_neq in Hn.
        rewrite elem_of_filter_bool, !andb_true_iff, !str_eqb_eq, Z.eqb_eq in Hms. tauto.
      * right. by apply str_eqb_eq in Hn.
    + intros (r & Hr & [(Hn & Hms & Hp & Hs & Hz)|(Hn & Hms)]).
      * left. eexists. split; [|exists r; split; [reflexivity|]].
        -- by rewrite elem_of_filter_bool, !andb_true_iff, !str_eqb_eq, Z.eqb_eq.
        -- rewrite elem_of_filter_bool. split; [done|]. by apply negb_true_iff, str_eqb_neq.
      * right. eexists. split; [exact Hms|]. exists r. split; [done|].
        rewrite elem_of_filter_bool. split; [done|]. by apply str_eqb_eq.
Qed.

(** For whom a machine set is scaled up: a pending pod of its size, such that the
pod, or the other pod of its deployment, asks for the pair label of the machine
set, or such that no node of a hosted cluster and no placeholder has it. *)
Definition wanted_by (pods : list Pod) (nodes : list Node) (ms : MachineSet) (p : Pod) : Prop :=
  p ∈ pods ∧ isPodPending p = true ∧ podSize p = machineSetSize ms ∧
  ((∃ q, q ∈ pods ∧ podLabels q = podLabels p ∧
      podPairLabel q nodes = machineSetPairLabel ms ∧ machineSetPairLabel ms ≠ "") ∨
   ((∀ n, n ∈ nodes → label n HostedClusterLabel ≠ "" → pair_of n ≠ machineSetPairLabel ms) ∧
    (∀ q, q ∈ pods → podPairLabel q nodes ≠ "" → podPairLabel q nodes ≠ machineSetPairLabel ms))).

Lemma scale_up_targets pods msets machines nodes ms :
  ms ∈ machineSetsToScaleUp pods msets machines nodes →
  ms ∈ msets ∧ replicas_of ms = 0%Z ∧ ∃ p, wanted_by pods nodes ms p.
Proof.
  intros (r & Hr & Hms)%machineSetsToScaleUp_elem.
  destruct (determineRequiredNodes_sound _ _ _ (sizeLabel r) (needPairLabel r) ltac:(by exists r))
    as (p & q & [Hp Hpend]%elem_of_filter_bool & Hs & Hq & Hl).
  assert (Hq' : q ∈ pods ∧ podLabels q = podLabels p).
  { destruct Hq as [->|(? & ? & _)%getPairPod_Some]; auto. }
  destruct Hms as [(Hne & Hms & Hpl & Hsz & Hz)|(He & (Hms & Hz & Hsz & Ht)%scale_for_size_elem)];
    (split; [done|]; split; [done|]; exists p; split; [done|]; split; [done|]; split; [congruence|]).
  - left. exists q. rewrite Hpl. naive_solver.
  - right. by apply is_taken_false.
Qed.

(** No pending pod of a hosted cluster is left behind: when a pending placeholder
pod asks for a pair label, every machine set of that pair label and of the pod's
size that is at zero is scaled up. *)
Theorem scale_up_serves_pairs pods msets machines nodes p ms :
  NoDup (podName <$> pods) → same_request pods nodes →
  p ∈ pods → isPodPending p = true → podPairLabel p nodes ≠ "" →
  ms ∈ msets → machineSetPairLabel ms = podPairLabel p nodes → machineSetSize ms = podSize p → replicas_of ms = 0%Z →
  ms ∈ machineSetsToScaleUp pods msets machines nodes.
Proof.
  intros Hnd Hsame Hp Hpend Hne Hms Hpl Hsz Hz. apply machineSetsToScaleUp_elem.
  destruct (determineRequiredNodes_complete (List.filter isPodPending pods) pods nodes p) as (r & Hr & Hrs & Hrp);
    [intros x Hx; by apply elem_of_filter_bool in Hx as [? _]|done|done|by apply elem_of_filter_bool|done|].
  exists r. split; [done|]. left. rewrite Hrs, Hrp. auto.
Qed.

(** For the pods that ask for no pair, as many machine sets are scaled up as
placeholders are missing a node (nodes that are free and machine sets that are
coming up count), or every free machine set of the size that has a free partner
is. *)
Theorem scale_up_serves_placeholders r taken msets machines nodes :
  let up := scale_for_size r taken msets machines nodes in
  (count r ≤ Z.of_nat (length (available_nodes (sizeLabel r) taken nodes)) +
             Z.of_nat (length (pending_machine_sets (sizeLabel r) taken msets machines nodes)) +
             Z.of_nat (length up))%Z ∨
  ∀ ms, ms ∈ available_machine_sets (sizeLabel r) taken msets →
    is_Some (matchingMachineSet ms (available_machine_sets (sizeLabel r) taken msets)) →
    msName ms ∈ msName <$> up.
Proof.
  simpl. unfold scale_for_size.
  match goal with |- context [if ?b then [] else _] => destruct b eqn:E1; [left; simpl; lia|] end.
  match goal with |- context [if ?b then _ else _] => destruct b eqn:E2; [left; lia|] end.
  match goal with |- context [pick_pairs ?c ?a ?s ?n ?p] =>
    destruct (pick_pairs_enough c a s n p) as [Hn|[_ Hc]] end.
  - left. rewrite length_app. lia.
  - right. intros ms Hms Hm. rewrite fmap_app, elem_of_app. right.
    destruct (Hc ms Hms Hm) as [Hx|?]; [by apply elem_of_nil in Hx|done].
Qed.

(** *** Scaling *)

Section Scaling.
Context {S : Type} `{!Kube S} `{!KubeLaws S}.

(** Every machine set is as before or has a number of replicas it was to get. *)
Definition rescaled (l : list (MachineSet * Z)) (before after : Objects) : Prop :=
  ∃ m, after = with_machinesets m before ∧
    ∀ k, m !! k = o_machinesets before !! k ∨
      ∃ ms n, (ms, n) ∈ l ∧ msKey ms = k ∧ m !! k = scaled n <$> o_machinesets before !! k.

Lemma rescaled_refl l v : rescaled l v v.
Proof. exists (o_machinesets v). split; [by destruct v|]. auto. Qed.

Lemma rescaled_cons ms n l before after after' :
  after = before ∨ after = with_machinesets (alter (scaled n) (msKey ms) (o_machinesets before)) before →
  rescaled l after after' → rescaled ((ms, n) :: l) before after'.
Proof.
  intros Hw (m & -> & Hm). exists m. split; [by destruct Hw as [->| ->]|]. intros k.
  destruct Hw as [->| ->]; simpl in Hm.
  { destruct (Hm k) as [?|(ms' & n' & ? & ?)]; [by left|right]. exists ms', n'. rewrite elem_of_cons. auto. }
  destruct (decide (msKey ms = k)) as [Hk|Hk].
  - rewrite <- Hk in *. specialize (Hm (msKey ms)). rewrite lookup_alter_eq in Hm. right.
    destruct Hm as [Hm|(ms' & n' & ? & ? & Hm)].
    + exists ms, n. split; [by left|]. split; [done|]. by rewrite Hm.
    + exists ms', n'. split; [by right|]. split; [done|]. rewrite Hm.
      by destruct (o_machinesets before !! msKey ms).
  - specialize (Hm k). rewrite lookup_alter_ne in Hm by done.
    destruct Hm as [?|(ms' & n' & ? & ?)]; [by left|right]. exists ms', n'. rewrite elem_of_cons. auto.
Qed.

Lemma scale_all_rescaled l failed s r s' : scale_all l failed s = (r, s') → rescaled l (view s) (view s').
Proof.
  revert failed s. induction l as [|[ms n] l IH]; intros failed s; simpl.
  - destruct failed; intros [= <- <-]; apply rescaled_refl.
  - destruct (k_scale_machineset ms n s) as [r1 s1] eqn:E.
    apply scale_machineset_stored in E.
    assert (Hw : view s1 = view s ∨
      view s1 = with_machinesets (alter (scaled n) (msKey ms) (o_machinesets (view s))) (view s)).
    { destruct E as [?|[? _]]; auto. }
    destruct r1; [intros ?%IH..|intros [= <- <-]]; (eapply rescaled_cons; [exact Hw|]);
      [done..|apply rescaled_refl].
Qed.

(** The machine set of a key that changed. *)
Lemma rescaled_changed l before after k : rescaled l before after →
  o_machinesets after !! k ≠ o_machinesets before !! k →
  ∃ ms n x, (ms, n) ∈ l ∧ msKey ms = k ∧ o_machinesets before !! k = Some x ∧
    o_machinesets after !! k = Some (scaled n x).
Proof.
  intros (m & -> & Hm) Hne. simpl in *. destruct (Hm k) as [?|(ms & n & ? & ? & Hk)]; [done|].
  destruct (o_machinesets before !! k) as [x|] eqn:E; [|by rewrite Hk in Hne].
  exists ms, n, x. auto.
Qed.

(** The same for machine sets that were listed. *)
Lemma rescaled_listed l before after k ns sel msets : rescaled l before after →
  listing msKey (λ ms, str_eqb (msNamespace ms) ns) (o_machinesets before) msets →
  (∀ ms n, (ms, n) ∈ l → ms ∈ msets ∧ sel ms n) →
  o_machinesets after !! k ≠ o_machinesets before !! k →
  ∃ ms n, o_machinesets before !! k = Some ms ∧ o_machinesets after !! k = Some (scaled n ms) ∧
    msNamespace ms = ns ∧ (ms, n) ∈ l ∧ sel ms n.
Proof.
  intros Hr Hl Hsel Hne. destruct (rescaled_changed _ _ _ _ Hr Hne) as (ms & n & x & Hin & <- & Hb & Ha).
  destruct (Hsel _ _ Hin) as [Hms Hs]. destruct (listing_elem _ _ _ _ _ Hl Hms) as [Hst Hns].
  exists ms, n. assert (x = ms) as -> by congruence. by apply str_eqb_eq in Hns.
Qed.

Lemma scale_all_then {A} l (a : A) s r s' :
  (_ ← scale_all l false; mret a) s = (r, s') → rescaled l (view s) (view s').
Proof. intros [(? & s1 & E & [= <- <-])|(? & E & _)]%bind_inv; by eapply scale_all_rescaled. Qed.

Lemma listing_perm {K A} `{Countable K} (key : A → K) p (m : gmap K A) l l' :
  l' ≡ₚ l → listing key p m l → listing key p m l'.
Proof. intros Hp [Hl Hk]. split; [by rewrite Hp|]. intros x. rewrite Hp. apply Hk. Qed.

(** Reads at the start of a command change nothing. *)
Ltac after_reads E :=
  repeat (let E1 := fresh "E1" in let Hread := fresh "Hread" in
    apply bind_inv in E as [(? & ? & E1 & E)|(? & E1 & _)];
    apply wrap_inv in E1 as (? & [= <- <-] & E1); [|done];
    pose proof (proj1 (E1 _) eq_refl) as Hread; clear E1).

(** C14: the autoscaler of request serving nodes only touches machine sets that are
at zero, scales them to one, and only for a pending placeholder pod of the
machine set's size: either the pod (or the other pod of its deployment) asks for
the machine set's pair label, or no node of a hosted cluster and no placeholder
is on that pair label.  However the calls end, nothing else is scaled. *)
Theorem autoscaler_scales_up `{!SliceSort} ns s r s' k :
  autoscaler_Reconcile ns s = (r, s') →
  o_machinesets (view s') !! k ≠ o_machinesets (view s) !! k →
  ∃ ms p pods nodes, o_machinesets (view s) !! k = Some ms ∧ o_machinesets (view s') !! k = Some (scaled 1 ms) ∧
    msNamespace ms = machineSetNamespace ∧ replicas_of ms = 0%Z ∧
    listing nodeName (λ _, true) (o_nodes (view s)) nodes ∧
    (∀ q, q ∈ pods ↔ ∃ key, o_pods (view s) !! key = Some q ∧ podNamespace q = placeholderNamespace ∧
                            has_labels [PlaceholderLabel] (podLabels q) = true) ∧
    wanted_by pods nodes ms p.
Proof.
  unfold autoscaler_Reconcile. destruct (negb _); [intros [= <- <-]; done|].
  intros E Hne. after_reads E. apply scale_all_then in E.
  match type of E with context [machineSetsToScaleUp ?ps ?mss ?ms ?ns] => set (pods := ps) in E; set (nodes := ns) in E end.
  apply list_pods_stored in Hread. apply list_machinesets_stored in Hread0. apply list_nodes_stored in Hread2.
  eapply (listing_perm _ _ _ _ (sort_slice (λ a b, str_lt (msName a) (msName b)) _) (sort_slice_perm _ _)) in Hread0.
  eapply (rescaled_listed _ _ _ _ _ (λ ms n, n = 1%Z ∧ replicas_of ms = 0%Z ∧ ∃ p, wanted_by pods nodes ms p) _ E Hread0)
    in Hne as (ms & n & Hb & Ha & Hns & _ & -> & Hz & p & Hp).
  - exists ms, p, pods, nodes. do 5 (split; [done|]). split; [|exact Hp].
    intros q. unfold pods. rewrite elem_of_filter_bool. split.
    + intros [Hq Hl]. destruct (listing_elem _ _ _ _ _ Hread Hq) as [? ?%str_eqb_eq]. by exists (podKey q).
    + intros (key & Hq & Hn & Hl). split; [|done]. eapply listing_intro; [done|done|]. by apply str_eqb_eq.
  - intros ms n (y & [= <- <-] & Hy)%list_elem_of_fmap.
    destruct (scale_up_targets _ _ _ _ _ Hy) as (? & ? & ?). auto.
Qed.

(** *** Scaling down *)

Definition no_comma (s : string) : bool := Semver.containsOnly s (λ c, negb (Ascii.eqb c ","%char)).

Lemma split_no_comma s : no_comma s = true → Semver.split ","%char s = [s].
Proof.
  induction s as [|c s IH]; simpl; [done|]. intros [Hc Hs]%andb_true_iff.
  apply negb_true_iff in Hc. by rewrite Hc, IH.
Qed.

(** The selector the scheduler writes is read back as the size it stands for. *)
Lemma size_selector_parses size : size ≠ "" → no_comma size = true →
  ParseNodeSelector (NodeSizeLabel +:+ "=" +:+ size) = {[NodeSizeLabel := size]}.
Proof.
  intros Hs Hc. unfold ParseNodeSelector.
  rewrite (proj2 (str_eqb_neq _ _)) by done. rewrite split_no_comma by (simpl; exact Hc).
  assert (Hcut : Semver.cut "="%char (NodeSizeLabel +:+ "=" +:+ size) = Some (NodeSizeLabel, size)) by done.
  cbn [foldl]. rewrite Hcut. cbv beta iota. rewrite (proj2 (str_eqb_neq size "")) by done. done.
Qed.

Lemma labelsMatchSelector_size n size : labelsMatchSelector (nodeLabels n) {[NodeSizeLabel := size]} = true ↔
  nodeLabels n !! NodeSizeLabel = Some size.
Proof.
  unfold labelsMatchSelector, matching_labels. rewrite bool_decide_false by apply map_non_empty_singleton.
  rewrite bool_decide_eq_true. apply map_singleton_subseteq_l.
Qed.

Lemma label_size n size : size ≠ "" → nodeLabels n !! NodeSizeLabel = Some size ↔ label n NodeSizeLabel = size.
Proof. intros Hs. unfold label, mget. destruct (nodeLabels n !! NodeSizeLabel); naive_solver. Qed.

Lemma machine_sets_of_elem nodes msets machines ms : ms ∈ machine_sets_of nodes msets machines ↔
  ∃ n, n ∈ nodes ∧ findMachineSet (nodeMachineSet n machines) msets = Some ms ∧ replicas_of ms ≠ 0%Z.
Proof.
  unfold machine_sets_of. rewrite list_elem_of_omap. f_equiv. intros n. f_equiv.
  destruct (findMachineSet _ _) as [x|]; [|naive_solver].
  destruct (replicas_of x =? 0)%Z eqn:E; [apply Z.eqb_eq in E|apply Z.eqb_neq in E]; naive_solver.
Qed.

(** The nodes a hosted cluster no longer needs: nodes of its pair, of a size that is
neither its own nor the one its annotations select. *)
Definition unneeded (now : Time) (hc : HostedCluster) (nodes : list Node) (n : Node) : Prop :=
  n ∈ cluster_nodes hc nodes ∧
  labelsMatchSelector (nodeLabels n) (sizeLabelSelector hc) = false ∧
  labelsMatchSelector (nodeLabels n)
    (ParseNodeSelector (mget (hcAnnotations hc) RequestServingNodeAdditionalSelectorAnnotation)) = false ∧
  (time_add (nodeCreation n) nodeScaleDownDelay ≤ now)%Z.

Lemma scale_down_elem now hc msets machines nodes ms :
  ms ∈ (hostedClusterMachineSetsToScaleDown now hc msets machines nodes).1 →
  (∃ n, unneeded now hc nodes n ∧ findMachineSet (nodeMachineSet n machines) msets = Some ms ∧ replicas_of ms ≠ 0%Z) ∧
  ∃ m, m ∈ cluster_nodes hc nodes ∧
    (labelsMatchSelector (nodeLabels m) (sizeLabelSelector hc) = true ∨
     labelsMatchSelector (nodeLabels m)
       (ParseNodeSelector (mget (hcAnnotations hc) RequestServingNodeAdditionalSelectorAnnotation)) = true).
Proof.
  unfold hostedClusterMachineSetsToScaleDown. destruct (_ && _); [by rewrite elem_of_nil|].
  match goal with |- context [List.filter ?f (cluster_nodes hc nodes)] =>
    set (active := f); destruct (List.filter active (cluster_nodes hc nodes)) as [|a l] eqn:Ha end;
    [by rewrite elem_of_nil|].
  assert (Hact : ∀ m, m ∈ a :: l → m ∈ cluster_nodes hc nodes ∧ active m = true).
  { intros m. rewrite <- Ha. by rewrite elem_of_filter_bool. }
  assert (Hall : ∀ n, n ∈ cluster_nodes hc nodes → active n = true → n ∈ a :: l).
  { intros n ??. rewrite <- Ha. by apply elem_of_filter_bool. }
  match goal with |- context [match ?f with [] => _ | _ => _ end] => destruct f as [|x rest] eqn:Hd end;
    [by rewrite elem_of_nil|].
  rewrite <- Hd. cbn [fst].
  intros (n & Hn & Hms & Hz)%machine_sets_of_elem.
  apply elem_of_filter_bool in Hn as [[Hn Hna]%elem_of_filter_bool Hnew]. split.
  - exists n. split; [|done]. assert (Hinact : active n = false).
    { apply not_true_iff_false. intros He. apply negb_true_iff, bool_decide_eq_false in Hna. apply Hna.
      destruct (findNode (nodeName n) (a :: l)) eqn:Hf; [done|].
      apply (proj1 (find_None_elem _ _) Hf n) in Hall; [|done..]. by rewrite str_eqb_refl in Hall. }
    apply orb_false_iff in Hinact as [??]. split_and!; try done.
    apply negb_true_iff in Hnew. unfold too_new, time_after in Hnew. lia.
  - destruct (Hact a ltac:(by left)) as [? He]. exists a. split; [done|]. by apply orb_true_iff in He.
Qed.

Lemma cluster_nodes_elem hc nodes n : n ∈ cluster_nodes hc nodes →
  n ∈ nodes ∧ label n NodeSizeLabel ≠ "" ∧
  ∃ f, f ∈ nodes ∧ label f HostedClusterLabel = clusterKey hc ∧ pair_of n = pair_of f ∧
    ∀ m, m ∈ cluster_nodes hc nodes → pair_of m = pair_of f.
Proof.
  unfold cluster_nodes. destruct (List.filter _ nodes) as [|f rest] eqn:Hf; [by rewrite elem_of_nil|].
  assert (Hin : f ∈ f :: rest) by left. rewrite <- Hf in Hin.
  apply elem_of_filter_bool in Hin as [Hin Hl%str_eqb_eq].
  intros [Hn [Hp Hs]%andb_true_iff]%elem_of_filter_bool.
  apply str_eqb_eq in Hp. apply negb_true_iff, str_eqb_neq in Hs.
  split; [done|]. split; [done|]. exists f. split_and!; try done.
  intros m [_ [?%str_eqb_eq _]%andb_true_iff]%elem_of_filter_bool. done.
Qed.

Lemma sizeLabelSelector_size hc n : label n NodeSizeLabel ≠ "" →
  labelsMatchSelector (nodeLabels n) (sizeLabelSelector hc) = true ↔
  label n NodeSizeLabel = mget (hcLabels hc) HostedClusterSizeLabel.
Proof.
  intros Hn. unfold sizeLabelSelector. destruct (str_eqb _ "") eqn:He.
  - apply str_eqb_eq in He. rewrite He. unfold labelsMatchSelector. rewrite bool_decide_true by done. naive_solver.
  - apply str_eqb_neq in He. rewrite labelsMatchSelector_size. by apply label_size.
Qed.

(** The node has its machine set for itself. *)
Definition own_machine_set (v : Objects) (machines : list Machine) (m : Node) : Prop :=
  ∀ n, o_nodes v !! nodeName n = Some n → nodeMachineSet n machines = nodeMachineSet m machines → n = m.

(** C13: the descaler leaves the nodes a hosted cluster runs on alone.  When the
reconciliation of a node of a hosted cluster that exists and that the scheduler
has placed (its annotation selects nodes of [size]) scales a machine set, it goes
to zero and it is the machine set of a node that has the pair label of a node of
the cluster (or none, if that one has none), is more than five minutes old and
has neither the selected size nor the size the cluster is labelled with.  Another
node with that pair label has one of these two sizes, and the machine set that is
scaled is not the one of this or any other node of these sizes that has its
machine set for itself. *)
Theorem descaler_spares_serving_nodes now req s r s' k node hc size :
  descaler_Reconcile now req s = (r, s') →
  o_nodes (view s) !! req = Some node →
  o_hcs (view s) !! (label node HostedClusterNamespaceLabel, label node HostedClusterNameLabel) = Some hc →
  hcAnnotations hc !! RequestServingNodeAdditionalSelectorAnnotation = Some (NodeSizeLabel +:+ "=" +:+ size) →
  size ≠ "" → no_comma size = true →
  o_machinesets (view s') !! k ≠ o_machinesets (view s) !! k →
  let serving m := label m NodeSizeLabel = size ∨ label m NodeSizeLabel = mget (hcLabels hc) HostedClusterSizeLabel in
  ∃ ms n f m machines,
    o_machinesets (view s) !! k = Some ms ∧ o_machinesets (view s') !! k = Some (scaled 0 ms) ∧
    k_list_machines machineSetNamespace s = Ret machines ∧ msName ms = nodeMachineSet n machines ∧
    o_nodes (view s) !! nodeName n = Some n ∧
    o_nodes (view s) !! nodeName f = Some f ∧ label f HostedClusterLabel = clusterKey hc ∧
    o_nodes (view s) !! nodeName m = Some m ∧ pair_of n = pair_of f ∧ pair_of m = pair_of f ∧
    (time_add (nodeCreation n) nodeScaleDownDelay ≤ now)%Z ∧ ¬ serving n ∧ serving m ∧
    ∀ m', serving m' → own_machine_set (view s) machines m' → msName ms ≠ nodeMachineSet m' machines.
Proof.
  intros E Hnode Hhc Han Hsz Hc Hne. unfold descaler_Reconcile in E.
  destruct (k_get_node req s) as [n0|e|] eqn:Hg; [|case_match; by simplify_eq|by simplify_eq].
  apply get_node_stored in Hg as [Hg _]. assert (n0 = node) as -> by congruence.
  do 3 (case_match; [by simplify_eq|]).
  destruct (k_get_hc _ s) as [hc0|e|] eqn:Hg'; [| |by simplify_eq].
  2: { destruct (IsNotFound e) eqn:He; simpl in E; [|by simplify_eq].
       rewrite (get_hc_missing _ _ _ Hg' He) in Hhc. done. }
  apply get_hc_stored in Hg' as [Hg' _]. pose proof (eq_trans (eq_sym Hg') Hhc) as [= ->].
  after_reads E. destruct (hostedClusterMachineSetsToScaleDown _ _ _ _ _) as [down d] eqn:Hd.
  apply scale_all_then in E. apply list_machinesets_stored in Hread. apply list_nodes_stored in Hread1.
  assert (Hdown : ∀ ms, ms ∈ down → ms ∈ (hostedClusterMachineSetsToScaleDown now hc x x0 x1).1) by (by rewrite Hd).
  eapply (rescaled_listed _ _ _ _ _ (λ ms n, n = 0%Z ∧ ms ∈ down) _ E Hread)
    in Hne as (ms & n & Hb & Ha & Hns & _ & -> & Hms).
  - apply Hdown, scale_down_elem in Hms as [(n & (Hn & Hs1 & Hs2 & Hold) & Hf & Hz) (m & Hm & Hact)].
    unfold mget in Hs2, Hact. rewrite Han in Hs2, Hact. simpl default in Hs2, Hact.
    rewrite size_selector_parses in Hs2, Hact by done.
    destruct (cluster_nodes_elem _ _ _ Hn) as (Hin & Hnz & f & Hfin & Hfl & Hnf & Hall).
    destruct (cluster_nodes_elem _ _ _ Hm) as (Hinm & Hmz & _).
    apply find_Some_elem in Hf as [_ Hf%str_eqb_eq].
    apply not_true_iff_false in Hs1, Hs2. rewrite sizeLabelSelector_size in Hs1 by done.
    rewrite sizeLabelSelector_size in Hact by done. rewrite labelsMatchSelector_size, label_size in Hs2, Hact by done.
    assert (Hst : o_nodes (view s) !! nodeName n = Some n) by (by eapply listing_elem).
    exists ms, n, f, m, x0. split_and!; try done; try (by eapply listing_elem); [by apply Hall|tauto|tauto|].
    intros m' Hserv Hown Heq. rewrite Hf in Heq. apply (Hown n Hst) in Heq as ->. tauto.
  - intros ms n (y & [= <- <-] & Hy)%list_elem_of_fmap. split; [|done].
    destruct (scale_down_elem _ _ _ _ _ _ (Hdown _ Hy)) as [(z & _ & Hf & _) _].
    by apply find_Some_elem in Hf as [? _].
Qed.

(** *** The nodes of all other workloads *)

Lemma singleton_set_elem (l : list Z) x y : elements (list_to_set (C := gset Z) l) = [x] → y ∈ l → y = x.
Proof.
  intros Hl Hy. assert (Hin : y ∈ elements (list_to_set (C := gset Z) l)).
  { rewrite elem_of_elements. by apply elem_of_list_to_set. }
  rewrite Hl in Hin. by apply list_elem_of_singleton in Hin.
Qed.

Lemma mapM_elem {A B} (f : A → option B) l l' x : mapM f l = Some l' → x ∈ l → ∃ y, f x = Some y ∧ y ∈ l'.
Proof.
  revert l'. induction l as [|a l IH]; intros l' Hm Hx; [by apply elem_of_nil in Hx|]. simpl in Hm.
  destruct (f a) as [y|] eqn:Ha; [|done]. destruct (mapM f l) as [ys|] eqn:Hys; [|done].
  injection Hm as <-. apply elem_of_cons in Hx as [->|Hx].
  - exists y. split; [done|left].
  - destruct (IH _ eq_refl Hx) as (y' & ? & ?). exists y'. split; [done|by right].
Qed.

(** Machine sets that were accepted have the same limits. *)
Lemma validated_limits msets : validateNonRequestServingMachineSets msets = true →
  ∃ lo hi, (lo ≤ hi)%Z ∧ (1 ≤ hi)%Z ∧ ∀ ms, ms ∈ msets →
    Semver.ParseInt (mget (msAnnotations ms) minSizeMachineSetAnnotation) = Some lo ∧
    Semver.ParseInt (mget (msAnnotations ms) maxSizeMachineSetAnnotation) = Some hi.
Proof.
  unfold validateNonRequestServingMachineSets. destruct (negb _); [done|].
  destruct (mapM _ msets) as [mins|] eqn:Hmin; [|done].
  destruct (mapM (λ ms, Semver.ParseInt (mget (msAnnotations ms) maxSizeMachineSetAnnotation)) msets)
    as [maxs|] eqn:Hmax; [|done].
  destruct (elements (list_to_set mins)) as [|lo []] eqn:Hlo; try done.
  destruct (elements (list_to_set maxs)) as [|hi []] eqn:Hhi; try done.
  intros [Hr1 Hr2]%negb_true_iff%orb_false_iff. exists lo, hi. split; [lia|]. split; [lia|].
  intros ms Hms.
  destruct (mapM_elem _ _ _ _ Hmin Hms) as (y & Hy & Hyi). destruct (mapM_elem _ _ _ _ Hmax Hms) as (z & Hz & Hzi).
  by rewrite Hy, Hz, (singleton_set_elem _ _ _ Hlo Hyi), (singleton_set_elem _ _ _ Hhi Hzi).
Qed.

Lemma clamp_nodes_range lo hi n : (- 2 ^ 31 ≤ lo ≤ hi)%Z → (hi < 2 ^ 31)%Z → (lo ≤ clamp_nodes lo hi n ≤ hi)%Z.
Proof. intros. unfold clamp_nodes. rewrite !to_int32_small by lia. repeat case_match; lia. Qed.

(** C38: the autoscaler of the other workloads keeps to the limits of the machine
sets.  A machine set it scales is one of the three machine sets for nodes that do
not serve requests, it did not have that many replicas before, and the new number
is between the limits in the machine set's own annotations. *)
Theorem nonserving_within_limits `{!MapOrder} `{!Float64ToInt32} s r s' k :
  nonserving_Reconcile s = (r, s') →
  o_machinesets (view s') !! k ≠ o_machinesets (view s) !! k →
  ∃ ms n lo hi, o_machinesets (view s) !! k = Some ms ∧ o_machinesets (view s') !! k = Some (scaled n ms) ∧
    msNamespace ms = machineSetNamespace ∧
    has_prefix (mget (msTemplateLabels ms) clusterAPIMachineTypeLabel) nonRequestServingLabelPrefix = true ∧
    replicas_of ms ≠ n ∧
    Semver.ParseInt (mget (msAnnotations ms) minSizeMachineSetAnnotation) = Some lo ∧
    Semver.ParseInt (mget (msAnnotations ms) maxSizeMachineSetAnnotation) = Some hi ∧
    ((- 2 ^ 31 ≤ lo)%Z → (hi < 2 ^ 31)%Z → (lo ≤ n ≤ hi)%Z).
Proof.
  unfold nonserving_Reconcile. intros E Hne.
  apply bind_inv in E as [(config & s1 & E1 & E)|(? & E1 & _)];
    apply wrap_inv in E1 as (? & [= <- <-] & _); [|done].
  destruct (negb _); [by injection E as <- <-|]. after_reads E.
  destruct (negb (validateNonRequestServingMachineSets _)) eqn:Hv; [by injection E as <- <-|].
  apply negb_false_iff in Hv. apply validated_limits in Hv as (lo & hi & Hle & _ & Hlim).
  apply bind_inv in E as [(l & s1 & [= Hl <-] & E)|(? & [= <- <-] & _)]; [|done].
  apply scale_all_then in E. apply list_machinesets_stored in Hread0.
  unfold nonRequestServingMachineSetsToScale in Hl.
  apply go_bind_Ret in Hl as (qty & _ & Hl).
  match type of Hl with context [match ?f with [] => _ | _ => _ end] =>
    set (mss := f) in *; destruct mss as [|first rest] eqn:Hmss; [done|] end.
  destruct (Hlim first ltac:(left)) as [Hlo Hhi]. rewrite Hlo, Hhi in Hl. simpl default in Hl.
  match type of Hl with context [clamp_nodes lo hi ?z] => set (n := clamp_nodes lo hi z) in *;
    pose proof (λ Hlo Hhi, clamp_nodes_range lo hi z (conj Hlo Hle) Hhi) as Hn; fold n in Hn end.
  assert (l = (λ ms, (ms, n)) <$> List.filter (λ ms, negb (replicas_of ms =? n)%Z) (first :: rest)) as ->
    by (by injection Hl as <-).
  eapply (rescaled_listed _ _ _ _ _ (λ ms n', n' = n ∧ ms ∈ first :: rest ∧ replicas_of ms ≠ n) _ E Hread0)
    in Hne as (ms & n' & Hb & Ha & Hns & _ & -> & Hms & Hr).
  - destruct (Hlim _ Hms) as [Hlo' Hhi']. exists ms, n, lo, hi. split_and!; try done.
    rewrite <- Hmss in Hms. by apply elem_of_filter_bool in Hms as [_ ?].
  - intros ms n' (y & [= <- <-] & [Hy Hr]%elem_of_filter_bool)%list_elem_of_fmap.
    apply negb_true_iff, Z.eqb_neq in Hr. split; [|done].
    rewrite <- Hmss in Hy. by apply elem_of_filter_bool in Hy as [? _].
Qed.

End Scaling.

(** *** Every hosted cluster counts *)

Definition sum_Z (l : list Z) : Z := foldr Z.add 0%Z l.

Lemma sum_Z_app l l' : sum_Z (l ++ l') = (sum_Z l + sum_Z l')%Z.
Proof. induction l; simpl; lia. Qed.

#[export] Instance sum_Z_Proper : Proper ((≡ₚ) ==> (=)) sum_Z.
Proof. intros l l' Hp. induction Hp; simpl; lia. Qed.

(** The weight of a count per key. *)
Definition weigh (w : string → Z) (m : gmap string Z) : Z := sum_Z ((λ kn, (kn.2 * w kn.1)%Z) <$> map_to_list m).

Lemma weigh_insert w m k n : m !! k = None → weigh w (<[k := n]> m) = (n * w k + weigh w m)%Z.
Proof. intros Hk. unfold weigh. by rewrite map_to_list_insert. Qed.

Lemma weigh_bump w m k n : weigh w (<[k := (default 0 (m !! k) + n)%Z]> m) = (weigh w m + n * w k)%Z.
Proof.
  destruct (m !! k) as [x|] eqn:Hk; simpl.
  - rewrite <- insert_delete_eq, weigh_insert by apply lookup_delete_eq.
    rewrite <- (insert_delete_id m k x Hk) at 2. rewrite weigh_insert by apply lookup_delete_eq. lia.
  - rewrite weigh_insert by done. lia.
Qed.

(** The name of the size a hosted cluster counts for, if any. *)
Definition counted_size (config : ClusterSizingConfiguration) (hc : HostedCluster) : option string :=
  let size := mget (hcLabels hc) HostedClusterSizeLabel in
  if str_eqb size "" then scName <$> List.find (λ c, (From (scCriteria c) =? 0)%Z) (Sizes config) else Some size.

Lemma count_by_size_weigh w config hcs :
  weigh w (count_by_size config hcs) = sum_Z ((λ hc, from_option w 0%Z (counted_size config hc)) <$> hcs).
Proof.
  unfold count_by_size. set (size := λ hc, mget (hcLabels hc) HostedClusterSizeLabel).
  set (zero := List.find _ (Sizes config)).
  set (step := λ (m : gmap string Z) hc, if str_eqb (size hc) "" then m else <[size hc := (default 0 (m !! size hc) + 1)%Z]> m).
  set (fallback := from_option (λ c, w (scName c)) 0%Z zero).
  assert (Hl : ∀ m, (weigh w (foldl step m hcs) + Z.of_nat (length (List.filter (λ hc, str_eqb (size hc) "") hcs)) * fallback =
    weigh w m + sum_Z ((λ hc, from_option w 0%Z (counted_size config hc)) <$> hcs))%Z).
  { induction hcs as [|hc hcs IH]; intros m; csimpl; [lia|].
    unfold counted_size at 1, step at 2. fold zero. change (mget (hcLabels hc) HostedClusterSizeLabel) with (size hc).
    destruct (str_eqb (size hc) "") eqn:E.
    - specialize (IH m). simpl length. replace (from_option w 0%Z (scName <$> zero)) with fallback
        by (unfold fallback; by destruct zero). lia.
    - rewrite IH, weigh_bump. simpl. lia. }
  subst size. cbv beta in Hl. specialize (Hl ∅). change (weigh w ∅) with 0%Z in Hl.
  change (foldl _ ∅ hcs) with (foldl step ∅ hcs).
  destruct (0 <? _)%Z eqn:Hn.
  - unfold fallback in Hl. destruct zero as [c|]; cbn [from_option] in Hl; [rewrite weigh_bump|]; lia.
  - assert (length (List.filter (λ hc, str_eqb (mget (hcLabels hc) HostedClusterSizeLabel) "") hcs) = 0) as Hz by lia.
    rewrite Hz in Hl. lia.
Qed.

(** The nodes per zone a size asks for, as a multiple of [10^-9]; nothing for a size
that is not configured. *)
Definition nodes_of_size (sizes : list SizeConfiguration) (size : string) : Z :=
  match List.find (λ c, str_eqb (scName c) size) sizes with
  | Some c => from_option Quantity.nano 0%Z (scManagement c ≫= NonRequestServingNodesPerZone)
  | None => 0%Z
  end.

Definition sizes_valid (sizes : list SizeConfiguration) : Prop :=
  ∀ c, c ∈ sizes → ∃ q, scManagement c ≫= NonRequestServingNodesPerZone = Some q ∧ Quantity.valid q.

Lemma nodes_needed_sum sizes counts acc : sizes_valid sizes → Quantity.valid acc →
  (∀ k n, (k, n) ∈ counts → (min_int64 ≤ n ≤ max_int64)%Z) →
  ∃ q, nodes_needed sizes counts acc = Ret q ∧ Quantity.valid q ∧
    Quantity.nano q = (Quantity.nano acc + sum_Z ((λ kn, (kn.2 * nodes_of_size sizes kn.1)%Z) <$> counts))%Z.
Proof.
  intros Hs. revert acc. induction counts as [|[k n] counts IH]; intros acc Hacc Hr; csimpl.
  { exists acc. split; [done|]. split; [done|]. lia. }
  assert (Hr' : ∀ k n, (k, n) ∈ counts → (min_int64 ≤ n ≤ max_int64)%Z) by (intros; eapply Hr; by right).
  unfold nodes_of_size at 1. destruct (List.find _ sizes) as [c|] eqn:Hc.
  - apply find_Some_elem in Hc as [Hc _]. destruct (Hs c Hc) as (q & Hq & Hv). rewrite Hq.
    destruct (Quantity.Mul_exact q n Hv) as [Hm Hmv]; [apply (Hr k n); left|].
    destruct (Quantity.Add_exact acc _ Hacc Hmv) as [Ha Hav].
    destruct (IH _ Hav Hr') as (q' & -> & ? & Hn). exists q'. split; [done|]. split; [done|]. simpl.
    rewrite Hn, Ha, Hm. lia.
  - destruct (IH _ Hacc Hr') as (q' & -> & ? & Hn). exists q'. split; [done|]. split; [done|]. rewrite Hn. lia.
Qed.

Lemma weigh_zero w m : (∀ k n, m !! k = Some n → w k = 0%Z) → weigh w m = 0%Z.
Proof.
  intros Hw. unfold weigh. assert (Hl : ∀ kn, kn ∈ map_to_list m → w kn.1 = 0%Z).
  { intros [k n] Hin%elem_of_map_to_list. by eapply Hw. }
  induction (map_to_list m) as [|[k n] l IH]; [done|]. csimpl.
  pose proof (Hl (k, n) ltac:(left)) as Hk. simpl in Hk. rewrite Hk, IH; [lia|]. intros kn Hin. apply Hl. by right.
Qed.

Lemma sum_Z_bounded {A} (f : A → Z) l : (∀ x, (0 ≤ f x ≤ 1)%Z) → (0 ≤ sum_Z (f <$> l) ≤ Z.of_nat (length l))%Z.
Proof. intros Hf. induction l as [|x l IH]; csimpl; [lia|]. specialize (Hf x). lia. Qed.

(** A size is counted no more often than there are hosted clusters. *)
Lemma count_by_size_range config hcs k n : count_by_size config hcs !! k = Some n →
  (0 ≤ n ≤ Z.of_nat (length hcs))%Z.
Proof.
  intros Hk. set (w := λ j, if bool_decide (j = k) then 1%Z else 0%Z).
  assert (Hn : weigh w (count_by_size config hcs) = n).
  { rewrite <- (insert_delete_id _ _ _ Hk), weigh_insert by apply lookup_delete_eq.
    rewrite weigh_zero; [unfold w; rewrite bool_decide_true by done; lia|].
    intros j m Hj. unfold w. rewrite bool_decide_false; [done|]. intros ->. by rewrite lookup_delete_eq in Hj. }
  rewrite count_by_size_weigh in Hn. subst n. apply sum_Z_bounded. intros hc.
  destruct (counted_size config hc); simpl; [unfold w; case_bool_decide; lia|lia].
Qed.

(** C39: every hosted cluster gets its share.  The number of nodes per zone that is
asked for is exactly the sum, over the hosted clusters, of what the size of each
asks for, whatever order the sizes are visited in and whether or not the 64-bit
arithmetic overflows on the way; a cluster without a size label counts for the
size that starts at zero, and one with an unknown size for nothing. *)
Theorem nodes_for_every_cluster `{!MapOrder} config hcs :
  sizes_valid (Sizes config) → (Z.of_nat (length hcs) ≤ max_int64)%Z →
  ∃ q, nodes_needed (Sizes config) (range (count_by_size config hcs)) (Quantity.mkQuantity false 0 0) = Ret q ∧
    Quantity.nano q = sum_Z ((λ hc, from_option (nodes_of_size (Sizes config)) 0%Z (counted_size config hc)) <$> hcs).
Proof.
  intros Hs Hlen.
  destruct (nodes_needed_sum (Sizes config) (range (count_by_size config hcs)) (Quantity.mkQuantity false 0 0))
    as (q & Hq & _ & Hn); [done|split; [done|intros _; vm_compute; split; done]| |].
  - intros k n. rewrite range_Permutation. intros Hin%elem_of_map_to_list%count_by_size_range.
    unfold min_int64. lia.
  - exists q. split; [done|]. rewrite Hn, range_Permutation.
    change (sum_Z _) with (weigh (nodes_of_size (Sizes config)) (count_by_size config hcs)) at 1.
    rewrite count_by_size_weigh. done.
Qed.

End NodeAutoscalerProofs.

(** A management cluster in memory: hosted cluster [a] has moved from a pair of small
nodes to medium ones, a free pair of small machine sets is down, two placeholder
pods for small nodes are pending, and three machine sets run all other
workloads. *)
Module Samples.
Import ClusterSizing Scheduler SchedulerLaws RequestServing NodeAutoscaler NodeAutoscalerProofs.

#[export] Instance listed_order : MapOrder.
Proof. refine {| range A m := map_to_list m |}. done. Defined.

(** An integer out of range becomes the least one, as on amd64. *)
#[export] Instance amd64_Float64ToInt32 : Float64ToInt32.
Proof.
  refine {| int32_of_float o :=
    match o with
    | Some z => if ((- 2 ^ 31 <=? z) && (z <? 2 ^ 31))%Z then z else (- 2 ^ 31)%Z
    | None => (- 2 ^ 31)%Z
    end |}.
  - intros [z|]; [|lia]. destruct ((_ <=? z) && (z <? _))%Z eqn:E; lia.
  - intros z Hz. by replace ((- 2 ^ 31 <=? z) && (z <? 2 ^ 31))%Z with true by lia.
Defined.

Definition node_of (name size machine : string) : Node :=
  mkNode name {[RequestServingComponentLabel := "true"; NodeSizeLabel := size; OSDFleetManagerPairedNodesLabel := "p1";
                HostedClusterLabel := "clusters-a"; HostedClusterNameLabel := "a"; HostedClusterNamespaceLabel := "clusters"]}
    {[machineNameNodeAnnotation := "openshift-machine-api/" +:+ machine]} [] false 0.
Definition machine_of (name ms : string) : Machine := mkMachine name {[machineMachineSetLabel := ms]}.
Definition serving_ms (name size pr : string) (n : Z) : MachineSet :=
  mkMachineSet machineSetNamespace name ∅ ∅
    {[NodeSizeLabel := size; OSDFleetManagerPairedNodesLabel := pr; RequestServingComponentLabel := "true"]} (Some n) n.
Definition other_ms (name : string) : MachineSet :=
  mkMachineSet machineSetNamespace name {[minSizeMachineSetAnnotation := "1"; maxSizeMachineSetAnnotation := "5"]}
    {[clusterAPIMachineTypeLabel := "non-serving-a"]} ∅ (Some 1%Z) 1.
Definition by_name (l : list MachineSet) : gmap NamespacedName MachineSet := list_to_map ((λ m, (msKey m, m)) <$> l).

Definition pending_pod (name : string) : Pod :=
  mkPod placeholderNamespace name {[PlaceholderLabel := "0"]} "" {[NodeSizeLabel := "small"]} "Pending" false.
Definition own_pod (name : string) : Pod :=
  mkPod placeholderNamespace name {[PlaceholderLabel := "a"]} ""
    {[NodeSizeLabel := "small"; OSDFleetManagerPairedNodesLabel := "p9"]} "Pending" false.

Definition sizing : ClusterSizingConfiguration :=
  mkConfig [mkSize "small" (mkCriteria 0 None) (Some (mkManagement 1 (Some (Quantity.mkQuantity false 15 (-1)))))] 0 0 0 0
    [mkCondition ClusterSizingConfigurationValidType ConditionTrue 0 0 AsExpectedReason ""].

Definition moved (name : string) : HostedCluster :=
  mkHC "clusters" name false None {[HostedClusterSizeLabel := "medium"]}
    {[RequestServingNodeAdditionalSelectorAnnotation := NodeSizeLabel +:+ "=" +:+ "medium"]} [] [].
Definition unsized (name : string) : HostedCluster := mkHC "clusters" name false None ∅ ∅ [] [].

Definition cluster : Objects := mkObjects
  {[("clusters", "a") := moved "a"; ("clusters", "b") := unsized "b"; ("clusters", "c") := unsized "c"]}
  (Some sizing)
  {["n1" := node_of "n1" "small" "mn1"; "n2" := node_of "n2" "medium" "mn2"]}
  ∅ ∅
  {[(placeholderNamespace, "x1") := pending_pod "x1"; (placeholderNamespace, "x2") := pending_pod "x2"]}
  (by_name [serving_ms "s1" "small" "p1" 1; serving_ms "s2" "medium" "p1" 1;
            serving_ms "f1" "small" "p9" 0; serving_ms "f2" "small" "p9" 0;
            other_ms "o1"; other_ms "o2"; other_ms "o3"])
  {["mn1" := machine_of "mn1" "s1"; "mn2" := machine_of "mn2" "s2"]} ∅.

Definition ms_key (n : string) : NamespacedName := (machineSetNamespace, n).
Definition replicas_at (v : Objects) (n : string) : option (option Z) := msReplicas <$> o_machinesets v !! ms_key n.

Definition scaled_up : Objects := (autoscaler_Reconcile placeholderNamespace cluster).2.
Definition scaled_down : Objects := (descaler_Reconcile (10 * minute) "n1" cluster).2.
Definition others_scaled : Objects := (nonserving_Reconcile cluster).2.

Example replicas_after :
  (replicas_at scaled_up <$> ["s1"; "s2"; "f1"; "f2"]) = [Some (Some 1); Some (Some 1); Some (Some 1); Some (Some 1)]%Z ∧
  (replicas_at scaled_down <$> ["s1"; "s2"; "f1"; "f2"]) = [Some (Some 0); Some (Some 1); Some (Some 0); Some (Some 0)]%Z ∧
  (replicas_at others_scaled <$> ["s1"; "o1"; "o2"; "o3"]) = [Some (Some 1); Some (Some 3); Some (Some 3); Some (Some 3)]%Z.
Proof. vm_compute. repeat split; reflexivity. Qed.

Lemma autoscaler_scales_up_witness :
  ∃ ms p pods nodes, o_machinesets (view cluster) !! ms_key "f1" = Some ms ∧
    o_machinesets (view scaled_up) !! ms_key "f1" = Some (scaled 1 ms) ∧
    msNamespace ms = machineSetNamespace ∧ replicas_of ms = 0%Z ∧
    listing nodeName (λ _, true) (o_nodes (view cluster)) nodes ∧
    (∀ q, q ∈ pods ↔ ∃ key, o_pods (view cluster) !! key = Some q ∧ podNamespace q = placeholderNamespace ∧
                            has_labels [PlaceholderLabel] (podLabels q) = true) ∧
    wanted_by pods nodes ms p.
Proof.
  apply (autoscaler_scales_up placeholderNamespace cluster
    (autoscaler_Reconcile placeholderNamespace cluster).1 scaled_up (ms_key "f1")).
  - apply surjective_pairing.
  - vm_compute. discriminate.
Defined.

Definition own_pods : list Pod := [own_pod "y1"; own_pod "y2"].
Lemma own_pods_same : same_request own_pods [].
Proof.
  intros p q. unfold own_pods. rewrite !elem_of_cons, !elem_of_nil.
  intros [->|[->|[]]] [->|[->|[]]] _; split; reflexivity.
Defined.

Lemma scale_up_serves_pairs_witness :
  serving_ms "f1" "small" "p9" 0 ∈ machineSetsToScaleUp own_pods [serving_ms "f1" "small" "p9" 0] [] [].
Proof.
  apply (scale_up_serves_pairs own_pods [serving_ms "f1" "small" "p9" 0] [] [] (own_pod "y2")).
  - apply (bool_decide_unpack _). vm_compute. exact I.
  - apply own_pods_same.
  - right. left.
  - reflexivity.
  - vm_compute. discriminate.
  - left.
  - reflexivity.
  - reflexivity.
  - reflexivity.
Defined.

Lemma descaler_spares_serving_nodes_witness :
  ∃ ms machines, o_machinesets (view cluster) !! ms_key "s1" = Some ms ∧
    o_machinesets (view scaled_down) !! ms_key "s1" = Some (scaled 0 ms) ∧
    k_list_machines machineSetNamespace cluster = Ret machines ∧
    ∀ m, label m NodeSizeLabel = "medium" → own_machine_set (view cluster) machines m →
      msName ms ≠ nodeMachineSet m machines.
Proof.
  destruct (descaler_spares_serving_nodes (10 * minute) "n1" cluster (descaler_Reconcile (10 * minute) "n1" cluster).1
    scaled_down (ms_key "s1") (node_of "n1" "small" "mn1") (moved "a") "medium")
    as (ms & n & f & m & machines & H1 & H2 & H3 & H4 & H5 & H6 & H7 & H8 & H9 & H10 & H11 & H12 & H13 & H14).
  - apply surjective_pairing.
  - vm_compute. reflexivity.
  - vm_compute. reflexivity.
  - vm_compute. reflexivity.
  - discriminate.
  - reflexivity.
  - vm_compute. discriminate.
  - exists ms, machines. split_and!; [exact H1|exact H2|exact H3|].
    intros m' Hm. apply H14. left. exact Hm.
Defined.

Lemma nonserving_within_limits_witness :
  ∃ ms n lo hi, o_machinesets (view cluster) !! ms_key "o1" = Some ms ∧
    o_machinesets (view others_scaled) !! ms_key "o1" = Some (scaled n ms) ∧
    msNamespace ms = machineSetNamespace ∧
    has_prefix (mget (msTemplateLabels ms) clusterAPIMachineTypeLabel) nonRequestServingLabelPrefix = true ∧
    replicas_of ms ≠ n ∧
    Semver.ParseInt (mget (msAnnotations ms) minSizeMachineSetAnnotation) = Some lo ∧
    Semver.ParseInt (mget (msAnnotations ms) maxSizeMachineSetAnnotation) = Some hi ∧
    ((- 2 ^ 31 ≤ lo)%Z → (hi < 2 ^ 31)%Z → (lo ≤ n ≤ hi)%Z).
Proof.
  apply (nonserving_within_limits cluster (nonserving_Reconcile cluster).1 others_scaled (ms_key "o1")).
  - apply surjective_pairing.
  - vm_compute. discriminate.
Defined.

Lemma nodes_for_every_cluster_witness :
  ∃ q, nodes_needed (Sizes sizing) (range (count_by_size sizing [moved "a"; unsized "b"; unsized "c"]))
         (Quantity.mkQuantity false 0 0) = Ret q ∧
    Quantity.nano q = sum_Z ((λ hc, from_option (nodes_of_size (Sizes sizing)) 0%Z (counted_size sizing hc)) <$>
                             [moved "a"; unsized "b"; unsized "c"]).
Proof.
  apply (nodes_for_every_cluster sizing [moved "a"; unsized "b"; unsized "c"]).
  - intros c Hc. apply list_elem_of_singleton in Hc. subst c. eexists. split; [reflexivity|].
    split; [vm_compute; discriminate|]. intros _. split; vm_compute; discriminate.
  - vm_compute. discriminate.
Defined.

(** Without a pair label the descaler takes the nodes of other clusters that have none
either: node [w] below belongs to cluster [z], and its machine set is to be scaled
down for cluster [a]. *)
Definition unpaired (name size cluster : string) : Node :=
  mkNode name {[RequestServingComponentLabel := "true"; NodeSizeLabel := size; HostedClusterLabel := cluster]}
    {[machineNameNodeAnnotation := "openshift-machine-api/m" +:+ name]} [] false 0.
Lemma descaler_takes_unpaired_nodes :
  (msName <$> (hostedClusterMachineSetsToScaleDown (10 * minute) (moved "a") [serving_ms "sw" "small" "" 1]
    [machine_of "mw" "sw"] [unpaired "v" "medium" "clusters-a"; unpaired "w" "small" "clusters-z"]).1) = ["sw"].
Proof. vm_compute. reflexivity. Qed.

End Samples.
