(* ===== verification/RequestServingProofs.v ===== *)
(** The schedulers of request serving nodes keep the nodes of hosted clusters
apart: what a reconciliation may change, who owns a pair of nodes, and when a
hosted cluster is announced as scheduled. *)
From S2P Require Import Prelude GoSort Api Quantity Upsert ClusterSizing Scheduler SchedulerLaws RequestServing.

Module RequestServingProofs.
Import ClusterSizing Scheduler SchedulerLaws RequestServing.

(** *** Claimed nodes *)

(** The hosted cluster a node is labelled for. *)
Definition owner (n : Node) : option NamespacedName :=
  if has_label n HostedClusterLabel
  then Some (label n HostedClusterNamespaceLabel, label n HostedClusterNameLabel) else None.

Lemma mget_insert m k v : mget (<[k := v]> m) k = v.
Proof. unfold mget. by rewrite lookup_insert_eq. Qed.
Lemma mget_insert_ne m k k' v : k ≠ k' → mget (<[k := v]> m) k' = mget m k'.
Proof. intros. unfold mget. by rewrite lookup_insert_ne. Qed.

Lemma claimed_label_ne hc n k :
  k ≠ HostedClusterLabel → k ≠ HostedClusterNameLabel → k ≠ HostedClusterNamespaceLabel →
  label (claimed hc n) k = label n k.
Proof. intros. unfold label; simpl. unfold claim_labels. by rewrite !mget_insert_ne. Qed.

Lemma claimed_pair hc n : pair_of (claimed hc n) = pair_of n.
Proof. by apply claimed_label_ne. Qed.

Lemma claimed_owner hc n : owner (claimed hc n) = Some (hcKey hc).
Proof.
  unfold owner, has_label, mhas, label; simpl. rewrite bool_decide_true.
  - unfold claim_labels, mget.
    rewrite lookup_insert_eq, lookup_insert_ne, lookup_insert_eq by done. done.
  - unfold claim_labels. rewrite !lookup_insert_ne, lookup_insert_eq by done. eauto.
Qed.

(** A claimed node carries the cluster's taint. *)
Lemma claim_taint_spec v ts : mkTaint HostedClusterTaint v TaintEffectNoSchedule ∈ claim_taint v ts.
Proof.
  induction ts as [|t ts IH]; simpl; [left|]. unfold str_eqb. case_bool_decide as Ht.
  - rewrite Ht. left.
  - by right.
Qed.

(** *** Ownership of pairs *)

(** The scheduler still stands for the cluster: it is not a deleted cluster that
only this controller's clean-up keeps. *)
Definition live (hc : HostedCluster) : Prop :=
  ¬ (hcDeleting hc = true ∧ HostedClusterFinalizer ∉ hcFinalizers hc).

(** The ConfigMap of the pair names the hosted cluster. *)
Definition pair_owned (v : Objects) (p : string) (k : NamespacedName) : Prop :=
  ∃ cm, o_cms v !! (placeholderNamespace, p) = Some cm ∧ owned_by k.1 k.2 cm = true.

(** Nodes of a pair that are labelled for a live hosted cluster belong to it by
the pair's ConfigMap, and the cluster has the scheduler's finalizer. *)
Definition owners_recorded (v : Objects) : Prop :=
  ∀ i n k hc, o_nodes v !! i = Some n → owner n = Some k → pair_of n ≠ "" →
    o_hcs v !! k = Some hc → live hc →
    schedulerFinalizer ∈ hcFinalizers hc ∧ pair_owned v (pair_of n) k.

Lemma pair_owned_agree v p k k' : pair_owned v p k → pair_owned v p k' → k = k'.
Proof.
  intros (cm & Hcm & Ho) (cm' & Hcm' & Ho'). simplify_eq. unfold owned_by in *.
  apply andb_prop in Ho as [H1%str_eqb_eq H2%str_eqb_eq].
  apply andb_prop in Ho' as [H1'%str_eqb_eq H2'%str_eqb_eq].
  destruct k, k'; simpl in *. congruence.
Qed.

(** Two live hosted clusters never hold nodes of one pair. *)
Lemma owners_exclusive v i j n m k k' hc hc' : owners_recorded v →
  o_nodes v !! i = Some n → o_nodes v !! j = Some m → pair_of n = pair_of m → pair_of n ≠ "" →
  owner n = Some k → owner m = Some k' →
  o_hcs v !! k = Some hc → o_hcs v !! k' = Some hc' → live hc → live hc' → k = k'.
Proof.
  intros Hinv Hi Hj Hp Hne Hk Hk' Hhc Hhc' Hl Hl'.
  destruct (Hinv i n k hc) as [_ Ho]; [done..|].
  destruct (Hinv j m k' hc') as [_ Ho']; [done|done|congruence|done|done|].
  rewrite <- Hp in Ho'. by eapply pair_owned_agree.
Qed.

Section Sizer.
Context {S : Type} `{!Kube S} `{!KubeLaws S} `{!QuantityText}.
Context (parse_rfc3339 : string → option Time) (now : Time).

(** The state a reconciliation starts in: the nodes of the other live clusters,
and those clusters, stay as they are. *)
Context (v0 : Objects).
Definition spared (hc : HostedCluster) (v : Objects) : Prop :=
  ∀ i n k hc', o_nodes v0 !! i = Some n → owner n = Some k → pair_of n ≠ "" → k ≠ hcKey hc →
    o_hcs v0 !! k = Some hc' → live hc' → o_nodes v !! i = Some n ∧ o_hcs v !! k = Some hc'.
Definition recorded (hc : HostedCluster) (v : Objects) : Prop := owners_recorded v ∧ spared hc v.

(** What the reconciliation of a hosted cluster maintains until it updates it. *)
Definition managed (hc : HostedCluster) (v : Objects) : Prop :=
  recorded hc v ∧ o_hcs v !! hcKey hc = Some hc.

(** Changes of the deployments do not matter. *)
Lemma keeps_deployments (P : Objects → Prop) {A} (m : st S api_error A) :
  (∀ v d, P v → P (with_deployments d v)) →
  (∀ s r s', m s = (r, s') → ∃ d, view s' = with_deployments d (view s)) → keeps P m.
Proof. intros HP Hm s r s' E Hv. destruct (Hm _ _ _ E) as [d ->]. auto. Qed.

Lemma managed_deployments hc v d : managed hc v → managed hc (with_deployments d v).
Proof. intros [Hr Hm]. by split. Qed.
Lemma recorded_deployments hc v d : recorded hc v → recorded hc (with_deployments d v).
Proof. intros Hr. exact Hr. Qed.

Lemma with_deployments_same v : with_deployments (o_deployments v) v = v.
Proof. by destruct v. Qed.

Lemma DeleteIfNeeded_effect k s r s' :
  DeleteIfNeeded k s = (r, s') → ∃ d, view s' = with_deployments d (view s).
Proof.
  unfold DeleteIfNeeded.
  assert (Hid : ∃ d, view s = with_deployments d (view s))
    by (eexists; symmetry; apply with_deployments_same).
  destruct (k_get_deployment k s); [|case_match|]; try (by intros [= <- <-]).
  case_match; [by intros [= <- <-]|].
  destruct (k_delete_deployment k s) as [[] s1] eqn:E; [|case_match|];
    intros [= <- <-]; apply delete_deployment_stored in E as (m & Hm & _); eauto.
Qed.

Lemma keeps_deletePlaceholder P hc : (∀ v d, P v → P (with_deployments d v)) →
  keeps P (deletePlaceholderDeployment hc).
Proof.
  intros HP. unfold deletePlaceholderDeployment. apply keeps_bind; [|intros; apply keeps_ret].
  apply keeps_deployments; [done|]. intros s r s'. apply DeleteIfNeeded_effect.
Qed.

(** The ConfigMap of the pair ends up naming the hosted cluster. *)
Lemma ensurePairConfigMap_owns hc p :
  ensures (managed hc) (ensurePairConfigMap p (hcNamespace hc) (hcName hc))
    (λ _ v, pair_owned v p (hcKey hc)).
Proof.
  intros s r s'. unfold ensurePairConfigMap. destruct (k_get_cm _ s) as [cm|e|] eqn:E.
  - apply get_cm_stored in E as [E _]. destruct (owned_by _ _ cm) eqn:Ho; simpl; intros [= <- <-] Hm.
    + split; [done|]. intros _ _. by exists cm.
    + by split.
  - destruct (IsNotFound e) eqn:Hn; [|by intros [= <- <-]].
    pose proof (get_cm_missing _ _ _ E Hn) as Hmiss.
    set (cm := mkConfigMap _ _ _ _).
    assert (Hown : owned_by (hcNamespace hc) (hcName hc) cm = true).
    { unfold owned_by, cm, mget; simpl.
      rewrite lookup_insert_ne, lookup_singleton_eq, lookup_insert_eq by done. simpl.
      by rewrite !str_eqb_refl. }
    intros (r1 & Ec & Hr)%wrap_inv Hm.
    apply create_cm_stored in Ec as [[_ Hw]|[Hv Hne]].
    + destruct Hw as [Hv|[Hv Hne]]; rewrite Hv.
      * split.
        -- destruct Hm as [[Hrec Hsp] Hp]. split; [split; [|exact Hsp]|done].
           intros i n k hc' Hi Ho Hpn Hhc Hl. simpl in *.
           destruct (Hrec i n k hc') as [Hf (cm' & Hcm' & Hoc)]; [done..|]. split; [done|].
           exists cm'. split; [|done]. simpl. rewrite lookup_insert_ne; [done|].
           unfold cm, cmKey; simpl. intros [= Heq]. rewrite <- Heq in Hcm'. by pose proof (eq_trans (eq_sym Hmiss) Hcm').
        -- intros _ _. exists cm. split; [|done]. simpl. apply lookup_insert_eq.
      * split; [done|]. intros a Ha. by destruct (Hne a (proj1 (Hr a) Ha)).
    + rewrite Hv. split; [done|]. intros a Ha. by destruct (Hne a (proj1 (Hr a) Ha)).
  - by intros [= <- <-].
Qed.

(** A node of a pair the cluster owns is not one of another live cluster. *)
Lemma spared_claim hc n v : owners_recorded v → spared hc v →
  o_nodes v !! nodeName n = Some n → pair_owned v (pair_of n) (hcKey hc) →
  spared hc (with_nodes (<[nodeName n := claimed hc n]> (o_nodes v)) v).
Proof.
  intros Hrec Hsp Hst Hown i x k hc' Hi Ho Hp Hk Hhc Hl.
  destruct (Hsp i x k hc') as [Hi' Hhc']; [done..|]. split; [|done]. simpl.
  destruct (decide (i = nodeName n)) as [->|Hne]; [|by rewrite lookup_insert_ne].
  simplify_eq. destruct Hk. destruct (Hrec (nodeName n) n k hc') as [_ Hown']; [done..|].
  by eapply pair_owned_agree.
Qed.

(** Claiming a node of a pair the cluster owns. *)
Lemma claim_node_keeps hc n : schedulerFinalizer ∈ hcFinalizers hc →
  keeps (λ v, managed hc v ∧ pair_owned v (pair_of n) (hcKey hc)) (claim_node hc n).
Proof.
  intros Hfin. unfold claim_node. case_bool_decide; [apply keeps_panic|]. apply keeps_wrap.
  intros s r s' E [[[Hrec Hsp] Hp] Hown].
  destruct (patch_node_stored _ _ _ _ _ E) as [[Hst [Hv|[Hv _]]]|[Hv _]]; [done|..]; rewrite Hv;
    [|done..].
  split; [split; [split; [|by apply spared_claim]|done]|exact Hown].
  intros i n' k hc' Hi Ho Hpn Hhc Hl. simpl in *.
  destruct (decide (i = nodeName n)) as [->|Hne].
  - rewrite lookup_insert_eq in Hi. simplify_eq. rewrite claimed_pair in *.
    rewrite claimed_owner in Ho. simplify_eq. by split.
  - rewrite lookup_insert_ne in Hi by done. by destruct (Hrec i n' k hc').
Qed.

Lemma claim_nodes_keeps hc p nodes : schedulerFinalizer ∈ hcFinalizers hc →
  (∀ n, n ∈ nodes → pair_of n = p) →
  keeps (λ v, managed hc v ∧ pair_owned v p (hcKey hc))
    (st_for nodes (ensureHostedClusterLabelAndTaint hc)).
Proof.
  intros Hfin Hp. apply keeps_for. intros n Hn. rewrite <- (Hp n Hn). by apply claim_node_keeps.
Qed.

(** Placeholder pods with one placeholder label run on nodes of one pair: the
required pod affinity of the placeholder deployments, on the topology of the pair
label, which the Kubernetes scheduler honours. *)
Definition affinity_respected (v : Objects) : Prop :=
  ∀ sel k1 k2 p1 p2 n1 n2, is_Some (sel !! PlaceholderLabel) →
    o_pods v !! k1 = Some p1 → o_pods v !! k2 = Some p2 →
    podNamespace p1 = placeholderNamespace → podNamespace p2 = placeholderNamespace →
    matching_labels sel (podLabels p1) = true → matching_labels sel (podLabels p2) = true →
    o_nodes v !! podNodeName p1 = Some n1 → o_nodes v !! podNodeName p2 = Some n2 →
    pair_of n1 = pair_of n2.

(** The deployments of the placeholder namespace select their pods by it. *)
Definition placeholders_selected (v : Objects) : Prop :=
  ∀ k d, o_deployments v !! k = Some d → dNamespace d = placeholderNamespace →
    is_Some (dSelector (dSpec d) !! PlaceholderLabel).

Lemma nodes_of_pods_spec pods s r s' : nodes_of_pods pods s = (r, s') →
  s' = s ∧ ∀ nodes, r = Ret nodes →
    ∀ n, n ∈ nodes → ∃ p, p ∈ pods ∧ o_nodes (view s) !! podNodeName p = Some n.
Proof.
  revert r s'. induction pods as [|p pods IH]; intros r s'; simpl.
  { intros [= <- <-]. split; [done|]. intros ? [= <-] n Hn. set_solver. }
  case_match. { intros [-> Hn]%IH. split; [done|]. intros nodes Hr n Hin.
    destruct (Hn nodes Hr n Hin) as (q & ? & ?). exists q. split; [by right|done]. }
  unfold mbind, st_bind. destruct (wrap _ _ s) as [r1 s1] eqn:E1.
  apply wrap_inv in E1 as (r0 & [= <- <-] & Hr1).
  destruct r1 as [n1|e|]; try (by intros [= <- <-]).
  destruct (nodes_of_pods pods s) as [r2 s2] eqn:E2. destruct (IH _ _ eq_refl) as [-> Hn].
  destruct r2 as [ns|e|]; intros [= <- <-]; try done. split; [done|].
  intros ? [= <-] n [->|Hin]%elem_of_cons.
  - exists p. split; [left|]. by apply get_node_stored, Hr1.
  - destruct (Hn ns eq_refl n Hin) as (q & ? & ?). exists q. split; [by right|done].
Qed.

(** The nodes of a placeholder deployment are of one pair. *)
Lemma deploymentNodes_one_pair P d :
  dNamespace d = placeholderNamespace → is_Some (dSelector (dSpec d) !! PlaceholderLabel) →
  (∀ v, P v → affinity_respected v) →
  ensures P (deploymentNodes (Some d)) (λ nodes _, ∀ n m, n ∈ nodes → m ∈ nodes → pair_of n = pair_of m).
Proof.
  intros Hns Hsel Haff s r s' E HP. simpl in E. unfold mbind, st_bind in E.
  destruct (wrap _ _ s) as [r1 s1] eqn:E1.
  apply wrap_inv in E1 as (r0 & [= <- <-] & Hr1).
  destruct r1 as [pods|e|]; simplify_eq; try done.
  pose proof (list_pods_stored _ _ _ (proj1 (Hr1 pods) eq_refl)) as Hl.
  destruct (nodes_of_pods_spec _ _ _ _ E) as [-> Hn]. split; [done|].
  intros nodes -> n m (p & Hp & Hpn)%(Hn nodes eq_refl) (q & Hq & Hqm)%(Hn nodes eq_refl).
  apply elem_of_filter_bool in Hp as [Hp Hmp]. apply elem_of_filter_bool in Hq as [Hq Hmq].
  destruct (listing_elem _ _ _ _ _ Hl Hp) as [Hp1 Hp2%str_eqb_eq].
  destruct (listing_elem _ _ _ _ _ Hl Hq) as [Hq1 Hq2%str_eqb_eq].
  eapply (Haff _ HP _ _ _ p q); eauto; congruence.
Qed.

(** The predicate that [schedule] maintains. *)
Definition scheduling (hc : HostedCluster) (v : Objects) : Prop := managed hc v ∧ affinity_respected v.

Lemma scheduling_deployments hc v d : scheduling hc v → scheduling hc (with_deployments d v).
Proof. intros [Hm Ha]. split; [by apply managed_deployments|exact Ha]. Qed.

(** The commands that do not touch nodes and pods keep the placement of pods. *)
Lemma affinity_same v v' : o_pods v' = o_pods v → o_nodes v' = o_nodes v →
  affinity_respected v → affinity_respected v'.
Proof. unfold affinity_respected. by intros -> ->. Qed.

Lemma affinity_claimed v hc n : o_nodes v !! nodeName n = Some n → affinity_respected v →
  affinity_respected (with_nodes (<[nodeName n := claimed hc n]> (o_nodes v)) v).
Proof.
  intros Hn Ha sel k1 k2 p1 p2 n1 n2 Hsel Hp1 Hp2 Hns1 Hns2 Hm1 Hm2 Hn1 Hn2. simpl in *.
  assert (Hback : ∀ i x, <[nodeName n := claimed hc n]> (o_nodes v) !! i = Some x →
            ∃ y, o_nodes v !! i = Some y ∧ pair_of y = pair_of x).
  { intros i x. destruct (decide (i = nodeName n)) as [->|Hne].
    - rewrite lookup_insert_eq. intros [= <-]. exists n. split; [done|]. by rewrite claimed_pair.
    - rewrite lookup_insert_ne by done. eauto. }
  apply Hback in Hn1 as (y1 & Hy1 & <-). apply Hback in Hn2 as (y2 & Hy2 & <-).
  by eapply (Ha sel k1 k2 p1 p2).
Qed.

Lemma keeps_affinity_claim hc n : keeps affinity_respected (claim_node hc n).
Proof.
  unfold claim_node. case_bool_decide; [apply keeps_panic|]. apply keeps_wrap. intros s r s' E Ha.
  destruct (patch_node_stored _ _ _ _ _ E) as [[Hst [Hv|[Hv _]]]|[Hv _]]; [done|..]; rewrite Hv; [|done..].
  by apply affinity_claimed.
Qed.

Lemma ensurePairConfigMap_effect p ns nm s r s' :
  ensurePairConfigMap p ns nm s = (r, s') → ∃ m, view s' = with_cms m (view s).
Proof.
  assert (Hid : ∃ m, view s = with_cms m (view s)) by (exists (o_cms (view s)); by destruct (view s)).
  unfold ensurePairConfigMap. destruct (k_get_cm _ s); [case_match|case_match|];
    try (by intros [= <- <-]).
  intros (r1 & E & _)%wrap_inv. destruct (create_cm_stored _ _ _ _ E) as [[_ [Hv|[Hv _]]]|[Hv _]];
    rewrite Hv; eauto.
Qed.

Lemma keeps_affinity_ensure p ns nm : keeps affinity_respected (ensurePairConfigMap p ns nm).
Proof. intros s r s' [m Hv]%ensurePairConfigMap_effect. rewrite Hv. by apply affinity_same. Qed.

Lemma ensure_scheduling hc p :
  ensures (scheduling hc) (ensurePairConfigMap p (hcNamespace hc) (hcName hc))
    (λ _ v, pair_owned v p (hcKey hc)).
Proof.
  intros s r s' E [Hm Ha]. destruct (ensurePairConfigMap_owns hc p s r s' E Hm) as [Hm' Ho].
  split; [split; [done|]|done]. by eapply keeps_affinity_ensure.
Qed.

Lemma claims_scheduling hc p nodes : schedulerFinalizer ∈ hcFinalizers hc →
  (∀ n, n ∈ nodes → pair_of n = p) →
  keeps (λ v, scheduling hc v ∧ pair_owned v p (hcKey hc))
    (st_for nodes (ensureHostedClusterLabelAndTaint hc)).
Proof.
  intros Hfin Hp s r s' E [[Hm Ha] Ho].
  destruct (claim_nodes_keeps hc p nodes Hfin Hp s r s' E) as [??]; [done|].
  split; [split; [done|]|done].
  refine (keeps_for affinity_respected nodes _ _ s r s' E Ha). intros. apply keeps_affinity_claim.
Qed.

Lemma claim_pair_keeps hc p nodes : schedulerFinalizer ∈ hcFinalizers hc →
  (∀ n, n ∈ nodes → pair_of n = p) → keeps (scheduling hc) (claim_pair hc p nodes).
Proof.
  intros Hfin Hp. unfold claim_pair. eapply ensures_bind; [apply ensures_wrap, ensure_scheduling|].
  intros ?. simpl. by apply claims_scheduling.
Qed.

Lemma nodesFromPlaceholders_one_pair hc size :
  ensures (λ v, scheduling hc v ∧ placeholders_selected v) (nodesFromPlaceholders size)
    (λ nodes _, ∀ n m, n ∈ nodes → m ∈ nodes → pair_of n = pair_of m).
Proof.
  intros s r s'. unfold nodesFromPlaceholders. unfold mbind at 1, st_bind.
  destruct (wrap _ _ s) as [r1 s1] eqn:E1. apply wrap_inv in E1 as (r0 & [= <- <-] & Hr1).
  destruct r1 as [ds|e|]; [|by intros [= <- <-]..].
  pose proof (list_deployments_stored _ _ _ (proj1 (Hr1 ds) eq_refl)) as Hl.
  destruct (List.find _ ds) as [d|] eqn:Hf.
  - apply find_Some_elem in Hf as [Hd _]. destruct (listing_elem _ _ _ _ _ Hl Hd) as [Hst Hns%str_eqb_eq].
    intros E [Hs Hsel].
    refine (deploymentNodes_one_pair (λ v, scheduling hc v ∧ placeholders_selected v) d Hns _ _ s r s' E _);
      [by eapply Hsel|by intros v [[_ ?] _]|done].
  - intros [= <- <-]. split; [done|]. intros ? [= <-] n m Hn. by apply not_elem_of_nil in Hn.
Qed.

Lemma take_nodes_scheduling hc size p config available : schedulerFinalizer ∈ hcFinalizers hc →
  leads (λ v, scheduling hc v ∧ placeholders_selected v) (scheduling hc)
    (take_nodes hc size p config available).
Proof.
  intros Hfin. unfold take_nodes. destruct (negb (str_eqb p "")).
  - apply leads_keeps; [|by intros ? [??]].
    eapply ensures_bind; [apply ensures_wrap, ensure_scheduling|]. intros ?. simpl.
    set (l := List.filter _ available).
    assert (Hl : ∀ n, n ∈ l → pair_of n = p).
    { intros n [_ Hn]%elem_of_filter_bool. apply andb_prop in Hn as [_ Hn]. by apply str_eqb_eq. }
    clearbody l. destruct l as [|n l]; [apply keeps_ret|].
    apply keeps_bind; [by apply claims_scheduling|]. intros. apply keeps_ret.
  - destruct (SizeConfigurationFor config size) as [c|]; [|apply leads_keeps; [apply keeps_throw|by intros ? [??]]].
    case_match; [|apply leads_keeps; [apply keeps_ret|by intros ? [??]]].
    eapply ensures_leads; [apply ensures_wrap, nodesFromPlaceholders_one_pair|by intros ? [??]|].
    intros [|n l]; [apply leads_keeps; [apply keeps_ret|by intros ? [[??] ?]]|].
    case_match; [apply leads_keeps; [apply keeps_throw|by intros ? [[??] ?]]|].
    intros s r s' E [[Hs _] Hp]. revert E Hs. apply keeps_bind; [|intros; apply keeps_ret].
    apply claim_pair_keeps; [done|]. intros m Hm. apply Hp; [done|left].
Qed.

Lemma scheduling_recorded hc v : scheduling hc v → recorded hc v.
Proof. by intros [[? _] _]. Qed.

(** The annotations do not matter for the ownership of pairs. *)
Lemma recorded_annotations hc m v : o_hcs v !! hcKey hc = Some hc → recorded hc v →
  recorded hc (with_hcs (<[hcKey hc := set_hcAnnotations m hc]> (o_hcs v)) v).
Proof.
  intros Hst [Hrec Hsp]. split; intros i n k hc' Hi Ho Hp.
  - intros Hhc Hl. simpl in *. destruct (decide (k = hcKey hc)) as [->|Hne].
    + rewrite lookup_insert_eq in Hhc. simplify_eq. by destruct (Hrec i n (hcKey hc) hc).
    + rewrite lookup_insert_ne in Hhc by done. by destruct (Hrec i n k hc').
  - intros Hk Hhc Hl. destruct (Hsp i n k hc') as [??]; [done..|]. split; [done|].
    simpl. by rewrite lookup_insert_ne.
Qed.

(** [UpdateHostedCluster] leaves the scheduling annotations of the size, or nothing
when it fails. *)
Lemma UpdateHostedCluster_effect hc size config nodes s r s' :
  UpdateHostedCluster hc size config nodes s = (r, s') → o_hcs (view s) !! hcKey hc = Some hc →
  (view s' = view s ∧ r ≠ Ret ()) ∨
  ∃ c, SizeConfigurationFor config size = Some c ∧
    view s' = with_hcs (<[hcKey hc := set_hcAnnotations
      (scheduling_annotations size config c nodes (hcAnnotations hc)) hc]> (o_hcs (view s))) (view s).
Proof.
  unfold UpdateHostedCluster, setHostedClusterSchedulingAnnotations.
  destruct (SizeConfigurationFor config size) as [c|] eqn:Hc;
    unfold mbind, st_bind, wrap at 1, st_catch at 1, st_lift; simpl.
  - set (m := scheduling_annotations _ _ _ _ _). intros E Hst. case_bool_decide as Heq.
    + injection E as <- <-. right. exists c. split; [done|]. fold m. rewrite Heq, insert_id by done.
      by destruct (view s).
    + apply wrap_inv in E as (r1 & E & Hr). destruct (patch_hc_stored hc m _ _ _ E Hst) as [Hv|[Hv Hne]].
      * right. by exists c.
      * left. split; [done|]. intros Hret%Hr. by apply (Hne ()).
  - intros [= <- <-] _. by left.
Qed.

Lemma UpdateHostedCluster_recorded hc size config nodes :
  leads (scheduling hc) (recorded hc) (UpdateHostedCluster hc size config nodes).
Proof.
  intros s r s' E [[Hrec Hst] _].
  destruct (UpdateHostedCluster_effect _ _ _ _ _ _ _ E Hst) as [[Hv _]|(c & _ & Hv)]; rewrite Hv; [done|].
  by apply recorded_annotations.
Qed.

(** The placeholder deployment of a hosted cluster selects by the placeholder label. *)
Lemma ensurePlaceholderDeployment_ensures hc size p needed :
  ensures (scheduling hc) (ensurePlaceholderDeployment hc size p needed)
    (λ d _, dNamespace d = placeholderNamespace ∧ is_Some (dSelector (dSpec d) !! PlaceholderLabel)).
Proof.
  intros s r s' E Hs. unfold ensurePlaceholderDeployment in E. simpl in E. unfold mbind, st_bind in E.
  destruct ((if str_eqb p "" then takenNodePairLabels else mret []) s) as [r0 s0] eqn:E0.
  assert (s0 = s) as ->.
  { revert E0. destruct (str_eqb p ""); [|by intros [= _ <-]]. unfold takenNodePairLabels, mbind, st_bind.
    destruct (wrap _ _ s) as [r1 s1] eqn:E1. apply wrap_inv in E1 as (? & [= <- <-] & _).
    destruct r1; by intros [= _ <-]. }
  destruct r0 as [pairs|e|]; simplify_eq; try done.
  apply wrap_inv in E as (r1 & E & Hr). destruct (cou_deployment_stored _ _ _ _ _ E) as [Hd (m & Hv & _)].
  split; [rewrite Hv; by apply scheduling_deployments|].
  intros d Hret%Hr. destruct (Hd d Hret) as (Hk & (base & Hspec) & _). split.
  - by injection Hk as -> _.
  - rewrite Hspec. simpl. rewrite lookup_singleton_eq. eauto.
Qed.

Lemma place_recorded hc size p config goal : schedulerFinalizer ∈ hcFinalizers hc →
  leads (scheduling hc) (recorded hc) (place hc size p config goal).
Proof.
  intros Hfin. unfold place. case_match.
  - apply leads_bind with (R := recorded hc); [apply UpdateHostedCluster_recorded|done|].
    intros _. apply keeps_bind; [|intros; apply keeps_ret].
    apply keeps_deletePlaceholder. intros. by apply recorded_deployments.
  - apply keeps_leads; [|apply scheduling_recorded].
    eapply (ensures_pure _ _ _ (λ d, _ ∧ _)); [apply ensurePlaceholderDeployment_ensures|].
    intros d [Hns Hsel]. case_match; [apply keeps_ret|].
    eapply ensures_pure; [apply deploymentNodes_one_pair; [done|done|by intros v [_ ?]]|].
    intros [|n l] Hp; [apply keeps_throw|]. case_match; [apply keeps_throw|].
    apply keeps_bind.
    { apply claim_pair_keeps; [done|]. intros m Hm. apply Hp; [done|left]. }
    intros _. apply keeps_bind; [|intros; apply keeps_ret].
    apply keeps_deletePlaceholder. intros. by apply scheduling_deployments.
Qed.

Lemma schedule_recorded hc size config : schedulerFinalizer ∈ hcFinalizers hc →
  leads (λ v, scheduling hc v ∧ placeholders_selected v) (recorded hc) (schedule hc size config).
Proof.
  intros Hfin. unfold schedule.
  apply leads_bind with (R := λ v, scheduling hc v ∧ placeholders_selected v);
    [apply keeps_wrap, keeps_reads|by intros v [?%scheduling_recorded _]|].
  intros nodes.
  apply leads_bind with (R := λ v, scheduling hc v ∧ placeholders_selected v);
    [|by intros v [?%scheduling_recorded _]|].
  { case_match; [|apply keeps_ret]. apply keeps_wrap. unfold pairLabelFromConfigMaps, pairConfigMaps.
    repeat (apply keeps_bind || apply keeps_reads || apply keeps_ret || intros ?). }
  intros p. apply leads_bind with (R := scheduling hc);
    [by apply take_nodes_scheduling|apply scheduling_recorded|].
  intros [r|]; [apply keeps_leads; [apply keeps_ret|apply scheduling_recorded]|].
  by apply place_recorded.
Qed.

(** *** Clean-up *)

(** The ConfigMaps of a deleted cluster go; the others stay. *)
Lemma deletePairConfigMaps_managed hc : ¬ live hc → keeps (managed hc) (deletePairConfigMaps hc).
Proof.
  intros Hdead s r s' E Hm. unfold deletePairConfigMaps, mbind, st_bind in E.
  destruct (wrap _ _ s) as [r1 s1] eqn:E1. apply wrap_inv in E1 as (r0 & E0 & Hr1).
  assert (Hs : s1 = s ∧ ∀ l, r0 = Ret l → ∀ cm, cm ∈ l → o_cms (view s) !! cmKey cm = Some cm).
  { unfold pairConfigMaps, mbind, st_bind, reads in E0. destruct (k_list_cms _ s) as [l|e|] eqn:El.
    - injection E0 as <- <-. split; [done|]. intros ? [= <-] cm [Hin _]%elem_of_filter_bool.
      by destruct (listing_elem _ _ _ _ _ (list_cms_stored _ _ _ El) Hin).
    - by injection E0 as <- <-.
    - by injection E0 as <- <-. }
  destruct Hs as [-> Hl]. destruct r1 as [l|e|]; [|by simplify_eq..].
  specialize (Hl l (proj1 (Hr1 l) eq_refl)). clear Hr1 E0.
  set (P := λ v, managed hc v ∧ ∀ cm, cm ∈ l → o_cms v !! cmKey cm = Some cm ∨ o_cms v !! cmKey cm = None).
  assert (Hk : keeps P (st_for l (λ cm, if owned_by (hcNamespace hc) (hcName hc) cm
                        then wrap "failed to delete configmap" (k_delete_cm cm) else mret ()))).
  { apply keeps_for. intros cm Hcm. destruct (owned_by _ _ cm) eqn:Ho; [|apply keeps_ret].
    apply keeps_wrap. intros t r1 t' Et [[[Hrec Hsp] Hst] Hall].
    destruct (delete_cm_stored _ _ _ _ Et) as [Hv|[Hv _]]; rewrite Hv; [|by split].
    split; [split; [split; [|exact Hsp]|done]|].
    - intros i n k hc' Hi Hk Hp Hhc Hlive. simpl in *.
      destruct (Hrec i n k hc') as [Hf (cm' & Hcm' & Hoc)]; [done..|]. split; [done|].
      exists cm'. split; [|done]. simpl. rewrite lookup_delete_ne; [done|]. intros Heq.
      destruct (Hall cm Hcm) as [Hc|Hc]; rewrite Heq in Hc; pose proof (eq_trans (eq_sym Hc) Hcm') as Hx;
        simplify_eq.
      assert (k = hcKey hc) as -> by (eapply (pair_owned_agree (view t)); eexists; split; done).
      by simplify_eq.
    - intros cm' Hcm'. simpl. destruct (decide (cmKey cm = cmKey cm')) as [->|Hne].
      + right. apply lookup_delete_eq.
      + rewrite lookup_delete_ne by done. auto. }
  apply (Hk s r s' E). split; [done|]. auto.
Qed.

(** Storing a hosted cluster that is dead, or that has the finalizer when its
nodes need it. *)
Lemma recorded_store hc v : owners_recorded v →
  (live hc → schedulerFinalizer ∈ hcFinalizers hc ∧
     ∃ hc0, o_hcs v !! hcKey hc = Some hc0 ∧ live hc0) →
  owners_recorded (with_hcs (store_hc hc (o_hcs v)) v).
Proof.
  intros Hrec Hhc i n k hc' Hi Ho Hp Hk Hl. simpl in *. unfold store_hc in Hk.
  destruct (decide (k = hcKey hc)) as [->|Hne].
  - case_match; [by rewrite lookup_delete_eq in Hk|]. rewrite lookup_insert_eq in Hk. simplify_eq.
    destruct (Hhc Hl) as [Hf (hc0 & Hst & Hl0)]. split; [done|].
    by destruct (Hrec i n (hcKey hc') hc0).
  - assert (o_hcs v !! k = Some hc') by (case_match; [by rewrite lookup_delete_ne in Hk|by rewrite lookup_insert_ne in Hk]).
    by destruct (Hrec i n k hc').
Qed.

Lemma update_recorded hc hc' s r s' : k_update_hc hc' s = (r, s') → managed hc (view s) →
  hcKey hc' = hcKey hc →
  (live hc' → schedulerFinalizer ∈ hcFinalizers hc' ∧ live hc) →
  recorded hc (view s').
Proof.
  intros E [[Hrec Hsp] Hst] Hk Hl.
  destruct (update_hc_stored _ _ _ _ E) as [Hv|[Hv _]]; [rewrite Hk; eauto|..]; rewrite Hv; [|done].
  split.
  - apply recorded_store; [done|]. intros [??]%Hl. split; [done|]. exists hc. by rewrite Hk.
  - intros i n k hc0 Hi Ho Hp Hne Hhc Hlive. destruct (Hsp i n k hc0) as [??]; [done..|]. split; [done|].
    simpl. unfold store_hc. rewrite Hk. case_match; [by rewrite lookup_delete_ne|by rewrite lookup_insert_ne].
Qed.

Lemma finalize_recorded hc : hcDeleting hc = true →
  leads (managed hc) (recorded hc) (finalize hc).
Proof.
  intros Hdel. unfold finalize. destruct (ContainsFinalizer hc schedulerFinalizer); simpl;
    [|by intros s r s' [= <- <-] [??]].
  destruct (ContainsFinalizer hc HostedClusterFinalizer) eqn:Hf; [by intros s r s' [= <- <-] [??]|].
  apply bool_decide_eq_false in Hf.
  apply leads_bind with (R := managed hc);
    [apply keeps_deletePlaceholder; intros; by apply managed_deployments|by intros v [??]|]. intros _.
  apply leads_bind with (R := managed hc);
    [apply deletePairConfigMaps_managed; unfold live; tauto|by intros v [??]|]. intros _.
  apply leads_bind with (R := recorded hc); [|done|intros _; apply keeps_ret].
  intros s r s' E Hm. eapply update_recorded; [done|done|done|].
  intros Hl. destruct Hl. simpl. split; [done|]. rewrite list_elem_of_filter. tauto.
Qed.

(** The reconciliation of a hosted cluster records the owners of pairs and leaves
the nodes of the other live hosted clusters alone, whatever its outcome. *)
Lemma sizer_recorded req s r s' : sizer_Reconcile parse_rfc3339 now req s = (r, s') → v0 = view s →
  owners_recorded (view s) → affinity_respected (view s) → placeholders_selected (view s) →
  owners_recorded (view s') ∧
  ∀ i n k hc', o_nodes v0 !! i = Some n → owner n = Some k → pair_of n ≠ "" → k ≠ req →
    o_hcs v0 !! k = Some hc' → live hc' → o_nodes (view s') !! i = Some n.
Proof.
  intros E Hv0 Hrec Haff Hsel.
  assert (Hself : owners_recorded (view s) ∧ ∀ i n k hc', o_nodes v0 !! i = Some n → owner n = Some k →
    pair_of n ≠ "" → k ≠ req → o_hcs v0 !! k = Some hc' → live hc' → o_nodes (view s) !! i = Some n)
    by (split; [done|]; subst; eauto). unfold sizer_Reconcile, with_hosted_cluster in E.
  destruct (k_get_hc req s) as [hc|e|] eqn:Hg; [|case_match; by simplify_eq|by simplify_eq].
  apply get_hc_stored in Hg as [Hst <-].
  assert (Hr : recorded hc (view s)) by (split; [done|]; intros i n k hc'; subst; auto).
  assert (Hm : managed hc (view s)) by done.
  enough (recorded hc (view s')) as [? Hsp].
  { split; [done|]. intros i n k hc' ? ? ? ? ? ?. by destruct (Hsp i n k hc'). }
  clear Hself.
  destruct (hcDeleting hc) eqn:Hdel; [by eapply finalize_recorded|].
  assert (Hl : live hc) by (intros [? _]; congruence).
  destruct (negb (str_eqb _ _)); [by injection E as <- <-|].
  destruct (ContainsFinalizer hc schedulerFinalizer) eqn:Hf; simpl in E.
  - apply bool_decide_eq_true in Hf. revert E. unfold unless_paused.
    destruct (ProcessPausedUntilField _ _ _) as [[[] d]|e|]; try (by intros [= <- <-]).
    unfold with_desired_size. case_match; [by intros [= <- <-]|].
    intros E. assert (Hpre : scheduling hc (view s) ∧ placeholders_selected (view s)) by done.
    refine (leads_bind _ (λ v, scheduling hc v ∧ placeholders_selected v) _ _ _ _ _ _ s r s' E Hpre);
      [apply keeps_wrap, keeps_reads|by intros v [?%scheduling_recorded _]|].
    intros config. case_match; [apply keeps_leads; [apply keeps_ret|by intros v [?%scheduling_recorded _]]|].
    by apply schedule_recorded.
  - apply bool_decide_eq_false in Hf. unfold mbind, st_bind in E.
    destruct (k_update_hc _ s) as [r1 s1] eqn:Eu.
    assert (s' = s1) as -> by (destruct r1; injection E; congruence).
    eapply update_recorded; [done|done| |].
    + unfold AddFinalizer. by destruct (ContainsFinalizer _ _).
    + intros _. split; [|done]. unfold AddFinalizer, ContainsFinalizer. rewrite bool_decide_false by done.
      simpl. set_solver.
Qed.

End Sizer.

(** *** The reaper *)

Section Reaper.
Context {S : Type} `{!Kube S} `{!KubeLaws S}.

(** A request serving node labelled for a hosted cluster that does not exist. *)
Definition orphaned (v : Objects) (n : Node) : Prop :=
  has_label n RequestServingComponentLabel = true ∧ ∃ k, owner n = Some k ∧ o_hcs v !! k = None.

Lemma reaper_effect name s r s' : reaper_Reconcile name s = (r, s') →
  view s' = view s ∨
  ∃ n, o_nodes (view s) !! name = Some n ∧ orphaned (view s) n ∧
    (view s' = with_nodes (delete name (o_nodes (view s))) (view s) ∨
     view s' = with_nodes (alter mark_deleting name (o_nodes (view s))) (view s)).
Proof.
  unfold reaper_Reconcile.
  destruct (k_get_node name s) as [n|e|] eqn:Hn; [|case_match; intros [= <- <-]; by left|intros [= <- <-]; by left].
  apply get_node_stored in Hn as [Hn <-].
  destruct (has_label n RequestServingComponentLabel) eqn:Hrs; simpl; [|intros [= <- <-]; by left].
  destruct (has_label n HostedClusterLabel) eqn:Hl; simpl; [|intros [= <- <-]; by left].
  destruct (k_get_hc _ s) as [hc|e|] eqn:Hhc; [intros [= <- <-]; by left| |intros [= <- <-]; by left].
  destruct (IsNotFound e) eqn:Hnf; simpl; [|intros [= <- <-]; by left].
  unfold mbind, st_bind. destruct (wrap _ _ s) as [r1 s1] eqn:E.
  apply wrap_inv in E as (r0 & E & _). intros Hrun.
  assert (s' = s1) as -> by (destruct r1; injection Hrun; congruence).
  apply (get_hc_missing _ _ _ Hhc) in Hnf.
  assert (Hor : orphaned (view s) n)
    by (split; [done|]; eexists; split; [unfold owner; by rewrite Hl|done]).
  destruct (delete_node_stored _ _ _ _ E) as [[Hv|[Hv _]]|[Hv|[Hv _]]]; eauto 6.
Qed.

Lemma owner_mark n : owner (mark_deleting n) = owner n.
Proof. done. Qed.

Lemma reaper_recorded name s r s' : reaper_Reconcile name s = (r, s') →
  owners_recorded (view s) → owners_recorded (view s').
Proof.
  intros [Hv|(n & Hn & Hor & [Hv|Hv])]%reaper_effect Hrec; rewrite Hv; [done|..];
    intros i m k hc Hi Ho Hp Hhc Hl; simpl in *.
  - apply lookup_delete_Some in Hi as [_ Hi]. by destruct (Hrec i m k hc).
  - destruct (decide (i = name)) as [->|Hne].
    + rewrite lookup_alter_eq, Hn in Hi. simplify_eq/=. by destruct (Hrec name n k hc).
    + rewrite lookup_alter_ne in Hi by done. by destruct (Hrec i m k hc).
Qed.

End Reaper.

(** *** Reachable clusters *)

Section Reachable.
Context {S : Type} `{!Kube S} `{!KubeLaws S} `{!QuantityText}.
Context (parse_rfc3339 : string → option Time).

(** What everything else does to the cluster: nodes come and go, but only the
schedulers label them; hosted clusters are created under names no node is
labelled for, keep the scheduler's finalizer and, once dead, stay dead; the
ConfigMaps of the placeholder namespace are the scheduler's. Pods, deployments
and the sizing configuration change freely. *)
Record environment (v v' : Objects) : Prop := {
  env_labels i n' : o_nodes v' !! i = Some n' → is_Some (owner n') →
    ∃ n, o_nodes v !! i = Some n ∧ nodeLabels n = nodeLabels n';
  env_hcs k hc' : o_hcs v' !! k = Some hc' → live hc' →
    (∃ hc, o_hcs v !! k = Some hc ∧ live hc ∧
       (schedulerFinalizer ∈ hcFinalizers hc → schedulerFinalizer ∈ hcFinalizers hc')) ∨
    (∀ i n, o_nodes v' !! i = Some n → owner n ≠ Some k);
  env_cms p : o_cms v' !! (placeholderNamespace, p) = o_cms v !! (placeholderNamespace, p);
}.

(** One reconciliation, with any outcome, or one change by the environment. *)
Inductive step : S → S → Prop :=
  | step_sizer now req s r s' :
      affinity_respected (view s) → placeholders_selected (view s) →
      sizer_Reconcile parse_rfc3339 now req s = (r, s') → step s s'
  | step_reaper name s r s' : reaper_Reconcile name s = (r, s') → step s s'
  | step_environment s s' : environment (view s) (view s') → step s s'.

(** From a cluster where no node is taken. *)
Definition unclaimed (v : Objects) : Prop := ∀ i n, o_nodes v !! i = Some n → owner n = None.
Definition reachable (s : S) : Prop := ∃ s0, unclaimed (view s0) ∧ rtc step s0 s.

Lemma same_labels_owner n n' : nodeLabels n = nodeLabels n' → owner n = owner n' ∧ pair_of n = pair_of n'.
Proof. unfold owner, pair_of, label, has_label. by intros ->. Qed.

Lemma environment_recorded v v' : environment v v' → owners_recorded v → owners_recorded v'.
Proof.
  intros [Hlab Hhcs Hcms] Hrec i n' k hc' Hi Ho Hp Hhc Hl.
  destruct (Hlab i n') as (n & Hn & Heq); [done|by eexists|].
  destruct (same_labels_owner _ _ Heq) as [Ho' Hp'].
  destruct (Hhcs k hc' Hhc Hl) as [(hc & Hhc0 & Hl0 & Hf)|Hnone]; [|by destruct (Hnone i n' Hi)].
  destruct (Hrec i n k hc) as [Hfin (cm & Hcm & Hown)]; [done|congruence|congruence|done|done|].
  split; [auto|]. exists cm. split; [|done]. rewrite Hcms. by rewrite <- Hp'.
Qed.

Lemma step_recorded s s' : step s s' → owners_recorded (view s) → owners_recorded (view s').
Proof.
  destruct 1 as [now req s r s' Haff Hsel E|name s r s' E|s s' E].
  - intros Hrec. by apply (sizer_recorded parse_rfc3339 now (view s) req s r s').
  - by eapply reaper_recorded.
  - by apply environment_recorded.
Qed.

Lemma reachable_recorded s : reachable s → owners_recorded (view s).
Proof.
  intros (s0 & Hfree & Hrun).
  assert (Hrec : owners_recorded (view s0)).
  { intros i n k hc Hi Ho. by rewrite (Hfree i n Hi) in Ho. }
  clear Hfree. induction Hrun as [s|s s1 s' Hstep _ IH]; [done|]. by eapply IH, step_recorded.
Qed.

(** C6: nodes are not shared.  In every state reached by reconciliations of any hosted
clusters, whatever their outcome, by the reaper and by the rest of the system,
two nodes of one pair that are labelled for hosted clusters which still exist
are labelled for the same hosted cluster. *)
Theorem pairs_exclusive s i j n m k k' hc hc' : reachable s →
  o_nodes (view s) !! i = Some n → o_nodes (view s) !! j = Some m →
  pair_of n = pair_of m → pair_of n ≠ "" → owner n = Some k → owner m = Some k' →
  o_hcs (view s) !! k = Some hc → o_hcs (view s) !! k' = Some hc' → live hc → live hc' → k = k'.
Proof. intros Hr%reachable_recorded. by apply owners_exclusive. Qed.

(** A reconciliation does not touch the nodes of other hosted clusters: in a
reachable state, whatever the outcome, a paired node labelled for another hosted
cluster that is live keeps its labels, taints and everything else. *)
Theorem sizer_spares_other_clusters now req s r s' i n k hc : reachable s →
  affinity_respected (view s) → placeholders_selected (view s) →
  sizer_Reconcile parse_rfc3339 now req s = (r, s') →
  o_nodes (view s) !! i = Some n → owner n = Some k → pair_of n ≠ "" → k ≠ req →
  o_hcs (view s) !! k = Some hc → live hc →
  o_nodes (view s') !! i = Some n.
Proof.
  intros Hr%reachable_recorded Haff Hsel E Hi Ho Hp Hk Hhc Hl.
  destruct (sizer_recorded parse_rfc3339 now (view s) req s r s') as [_ Hsp]; [done..|].
  by eapply Hsp.
Qed.

End Reachable.

End RequestServingProofs.
