(* ===== verification/RequestServingPlacement.v ===== *)
(** When a hosted cluster is announced as scheduled, which nodes the scheduler
without sizes takes, and what the reaper deletes. *)
From S2P Require Import Prelude GoSort Api Quantity Upsert ClusterSizing Scheduler SchedulerLaws RequestServing.
From S2P Require Import RequestServingProofs.

Module RequestServingPlacement.
Import ClusterSizing Scheduler SchedulerLaws RequestServing RequestServingProofs.

(** *** The goal nodes *)

(** A node the hosted cluster can be placed on: labelled for it, of its size, of
the pair, and not being deleted. *)
Definition goal_node (hc : HostedCluster) (size p : string) (n : Node) : Prop :=
  nodeDeleting n = false ∧ label n HostedClusterLabel = clusterKey hc ∧
  label n NodeSizeLabel = size ∧ pair_of n = p ∧ p ≠ "".

Definition survey_sound hc size (nodes : list Node) (v : survey) : Prop :=
  (∀ n, n ∈ goalNodes v → n ∈ nodes ∧ goal_node hc size (pairLabel v) n) ∧
  (∀ n, n ∈ availableNodes v → n ∈ nodes ∧ nodeDeleting n = false ∧ label n HostedClusterLabel = "").

Lemma survey_node_sound hc size nodes v n : n ∈ nodes →
  survey_sound hc size nodes v → survey_sound hc size nodes (survey_node hc size v n).
Proof.
  intros Hn [Hg Ha]. unfold survey_node.
  destruct (nodeDeleting n) eqn:Hd; [by split|].
  destruct (str_eqb (label n HostedClusterLabel) (clusterKey hc)) eqn:Hl.
  - apply str_eqb_eq in Hl.
    set (p := if negb (str_eqb (pair_of n) "") && str_eqb (pairLabel v) "" then pair_of n else pairLabel v).
    assert (Hg' : ∀ m, m ∈ goalNodes v → m ∈ nodes ∧ goal_node hc size p m).
    { intros m Hm. destruct (Hg m Hm) as [? (? & ? & ? & Hpm & Hne)]. split; [done|].
      unfold p. rewrite (proj2 (str_eqb_neq (pairLabel v) "")), andb_false_r by congruence. by repeat split. }
    clearbody p. case_match eqn:Hc; [|by split].
    apply andb_prop in Hc as [[Hs%str_eqb_eq Hp]%andb_prop Hpp%str_eqb_eq].
    apply negb_true_iff, str_eqb_neq in Hp. split; [|done]. simpl.
    intros m [Hm|Hm%list_elem_of_singleton]%elem_of_app; [auto|]. subst m. by repeat split.
  - case_match eqn:He; [|by split]. apply str_eqb_eq in He. split; [done|]. simpl.
    intros m [Hm|Hm%list_elem_of_singleton]%elem_of_app; [auto|]. by subst m.
Qed.

Lemma survey_fold_sound hc size nodes l v : (∀ n, n ∈ l → n ∈ nodes) →
  survey_sound hc size nodes v → survey_sound hc size nodes (foldl (survey_node hc size) v l).
Proof.
  revert v. induction l as [|n l IH]; intros v Hsub Hv; simpl; [done|].
  apply IH; [intros; apply Hsub; by right|]. apply survey_node_sound; [apply Hsub; left|done].
Qed.

Lemma survey_nodes_sound hc size nodes : survey_sound hc size nodes (survey_nodes hc size nodes).
Proof. apply survey_fold_sound; [done|]. split; simpl; intros n Hn; set_solver. Qed.

(** *** Zones *)

Lemma nodesByZone_sound goal z n : nodesByZone goal !! z = Some n →
  n ∈ goal ∧ label n LabelTopologyZone = z ∧ z ≠ "".
Proof.
  unfold nodesByZone.
  assert (Hgen : ∀ l (m : gmap string Node), (∀ z n, m !! z = Some n → n ∈ goal ∧ label n LabelTopologyZone = z ∧ z ≠ "") →
    (∀ n, n ∈ l → n ∈ goal) → ∀ z n, foldl (λ m n, let zone := label n LabelTopologyZone in
      if str_eqb zone "" then m else match m !! zone with Some _ => m | None => <[zone := n]> m end) m l !! z = Some n →
    n ∈ goal ∧ label n LabelTopologyZone = z ∧ z ≠ "").
  { induction l as [|x l IH]; intros m Hm Hl z' n'; simpl; [apply Hm|].
    apply IH; [|intros; apply Hl; by right].
    destruct (str_eqb (label x LabelTopologyZone) "") eqn:Hz; [done|]. apply str_eqb_neq in Hz.
    destruct (m !! label x LabelTopologyZone) eqn:Hx; [done|].
    intros z1 n1. destruct (decide (z1 = label x LabelTopologyZone)) as [->|Hne].
    - rewrite lookup_insert_eq. intros [= <-]. split; [apply Hl; left|done].
    - rewrite lookup_insert_ne by done. apply Hm. }
  apply (Hgen goal ∅); [|done]. intros ??. by rewrite lookup_empty.
Qed.

Lemma two_keys {A} (m : gmap string A) : 1 < size m →
  ∃ k1 k2 x1 x2, k1 ≠ k2 ∧ m !! k1 = Some x1 ∧ m !! k2 = Some x2.
Proof.
  intros Hs. pose proof (NoDup_fst_map_to_list m) as Hnd.
  rewrite <- length_map_to_list in Hs.
  destruct (map_to_list m) as [|[k1 x1] [|[k2 x2] l]] eqn:E; simpl in Hs; [lia|lia|].
  exists k1, k2, x1, x2. simpl in Hnd. apply NoDup_cons in Hnd as [Hnin _].
  split; [intros ->; set_solver|].
  split; apply elem_of_map_to_list; rewrite E; [left|right; left].
Qed.

(** Goal nodes in more than one zone: two of them in different zones. *)
Lemma two_zones goal : 1 < size (nodesByZone goal) →
  ∃ n1 n2, n1 ∈ goal ∧ n2 ∈ goal ∧ label n1 LabelTopologyZone ≠ "" ∧ label n2 LabelTopologyZone ≠ "" ∧
    label n1 LabelTopologyZone ≠ label n2 LabelTopologyZone.
Proof.
  intros (z1 & z2 & n1 & n2 & Hne & H1 & H2)%two_keys.
  apply nodesByZone_sound in H1 as (? & ? & ?). apply nodesByZone_sound in H2 as (? & ? & ?).
  exists n1, n2. repeat split; congruence.
Qed.

(** *** The scheduling annotations *)

(** A function on annotations that sets or deletes some keys and leaves the others. *)
Definition overlays (f : StringMap → StringMap) (g : string → option (option string)) : Prop :=
  ∀ m k, f m !! k = from_option id (m !! k) (g k).
Definition overlay (f : StringMap → StringMap) : Prop := ∃ g, overlays f g.

Lemma overlay_idempotent f m : overlay f → f (f m) = f m.
Proof. intros [g Hg]. apply map_eq. intros k. rewrite !Hg. by destruct (g k). Qed.

Lemma overlay_id : overlay id.
Proof. by exists (λ _, None). Qed.
Lemma overlay_comp f h : overlay f → overlay h → overlay (λ m, h (f m)).
Proof.
  intros [g Hg] [g' Hg']. exists (λ k, match g' k with Some x => Some x | None => g k end).
  intros m k. rewrite Hg', Hg. by destruct (g' k).
Qed.
Lemma overlay_insert k v : overlay (insert k v).
Proof.
  exists (λ k', if decide (k = k') then Some (Some v) else None). intros m k'.
  case_decide; subst; [by rewrite lookup_insert_eq|by rewrite lookup_insert_ne].
Qed.
Lemma overlay_delete k : overlay (delete k).
Proof.
  exists (λ k', if decide (k = k') then Some None else None). intros m k'.
  case_decide; subst; [by rewrite lookup_delete_eq|by rewrite lookup_delete_ne].
Qed.
Lemma overlay_union (n : StringMap) : overlay (λ m, n ∪ m).
Proof.
  exists (λ k, Some <$> n !! k). intros m k. rewrite lookup_union. destruct (n !! k), (m !! k); done.
Qed.
Lemma overlay_set_some {A} (text : A → string) k v : overlay (set_some text k v).
Proof. destruct v; [apply overlay_insert|apply overlay_id]. Qed.
Lemma overlay_set_nonempty k v : overlay (set_nonempty k v).
Proof. unfold set_nonempty. destruct (str_eqb v ""); [apply overlay_id|apply overlay_insert]. Qed.

Create HintDb overlay.
#[local] Hint Resolve overlay_id overlay_insert overlay_delete overlay_union overlay_set_some
  overlay_set_nonempty : overlay.

Section Annotations.
Context `{!QuantityText}.

Lemma scheduling_annotations_overlay size config c nodes : overlay (scheduling_annotations size config c nodes).
Proof.
  unfold scheduling_annotations.
  assert (Hmhc : ∀ d : option Duration, overlay (λ m, match d with
     | Some d => <[MachineHealthCheckTimeoutAnnotation := dur_string d]> m
     | None => if configHasMHCTimeout config then delete MachineHealthCheckTimeoutAnnotation m else m end)).
  { intros [d|]; [apply overlay_insert|]. destruct (configHasMHCTimeout config); auto with overlay. }
  assert (Hlast : overlay (λ m, match nodes with [] => m | _ =>
      <[RequestServingNodeAdditionalSelectorAnnotation := NodeSizeLabel +:+ "=" +:+ size]>
        (set_nonempty AWSLoadBalancerSubnetsAnnotation (getLBSubnetsFromNodes nodes) m) end)).
  { destruct nodes; [apply overlay_id|]. apply (overlay_comp _ (insert _ _)); auto with overlay. }
  refine (overlay_comp _ _ _ Hlast).
  refine (overlay_comp _ (λ m, _ ∪ m) _ (overlay_union _)).
  refine (overlay_comp _ _ _ (overlay_set_some _ _ _)).
  refine (overlay_comp _ _ _ (overlay_set_some _ _ _)).
  refine (overlay_comp _ _ _ (Hmhc _)).
  do 3 refine (overlay_comp _ _ _ (overlay_set_some _ _ _)).
  refine (overlay_comp _ _ _ (overlay_set_nonempty _ _)).
  apply overlay_insert.
Qed.

Lemma override_annotation_key rs k : has_prefix k "r" = false →
  ResourceRequestsToOverrideAnnotations rs !! k = None.
Proof.
  intros Hk. unfold ResourceRequestsToOverrideAnnotations.
  assert (Hgen : ∀ (m : StringMap), m !! k = None →
    foldl (λ m r, <[request_key r := request_value r]> m) m rs !! k = None).
  { induction rs as [|r rs IH]; intros m Hm; simpl; [done|]. apply IH.
    rewrite lookup_insert_ne; [done|]. intros <-. done. }
  by apply Hgen, lookup_empty.
Qed.

(** A cluster placed on nodes is marked scheduled and told the size of its nodes. *)
Lemma scheduling_annotations_scheduled size config c n nodes m :
  let a := scheduling_annotations size config c (n :: nodes) m in
  a !! HostedClusterScheduledAnnotation = Some "true" ∧
  a !! RequestServingNodeAdditionalSelectorAnnotation = Some (NodeSizeLabel +:+ "=" +:+ size).
Proof.
  simpl. split; [|unfold scheduling_annotations; by rewrite lookup_insert_eq].
  unfold scheduling_annotations, set_nonempty, set_some.
  repeat (first [rewrite lookup_insert_eq | rewrite lookup_insert_ne by done | rewrite lookup_delete_ne by done
                | rewrite lookup_union, override_annotation_key by done; rewrite (left_id_L None union)
                | case_match]); done.
Qed.

End Annotations.

(** *** Which commands change hosted clusters *)

Section Sizer.
Context {S : Type} `{!Kube S} `{!KubeLaws S} `{!QuantityText}.
Context (parse_rfc3339 : string → option Time) (now : Time).

Definition hcs_are (m : gmap NamespacedName HostedCluster) (v : Objects) : Prop := o_hcs v = m.

Lemma hcs_deletePlaceholder m hc : keeps (hcs_are m) (deletePlaceholderDeployment hc).
Proof. apply keeps_deletePlaceholder. done. Qed.

Lemma hcs_ensure m p ns nm : keeps (hcs_are m) (ensurePairConfigMap p ns nm).
Proof. intros s r s' [c Hv]%ensurePairConfigMap_effect. by rewrite Hv. Qed.

Lemma hcs_claim m hc n : keeps (hcs_are m) (claim_node hc n).
Proof.
  unfold claim_node. case_bool_decide; [apply keeps_panic|]. apply keeps_wrap. intros s r s' E.
  by destruct (patch_node_stored _ _ _ _ _ E) as [[_ [Hv|[Hv _]]]|[Hv _]]; [done|..]; rewrite Hv.
Qed.

Lemma hcs_claim_pair m hc p nodes : keeps (hcs_are m) (claim_pair hc p nodes).
Proof.
  apply keeps_bind; [apply keeps_wrap, hcs_ensure|]. intros _. apply keeps_for. intros. apply hcs_claim.
Qed.

Lemma hcs_ensurePlaceholder m hc size p k : keeps (hcs_are m) (ensurePlaceholderDeployment hc size p k).
Proof.
  unfold ensurePlaceholderDeployment. simpl. apply keeps_bind.
  - case_match; [|apply keeps_ret]. apply keeps_bind; [apply keeps_wrap, keeps_reads|intros; apply keeps_ret].
  - intros pairs. apply keeps_wrap. intros s r s' E.
    destruct (cou_deployment_stored _ _ _ _ _ E) as [_ (d & Hv & _)]. by rewrite Hv.
Qed.

Lemma hcs_nodes_of_pods m pods : keeps (hcs_are m) (nodes_of_pods pods).
Proof.
  induction pods as [|p pods IH]; simpl; [apply keeps_ret|]. case_match; [done|].
  apply keeps_bind; [apply keeps_wrap, keeps_reads|]. intros n. apply keeps_bind; [done|].
  intros. apply keeps_ret.
Qed.

Lemma hcs_deploymentNodes m d : keeps (hcs_are m) (deploymentNodes d).
Proof.
  destruct d as [d|]; simpl; [|apply keeps_ret].
  apply keeps_bind; [apply keeps_wrap, keeps_reads|]. intros. apply hcs_nodes_of_pods.
Qed.

Lemma hcs_take_nodes m hc size p config available : keeps (hcs_are m) (take_nodes hc size p config available).
Proof.
  unfold take_nodes. case_match.
  - apply keeps_bind; [apply keeps_wrap, hcs_ensure|]. intros _. case_match; [apply keeps_ret|].
    apply keeps_bind; [apply keeps_for; intros; apply hcs_claim|intros; apply keeps_ret].
  - case_match; [|apply keeps_throw]. case_match; [|apply keeps_ret].
    apply keeps_bind.
    { apply keeps_wrap, keeps_bind; [apply keeps_wrap, keeps_reads|]. intros. apply hcs_deploymentNodes. }
    intros [|n l]; [apply keeps_ret|]. case_match; [apply keeps_throw|].
    apply keeps_bind; [apply hcs_claim_pair|intros; apply keeps_ret].
Qed.

Lemma place_hcs hc size p config goal s r s' : place hc size p config goal s = (r, s') →
  o_hcs (view s) !! hcKey hc = Some hc →
  o_hcs (view s') = o_hcs (view s) ∨
  ∃ c, 1 < base.size (nodesByZone goal) ∧ SizeConfigurationFor config size = Some c ∧
    o_hcs (view s') = <[hcKey hc := set_hcAnnotations
      (scheduling_annotations size config c goal (hcAnnotations hc)) hc]> (o_hcs (view s)).
Proof.
  unfold place. destruct (1 <? base.size (nodesByZone goal)) eqn:Hz.
  - apply Nat.ltb_lt in Hz. intros [([] & s1 & E1 & E2)|(r1 & E1 & Hne & _)]%bind_inv Hst.
    + right. destruct (UpdateHostedCluster_effect _ _ _ _ _ _ _ E1 Hst) as [[_ Hn]|(c & Hc & Hv)]; [done|].
      exists c. split; [done|]. split; [done|].
      assert (Hk : keeps (hcs_are (o_hcs (view s1))) (_ ← deletePlaceholderDeployment hc; mret no_requeue)).
      { apply keeps_bind; [apply hcs_deletePlaceholder|intros; apply keeps_ret]. }
      pose proof (Hk _ _ _ E2 eq_refl) as Hk2. unfold hcs_are in Hk2. by rewrite Hk2, Hv.
    + destruct (UpdateHostedCluster_effect _ _ _ _ _ _ _ E1 Hst) as [[Hv _]|(c & Hc & Hv)].
      * left. by rewrite Hv.
      * right. exists c. by rewrite Hv.
  - intros E _. left. refine ((_ : keeps (hcs_are (o_hcs (view s))) _) s r s' E eq_refl). clear E.
    apply keeps_bind; [apply hcs_ensurePlaceholder|]. intros d. case_match; [apply keeps_ret|].
    apply keeps_bind; [apply hcs_deploymentNodes|]. intros [|n l]; [apply keeps_throw|].
    case_match; [apply keeps_throw|]. apply keeps_bind; [apply hcs_claim_pair|]. intros _.
    apply keeps_bind; [apply hcs_deletePlaceholder|intros; apply keeps_ret].
Qed.

(** The request serving nodes, and what the code makes of them. *)
Definition surveyed (hc : HostedCluster) (size : string) (all : list Node) : survey :=
  survey_nodes hc size (List.filter (λ n, has_labels [RequestServingComponentLabel] (nodeLabels n)) all).

Lemma schedule_hcs hc size config s r s' : schedule hc size config s = (r, s') →
  o_hcs (view s) !! hcKey hc = Some hc →
  o_hcs (view s') = o_hcs (view s) ∨
  ∃ all c, k_list_nodes s = Ret all ∧ 1 < base.size (nodesByZone (goalNodes (surveyed hc size all))) ∧
    SizeConfigurationFor config size = Some c ∧
    o_hcs (view s') = <[hcKey hc := set_hcAnnotations (scheduling_annotations size config c
      (goalNodes (surveyed hc size all)) (hcAnnotations hc)) hc]> (o_hcs (view s)).
Proof.
  unfold schedule. intros [(all & s1 & E1 & E)|(r1 & E1 & _)]%bind_inv Hst;
    apply wrap_inv in E1 as (r0 & [= <- <-] & Hr0); [|by left].
  pose proof (proj1 (Hr0 all) eq_refl) as Hall. clear Hr0.
  change (survey_nodes hc size _) with (surveyed hc size all) in E.
  set (m := o_hcs (view s)) in *.
  apply bind_inv in E as [(p & s1 & E1 & E)|(r1 & E1 & _)].
  2: { left. refine ((_ : keeps (hcs_are m) _) s _ s' E1 eq_refl). clear E1.
       case_match; [|apply keeps_ret]. apply keeps_wrap. unfold pairLabelFromConfigMaps, pairConfigMaps.
       repeat (apply keeps_bind || apply keeps_reads || apply keeps_ret || intros ?). }
  assert (H1 : o_hcs (view s1) = m).
  { refine ((_ : keeps (hcs_are m) _) s _ s1 E1 eq_refl). clear E1.
    case_match; [|apply keeps_ret]. apply keeps_wrap. unfold pairLabelFromConfigMaps, pairConfigMaps.
    repeat (apply keeps_bind || apply keeps_reads || apply keeps_ret || intros ?). }
  apply bind_inv in E as [(taken & s2 & E2 & E)|(r2 & E2 & _)].
  2: { left. by eapply (hcs_take_nodes m). }
  assert (H2 : o_hcs (view s2) = m) by (by eapply (hcs_take_nodes m)).
  destruct taken as [res|]; [injection E as <- <-; by left|].
  destruct (place_hcs _ _ _ _ _ _ _ _ E) as [Hv|(c & Hz & Hc & Hv)]; [by rewrite H2| |].
  - left. by rewrite Hv.
  - right. exists all, c. rewrite <- H2. done.
Qed.

Lemma finalize_annotations hc s r s' hc' : finalize hc s = (r, s') →
  o_hcs (view s) !! hcKey hc = Some hc → o_hcs (view s') !! hcKey hc = Some hc' →
  hcAnnotations hc' = hcAnnotations hc.
Proof.
  intros E Hst Hst'. set (m := o_hcs (view s)) in *.
  assert (Hsame : o_hcs (view s') = m → hcAnnotations hc' = hcAnnotations hc) by (intros; simplify_eq; congruence).
  unfold finalize in E. case_match; [injection E as <- <-; auto|]. case_match; [injection E as <- <-; auto|].
  apply bind_inv in E as [([] & s1 & E1 & E)|(r1 & E1 & _)];
    [|by apply Hsame, (hcs_deletePlaceholder m hc _ _ _ E1)].
  pose proof (hcs_deletePlaceholder m hc _ _ _ E1 eq_refl) as Hm1.
  assert (Hk : keeps (hcs_are m) (deletePairConfigMaps hc)).
  { apply keeps_bind.
    - apply keeps_wrap, keeps_bind; [apply keeps_reads|intros; apply keeps_ret].
    - intros cms. apply keeps_for. intros cm _. case_match; [|apply keeps_ret]. apply keeps_wrap.
      intros t rt t' Et. by destruct (delete_cm_stored _ _ _ _ Et) as [Hv|[Hv _]]; rewrite Hv. }
  apply bind_inv in E as [([] & s2 & E2 & E)|(r1 & E2 & _)]; [|by apply Hsame, (Hk _ _ _ E2)].
  pose proof (Hk _ _ _ E2 Hm1) as Hm2. unfold hcs_are in Hm2.
  assert (Hu : ∃ r3, k_update_hc (RemoveFinalizer hc schedulerFinalizer) s2 = (r3, s')).
  { apply bind_inv in E as [([] & s3 & E3 & E)|(r1 & E3 & _)]; [|eauto]. injection E as <- <-. eauto. }
  destruct Hu as [r3 Hu].
  destruct (update_hc_stored _ _ _ _ Hu) as [Hv|[Hv _]].
  - rewrite Hm2. by eexists.
  - rewrite Hv in Hst'. simpl in Hst'. unfold store_hc in Hst'. rewrite Hm2 in Hst'.
    case_match; [by rewrite lookup_delete_eq in Hst'|]. rewrite lookup_insert_eq in Hst'. by simplify_eq.
  - apply Hsame. by rewrite Hv.
Qed.

(** The hosted cluster [hc] has two nodes to run on: request serving nodes of its
size and of one pair, labelled for it, in two zones. *)
Definition two_nodes (hc : HostedCluster) (v : Objects) : Prop :=
  ∃ n1 n2 p, o_nodes v !! nodeName n1 = Some n1 ∧ o_nodes v !! nodeName n2 = Some n2 ∧
    has_label n1 RequestServingComponentLabel = true ∧ has_label n2 RequestServingComponentLabel = true ∧
    goal_node hc (mget (hcLabels hc) HostedClusterSizeLabel) p n1 ∧
    goal_node hc (mget (hcLabels hc) HostedClusterSizeLabel) p n2 ∧
    label n1 LabelTopologyZone ≠ "" ∧ label n2 LabelTopologyZone ≠ "" ∧
    label n1 LabelTopologyZone ≠ label n2 LabelTopologyZone.

Lemma has_labels_single k n : has_labels [k] (nodeLabels n) = true → has_label n k = true.
Proof. unfold has_labels, has_label. simpl. by rewrite andb_true_r. Qed.

Lemma surveyed_two_nodes hc s all : k_list_nodes s = Ret all →
  1 < size (nodesByZone (goalNodes (surveyed hc (mget (hcLabels hc) HostedClusterSizeLabel) all))) →
  two_nodes hc (view s).
Proof.
  intros Hl%list_nodes_stored (n1 & n2 & Hn1 & Hn2 & Hz1 & Hz2 & Hne)%two_zones.
  destruct (survey_nodes_sound hc (mget (hcLabels hc) HostedClusterSizeLabel)
    (List.filter (λ n, has_labels [RequestServingComponentLabel] (nodeLabels n)) all)) as [Hg _].
  destruct (Hg n1 Hn1) as [[Hin1 Hs1]%elem_of_filter_bool Hg1].
  destruct (Hg n2 Hn2) as [[Hin2 Hs2]%elem_of_filter_bool Hg2].
  exists n1, n2. eexists. split; [by apply (listing_elem _ _ _ _ _ Hl)|].
  split; [by apply (listing_elem _ _ _ _ _ Hl)|].
  apply has_labels_single in Hs1, Hs2. done.
Qed.

(** C7: a hosted cluster is announced as scheduled only when it has its nodes.
Whenever a reconciliation, however it ends, changes the annotations of the hosted
cluster, two request serving nodes of the cluster's size and of one pair, in
different zones and not being deleted, are labelled for it; the annotations then
say that it is scheduled and which size its nodes have. *)
Theorem scheduled_on_own_nodes req s r s' hc hc' :
  sizer_Reconcile parse_rfc3339 now req s = (r, s') →
  o_hcs (view s) !! req = Some hc → o_hcs (view s') !! req = Some hc' →
  hcAnnotations hc' ≠ hcAnnotations hc →
  two_nodes hc (view s) ∧
  hcAnnotations hc' !! HostedClusterScheduledAnnotation = Some "true" ∧
  hcAnnotations hc' !! RequestServingNodeAdditionalSelectorAnnotation =
    Some (NodeSizeLabel +:+ "=" +:+ mget (hcLabels hc) HostedClusterSizeLabel).
Proof.
  intros E Hst Hst' Hch. unfold sizer_Reconcile, with_hosted_cluster in E.
  assert (Hsame : o_hcs (view s') = o_hcs (view s) → False) by (intros Hv; rewrite Hv in Hst'; congruence).
  destruct (k_get_hc req s) as [hc0|e|] eqn:Hg; [|case_match; simplify_eq; by destruct Hsame|simplify_eq; by destruct Hsame].
  apply get_hc_stored in Hg as [Hst0 <-]. assert (hc0 = hc) as -> by congruence. clear Hst0.
  destruct (hcDeleting hc); [by apply (finalize_annotations _ _ _ _ hc') in E|].
  destruct (negb (str_eqb _ _)); [injection E as <- <-; by destruct Hsame|].
  destruct (ContainsFinalizer hc schedulerFinalizer) eqn:Hf; simpl in E.
  - revert E. unfold unless_paused.
    destruct (ProcessPausedUntilField _ _ _) as [[[] d]|e|]; try (intros [= <- <-]; by destruct Hsame).
    unfold with_desired_size. case_match; [intros [= <- <-]; by destruct Hsame|].
    intros [(config & s1 & E1 & E)|(r1 & E1 & _)]%bind_inv;
      apply wrap_inv in E1 as (r0 & [= <- <-] & _); [|by destruct Hsame].
    case_match; [injection E as <- <-; by destruct Hsame|].
    destruct (schedule_hcs _ _ _ _ _ _ E Hst) as [Hv|(all & c & Hall & Hz & Hc & Hv)]; [by destruct Hsame|].
    split; [by eapply surveyed_two_nodes|].
    rewrite Hv, lookup_insert_eq in Hst'. simplify_eq/=.
    destruct (goalNodes _) as [|n goal]; [vm_compute in Hz; lia|].
    apply scheduling_annotations_scheduled.
  - destruct Hch. assert (Hu : ∃ r3, k_update_hc (AddFinalizer hc schedulerFinalizer) s = (r3, s')).
    { apply bind_inv in E as [([] & s3 & E3 & E)|(r1 & E3 & _)]; [|eauto]. injection E as <- <-. eauto. }
    destruct Hu as [r3 Hu]. unfold AddFinalizer in Hu. rewrite Hf in Hu.
    destruct (update_hc_stored _ _ _ _ Hu) as [Hv|[Hv _]]; [by eexists| |by destruct Hsame; rewrite Hv].
    rewrite Hv in Hst'. simpl in Hst'. unfold store_hc in Hst'.
    case_match; [by rewrite lookup_delete_eq in Hst'|]. rewrite lookup_insert_eq in Hst'. by simplify_eq.
Qed.

(** Updating a hosted cluster whose annotations are already those of its size
writes nothing: the second of two updates with the same size, configuration and
nodes is a no-op. *)
Theorem UpdateHostedCluster_idempotent hc size config nodes hc' s :
  setHostedClusterSchedulingAnnotations hc size config nodes = Ret hc' →
  UpdateHostedCluster hc' size config nodes s = (Ret (), s).
Proof.
  unfold UpdateHostedCluster, setHostedClusterSchedulingAnnotations.
  destruct (SizeConfigurationFor config size) as [c|]; [|done]. intros [= <-].
  unfold mbind, st_bind, wrap, st_catch, st_lift; simpl.
  rewrite (overlay_idempotent _ _ (scheduling_annotations_overlay size config c nodes)).
  by rewrite bool_decide_true.
Qed.

End Sizer.

End RequestServingPlacement.
