(* ===== verification/DedicatedNodes.v ===== *)
(** The scheduler without sizes and the reaper: which nodes are taken, what is
written to them and what is left alone. *)
From S2P Require Import Prelude GoSort Api Quantity Upsert ClusterSizing Scheduler SchedulerLaws RequestServing.
From S2P Require Import RequestServingProofs.

Module DedicatedNodes.
Import ClusterSizing Scheduler SchedulerLaws RequestServing RequestServingProofs.

(** *** The nodes to use *)

(** A node that may be used for the hosted cluster: it has a zone, and is labelled
for this cluster or for none. *)
Definition usable (hc : HostedCluster) (z : string) (n : Node) : Prop :=
  nodeLabels n !! LabelTopologyZone = Some z ∧
  ((nodeDeleting n = false ∧ label n HostedClusterLabel = clusterKey hc ∧ has_label n HostedClusterLabel = true) ∨
   has_label n HostedClusterLabel = false).

Definition chosen (hc : HostedCluster) (nodes : list Node) (m : gmap string Node) : Prop :=
  ∀ z n, m !! z = Some n → n ∈ nodes ∧ usable hc z n.

Lemma chosen_insert hc nodes m z n : chosen hc nodes m → n ∈ nodes → usable hc z n →
  chosen hc nodes (<[z := n]> m).
Proof.
  intros Hm Hn Hu z' n'. destruct (decide (z = z')) as [->|Hne].
  - rewrite lookup_insert_eq. intros [= <-]. done.
  - rewrite lookup_insert_ne by done. apply Hm.
Qed.

(** One step of the first loop. *)
Definition existing_step (hc : HostedCluster) (m : gmap string Node) (n : Node) : gmap string Node :=
  if nodeDeleting n then m else
  match nodeLabels n !! LabelTopologyZone with
  | None => m
  | Some zone =>
      if negb (has_label n HostedClusterLabel) then m else
      if str_eqb (label n HostedClusterLabel) (clusterKey hc) then <[zone := n]> m else m
  end.

Definition for_cluster (hc : HostedCluster) (n : Node) : bool :=
  matching_labels {[HostedClusterLabel := clusterKey hc]} (nodeLabels n).

Lemma for_cluster_label hc n : has_label n HostedClusterLabel = true →
  label n HostedClusterLabel = clusterKey hc → for_cluster hc n = true.
Proof.
  unfold has_label, mhas, label, mget, for_cluster, matching_labels. rewrite !bool_decide_eq_true.
  intros [v Hv]. rewrite Hv. simpl. intros ->. by apply map_singleton_subseteq_l.
Qed.

Lemma existing_step_chosen hc nodes m n : n ∈ nodes → chosen hc nodes m →
  chosen hc nodes (existing_step hc m n).
Proof.
  intros Hn Hm. unfold existing_step. destruct (nodeDeleting n) eqn:Hd; [done|].
  destruct (nodeLabels n !! LabelTopologyZone) as [z|] eqn:Hz; [|done].
  destruct (has_label n HostedClusterLabel) eqn:Hl; simpl; [|done].
  destruct (str_eqb _ _) eqn:He; [|done]. apply str_eqb_eq in He.
  apply chosen_insert; [done|done|]. split; [done|]. by left.
Qed.

Lemma existing_step_size hc m n :
  size (existing_step hc m n) ≤ size m + (if for_cluster hc n then 1 else 0).
Proof.
  unfold existing_step. destruct (nodeDeleting n); [lia|].
  destruct (nodeLabels n !! LabelTopologyZone) as [z|]; [|lia].
  destruct (has_label n HostedClusterLabel) eqn:Hl; simpl; [|lia].
  destruct (str_eqb _ _) eqn:He; [|lia]. apply str_eqb_eq in He.
  rewrite (for_cluster_label hc n) by done.
  destruct (m !! z) eqn:Hz; [rewrite map_size_insert_Some by (by rewrite Hz); lia|].
  rewrite map_size_insert_None by done. lia.
Qed.

Lemma existing_nodes_fold hc nodes : existing_nodes hc nodes = foldl (existing_step hc) ∅ nodes.
Proof. done. Qed.

Lemma existing_nodes_chosen hc nodes : chosen hc nodes (existing_nodes hc nodes).
Proof.
  rewrite existing_nodes_fold.
  assert (Hgen : ∀ l m, (∀ n, n ∈ l → n ∈ nodes) → chosen hc nodes m → chosen hc nodes (foldl (existing_step hc) m l)).
  { induction l as [|n l IH]; intros m Hl Hm; simpl; [done|].
    apply IH; [intros; apply Hl; by right|]. apply existing_step_chosen; [apply Hl; left|done]. }
  apply Hgen; [done|]. intros z n. by rewrite lookup_empty.
Qed.

Lemma existing_labelled hc nodes z n : existing_nodes hc nodes !! z = Some n → has_label n HostedClusterLabel = true.
Proof.
  rewrite existing_nodes_fold.
  assert (Hgen : ∀ l (m : gmap string Node), (∀ z n, m !! z = Some n → has_label n HostedClusterLabel = true) →
    ∀ z n, foldl (existing_step hc) m l !! z = Some n → has_label n HostedClusterLabel = true).
  { induction l as [|x l IH]; intros m Hm; simpl; [done|]. apply IH. intros z' n'. unfold existing_step.
    destruct (nodeDeleting x); [apply Hm|]. destruct (nodeLabels x !! LabelTopologyZone) as [zone|]; [|apply Hm].
    destruct (has_label x HostedClusterLabel) eqn:Hl; simpl; [|apply Hm].
    destruct (str_eqb _ _); [|apply Hm]. destruct (decide (z' = zone)) as [->|Hne].
    - rewrite lookup_insert_eq. by intros [= <-].
    - rewrite lookup_insert_ne by done. apply Hm. }
  apply Hgen. intros ??. by rewrite lookup_empty.
Qed.

(** There are no more zones than labelled nodes. *)
Lemma existing_nodes_size hc nodes : size (existing_nodes hc nodes) ≤ length (List.filter (for_cluster hc) nodes).
Proof.
  rewrite existing_nodes_fold.
  assert (Hgen : ∀ l m, size (foldl (existing_step hc) m l) ≤ size m + length (List.filter (for_cluster hc) l)).
  { induction l as [|n l IH]; intros m; simpl; [lia|].
    pose proof (IH (existing_step hc m n)). pose proof (existing_step_size hc m n).
    destruct (for_cluster hc n); simpl; lia. }
  specialize (Hgen nodes ∅). by rewrite map_size_empty in Hgen.
Qed.

(** All the nodes have the same pair label. *)
Definition one_pair (m : gmap string Node) : Prop :=
  ∀ z z' n n', m !! z = Some n → m !! z' = Some n' → pair_of n = pair_of n'.

Section Dedicated.
Context `{!MapOrder}.

Lemma paired_with_spec m n : paired_with m n = true ↔ ∃ z x, m !! z = Some x ∧ pair_of x = pair_of n.
Proof.
  unfold paired_with. rewrite existsb_exists. split.
  - intros ([z x] & Hin & He%str_eqb_eq). exists z, x. split; [|done].
    apply list_elem_of_In in Hin. rewrite range_Permutation in Hin. by apply elem_of_map_to_list in Hin.
  - intros (z & x & Hz & He). exists (z, x). split; [|by apply str_eqb_eq].
    apply list_elem_of_In. rewrite range_Permutation. by apply elem_of_map_to_list.
Qed.

Lemma one_pair_insert m z n : one_pair m → (m = ∅ ∨ paired_with m n = true) → one_pair (<[z := n]> m).
Proof.
  intros Hm Hp.
  assert (Hn : ∀ z' x, m !! z' = Some x → pair_of x = pair_of n).
  { intros z' x Hx. destruct Hp as [->|(z0 & y & Hy & <-)%paired_with_spec]; [by rewrite lookup_empty in Hx|].
    by eapply Hm. }
  intros z1 z2 n1 n2.
  destruct (decide (z1 = z)) as [->|Hne1], (decide (z2 = z)) as [->|Hne2];
    rewrite ?lookup_insert_eq, ?lookup_insert_ne by done; intros; simplify_eq; try done.
  - symmetry. by eapply Hn.
  - by eapply Hn.
  - by eapply Hm.
Qed.

(** The second loop only adds free nodes of the pair, and stops at two. *)
Lemma add_nodes_spec hc nodes l m : (∀ n, n ∈ l → n ∈ nodes) → size m < 2 →
  chosen hc nodes m → one_pair m →
  chosen hc nodes (add_nodes l m) ∧ one_pair (add_nodes l m) ∧ size (add_nodes l m) ≤ 2.
Proof.
  revert m. induction l as [|n l IH]; intros m Hl Hs Hc Hp; simpl; [split; [done|split; [done|lia]]|].
  assert (Hl' : ∀ x, x ∈ l → x ∈ nodes) by (intros; apply Hl; by right).
  destruct (nodeLabels n !! LabelTopologyZone) as [z|] eqn:Hz; [|by apply IH].
  destruct (has_label n HostedClusterLabel) eqn:Hlab; [by apply IH|].
  case_bool_decide as Hfree; [|rewrite bool_decide_false by lia; by apply IH].
  destruct (negb (bool_decide (size m = 0)) && negb (paired_with m n)) eqn:Hcont; [by apply IH|].
  assert (Hc' : chosen hc nodes (<[z := n]> m)).
  { apply chosen_insert; [done|apply Hl; left|]. split; [done|by right]. }
  assert (Hp' : one_pair (<[z := n]> m)).
  { apply one_pair_insert; [done|]. apply andb_false_iff in Hcont as [He|He];
      apply negb_false_iff in He; [left|by right].
    apply bool_decide_eq_true, map_size_empty_inv in He. done. }
  assert (Hs' : size (<[z := n]> m) ≤ 2) by (rewrite map_size_insert_None by done; lia).
  destruct (bool_decide (size (<[z := n]> m) = 2)) eqn:H2; [split; [done|by split]|].
  apply bool_decide_eq_false in H2. apply IH; [done|lia|done|done].
Qed.

Lemma small_one_pair (m : gmap string Node) : size m < 2 → one_pair m.
Proof.
  intros Hs z z' n n' Hz Hz'. destruct (decide (z = z')) as [->|Hne]; [by simplify_eq|].
  assert (1 < size m); [|lia].
  assert (Hd : delete z m !! z' = Some n') by (by rewrite lookup_delete_ne).
  rewrite <- (insert_delete_id m z n Hz), map_size_insert_None by apply lookup_delete_eq.
  destruct (size (delete z m)) eqn:E; [|lia]. apply map_size_empty_inv in E. rewrite E, lookup_empty in Hd. done.
Qed.

(** The nodes to use are usable, at most two when at most two are labelled, and
of one pair as soon as one of them is new. *)
Lemma nodes_to_use_spec hc nodes : length (List.filter (for_cluster hc) nodes) ≤ 2 →
  chosen hc nodes (nodes_to_use hc nodes) ∧ size (nodes_to_use hc nodes) ≤ 2 ∧
  (size (existing_nodes hc nodes) < 2 → one_pair (nodes_to_use hc nodes)).
Proof.
  intros Hlen. unfold nodes_to_use. pose proof (existing_nodes_size hc nodes) as Hsz.
  case_bool_decide as Hs.
  - destruct (add_nodes_spec hc nodes nodes (existing_nodes hc nodes)) as (? & ? & ?);
      [done|done|apply existing_nodes_chosen|by apply small_one_pair|]. done.
  - split; [apply existing_nodes_chosen|]. split; [lia|done].
Qed.

(** *** What the reconciliation writes *)

Context {S : Type} `{!Kube S} `{!KubeLaws S}.

Lemma claim_node_effect hc n s r s' : claim_node hc n s = (r, s') →
  (view s' = view s ∧ ∀ a, r ≠ Ret a) ∨
  (o_nodes (view s) !! nodeName n = Some n ∧
   view s' = with_nodes (<[nodeName n := claimed hc n]> (o_nodes (view s))) (view s)).
Proof.
  unfold claim_node. case_bool_decide; [intros [= <- <-]; by left|].
  intros (r1 & E & Hr)%wrap_inv.
  assert (Hne : (∀ a, r1 ≠ Ret a) → ∀ a, r ≠ Ret a) by (intros Hn a Ha%Hr; by apply (Hn a)).
  destruct (patch_node_stored _ _ _ _ _ E) as [[Hst [Hv|[Hv Hn]]]|[Hv Hn]]; [done|right; done|left; auto..].
Qed.

Definition claim_all (hc : HostedCluster) (l : list (string * Node)) (m : gmap string Node) : gmap string Node :=
  foldl (λ m kn, <[nodeName kn.2 := claimed hc kn.2]> m) m l.

(** The loop: the other nodes and the hosted clusters stay; on success every node
of the list is claimed. *)
Lemma claim_nodes_effect hc l p s r s' : claim_nodes hc l p s = (r, s') →
  o_hcs (view s') = o_hcs (view s) ∧
  (∀ i n, o_nodes (view s) !! i = Some n → (∀ z x, (z, x) ∈ l → x ≠ n) → o_nodes (view s') !! i = Some n) ∧
  (∀ p', r = Ret p' → p' = foldl (λ p kn, collect p kn.2) p l ∧
     view s' = with_nodes (claim_all hc l (o_nodes (view s))) (view s)).
Proof.
  revert p s. induction l as [|[z x] l IH]; intros p s; simpl.
  { intros [= <- <-]. split; [done|]. split; [done|]. intros ? [= <-]. split; [done|]. by destruct (view s). }
  intros [([] & s1 & E1 & E)|(r1 & E1 & Hne & Hr)]%bind_inv.
  - destruct (claim_node_effect _ _ _ _ _ E1) as [[_ Hn]|[Hst Hv]]; [by destruct (Hn ())|].
    destruct (IH _ _ E) as (Hh & Hk & Hret). rewrite Hv in Hh, Hk, Hret. split; [done|]. split.
    + intros i n Hi Hn. apply Hk; [|intros ???; by eapply Hn; right]. simpl.
      rewrite lookup_insert_ne; [done|]. intros <-. simplify_eq. by eapply (Hn z x); [left|].
    + intros p' Hp'. destruct (Hret p' Hp') as [-> Hv']. done.
  - destruct (claim_node_effect _ _ _ _ _ E1) as [[Hv _]|[Hst Hv]]; rewrite Hv; simpl;
      (split; [done|]; split; [|intros p' Hp'; by destruct (Hr p')]); [done|].
    intros i n Hi Hn. rewrite lookup_insert_ne; [done|]. intros <-. simplify_eq.
    by eapply (Hn z x); [left|].
Qed.

(** The request serving nodes of the cluster. *)
Definition serving (all : list Node) : list Node :=
  List.filter (λ n, has_labels [RequestServingComponentLabel] (nodeLabels n)) all.

(** The scheduler has to place the cluster. *)
Definition to_place (hc : HostedCluster) : Prop :=
  hcDeleting hc = false ∧ mget (hcAnnotations hc) TopologyAnnotation = DedicatedRequestServingComponentsTopology ∧
  mget (hcAnnotations hc) HostedClusterScheduledAnnotation ≠ "true".

(** A reconciliation that gets to the nodes: what it found and did. *)
Lemma dedicated_effect req s r s' : dedicated_Reconcile req s = (r, s') →
  (s' = s ∧ ∀ a hc, r = Ret a → o_hcs (view s) !! req = Some hc → ¬ to_place hc) ∨
  ∃ hc all, o_hcs (view s) !! req = Some hc ∧ hcKey hc = req ∧ k_list_nodes s = Ret all ∧
    length (List.filter (for_cluster hc) (serving all)) ≤ 2 ∧
    2 ≤ size (nodes_to_use hc (serving all)) ∧
    (p ← claim_nodes hc (range (nodes_to_use hc (serving all))) (mkPlacement "" "" "");
     _ ← wrap "failed to update hostedcluster annotation"
          (k_patch_hc hc (set_hcAnnotations (placement_annotations p (hcAnnotations hc)) hc));
     mret no_requeue) s = (r, s').
Proof.
  unfold dedicated_Reconcile, with_hosted_cluster.
  destruct (k_get_hc req s) as [hc|e|] eqn:Hg;
    [|case_match eqn:Hnf; intros [= <- <-]; left; split; try done|intros [= <- <-]; by left].
  2: { intros a hc _ Hhc. by rewrite (get_hc_missing _ _ _ Hg Hnf) in Hhc. }
  apply get_hc_stored in Hg as [Hst Hk].
  assert (Hskip : ∀ r, ¬ to_place hc → (s = s ∧ ∀ (a : Result) hc, r = Ret (E:=api_error) a →
    o_hcs (view s) !! req = Some hc → ¬ to_place hc)).
  { intros r0 Hn. split; [done|]. intros a hc' _ ?. by simplify_eq. }
  destruct (hcDeleting hc) eqn:Hd; [intros [= <- <-]; left; apply Hskip; intros [? _]; congruence|].
  destruct (str_eqb (mget (hcAnnotations hc) TopologyAnnotation) _) eqn:Ht; simpl;
    [|intros [= <- <-]; left; apply Hskip; apply str_eqb_neq in Ht; intros (_ & ? & _); congruence].
  intros [(all & s1 & E1 & E)|(r1 & E1 & _ & Hne)]%bind_inv;
    apply wrap_inv in E1 as (r0 & [= <- <-] & Hr0); [|left; split; [done|]; intros a ? Ha; by destruct (Hne a)].
  pose proof (proj1 (Hr0 all) eq_refl) as Hall.
  change (List.filter _ all) with (serving all) in E.
  change (List.filter _ (serving all)) with (List.filter (for_cluster hc) (serving all)) in E.
  destruct (2 <? _) eqn:H2; [injection E as <- <-; by left|]. apply Nat.ltb_ge in H2.
  destruct (str_eqb _ "true" && _) eqn:Hsch.
  { injection E as <- <-. left. apply Hskip. apply andb_prop in Hsch as [Hsch%str_eqb_eq _]. by intros (_ & _ & ?). }
  case_bool_decide as Hs; [injection E as <- <-; by left|].
  right. exists hc, all. split; [done|]. split; [done|]. split; [done|]. split; [done|]. split; [lia|done].
Qed.

(** C15: a reconciliation never takes a node that is labelled with the key of
another hosted cluster: whatever its outcome, a node whose label differs from the
namespace and name of the reconciled cluster, joined with a dash, stays exactly
as it is.  Clusters whose keys are the same text, such as a-b/c and a/b-c, are not
told apart. *)
Theorem dedicated_spares_other_clusters req s r s' i n :
  dedicated_Reconcile req s = (r, s') → o_nodes (view s) !! i = Some n →
  has_label n HostedClusterLabel = true →
  label n HostedClusterLabel ≠ req.1 +:+ "-" +:+ req.2 →
  o_nodes (view s') !! i = Some n.
Proof.
  intros [[-> _]|(hc & all & Hst & Hk & Hall & Hlen & Hs & E)]%dedicated_effect Hi Hl Hne; [done|].
  destruct (nodes_to_use_spec hc (serving all) Hlen) as (Hch & _).
  assert (Hnot : ∀ z x, (z, x) ∈ range (nodes_to_use hc (serving all)) → x ≠ n).
  { intros z x Hin ->. rewrite range_Permutation in Hin. apply elem_of_map_to_list, Hch in Hin as [_ [_ Hu]].
    destruct Hu as [(_ & Hu & _)|Hu]; [|congruence]. apply Hne. rewrite Hu. unfold clusterKey. by rewrite <- Hk. }
  apply bind_inv in E as [(p & s1 & E1 & E)|(r1 & E1 & _)];
    destruct (claim_nodes_effect _ _ _ _ _ _ E1) as (Hh & Hkeep & _); [|by apply Hkeep].
  assert (Hn : ∃ r2, k_patch_hc hc (set_hcAnnotations (placement_annotations p (hcAnnotations hc)) hc) s1 = (r2, s')).
  { apply bind_inv in E as [([] & s2 & E2 & E)|(r2 & E2 & _)]; apply wrap_inv in E2 as (r3 & E2 & _);
      [injection E as <- <-|]; eauto. }
  destruct Hn as [r2 E2].
  destruct (patch_hc_stored _ _ _ _ _ E2) as [Hv|[Hv _]]; [by rewrite Hk, Hh|rewrite Hv; by apply Hkeep..].
Qed.

Lemma range_two (m : gmap string Node) : 2 ≤ size m → size m ≤ 2 →
  ∃ z1 n1 z2 n2, range m = [(z1, n1); (z2, n2)] ∧ z1 ≠ z2 ∧ m !! z1 = Some n1 ∧ m !! z2 = Some n2.
Proof.
  intros Hge Hle. pose proof (range_Permutation m) as Hperm.
  assert (Hlen : length (range m) = size m) by (rewrite Hperm; by rewrite length_map_to_list).
  assert (Hnd : NoDup (range m).*1) by (rewrite Hperm; apply NoDup_fst_map_to_list).
  assert (Hin : ∀ z n, (z, n) ∈ range m → m !! z = Some n)
    by (intros z n; rewrite Hperm; apply elem_of_map_to_list).
  destruct (range m) as [|[z1 n1] [|[z2 n2] [|? l]]]; simpl in *; [lia|lia| |lia].
  exists z1, n1, z2, n2. split; [done|]. apply NoDup_cons in Hnd as [Hnd _].
  split; [intros ->; set_solver|]. split; apply Hin; set_solver.
Qed.

Lemma placement_scheduled p m : placement_annotations p m !! HostedClusterScheduledAnnotation = Some "true".
Proof.
  unfold placement_annotations, set_nonempty.
  repeat (first [rewrite lookup_insert_eq|rewrite lookup_insert_ne by done|case_match]); done.
Qed.

(** What a successful reconciliation of a cluster that is not scheduled yet
leaves: two nodes of different zones, each free or already the cluster's own, of
one pair when one of them is new, labelled and tainted for the cluster, every
other node as it was, and the hosted cluster annotated as scheduled. *)
Theorem dedicated_places req s res s' hc :
  dedicated_Reconcile req s = (Ret res, s') → o_hcs (view s) !! req = Some hc → to_place hc →
  ∃ z1 z2 n1 n2,
    z1 ≠ z2 ∧ usable hc z1 n1 ∧ usable hc z2 n2 ∧
    o_nodes (view s) !! nodeName n1 = Some n1 ∧ o_nodes (view s) !! nodeName n2 = Some n2 ∧
    (has_label n1 HostedClusterLabel = false ∨ has_label n2 HostedClusterLabel = false → pair_of n1 = pair_of n2) ∧
    o_nodes (view s') = <[nodeName n2 := claimed hc n2]> (<[nodeName n1 := claimed hc n1]> (o_nodes (view s))) ∧
    ∃ hc', o_hcs (view s') = <[req := hc']> (o_hcs (view s)) ∧
      hcAnnotations hc' !! HostedClusterScheduledAnnotation = Some "true".
Proof.
  intros [[_ Hno]|(hc0 & all & Hst & Hk & Hall & Hlen & Hs & E)]%dedicated_effect Hhc Hch; [by destruct (Hno res hc)|].
  assert (hc0 = hc) as -> by congruence. clear Hst.
  destruct (nodes_to_use_spec hc (serving all) Hlen) as (Hchosen & Hle & Hpair).
  destruct (range_two _ Hs Hle) as (z1 & n1 & z2 & n2 & Hr & Hz & H1 & H2). rewrite Hr in E.
  apply bind_inv in E as [(p & s1 & E1 & E)|(r1 & _ & _ & Hr1)]; [|by destruct (Hr1 res)].
  apply bind_inv in E as [([] & s2 & E2 & E)|(r1 & _ & _ & Hr1)]; [|by destruct (Hr1 res)].
  apply wrap_inv in E2 as (r2 & E2 & Hr2). rewrite (proj1 (Hr2 ()) eq_refl) in E2. injection E as _ <-.
  destruct (claim_nodes_effect _ _ _ _ _ _ E1) as (Hh & _ & Hret).
  destruct (Hret p eq_refl) as [_ Hv1].
  apply patch_hc_stored, wrote_Ret in E2; [|by rewrite Hk, Hh].
  destruct (Hchosen z1 n1 H1) as [[Hin1 _]%elem_of_filter_bool Hu1].
  destruct (Hchosen z2 n2 H2) as [[Hin2 _]%elem_of_filter_bool Hu2].
  pose proof (list_nodes_stored _ _ Hall) as Hl.
  exists z1, z2, n1, n2. split; [done|]. split; [done|]. split; [done|].
  split; [by apply (listing_elem _ _ _ _ _ Hl)|]. split; [by apply (listing_elem _ _ _ _ _ Hl)|].
  split; [|split].
  - intros Hnew. destruct (decide (size (existing_nodes hc (serving all)) < 2)) as [Hlt|Hge].
    + by eapply (Hpair Hlt z1 z2).
    + exfalso. unfold nodes_to_use in H1, H2. rewrite bool_decide_false in H1, H2 by done.
      pose proof (existing_labelled hc (serving all)) as Hlab.
      destruct Hnew as [Hn|Hn]; [rewrite (Hlab z1 n1 H1) in Hn|rewrite (Hlab z2 n2 H2) in Hn]; done.
  - rewrite E2, Hv1. done.
  - eexists. split; [by rewrite E2, Hv1, Hk|]. apply placement_scheduled.
Qed.

(** The reaper deletes exactly orphans: whatever the outcome, only the node it
was asked about changes, and only when it is a request serving node labelled for
a hosted cluster that does not exist; hosted clusters and ConfigMaps are left
alone. *)
Theorem reaper_deletes_orphans_only name s r s' : reaper_Reconcile name s = (r, s') →
  o_hcs (view s') = o_hcs (view s) ∧ o_cms (view s') = o_cms (view s) ∧
  ∀ i n, o_nodes (view s) !! i = Some n → o_nodes (view s') !! i ≠ Some n →
    i = name ∧ orphaned (view s) n.
Proof.
  intros [Hv|(n & Hn & Hor & [Hv|Hv])]%reaper_effect; rewrite Hv; simpl;
    (split; [done|]; split; [done|]); intros i m Hi Hch; [done|..];
    (destruct (decide (i = name)) as [->|Hne]; [by simplify_eq|]); destruct Hch.
  - by rewrite lookup_delete_ne.
  - by rewrite lookup_alter_ne.
Qed.

End Dedicated.

End DedicatedNodes.
