(* ===== verification/SchedulerSamples.v ===== *)
(** A small management cluster kept in memory, and the theorems about the
schedulers of request serving nodes at it: two hosted clusters, a pair of small
nodes with a ready placeholder, and a free pair. *)
From S2P Require Import Prelude GoSort Api Quantity Upsert ClusterSizing Scheduler SchedulerLaws RequestServing.
From S2P Require Import RequestServingProofs RequestServingPlacement DedicatedNodes.

Module SchedulerSamples.
Import ClusterSizing Scheduler SchedulerLaws RequestServing RequestServingProofs RequestServingPlacement DedicatedNodes.

#[export] Instance sample_QuantityText : QuantityText := {| quantity_String q := itoa (Quantity.qValue q) |}.
#[export] Instance sample_MapOrder : MapOrder.
Proof. refine {| range A m := map_to_list m |}. done. Defined.
Definition sample_rfc3339 (s : string) : option Time := None.

Definition hosted (name : string) : HostedCluster :=
  mkHC "clusters" name false None {[HostedClusterSizeLabel := "small"]}
    {[TopologyAnnotation := DedicatedRequestServingComponentsTopology]} []
    [HostedClusterFinalizer; schedulerFinalizer].

Definition serving_node (name pair zone : string) : Node :=
  mkNode name {[RequestServingComponentLabel := "true"; NodeSizeLabel := "small";
                OSDFleetManagerPairedNodesLabel := pair; LabelTopologyZone := zone]} ∅ [] false 0.

Definition sizing : ClusterSizingConfiguration :=
  mkConfig [mkSize "small" (mkCriteria 0 None) (Some (mkManagement 1 None))] 0 0 0 0
    [mkCondition ClusterSizingConfigurationValidType ConditionTrue 0 0 AsExpectedReason ""].

Definition placeholder_labels : StringMap := {[PlaceholderLabel := "0"; HostedClusterSizeLabel := "small"]}.
Definition ready_placeholder : Deployment :=
  mkDeployment placeholderNamespace "placeholder-small-0" placeholder_labels false 1
    (mkDeploymentSpec (Some 2%Z) "Recreate" placeholder_labels placeholder_labels ∅ None [] [])
    (mkDeploymentStatus 2 2 2 2 0 1).
Definition placeholder_pod (name node : string) : Pod :=
  mkPod placeholderNamespace name placeholder_labels node ∅ "Running" false.

Definition cluster0 : Objects := mkObjects
  {[("clusters", "a") := hosted "a"; ("clusters", "b") := hosted "b"]}
  (Some sizing)
  {["n1" := serving_node "n1" "p1" "za"; "n2" := serving_node "n2" "p1" "zb"]}
  ∅
  {[dKey ready_placeholder := ready_placeholder]}
  {[(placeholderNamespace, "x1") := placeholder_pod "x1" "n1";
    (placeholderNamespace, "x2") := placeholder_pod "x2" "n2"]}
  ∅ ∅ ∅.

Definition sizer (name : string) : st Objects api_error Result :=
  sizer_Reconcile sample_rfc3339 0 ("clusters", name).

(** Cluster [a] claims the pair under the placeholder, and is then scheduled. *)
Definition cluster1 : Objects := (sizer "a" cluster0).2.
Definition cluster2 : Objects := (sizer "a" cluster1).2.

Definition node_at (v : Objects) (i : string) : Node := default (serving_node "" "" "") (o_nodes v !! i).
Definition cluster_at (v : Objects) (k : NamespacedName) : HostedCluster := default (hosted "") (o_hcs v !! k).

Lemma one_pair_affinity v p : map_Forall (λ _ n, pair_of n = p) (o_nodes v) → affinity_respected v.
Proof.
  intros Hall sel k1 k2 p1 p2 n1 n2 _ _ _ _ _ _ _ Hn1 Hn2.
  rewrite (Hall _ _ Hn1). symmetry. by apply (Hall _ _ Hn2).
Qed.

Lemma nobody_owns v : bool_decide (map_Forall (λ _ n, owner n = None) (o_nodes v)) = true → unclaimed v.
Proof. intros H%bool_decide_eq_true i n Hi. by apply (H i n). Qed.

Lemma same_pair_affinity v : bool_decide (map_Forall (λ _ n, pair_of n = "p1") (o_nodes v)) = true →
  affinity_respected v.
Proof. intros H%bool_decide_eq_true. by eapply one_pair_affinity. Qed.

Lemma selected v : bool_decide (map_Forall (λ _ d, is_Some (dSelector (dSpec d) !! PlaceholderLabel)) (o_deployments v)) = true →
  placeholders_selected v.
Proof. intros H%bool_decide_eq_true k d Hk _. by apply (H k d). Qed.

Lemma cluster1_reachable : reachable sample_rfc3339 cluster1.
Proof.
  exists cluster0. split; [apply nobody_owns; vm_compute; reflexivity|]. apply rtc_once.
  apply (step_sizer _ 0 ("clusters", "a") _ (sizer "a" cluster0).1).
  - apply same_pair_affinity. vm_compute. reflexivity.
  - apply selected. vm_compute. reflexivity.
  - apply surjective_pairing.
Qed.

Lemma not_deleting_live hc : hcDeleting hc = false → live hc.
Proof. intros Hd [? _]. congruence. Qed.

Lemma pairs_exclusive_witness :
  owner (node_at cluster1 "n1") = Some ("clusters", "a") ∧
  ("clusters", "a") = (label (node_at cluster1 "n2") HostedClusterNamespaceLabel,
                       label (node_at cluster1 "n2") HostedClusterNameLabel).
Proof.
  split; [vm_compute; reflexivity|].
  apply (pairs_exclusive sample_rfc3339 cluster1 "n1" "n2" (node_at cluster1 "n1") (node_at cluster1 "n2") _ _
    (cluster_at cluster1 ("clusters", "a")) (cluster_at cluster1 ("clusters", "a"))).
  - apply cluster1_reachable.
  - vm_compute. reflexivity.
  - vm_compute. reflexivity.
  - vm_compute. reflexivity.
  - vm_compute. discriminate.
  - vm_compute. reflexivity.
  - vm_compute. reflexivity.
  - vm_compute. reflexivity.
  - vm_compute. reflexivity.
  - apply not_deleting_live. vm_compute. reflexivity.
  - apply not_deleting_live. vm_compute. reflexivity.
Defined.

(** Cluster [b] finds the pair taken: an error, and the nodes stay with [a]. *)
Lemma sizer_spares_other_clusters_witness :
  (sizer "b" cluster1).1 = Throw (Wrapped "cannot ensure pair label p1 config map"
    (OtherError "conflict: configmap already exists for a different cluster")) ∧
  o_nodes (view (sizer "b" cluster1).2) !! "n1" = Some (node_at cluster1 "n1").
Proof.
  split; [vm_compute; reflexivity|].
  apply (sizer_spares_other_clusters sample_rfc3339 0 ("clusters", "b") cluster1 (sizer "b" cluster1).1
    (sizer "b" cluster1).2 "n1" (node_at cluster1 "n1") ("clusters", "a") (cluster_at cluster1 ("clusters", "a"))).
  - apply cluster1_reachable.
  - apply same_pair_affinity. vm_compute. reflexivity.
  - apply selected. vm_compute. reflexivity.
  - apply surjective_pairing.
  - vm_compute. reflexivity.
  - vm_compute. reflexivity.
  - vm_compute. discriminate.
  - discriminate.
  - vm_compute. reflexivity.
  - apply not_deleting_live. vm_compute. reflexivity.
Defined.

(** The second reconciliation of [a] announces it. *)
Lemma scheduled_on_own_nodes_witness :
  two_nodes (hosted "a") (view cluster1) ∧
  hcAnnotations (cluster_at cluster2 ("clusters", "a")) !! HostedClusterScheduledAnnotation = Some "true".
Proof.
  destruct (scheduled_on_own_nodes sample_rfc3339 0 ("clusters", "a") cluster1 (sizer "a" cluster1).1 cluster2
    (hosted "a") (cluster_at cluster2 ("clusters", "a"))) as (H1 & H2 & _).
  - apply surjective_pairing.
  - vm_compute. reflexivity.
  - vm_compute. reflexivity.
  - intros Heq. apply (f_equal (λ m, m !! HostedClusterScheduledAnnotation)) in Heq.
    vm_compute in Heq. discriminate.
  - exact (conj H1 H2).
Defined.

Definition annotated : HostedCluster :=
  match setHostedClusterSchedulingAnnotations (hosted "a") "small" sizing [] with
  | Ret hc => hc | _ => hosted "" end.
Lemma UpdateHostedCluster_idempotent_witness :
  mget (hcAnnotations annotated) HostedClusterScheduledAnnotation = "true" ∧
  UpdateHostedCluster annotated "small" sizing [] cluster0 = (Ret (), cluster0).
Proof.
  split; [vm_compute; reflexivity|].
  apply (UpdateHostedCluster_idempotent (hosted "a") "small" sizing [] annotated cluster0).
  vm_compute. reflexivity.
Defined.

(** *** The scheduler without sizes *)

Definition dedicated (name : string) : st Objects api_error Result := dedicated_Reconcile ("clusters", name).
Definition dedicated1 : Objects := (dedicated "a" cluster0).2.

Lemma dedicated_places_witness :
  to_place (hosted "a") ∧ ∃ n1 n2, o_nodes (view dedicated1) =
    <[nodeName n2 := claimed (hosted "a") n2]> (<[nodeName n1 := claimed (hosted "a") n1]> (o_nodes (view cluster0))).
Proof.
  assert (Hp : to_place (hosted "a")) by (split; [reflexivity|split; [reflexivity|discriminate]]).
  split; [exact Hp|].
  destruct (dedicated_places ("clusters", "a") cluster0 no_requeue dedicated1 (hosted "a"))
    as (z1 & z2 & n1 & n2 & _ & _ & _ & _ & _ & _ & Hn & _).
  - apply run_pair. vm_compute. reflexivity.
  - vm_compute. reflexivity.
  - exact Hp.
  - by exists n1, n2.
Defined.

Lemma dedicated_spares_other_clusters_witness :
  o_nodes (view (dedicated "b" dedicated1).2) !! "n1" = Some (node_at dedicated1 "n1").
Proof.
  apply (dedicated_spares_other_clusters ("clusters", "b") dedicated1 (dedicated "b" dedicated1).1
    (dedicated "b" dedicated1).2 "n1" (node_at dedicated1 "n1")).
  - apply surjective_pairing.
  - vm_compute. reflexivity.
  - vm_compute. reflexivity.
  - vm_compute. discriminate.
Defined.

(** The comment of the first loop is to skip nodes that are being deleted; the
second loop takes them. *)
Definition leaving_node : Node := mark_deleting (serving_node "n2" "p1" "zb").
Lemma takes_a_node_being_deleted :
  nodes_to_use (hosted "a") [serving_node "n1" "p1" "za"; leaving_node] !! "zb" = Some leaving_node ∧
  nodeDeleting leaving_node = true.
Proof. split; vm_compute; reflexivity. Qed.

(** Two hosted clusters with one cluster key are one to this scheduler: it gives
the second one the nodes of the first. *)
Definition first_cluster : HostedCluster :=
  mkHC "a-b" "c" false None ∅ {[TopologyAnnotation := DedicatedRequestServingComponentsTopology]} [] [].
Definition second_cluster : HostedCluster :=
  mkHC "a" "b-c" false None ∅ {[TopologyAnnotation := DedicatedRequestServingComponentsTopology]} [] [].
Definition colliding : Objects := mkObjects
  {[("a-b", "c") := first_cluster; ("a", "b-c") := second_cluster]} None
  (o_nodes cluster0) ∅ ∅ ∅ ∅ ∅ ∅.
Definition colliding1 : Objects := (dedicated_Reconcile ("a-b", "c") colliding).2.
Definition colliding2 : Objects := (dedicated_Reconcile ("a", "b-c") colliding1).2.
Lemma cluster_keys_collide :
  owner (node_at colliding1 "n1") = Some ("a-b", "c") ∧ owner (node_at colliding2 "n1") = Some ("a", "b-c").
Proof. split; vm_compute; reflexivity. Qed.

(** *** The reaper *)

Definition orphans : Objects := with_hcs ∅ dedicated1.
Lemma reaper_deletes_orphans_only_witness :
  o_nodes (reaper_Reconcile "n1" orphans).2 !! "n1" = None ∧ orphaned (view orphans) (node_at orphans "n1").
Proof.
  split; [vm_compute; reflexivity|].
  destruct (reaper_deletes_orphans_only "n1" orphans (reaper_Reconcile "n1" orphans).1
    (reaper_Reconcile "n1" orphans).2) as (_ & _ & Hch); [apply surjective_pairing|].
  destruct (Hch "n1" (node_at orphans "n1")) as [_ Ho].
  - vm_compute. reflexivity.
  - vm_compute. discriminate.
  - exact Ho.
Defined.

End SchedulerSamples.
