(* ===== verification/PlaceholdersProofs.v ===== *)
(** The placeholder controllers: names and indices, which deployment is created,
which is deleted, and where placeholder pods may run. *)
From S2P Require Import Prelude GoSort Semver Api Quantity Upsert ClusterSizing Scheduler SchedulerLaws RequestServing.
From S2P Require Import RequestServingProofs Placeholders SchedulerSamples.

Module PlaceholdersProofs.
Import ClusterSizing Scheduler SchedulerLaws RequestServing RequestServingProofs Placeholders.

(** The index of a placeholder deployment can be read back from its name,
for every size and every [int]. *)
Theorem parseIndex_deploymentName sizeClass i : (min_int64 ≤ i ≤ max_int64)%Z →
  parseIndex sizeClass (deploymentName sizeClass i) = Ret i.
Proof.
  intros Hi. unfold parseIndex, deploymentName.
  set (prefix := "placeholder-" +:+ sizeClass +:+ "-").
  assert (Happ : "placeholder-" +:+ sizeClass +:+ "-" +:+ itoa i = prefix +:+ itoa i).
  { unfold prefix. by rewrite (str_app_assoc sizeClass), str_app_assoc. }
  rewrite Happ. rewrite (proj2 (has_prefix_app _ _)) by eauto. cbn [negb].
  by rewrite trim_prefix_app, Semver.ParseInt_itoa.
Qed.

Lemma parseIndex_deploymentName_witness : parseIndex "small" (deploymentName "small" 3) = Ret 3%Z.
Proof. apply parseIndex_deploymentName. unfold min_int64, max_int64. lia. Defined.

(** Different indices have different names. *)
Lemma parse_name size name i : parseIndex size name = Ret i → ∀ j, (min_int64 ≤ j ≤ max_int64)%Z →
  name = deploymentName size j → i = j.
Proof.
  intros Hp j Hj ->. unfold parseIndex, deploymentName in Hp.
  set (prefix := "placeholder-" +:+ size +:+ "-") in Hp.
  assert (Happ : "placeholder-" +:+ size +:+ "-" +:+ itoa j = prefix +:+ itoa j).
  { unfold prefix. by rewrite (str_app_assoc size), str_app_assoc. }
  rewrite Happ, (proj2 (has_prefix_app _ _)) in Hp by eauto. cbn [negb] in Hp.
  rewrite trim_prefix_app, Semver.ParseInt_itoa in Hp by done. congruence.
Qed.

(** *** The missing index *)

Lemma present_indices_spec ds present : present_indices ds = Some present →
  length present = length ds ∧
  (∀ d, d ∈ ds → ∃ i, parseIndex (mget (dLabels d) HostedClusterSizeLabel) (dName d) = Ret i ∧ i ∈ present) ∧
  (∀ i, i ∈ present → ∃ d, d ∈ ds ∧ parseIndex (mget (dLabels d) HostedClusterSizeLabel) (dName d) = Ret i).
Proof.
  revert present. induction ds as [|d ds IH]; intros present; simpl.
  - intros [= <-]. split; [done|]. split; intros ? Hd; by apply not_elem_of_nil in Hd.
  - destruct (parseIndex _ _) as [i|e|] eqn:Hp; [|done..].
    destruct (present_indices ds) as [l|]; simpl; [|done]. intros [= <-].
    destruct (IH l eq_refl) as (Hlen & Hall & Hback). split; [simpl; by rewrite Hlen|]. split.
    + intros d' [->|Hd]%elem_of_cons; [exists i; split; [done|left]|].
      destruct (Hall d' Hd) as (j & ? & ?). exists j. split; [done|by right].
    + intros j [->|Hj]%elem_of_cons; [exists d; split; [left|done]|].
      destruct (Hback j Hj) as (d' & ? & ?). exists d'. split; [by right|done].
Qed.

(** Fewer deployments than wanted leave an index free: the branch for a logic
error cannot be reached. *)
Lemma missing_index_exists n present : (Z.of_nat (length present) < n)%Z → is_Some (missing_index n present).
Proof.
  intros Hlt. unfold missing_index. destruct (List.find _ _) eqn:E; [by eexists|]. exfalso.
  rewrite find_None_elem in E.
  assert (Hsub : (Z.of_nat <$> seq 0 (Z.to_nat n)) ⊆ present).
  { intros i Hi. specialize (E i Hi). apply negb_false_iff, bool_decide_eq_true in E. done. }
  assert (Hnd : NoDup (Z.of_nat <$> seq 0 (Z.to_nat n))).
  { apply NoDup_fmap_2; [|apply NoDup_seq]. intros ???. lia. }
  pose proof (submseteq_length _ _ (NoDup_submseteq _ _ Hnd Hsub)) as Hlen.
  rewrite length_fmap, length_seq in Hlen. lia.
Qed.

Lemma find_first {A} (p : A → bool) l x : List.find p l = Some x →
  ∃ k, l !! k = Some x ∧ p x = true ∧ ∀ j y, (j < k)%nat → l !! j = Some y → p y = false.
Proof.
  induction l as [|a l IH]; simpl; [done|]. destruct (p a) eqn:Hp.
  - intros [= <-]. exists 0. split; [done|]. split; [done|]. lia.
  - intros (k & Hk & Hx & Hlt)%IH. exists (S k). split; [done|]. split; [done|].
    intros [|j] y Hj; simpl; [by intros [= <-]|]. apply Hlt. lia.
Qed.

(** It is the least one. *)
Lemma missing_index_spec n present i : missing_index n present = Some i →
  (0 ≤ i < n)%Z ∧ ¬ (i ∈ present) ∧ (∀ j, (0 ≤ j < i)%Z → j ∈ present).
Proof.
  unfold missing_index. intros (k & Hk & Hp & Hlt)%find_first.
  apply list_lookup_fmap_Some in Hk as (a & -> & Ha). apply lookup_seq in Ha as [-> Hk]. simpl in *.
  apply negb_true_iff, bool_decide_eq_false in Hp. split; [lia|]. split; [done|].
  intros j Hj. specialize (Hlt (Z.to_nat j) j ltac:(lia)).
  rewrite list_lookup_fmap, (proj2 (lookup_seq _ _ (Z.to_nat j) (Z.to_nat j))) in Hlt by lia. simpl in Hlt.
  rewrite Z2Nat.id in Hlt by lia. specialize (Hlt eq_refl).
  by apply negb_false_iff, bool_decide_eq_true in Hlt.
Qed.

(** *** The creator *)

Section Controllers.
Context {S : Type} `{!Kube S} `{!KubeLaws S} `{!SliceSort} (unsorted : gset string → list string).
Hypothesis unsorted_elements : ∀ X, unsorted X ≡ₚ elements X.

(** The first size with placeholders. *)
Definition placeholders (c : SizeConfiguration) : Z := from_option Placeholders 0%Z (scManagement c).
Definition first_class (sizes : list SizeConfiguration) : option SizeConfiguration :=
  List.find (λ c, negb (placeholders c =? 0)%Z) sizes.

(** The placeholder deployments of a size. *)
Definition placeholder_of (size : string) (d : Deployment) : bool :=
  has_labels [PlaceholderLabel] (dLabels d) && matching_labels {[HostedClusterSizeLabel := size]} (dLabels d).
Definition is_pair_cm (cm : ConfigMap) : bool := has_labels [pairLabelKey] (cmLabels cm).

Lemma placeholder_of_size size d : placeholder_of size d = true → mget (dLabels d) HostedClusterSizeLabel = size.
Proof.
  intros [_ Hm]%andb_prop. apply bool_decide_eq_true, map_singleton_subseteq_l in Hm.
  unfold mget. by rewrite Hm.
Qed.

(** What the creator decides, from what it reads. *)
Definition decide_missing (c : SizeConfiguration) (ds : list Deployment) (cms : list ConfigMap) : option Deployment :=
  if (placeholders c <=? Z.of_nat (length ds))%Z then None else
  present ← present_indices ds;
  i ← missing_index (placeholders c) present;
  Some (newDeployment placeholderNamespace (scName c) i (unsorted (assigned_labels cms))).

Lemma create_missing_spec sizes s r s' : create_missing unsorted sizes s = (r, s') →
  s' = s ∧ ∀ o, r = Ret o →
    match first_class sizes with
    | None => o = None
    | Some c => ∃ all, k_list_deployments placeholderNamespace s = Ret all ∧
        let ds := List.filter (placeholder_of (scName c)) all in
        (o = None ∧ (placeholders c ≤ Z.of_nat (length ds))%Z) ∨
        ∃ cms, k_list_cms placeholderNamespace s = Ret cms ∧
          o = decide_missing c ds (List.filter is_pair_cm cms)
    end.
Proof.
  induction sizes as [|c sizes IH]; simpl.
  { intros [= <- <-]. split; [done|]. by intros ? [= <-]. }
  change (from_option Placeholders 0%Z (scManagement c)) with (placeholders c).
  destruct (placeholders c =? 0)%Z eqn:Hz; [exact IH|]. clear IH. simpl.
  intros [(ds & s1 & E1 & E)|(r1 & E1 & Hne1 & Hne)]%bind_inv.
  2: { apply bind_inv in E1 as [(all & s2 & E2 & E3)|(r2 & E2 & _)]; [injection E3 as <- <-; by edestruct Hne1|].
       apply wrap_inv in E2 as (r0 & [= <- <-] & _). split; [done|]. intros o Ho. by destruct (Hne o). }
  apply bind_inv in E1 as [(all & s2 & E2 & E3)|(r2 & _ & _ & Hne)]; [|by destruct (Hne ds)].
  injection E3 as <- <-. apply wrap_inv in E2 as (r0 & [= <- <-] & Hall).
  pose proof (proj1 (Hall all) eq_refl) as Hds. clear Hall.
  change (List.filter _ all) with (List.filter (placeholder_of (scName c)) all) in E.
  set (ds := List.filter _ all) in *.
  destruct (placeholders c <=? _)%Z eqn:Hle.
  { injection E as <- <-. split; [done|]. intros o [= <-]. exists all. split; [done|]. left.
    split; [done|]. by apply Z.leb_le. }
  apply bind_inv in E as [(cms & s1 & E1 & E)|(r1 & E1 & Hne1 & Hne)].
  2: { apply bind_inv in E1 as [(l & s2 & E2 & E3)|(r2 & E2 & _)]; [injection E3 as <- <-; by edestruct Hne1|].
       apply wrap_inv in E2 as (r0 & [= <- <-] & _). split; [done|]. intros o Ho. by destruct (Hne o). }
  apply bind_inv in E1 as [(l & s2 & E2 & E3)|(r2 & _ & _ & Hne)]; [|by destruct (Hne cms)].
  injection E3 as <- <-. apply wrap_inv in E2 as (r0 & [= <- <-] & Hall).
  pose proof (proj1 (Hall l) eq_refl) as Hcms. clear Hall.
  assert (Hd : s' = s ∧ r = Ret (decide_missing c ds (List.filter is_pair_cm l))).
  { unfold decide_missing. rewrite Hle.
    destruct (present_indices ds) as [present|]; simpl; [|by injection E as <- <-].
    destruct (missing_index _ present); simpl; by injection E as <- <-. }
  destruct Hd as [-> ->]. split; [done|]. intros o [= <-]. exists all. split; [done|]. right. by exists l.
Qed.

(** *** Where placeholder pods may run *)

(** A requirement of a node selector term, as the Kubernetes scheduler reads it. *)
Definition requirement_matches (labels : StringMap) (r : Requirement) : bool :=
  if str_eqb (reqOperator r) "In" then
    from_option (λ v, bool_decide (v ∈ reqValues r)) false (labels !! reqKey r)
  else if str_eqb (reqOperator r) "NotIn" then
    from_option (λ v, negb (bool_decide (v ∈ reqValues r))) true (labels !! reqKey r)
  else if str_eqb (reqOperator r) "Exists" then mhas labels (reqKey r)
  else if str_eqb (reqOperator r) "DoesNotExist" then negb (mhas labels (reqKey r))
  else false.
Definition node_affinity_allows (d : Deployment) (n : Node) : bool :=
  match dAffinity (dSpec d) ≫= NodeAffinity with
  | Some (Some terms) => existsb (forallb (requirement_matches (nodeLabels n))) terms
  | _ => true
  end.

Lemma sort_slice_elem l x : x ∈ sort_slice str_lt l ↔ x ∈ l.
Proof. by rewrite sort_slice_perm. Qed.

Lemma newDeployment_pairs ns size i l : existingPairLabels (newDeployment ns size i l) = list_to_set l.
Proof.
  unfold existingPairLabels, newDeployment. cbn [dSpec dAffinity NodeAffinity].
  destruct l as [|p l]; [done|]. apply set_eq. intros x.
  transitivity (x ∈ sort_slice str_lt (p :: l)).
  - simpl. by rewrite app_nil_r, elem_of_list_to_set.
  - rewrite sort_slice_elem. by rewrite elem_of_list_to_set.
Qed.

Lemma newDeployment_assigned ns size i X : existingPairLabels (newDeployment ns size i (unsorted X)) = X.
Proof.
  rewrite newDeployment_pairs. apply set_eq. intros x.
  rewrite elem_of_list_to_set, unsorted_elements. apply elem_of_elements.
Qed.

Lemma newDeployment_avoids ns size i l n : node_affinity_allows (newDeployment ns size i l) n = true →
  ∀ p, p ∈ l → nodeLabels n !! OSDFleetManagerPairedNodesLabel ≠ Some p.
Proof.
  unfold node_affinity_allows, newDeployment. cbn [dSpec dAffinity mbind option_bind NodeAffinity].
  destruct l as [|q l]; [intros _ p Hp; by apply not_elem_of_nil in Hp|].
  simpl. rewrite orb_false_r, andb_true_r. unfold requirement_matches. cbn [reqOperator reqValues reqKey str_eqb].
  change (str_eqb "NotIn" "In") with false. change (str_eqb "NotIn" "NotIn") with true. cbn iota.
  intros Hm p Hp Hl. rewrite Hl in Hm. simpl in Hm.
  apply negb_true_iff, bool_decide_eq_false in Hm. apply Hm. by apply sort_slice_elem.
Qed.

Lemma decide_missing_Some c ds cms d : decide_missing c ds cms = Some d →
  ∃ present i, present_indices ds = Some present ∧ missing_index (placeholders c) present = Some i ∧
    d = newDeployment placeholderNamespace (scName c) i (unsorted (assigned_labels cms)).
Proof.
  unfold decide_missing. case_match; [done|]. destruct (present_indices ds) as [present|]; [|done]. simpl.
  destruct (missing_index _ present) as [i|] eqn:Hm; [|done]. simpl. intros [= <-]. by exists present, i.
Qed.

Lemma first_class_elem sizes c : first_class sizes = Some c → c ∈ sizes ∧ placeholders c ≠ 0%Z.
Proof. intros [? Hp]%find_Some_elem. split; [done|]. by apply negb_true_iff, Z.eqb_neq in Hp. Qed.

(** What the creator read and decided when it creates a deployment. *)
Lemma creator_Some config s d s' : creator_reconcile unsorted config s = (Ret (Some d), s') →
  s' = s ∧ ∃ c all cms, c ∈ Sizes config ∧ k_list_deployments placeholderNamespace s = Ret all ∧
    k_list_cms placeholderNamespace s = Ret cms ∧
    decide_missing c (List.filter (placeholder_of (scName c)) all) (List.filter is_pair_cm cms) = Some d.
Proof.
  unfold creator_reconcile. case_match; [done|]. intros [-> Hspec]%create_missing_spec. split; [done|].
  specialize (Hspec _ eq_refl). destruct (first_class (Sizes config)) as [c|] eqn:Hc; [|done].
  destruct Hspec as (all & Hall & [[? _]|(cms & Hcms & Hd)]); [done|].
  exists c, all, cms. split; [by apply first_class_elem|]. done.
Qed.

(** What the creator creates: the placeholder deployment with the least index
below the configured number that no deployment of the size has, under a name no
deployment of the size has, kept away from exactly the pairs with a ConfigMap. *)
Theorem creator_creates_missing config s d s' :
  creator_reconcile unsorted config s = (Ret (Some d), s') →
  (∀ c, c ∈ Sizes config → (placeholders c ≤ max_int64)%Z) →
  ∃ c i cms, c ∈ Sizes config ∧ (0 ≤ i < placeholders c)%Z ∧
    dKey d = (placeholderNamespace, deploymentName (scName c) i) ∧
    (∀ k d', o_deployments (view s) !! k = Some d' → dNamespace d' = placeholderNamespace →
       placeholder_of (scName c) d' = true → dName d' ≠ dName d) ∧
    (∀ j, (0 ≤ j < i)%Z → ∃ d', o_deployments (view s) !! dKey d' = Some d' ∧
       placeholder_of (scName c) d' = true ∧ parseIndex (scName c) (dName d') = Ret j) ∧
    k_list_cms placeholderNamespace s = Ret cms ∧
    existingPairLabels d = assigned_labels (List.filter is_pair_cm cms).
Proof.
  intros [-> (c & all & cms & Hc & Hall & Hcms & Hd)]%creator_Some Hint.
  apply decide_missing_Some in Hd as (present & i & Hpres & Hmiss & ->).
  apply present_indices_spec in Hpres as (_ & Hpres & Hback).
  apply missing_index_spec in Hmiss as (Hi & Hni & Hlow).
  apply list_deployments_stored in Hall.
  exists c, i, cms. split; [done|]. split; [done|]. split; [done|]. split; [|split; [|split; [done|]]].
  - intros k d' Hk Hns Hp Hname. apply Hni.
    destruct (Hpres d') as (j & Hj & Hin).
    { apply elem_of_filter_bool. split; [|done]. eapply listing_intro; [done|done|by apply str_eqb_eq]. }
    rewrite (placeholder_of_size _ _ Hp) in Hj. specialize (Hint c Hc).
    rewrite <- (parse_name _ _ _ Hj i) by (done || (unfold min_int64 in *; lia)). done.
  - intros j Hj. destruct (Hback j (Hlow j Hj)) as (d' & [Hin Hp]%elem_of_filter_bool & Hparse).
    exists d'. split; [by apply (listing_elem _ _ _ _ _ Hall)|]. split; [done|].
    by rewrite (placeholder_of_size _ _ Hp) in Hparse.
  - apply newDeployment_assigned.
Qed.

(** The creator stops only when it has nothing to do: with a valid
configuration, when it creates nothing, the first size with placeholders has at
least as many deployments as configured, or one of them has a name that is not
a placeholder's.  The case the code calls a logic error cannot happen. *)
Theorem creator_stops_when_done config s s' c :
  creator_reconcile unsorted config s = (Ret None, s') → config_valid config = true →
  first_class (Sizes config) = Some c →
  ∃ ds, listing dKey (λ d, str_eqb (dNamespace d) placeholderNamespace) (o_deployments (view s)) ds ∧
    let placed := List.filter (placeholder_of (scName c)) ds in
    (placeholders c ≤ Z.of_nat (length placed))%Z ∨
    ∃ d, d ∈ placed ∧ ∀ i, parseIndex (scName c) (dName d) ≠ Ret i.
Proof.
  unfold creator_reconcile. intros E Hv Hc. rewrite Hv in E. cbn [negb] in E.
  apply create_missing_spec in E as [-> Hspec]. specialize (Hspec _ eq_refl). rewrite Hc in Hspec.
  destruct Hspec as (all & Hall & Hcase). exists all. split; [by apply list_deployments_stored|].
  cbn zeta in *. set (placed := List.filter (placeholder_of (scName c)) all) in *. destruct Hcase as [[_ Hle]|(cms & _ & Hd)]; [by left|].
  symmetry in Hd. unfold decide_missing in Hd. fold placed in Hd.
  destruct (placeholders c <=? _)%Z eqn:Hle; [left; by apply Z.leb_le|]. apply Z.leb_gt in Hle.
  destruct (present_indices placed) as [present|] eqn:Hp; simpl in Hd.
  - apply present_indices_spec in Hp as [Hlen _]. rewrite <- Hlen in Hle.
    destruct (missing_index_exists _ _ Hle) as [i Hi]. by rewrite Hi in Hd.
  - right. assert (Hsize : ∀ d, d ∈ placed → mget (dLabels d) HostedClusterSizeLabel = scName c)
      by (intros d [_ Hd']%elem_of_filter_bool; by apply placeholder_of_size).
    clear Hle Hd. clearbody placed. induction placed as [|d placed IH]; [done|]. simpl in Hp.
    rewrite (Hsize d) in Hp by left. destruct (parseIndex (scName c) (dName d)) as [i|e|] eqn:Hi.
    + destruct (present_indices placed) eqn:Hp'; [done|].
      destruct IH as (d' & ? & ?); [done|intros; apply Hsize; by right|]. exists d'. split; [by right|done].
    + exists d. split; [left|]. intros i. by rewrite Hi.
    + exists d. split; [left|]. intros i. by rewrite Hi.
Qed.

(** The first size with placeholders is the only one the creator serves. *)
Lemma creator_serves_first_size_only config s all c : config_valid config = true →
  first_class (Sizes config) = Some c → k_list_deployments placeholderNamespace s = Ret all →
  (placeholders c ≤ Z.of_nat (length (List.filter (placeholder_of (scName c)) all)))%Z →
  ∀ d s', creator_reconcile unsorted config s ≠ (Ret (Some d), s').
Proof.
  unfold creator_reconcile. intros Hv Hc Hall Hle d s'. rewrite Hv. cbn [negb].
  intros [_ Hspec]%create_missing_spec. specialize (Hspec _ eq_refl). rewrite Hc in Hspec.
  destruct Hspec as (all' & Hall' & [[? _]|(cms & _ & Hd)]); [done|].
  assert (all' = all) as -> by congruence. apply Z.leb_le in Hle.
  unfold decide_missing in Hd. by rewrite Hle in Hd.
Qed.

(** *** The updater *)

(** The deployment is a placeholder the updater is responsible for. *)
Definition is_placeholder (d : Deployment) : bool :=
  mhas (dLabels d) PlaceholderLabel && mhas (dLabels d) HostedClusterSizeLabel.
Definition declared_valid (config : ClusterSizingConfiguration) : bool :=
  existsb (λ c, str_eqb (cType c) ClusterSizingConfigurationValidType && bool_decide (cStatus c = ConditionTrue))
    (configConditions config).

(** What the updater does with a deployment: it deletes exactly the placeholders
whose index is not below the number configured for their size, and it rewrites a
placeholder exactly when the pairs it is kept away from are not the pairs with a
ConfigMap; after the rewrite they are. *)
Theorem updater_decides d config s del upd s' :
  updater_reconcile unsorted d config s = (Ret (del, upd), s') →
  (del = true ↔ is_placeholder d = true ∧ declared_valid config = true ∧
     ∃ i, parseIndex (mget (dLabels d) HostedClusterSizeLabel) (dName d) = Ret i ∧
       (wantedDeployments (mget (dLabels d) HostedClusterSizeLabel) (Sizes config) ≤ i)%Z) ∧
  (∀ d', upd = Some d' → del = false ∧ ∃ cms, k_list_cms placeholderNamespace s = Ret cms ∧
     existingPairLabels d ≠ assigned_labels (List.filter is_pair_cm cms) ∧
     existingPairLabels d' = assigned_labels (List.filter is_pair_cm cms)).
Proof.
  unfold updater_reconcile. fold (declared_valid config). unfold is_placeholder.
  destruct (mhas (dLabels d) PlaceholderLabel); simpl; [|intros [= <- <- <-]; naive_solver].
  destruct (mhas (dLabels d) HostedClusterSizeLabel); simpl; [|intros [= <- <- <-]; naive_solver].
  destruct (declared_valid config); simpl; [|intros [= <- <- <-]; naive_solver].
  destruct (parseIndex _ _) as [i|e|] eqn:Hi; [|intros [= <- <- <-]; naive_solver..].
  destruct (_ - 1 <? i)%Z eqn:Hlt.
  { apply Z.ltb_lt in Hlt. intros [= <- <- <-]. split; [|done]. split; [|done]. intros _.
    split; [done|]. split; [done|]. exists i. split; [done|lia]. }
  apply Z.ltb_ge in Hlt.
  assert (Hno : ¬ ∃ j, Ret (E:=api_error) i = Ret j ∧
    (wantedDeployments (mget (dLabels d) HostedClusterSizeLabel) (Sizes config) ≤ j)%Z)
    by (intros (j & [= <-] & ?); lia).
  intros [(l & s1 & E1 & E)|(r1 & _ & _ & Hne)]%bind_inv; [|by edestruct Hne].
  apply bind_inv in E1 as [(cms & s2 & E2 & E3)|(r2 & _ & _ & Hne)]; [|by edestruct Hne].
  injection E3 as <- <-. apply wrap_inv in E2 as (r0 & [= <- <-] & Hall).
  pose proof (proj1 (Hall cms) eq_refl) as Hcms.
  change (List.filter _ cms) with (List.filter is_pair_cm cms) in E.
  case_bool_decide as Heq; injection E as <- <- <-; (split; [naive_solver|]); [done|].
  intros d' [= <-]. split; [done|]. exists cms. split; [done|]. split; [congruence|apply newDeployment_assigned].
Qed.

(** A ConfigMap that records the owner of a pair counts as assigned. *)
Lemma recorded_assigned s cms p cm : k_list_cms placeholderNamespace s = Ret cms →
  o_cms (view s) !! (placeholderNamespace, p) = Some cm → cmNamespace cm = placeholderNamespace →
  cmLabels cm !! pairLabelKey = Some p → p ≠ "" →
  p ∈ assigned_labels (List.filter is_pair_cm cms).
Proof.
  intros Hcms%list_cms_stored Hcm Hns Hlab Hp. unfold assigned_labels.
  apply elem_of_list_to_set, elem_of_filter_bool. split; [|by apply negb_true_iff, str_eqb_neq].
  apply list_elem_of_fmap. exists cm. split; [unfold mget; by rewrite Hlab|].
  apply elem_of_filter_bool. split.
  - eapply listing_intro; [done|done|by apply str_eqb_eq].
  - unfold is_pair_cm, has_labels, mhas; simpl. rewrite bool_decide_true; [done|]. by eexists.
Qed.

(** C40: placeholder pods stay off the nodes of hosted clusters: a deployment the
creator creates cannot have a pod placed on a node of a pair whose ConfigMap names
a hosted cluster. *)
Theorem placeholders_avoid_owned_pairs config s d s' p cm n :
  creator_reconcile unsorted config s = (Ret (Some d), s') →
  o_cms (view s) !! (placeholderNamespace, p) = Some cm → cmNamespace cm = placeholderNamespace →
  cmLabels cm !! pairLabelKey = Some p → p ≠ "" →
  node_affinity_allows d n = true → pair_of n ≠ p.
Proof.
  intros [-> (c & all & cms & Hc & Hall & Hcms & Hd)]%creator_Some Hcm Hns Hlab Hp Hallow Hn.
  apply decide_missing_Some in Hd as (present & i & _ & _ & ->).
  pose proof (recorded_assigned _ _ _ _ Hcms Hcm Hns Hlab Hp) as Hin.
  apply (newDeployment_avoids _ _ _ _ _ Hallow p).
  - rewrite unsorted_elements. by apply elem_of_elements.
  - unfold pair_of, label, mget in Hn. destruct (nodeLabels n !! _); simpl in Hn; congruence.
Qed.

End Controllers.

(** *** At the sample cluster *)

Module Samples.
Import SchedulerSamples.

Definition unsorted (X : gset string) : list string := elements X.
Lemma unsorted_elements X : unsorted X ≡ₚ elements X.
Proof. done. Qed.

Definition two_sizes (small large : Z) : ClusterSizingConfiguration :=
  mkConfig [mkSize "small" (mkCriteria 0 (Some 10%Z)) (Some (mkManagement small None));
            mkSize "large" (mkCriteria 11 None) (Some (mkManagement large None))] 0 0 0 0
    [mkCondition ClusterSizingConfigurationValidType ConditionTrue 0 0 AsExpectedReason ""].

(** After [a] claimed the pair [p1]: one placeholder of two is there. *)
Definition created : Deployment :=
  match (creator_reconcile unsorted (two_sizes 2 1) cluster1).1 with
  | Ret (Some d) => d | _ => ready_placeholder end.

Lemma creator_run : creator_reconcile unsorted (two_sizes 2 1) cluster1 = (Ret (Some created), cluster1).
Proof. vm_compute. reflexivity. Qed.

Lemma creator_creates_missing_witness :
  dName created = "placeholder-small-1" ∧
  ∃ cms, existingPairLabels created = assigned_labels (List.filter is_pair_cm cms).
Proof.
  split; [vm_compute; reflexivity|].
  destruct (creator_creates_missing unsorted unsorted_elements (two_sizes 2 1) cluster1 created cluster1)
    as (c & i & cms & _ & _ & _ & _ & _ & _ & Hp).
  - exact creator_run.
  - intros c Hc. unfold max_int64. simpl in Hc.
    apply elem_of_cons in Hc as [-> |Hc]; [vm_compute; discriminate|].
    apply list_elem_of_singleton in Hc as ->. vm_compute. discriminate.
  - by exists cms.
Defined.

Lemma creator_stops_when_done_witness :
  ∃ c, first_class (Sizes (two_sizes 1 1)) = Some c ∧ scName c = "small" ∧
    ∃ ds, listing dKey (λ d, str_eqb (dNamespace d) placeholderNamespace) (o_deployments (view cluster1)) ds.
Proof.
  eexists. split; [reflexivity|]. split; [reflexivity|].
  destruct (creator_stops_when_done unsorted (two_sizes 1 1) cluster1 cluster1
    (mkSize "small" (mkCriteria 0 (Some 10%Z)) (Some (mkManagement 1 None)))) as (ds & Hds & _).
  - vm_compute. reflexivity.
  - vm_compute. reflexivity.
  - vm_compute. reflexivity.
  - by exists ds.
Defined.

(** One placeholder is configured for the large size, none exists, and the
creator has nothing to do. *)
Lemma later_sizes_starve :
  first_class (List.tail (Sizes (two_sizes 1 1))) = Some (mkSize "large" (mkCriteria 11 None) (Some (mkManagement 1 None))) ∧
  map_Forall (λ _ d, placeholder_of "large" d = false) (o_deployments cluster1) ∧
  creator_reconcile unsorted (two_sizes 1 1) cluster1 = (Ret None, cluster1).
Proof.
  split; [vm_compute; reflexivity|]. split; [|vm_compute; reflexivity].
  refine (proj1 (bool_decide_eq_true _) _). vm_compute. reflexivity.
Qed.

Lemma updater_decides_witness :
  (updater_reconcile unsorted ready_placeholder (two_sizes 0 1) cluster1).1 = Ret (true, None) ∧
  is_placeholder ready_placeholder = true.
Proof.
  split; [vm_compute; reflexivity|].
  destruct (updater_decides unsorted unsorted_elements ready_placeholder (two_sizes 0 1) cluster1 true None cluster1)
    as [[Hd _] _]; [vm_compute; reflexivity|].
  exact (proj1 (Hd eq_refl)).
Defined.

Lemma placeholders_avoid_owned_pairs_witness :
  node_affinity_allows created (serving_node "n3" "p2" "za") = true ∧
  pair_of (serving_node "n3" "p2" "za") ≠ "p1".
Proof.
  split; [vm_compute; reflexivity|].
  apply (placeholders_avoid_owned_pairs unsorted unsorted_elements (two_sizes 2 1) cluster1 created cluster1 "p1"
    (mkConfigMap placeholderNamespace "p1" {[pairLabelKey := "p1"]}
       {[clusterNamespaceKey := "clusters"; clusterNameKey := "a"]})).
  - exact creator_run.
  - vm_compute. reflexivity.
  - reflexivity.
  - vm_compute. reflexivity.
  - discriminate.
  - vm_compute. reflexivity.
Defined.

End Samples.

End PlaceholdersProofs.
