(* ===== verification/ResourceBasedAutoscalerProofs.v ===== *)
(** What the resource based autoscaler recommends: the cache of machine sizes is
that of the current sizing configuration, the size it picks is the smallest that
is large enough, and the sizing controller then gives the hosted cluster that
size. *)
From S2P Require Import Prelude GoSort Semver Api Quantity Upsert ClusterSizing Scheduler SchedulerLaws RequestServing NodeAutoscaler.
From S2P Require Import ResourceBasedAutoscaler.

Module ResourceBasedAutoscalerProofs.
Import ClusterSizing Scheduler SchedulerLaws RequestServing NodeAutoscaler ResourceBasedAutoscaler.

(** *** The first match in a sorted list *)

Lemma find_sorted {A} (R : A → A → Prop) (p : A → bool) l x : StronglySorted R l → List.find p l = Some x →
  x ∈ l ∧ p x = true ∧ ∀ y, y ∈ l → p y = true → y = x ∨ R x y.
Proof.
  intros Hs Hf. destruct (find_Some_elem _ _ _ Hf) as [Hx Hp]. split; [done|]. split; [done|].
  induction Hs as [|a l Hs IH Ha]; [done|]. simpl in Hf. intros y Hy Hpy.
  destruct (p a) eqn:Hpa.
  - injection Hf as <-. apply elem_of_cons in Hy as [->|Hy]; [by left|].
    right. by eapply Forall_forall in Ha.
  - apply elem_of_cons in Hy as [->|Hy]; [congruence|].
    apply IH; try done. by apply (find_Some_elem p l x Hf).
Qed.

Lemma last_sorted {A} (R : A → A → Prop) l x : StronglySorted R l → last l = Some x →
  ∀ y, y ∈ l → y = x ∨ R y x.
Proof.
  intros Hs Hl. induction Hs as [|a l Hs IH Ha]; [done|]. intros y Hy.
  destruct l as [|b l']; [apply elem_of_cons in Hy as [->|Hy]; [injection Hl as <-; by left|by apply elem_of_nil in Hy]|].
  change (last (a :: b :: l')) with (last (b :: l')) in Hl.
  apply elem_of_cons in Hy as [->|Hy]; [|by apply IH].
  right. apply last_Some_elem_of in Hl. by eapply Forall_forall in Ha.
Qed.

Lemma find_fmap {A B} (f : A → B) (p : B → bool) (q : A → bool) l : (∀ x, x ∈ l → p (f x) = q x) →
  List.find p (f <$> l) = f <$> List.find q l.
Proof.
  induction l as [|x l IH]; intros Hpq; [done|]. csimpl. rewrite (Hpq x) by left.
  destruct (q x); [done|]. apply IH. intros y Hy. apply Hpq. by right.
Qed.

(** *** The best size of a cache *)

Definition scales_ok (cache : machineSizesCache) : Prop :=
  ∀ k r, sizes cache !! k = Some r → (-9 ≤ Quantity.qScale (Memory r))%Z.

Definition memory_of (r : machineResources) : Z := Quantity.nano (Memory r).

Lemma less_memory_nano a b : (-9 ≤ Quantity.qScale (Memory a.2))%Z → (-9 ≤ Quantity.qScale (Memory b.2))%Z →
  less_memory a b = (memory_of a.2 <? memory_of b.2)%Z.
Proof. intros Ha Hb. unfold less_memory. rewrite Quantity.Cmp_exact by done. done. Qed.

Section Best.
Context `{!MapOrder} `{!SliceSort}.

Lemma order_elem cache kr : kr ∈ sort_slice less_memory (range (sizes cache)) ↔ sizes cache !! kr.1 = Some kr.2.
Proof. rewrite sort_slice_perm, range_Permutation. destruct kr. apply elem_of_map_to_list. Qed.

Lemma order_sorted cache : scales_ok cache →
  StronglySorted (sorts_before less_memory) (sort_slice less_memory (range (sizes cache))).
Proof.
  intros Hs. apply sort_slice_sorted.
  assert (Hin : ∀ kr, kr ∈ range (sizes cache) → (-9 ≤ Quantity.qScale (Memory kr.2))%Z).
  { intros [k r]. rewrite range_Permutation. intros Hkr%elem_of_map_to_list. by apply (Hs k). }
  split; intros; rewrite !less_memory_nano in * by auto; lia.
Qed.

(** The size [k] has the machines [r], and is the smallest of those that are large
enough, or the largest when none is. *)
Definition best_size (cache : machineSizesCache) (memory : Quantity.float64) (k : string) (r : machineResources) : Prop :=
  sizes cache !! k = Some r ∧
  ((fits cache memory r = true ∧
    ∀ k' r', sizes cache !! k' = Some r' → fits cache memory r' = true → (memory_of r ≤ memory_of r')%Z) ∨
   (∀ k' r', sizes cache !! k' = Some r' → fits cache memory r' = false ∧ (memory_of r' ≤ memory_of r)%Z)).

Lemma recommendedSize_best cache memory : scales_ok cache → sizes cache ≠ ∅ →
  ∃ r, best_size cache memory (recommendedSize cache memory) r.
Proof.
  intros Hs Hne. unfold recommendedSize, sizesInOrderByMemory.
  set (l := sort_slice less_memory (range (sizes cache))).
  pose proof (order_sorted cache Hs) as Hl. fold l in Hl.
  assert (Hbefore : ∀ a b, a ∈ l → b ∈ l → sorts_before less_memory a b → (memory_of a.2 ≤ memory_of b.2)%Z).
  { intros a b Ha%order_elem Hb%order_elem. unfold sorts_before.
    rewrite less_memory_nano by (by eapply Hs). lia. }
  rewrite (find_fmap _ _ (λ kr, fits cache memory kr.2)) by (intros kr ->%order_elem; done).
  destruct (List.find _ l) as [[k r]|] eqn:Hf; simpl.
  - destruct (find_sorted _ _ _ _ Hl Hf) as (Hin & Hp & Hmin). exists r. split; [by apply order_elem in Hin|].
    left. split; [done|]. intros k' r' Hk' Hp'.
    assert (Hin' : (k', r') ∈ l) by by apply order_elem.
    destruct (Hmin _ Hin' Hp') as [[= <- <-]|Hb]; [lia|]. by apply (Hbefore (k, r) (k', r')).
  - rewrite fmap_last. destruct (last l) as [[k r]|] eqn:Hla; simpl.
    + exists r. assert (Hin : (k, r) ∈ l) by by apply last_Some_elem_of.
      split; [by apply order_elem in Hin|]. right. intros k' r' Hk'.
      assert (Hin' : (k', r') ∈ l) by by apply order_elem.
      split; [by apply (proj1 (find_None_elem _ _) Hf (k', r'))|].
      destruct (last_sorted _ _ _ Hl Hla _ Hin') as [[= <- <-]|Hb]; [lia|]. by apply (Hbefore (k', r') (k, r)).
    + apply last_None in Hla. destruct Hne. apply map_empty. intros i.
      destruct (sizes cache !! i) as [r|] eqn:Hi; [|done].
      assert (Hin : (i, r) ∈ l) by by apply order_elem. rewrite Hla in Hin. by apply elem_of_nil in Hin.
Qed.

End Best.

(** *** The cache follows the configuration *)

(** The cache holds the memory fraction of a configuration, which is between zero and
one, and the machines of each of its sizes, as given there when they are. *)
Definition current (cache : machineSizesCache) (csc : ClusterSizingConfiguration) : Prop :=
  kasMemorySizeFraction cache = KubeAPIServerMemoryFraction csc ∧
  from_option fraction_invalid false (KubeAPIServerMemoryFraction csc) = false ∧
  hasAllSizes csc (sizes cache) = true ∧
  (sizeMemoryCapacityAvailable csc = true → sizes_from_config (Sizes csc) ∅ = Some (sizes cache)).

(** The API server counts the generation up, from one, with every change of the
specification. *)
Definition same_spec (csc csc' : ClusterSizingConfiguration) : Prop :=
  Sizes csc' = Sizes csc ∧ KubeAPIServerMemoryFraction csc' = KubeAPIServerMemoryFraction csc.
Definition later (csc csc' : ClusterSizingConfiguration) : Prop :=
  (cscGeneration csc ≤ cscGeneration csc')%Z ∧ (cscGeneration csc' = cscGeneration csc → same_spec csc csc').

Lemma current_same_spec cache csc csc' : same_spec csc csc' → current cache csc → current cache csc'.
Proof. unfold current, hasAllSizes, sizeMemoryCapacityAvailable. by intros [-> ->]. Qed.

Lemma sizes_from_config_dom l m m' k : sizes_from_config l m = Some m' →
  is_Some (m' !! k) ↔ is_Some (m !! k) ∨ k ∈ scName <$> l.
Proof.
  revert m. induction l as [|c l IH]; intros m; simpl.
  - intros [= <-]. rewrite elem_of_nil. naive_solver.
  - destruct (scCapacity c) as [cap|]; simpl; [|done]. intros ->%IH. rewrite elem_of_cons, lookup_insert_is_Some'. naive_solver.
Qed.

Lemma sizes_from_config_all csc m : sizes_from_config (Sizes csc) ∅ = Some m → hasAllSizes csc m = true.
Proof.
  intros Hm. apply forallb_forall. intros c Hc%list_elem_of_In. apply bool_decide_eq_true.
  apply (sizes_from_config_dom _ _ _ _ Hm). right. by apply list_elem_of_fmap_2.
Qed.

Lemma capacity_config l m : forallb (λ c, bool_decide (is_Some (scCapacity c ≫= capMemory))) l = true →
  is_Some (sizes_from_config l m).
Proof.
  revert m. induction l as [|c l IH]; intros m; simpl; [done|]. rewrite andb_true_iff, bool_decide_eq_true.
  intros [[q Hq] Hl]. destruct (scCapacity c); [|done]. by apply IH.
Qed.

Section Cache.
Context `{!QuantityParser}.

(** One update: when it succeeds the cache is current and of the configuration's
generation, unless it was of that generation before and was left alone; when it
fails it keeps its sizes and its generation. *)
Lemma update_spec cache csc l r cache' : update cache csc l = (r, cache') →
  (cscGeneration csc = cacheGeneration cache ∧ sizeMemoryCapacityAvailable csc = true ∧ r = Ret () ∧ cache' = cache) ∨
  (r = Ret () ∧ cacheGeneration cache' = cscGeneration csc ∧ current cache' csc) ∨
  (r ≠ Ret () ∧ sizes cache' = sizes cache ∧ cacheGeneration cache' = cacheGeneration cache ∧
   (cache' = cache ∨ kasMemorySizeFraction cache' = KubeAPIServerMemoryFraction csc)).
Proof.
  unfold update. destruct (_ && _) eqn:Hskip.
  { apply andb_true_iff in Hskip as [?%Z.eqb_eq ?]. intros [= <- <-]. by left. }
  destruct (from_option _ _ _) eqn:Hfr; [intros [= <- <-]; right; right; by auto|].
  destruct (sizeMemoryCapacityAvailable csc) eqn:Hcap.
  { destruct (capacity_config (Sizes csc) ∅ Hcap) as [m Hm]. unfold updateSizesFromConfig. rewrite Hm.
    intros [= <- <-]. right; left. split_and!; [done..|].
    split_and!; simpl; try done. by apply sizes_from_config_all. }
  unfold updateSizesFromMachineSets. destruct l as [items|e|]; [|intros [= <- <-]; right; right; by auto..].
  destruct (negb (hasAllSizes _ _)) eqn:Hall; intros [= <- <-]; [right; right; by auto|].
  right; left. apply negb_false_iff in Hall. split_and!; [done..|]. unfold current. rewrite Hcap. by split_and!.
Qed.

(** The caches the controller can hold, with the configuration it saw last. *)
Inductive cache_run : machineSizesCache → ClusterSizingConfiguration → Prop :=
  | run_start csc : (1 ≤ cscGeneration csc)%Z → cache_run empty_cache csc
  | run_update cache csc csc' l r cache' :
      cache_run cache csc → later csc csc' → update cache csc' l = (r, cache') → cache_run cache' csc'.

Definition follows (cache : machineSizesCache) (csc : ClusterSizingConfiguration) : Prop :=
  (cacheGeneration cache ≤ cscGeneration csc)%Z ∧ (cacheGeneration cache = cscGeneration csc → current cache csc).

Lemma follows_later cache csc csc' : follows cache csc → later csc csc' → follows cache csc'.
Proof.
  intros [Hle Hcur] [Hg Hsame]. split; [lia|]. intros Heq. assert (Hgen : cscGeneration csc' = cscGeneration csc) by lia.
  eapply current_same_spec; [by apply Hsame|]. apply Hcur. lia.
Qed.

(** The steps of the induction below, and the end of an update that succeeds. *)
Lemma update_follows cache csc l r cache' : follows cache csc → update cache csc l = (r, cache') →
  follows cache' csc ∧ (r = Ret () → current cache' csc).
Proof.
  intros [Hle Hcur] [(Hg & _ & -> & ->)|[(-> & Hg & Hc)|(Hr & Hs & Hg & Hf)]]%update_spec.
  - split; [done|]. auto.
  - split; [|done]. split; [lia|done].
  - split; [|done]. split; [lia|]. rewrite Hg. intros (Hk & Hv & Ha & Hcap)%Hcur.
    unfold current. rewrite Hs. split_and!; try done. by destruct Hf as [->| ->].
Qed.

Lemma cache_run_follows cache csc : cache_run cache csc → follows cache csc.
Proof.
  induction 1 as [csc Hg|cache csc csc' l r cache' _ IH Hl Hu].
  - split; simpl; lia.
  - eapply update_follows; [|done]. by eapply follows_later.
Qed.

(** C16: the cache of machine sizes is never stale.  However often it was updated
before, with whatever configurations and outcomes, as long as the generation of
the configuration counts its changes, an update that succeeds leaves the memory
fraction of the configuration it was given, which is above zero and at most one,
and machines for every size of it; when the configuration gives the memory of each
size, exactly these. *)
Theorem cache_current cache csc csc' l cache' :
  cache_run cache csc → later csc csc' → update cache csc' l = (Ret (), cache') →
  current cache' csc'.
Proof.
  intros Hrun Hl Hu. eapply update_follows; [|exact Hu|done]. eapply follows_later; [|done]. by apply cache_run_follows.
Qed.

End Cache.

(** *** From the recommendation to the size of the cluster *)

Definition capacity (c : SizeConfiguration) : Quantity.Quantity :=
  default zero_quantity (scCapacity c ≫= capMemory).
Definition fraction (config : ClusterSizingConfiguration) : Quantity.float64 :=
  match KubeAPIServerMemoryFraction config with
  | Some q => Quantity.AsApproximateFloat64 q
  | None => kubeAPIServerMemorySizeFractionDefault
  end.
Definition large_enough (config : ClusterSizingConfiguration) (memory : Quantity.Quantity) (c : SizeConfiguration) : bool :=
  Quantity.f64_le (Quantity.AsApproximateFloat64 memory)
    (Quantity.f64_mul (Quantity.AsApproximateFloat64 (capacity c)) (fraction config)).

(** The smallest size that is large enough, or the largest size when none is. *)
Definition right_size (config : ClusterSizingConfiguration) (memory : Quantity.Quantity) (c : SizeConfiguration) : Prop :=
  c ∈ Sizes config ∧
  ((large_enough config memory c = true ∧
    ∀ c', c' ∈ Sizes config → large_enough config memory c' = true →
      (Quantity.nano (capacity c) ≤ Quantity.nano (capacity c'))%Z) ∨
   (∀ c', c' ∈ Sizes config → large_enough config memory c' = false ∧
      (Quantity.nano (capacity c') ≤ Quantity.nano (capacity c))%Z)).

(** A configuration with distinct, named sizes that gives the memory of each. *)
Definition well_formed (config : ClusterSizingConfiguration) : Prop :=
  Sizes config ≠ [] ∧ NoDup (scName <$> Sizes config) ∧
  ∀ c, c ∈ Sizes config → scName c ≠ "" ∧
    ∃ q, scCapacity c ≫= capMemory = Some q ∧ (-9 ≤ Quantity.qScale q)%Z.

Lemma well_formed_available config : well_formed config → sizeMemoryCapacityAvailable config = true.
Proof.
  intros (_ & _ & Hc). apply forallb_forall. intros c Hin%list_elem_of_In. apply bool_decide_eq_true.
  destruct (Hc c Hin) as [_ (q & -> & _)]. done.
Qed.

Lemma sizes_from_config_other l m m' k : sizes_from_config l m = Some m' → ¬ (k ∈ scName <$> l) → m' !! k = m !! k.
Proof.
  revert m. induction l as [|c l IH]; intros m; csimpl; [by intros [= <-]|].
  destruct (scCapacity c) as [cap|]; simpl; [|done]. rewrite not_elem_of_cons. intros Hm [Hne Hk].
  rewrite (IH _ Hm Hk). by rewrite lookup_insert_ne.
Qed.

Lemma sizes_from_config_lookup l m m' c : NoDup (scName <$> l) → sizes_from_config l m = Some m' → c ∈ l →
  ∃ r, m' !! scName c = Some r ∧ Memory r = capacity c.
Proof.
  revert m. induction l as [|x l IH]; intros m; [by rewrite elem_of_nil|]. csimpl.
  intros [Hx Hnd]%NoDup_cons. destruct (scCapacity x) as [cap|] eqn:Hcap; simpl; [|done]. intros Hm.
  rewrite elem_of_cons. intros [->|Hc]; [|by eapply IH].
  rewrite (sizes_from_config_other _ _ _ _ Hm Hx), lookup_insert_eq. eexists. split; [done|].
  unfold capacity. by rewrite Hcap.
Qed.

(** The sizes of a current cache are those of the configuration. *)
Lemma current_sizes cache config : well_formed config → current cache config →
  (∀ c, c ∈ Sizes config → ∃ r, sizes cache !! scName c = Some r ∧ Memory r = capacity c) ∧
  (∀ k r, sizes cache !! k = Some r → ∃ c, c ∈ Sizes config ∧ scName c = k ∧ Memory r = capacity c).
Proof.
  intros Hwf (_ & _ & _ & Hs). specialize (Hs (well_formed_available _ Hwf)).
  destruct Hwf as (_ & Hnd & _).
  assert (Hfwd : ∀ c, c ∈ Sizes config → ∃ r, sizes cache !! scName c = Some r ∧ Memory r = capacity c)
    by (intros c; by eapply sizes_from_config_lookup).
  split; [done|]. intros k r Hk.
  destruct (proj1 (sizes_from_config_dom _ _ _ k Hs)) as [Hx|(c & -> & Hc)%list_elem_of_fmap]; [done|by destruct Hx|].
  destruct (Hfwd c Hc) as (r' & Hr' & Hm). exists c. split; [done|]. split; [done|]. congruence.
Qed.

Lemma current_fits cache config memory c r : current cache config → Memory r = capacity c →
  fits cache (Quantity.AsApproximateFloat64 memory) r = large_enough config memory c.
Proof.
  intros (Hf & _) Hm. unfold fits, large_enough, kasMemoryFraction, fraction. by rewrite Hf, Hm.
Qed.

(** What the cache recommends, in terms of the configuration. *)
Lemma recommended_right `{!MapOrder} `{!SliceSort} cache config memory : well_formed config → current cache config →
  let size := recommendedSize cache (Quantity.AsApproximateFloat64 memory) in
  (∃ c, c ∈ Sizes config ∧ scName c = size) ∧
  ∀ c, c ∈ Sizes config → scName c = size → right_size config memory c.
Proof.
  intros Hwf Hcur. destruct (current_sizes _ _ Hwf Hcur) as [Hfwd Hbwd].
  destruct (recommendedSize_best cache (Quantity.AsApproximateFloat64 memory)) as (r & Hk & Hbest).
  - intros k r Hk. destruct (Hbwd k r Hk) as (c & Hc & _ & ->).
    destruct Hwf as (_ & _ & Hq). destruct (Hq c Hc) as [_ (q & Hcq & Hsc)]. unfold capacity. by rewrite Hcq.
  - destruct Hwf as (Hne & _ & _). destruct (Sizes config) as [|c l] eqn:Hs; [done|].
    destruct (Hfwd c ltac:(left)) as (r & Hr & _). intros He. by rewrite He in Hr.
  - simpl. split; [destruct (Hbwd _ _ Hk) as (c & ? & ? & _); by exists c|].
    intros c Hc Hn. destruct (Hfwd c Hc) as (r' & Hr' & Hm). rewrite Hn, Hk in Hr'. injection Hr' as <-.
    split; [done|]. destruct Hbest as [[Hfit Hmin]|Hmax]; [left|right].
    + rewrite <- (current_fits _ _ _ _ _ Hcur Hm). split; [done|]. intros c' Hc' Hle.
      destruct (Hfwd c' Hc') as (r' & Hr' & Hm'). rewrite <- (current_fits _ _ _ _ _ Hcur Hm') in Hle.
      specialize (Hmin _ _ Hr' Hle). unfold memory_of in Hmin. by rewrite Hm, Hm' in Hmin.
    + intros c' Hc'. destruct (Hfwd c' Hc') as (r' & Hr' & Hm').
      destruct (Hmax _ _ Hr') as [Hle Hx]. rewrite (current_fits _ _ _ _ _ Hcur Hm') in Hle.
      unfold memory_of in Hx. by rewrite Hm, Hm' in Hx.
Qed.

Section Controller.
Context {S : Type} `{!Kube S} `{!KubeLaws S} `{!MapOrder} `{!SliceSort} `{!QuantityParser}.

Lemma client_inv {A} (m : st S api_error A) s cache r x : client m (s, cache) = (r, x) →
  ∃ s', m s = (r, s') ∧ x = (s', cache).
Proof. unfold client. destruct (m s) as [r1 s1]. intros [= <- <-]. eauto. Qed.

(** The key of the estimator of the API server's memory. *)
Definition estimator (hc : HostedCluster) : NamespacedName :=
  (HostedControlPlaneNamespace (hcNamespace hc) (hcName hc), "kube-apiserver").

Lemma updateSizeCache_Ret s cache a x : updateSizeCache (s, cache) = (Ret a, x) →
  ∃ config cache', o_sizing (view s) = Some config ∧ x = (s, cache') ∧
    update cache config (k_list_machinesets machineSetNamespace s) = (Ret (), cache').
Proof.
  unfold updateSizeCache. intros (config & x1 & (s1 & E1 & ->)%client_inv & E)%st_bind_Ret.
  apply wrap_inv in E1 as (r1 & [= <- <-] & Hr). pose proof (proj1 (Hr _) eq_refl) as Hget.
  exists config. unfold refresh in E. destruct (update _ _ _) as [r2 cache'] eqn:Hu.
  exists cache'. split; [by apply get_sizing_stored|]. destruct r2 as [[]|e|]; simplify_eq. done.
Qed.

(** When a recommendation is there, the annotation is it afterwards. *)
Lemma updateSizeRecommendation_Ret v hc l s cache a s' cache' memory :
  updateSizeRecommendation v hc (s, cache) = (Ret a, (s', cache')) →
  o_hcs (view s) !! hcKey hc = Some hc → vpaRecommendation v = Some l → kubeAPIServerMemory l = Some memory →
  recommendedSize cache (Quantity.AsApproximateFloat64 memory) ≠ "" →
  cache' = cache ∧ o_vpas (view s') = o_vpas (view s) ∧ ∃ m,
    o_hcs (view s') !! hcKey hc = Some (set_hcAnnotations m hc) ∧
    mget m RecommendedClusterSizeAnnotation = recommendedSize cache (Quantity.AsApproximateFloat64 memory) ∧
    ∀ k, k ≠ RecommendedClusterSizeAnnotation → m !! k = hcAnnotations hc !! k.
Proof.
  unfold updateSizeRecommendation. intros E Hst Hl Hmem Hne. rewrite Hl in E.
  unfold recommendedClusterSize in E. rewrite Hmem in E. rewrite (proj2 (str_eqb_neq _ _) Hne) in E.
  destruct (str_eqb (mget _ _) _) eqn:Hsame.
  - apply str_eqb_eq in Hsame. injection E as _ -> ->. do 2 (split; [done|]).
    exists (hcAnnotations hc). split; [|done]. rewrite Hst. by destruct hc.
  - apply client_inv in E as (s1 & (r1 & E & Hr)%wrap_inv & [= -> ->]).
    pose proof (proj1 (Hr _) eq_refl) as ->.
    apply patch_hc_stored in E; [|done]. apply wrote_Ret in E. rewrite E. split; [done|]. split; [done|].
    eexists. split; [apply lookup_insert_eq|]. split; [unfold mget; by rewrite lookup_insert_eq|].
    intros k Hk. by rewrite lookup_insert_ne.
Qed.

Lemma reconcile_cluster_Ret hc s cache a s' cache' v l memory :
  reconcile_cluster hc (s, cache) = (Ret a, (s', cache')) →
  hcDeleting hc = false → autoscaled hc = true → o_hcs (view s) !! hcKey hc = Some hc →
  recommendedSize cache (Quantity.AsApproximateFloat64 memory) ≠ "" →
  o_vpas (view s') !! estimator hc = Some v → isVPAReady v = true →
  vpaRecommendation v = Some l → kubeAPIServerMemory l = Some memory →
  cache' = cache ∧ ∃ m, o_hcs (view s') !! hcKey hc = Some (set_hcAnnotations m hc) ∧
    mget m RecommendedClusterSizeAnnotation = recommendedSize cache (Quantity.AsApproximateFloat64 memory) ∧
    ∀ k, k ≠ RecommendedClusterSizeAnnotation → m !! k = hcAnnotations hc !! k.
Proof.
  unfold reconcile_cluster. intros E Hd Ha Hst Hne Hv Hready Hl Hmem. rewrite Hd, Ha in E.
  simpl negb in E. cbv iota zeta in E.
  apply st_bind_Ret in E as (v0 & x1 & (s1 & (r1 & E1 & Hr)%wrap_inv & ->)%client_inv & E).
  pose proof (proj1 (Hr _) eq_refl) as ->. apply cou_vpa_stored in E1 as [Hcou _].
  destruct (Hcou v0 eq_refl) as [_ Hview]. clear Hcou.
  assert (Hv0 : o_vpas (view s1) !! estimator hc = Some v0) by (rewrite Hview; apply lookup_insert_eq).
  assert (Hst1 : o_hcs (view s1) !! hcKey hc = Some hc) by (by rewrite Hview).
  destruct (negb (isVPAReady v0)) eqn:Hnr.
  { injection E as _ -> ->. assert (v0 = v) as -> by congruence. by rewrite Hready in Hnr. }
  apply st_bind_Ret in E as (u & [s2 cache2] & E & [= _ -> ->]).
  assert (Hsame : o_vpas (view s') = o_vpas (view s1)).
  { revert E. unfold updateSizeRecommendation. destruct (vpaRecommendation v0); [|done].
    do 2 (destruct (str_eqb _ _); [by intros [= _ -> ->]|]).
    intros (s3 & (r3 & E & Hr3)%wrap_inv & [= -> ->])%client_inv.
    apply patch_hc_stored in E; [|done]. by destruct E as [-> |[-> _]]. }
  assert (v0 = v) as -> by congruence.
  by destruct (updateSizeRecommendation_Ret _ _ _ _ _ _ _ _ _ E Hst1 Hl Hmem Hne) as (-> & _ & Hm).
Qed.

(** C12: a hosted cluster that is sized by resources gets the right size.  Given
a configuration with distinct, named sizes that gives the memory of each size, a
cache left by updates from earlier generations of it, a hosted cluster that is
not being deleted and has no size override, and, after a successful
reconciliation, a ready vertical pod autoscaler with a recommendation for the
memory of the API server: the sizing controller chooses for the hosted cluster
as it is then stored a size of the configuration, never its fall-back, and it is
the smallest whose memory, times the configured fraction, is at least the
recommended memory, or the largest when none is. *)
Theorem autoscaled_to_right_size cache csc req s a s' cache' config hc v l memory sizing present :
  Reconcile req (s, cache) = (Ret a, (s', cache')) →
  cache_run cache csc → o_sizing (view s) = Some config → later csc config → well_formed config →
  o_hcs (view s) !! req = Some hc → hcDeleting hc = false → autoscaled hc = true →
  mget (hcAnnotations hc) ClusterSizeOverrideAnnotation = "" →
  o_vpas (view s') !! estimator hc = Some v → isVPAReady v = true →
  vpaRecommendation v = Some l → kubeAPIServerMemory l = Some memory →
  ∃ hc' c, o_hcs (view s') !! req = Some hc' ∧
    computeSizeClass sizing config hc' present = Ret (Some (Some c)) ∧
    scName c = mget (hcAnnotations hc') RecommendedClusterSizeAnnotation ∧ right_size config memory c.
Proof.
  unfold Reconcile. intros (? & x & (config0 & cache1 & Hsz & -> & Hu)%updateSizeCache_Ret & E)%st_bind_Ret.
  intros Hrun Hconf Hlat Hwf Hhc Hdel Haut Hover Hv Hready Hl Hmem.
  assert (config0 = config) as -> by congruence.
  assert (Hcur : current cache1 config).
  { eapply update_follows; [|exact Hu|done]. eapply follows_later; [|exact Hlat]. by apply cache_run_follows. }
  destruct (recommended_right cache1 config memory Hwf Hcur) as [(c & Hc & Hn) Hright].
  assert (Hne : recommendedSize cache1 (Quantity.AsApproximateFloat64 memory) ≠ "").
  { rewrite <- Hn. destruct Hwf as (_ & _ & Hq). by apply (Hq c). }
  unfold with_cluster in E. destruct (k_get_hc req s) as [hc0|e|] eqn:Hg; [|destruct (IsNotFound e) eqn:He|done].
  2: { rewrite (get_hc_missing _ _ _ Hg He) in Hhc. done. }
  2: done.
  apply get_hc_stored in Hg as [Hst Hkey]. pose proof (eq_trans (eq_sym Hst) Hhc) as [= ->].
  rewrite <- Hkey in Hst.
  destruct (reconcile_cluster_Ret _ _ _ _ _ _ _ _ _ E Hdel Haut Hst Hne Hv Hready Hl Hmem) as (_ & m & Hst' & Hm & Hother).
  destruct (List.find (λ c, str_eqb (scName c) (mget m RecommendedClusterSizeAnnotation)) (Sizes config))
    as [c0|] eqn:Hf.
  2: { pose proof (proj1 (find_None_elem _ _) Hf c Hc) as Hx. simpl in Hx. rewrite Hm, Hn, str_eqb_refl in Hx. done. }
  destruct (find_Some_elem _ _ _ Hf) as [Hc0 Hn0%str_eqb_eq].
  exists (set_hcAnnotations m hc), c0. rewrite <- Hkey. split; [done|]. split.
  - unfold computeSizeClass. simpl. unfold mget in Hover |- * at 1. rewrite Hother, Hover by done. simpl.
    unfold mget at 1. rewrite Hother by done. apply andb_true_iff in Haut as [Haut _]. unfold mget in Haut.
    rewrite Haut. destruct Hwf as (Hnonempty & _). destruct (Sizes config); [done|].
    rewrite Hm, (proj2 (str_eqb_neq _ _) Hne). cbn [negb]. by rewrite <- Hm, Hf.
  - split; [done|]. apply Hright; [done|]. by rewrite Hn0, Hm.
Qed.

End Controller.

End ResourceBasedAutoscalerProofs.

(** A management cluster in memory: two sizes, and a hosted cluster whose API server
was measured. *)
Module Samples.
Import ClusterSizing Scheduler SchedulerLaws RequestServing NodeAutoscaler ResourceBasedAutoscaler.
Import ResourceBasedAutoscalerProofs.

#[export] Instance listed_order : MapOrder.
Proof. refine {| range A m := map_to_list m |}. done. Defined.

(** Whole numbers, of mebibytes or of units. *)
#[export] Instance whole_numbers : QuantityParser.
Proof.
  refine {| ParseQuantity s :=
    n ← Semver.ParseInt (trim_suffix s "Mi");
    let v := (n * (if has_suffix s "Mi" then 2 ^ 20 else 1))%Z in
    if ((min_int64 <=? v) && (v <=? max_int64))%Z then Some (Quantity.mkQuantity false v 0) else None |}.
  intros s q. destruct (Semver.ParseInt _) as [n|]; simpl; [|done].
  destruct ((_ <=? _) && (_ <=? _))%Z eqn:Hr; [|done]. intros [= <-]. split; simpl; lia.
Defined.

Definition gib (n : Z) : Quantity.Quantity := Quantity.mkQuantity false (n * 2 ^ 30) 0.
Definition size (name : string) (n : Z) : SizeConfiguration :=
  mkSizeConfiguration name (mkCriteria 0 None) None None (Some (mkCapacity (Some (gib n)) None)).
Definition config : ClusterSizingConfiguration := mkConfig [size "small" 8; size "large" 64; size "huge" 128] 0 0 0 0 [].

Definition hosted : HostedCluster :=
  mkHC "clusters" "a" false None ∅
    {[ResourceBasedControlPlaneAutoscalingAnnotation := "true"; TopologyAnnotation := DedicatedRequestServingComponentsTopology]}
    [] [].
Definition measured : VPA :=
  mkVPA "clusters-a" "kube-apiserver" false ∅ None None
    (Some [mkRecommendation "other" None; mkRecommendation "kube-apiserver" (Some (gib 10))])
    [mkVPACondition RecommendationProvided "True"].
Definition cluster : Objects :=
  mkObjects {[("clusters", "a") := hosted]} (Some config) ∅ ∅ ∅ ∅ ∅ ∅ {[vpaKey measured := measured]}.
Definition after : Objects * machineSizesCache := (Reconcile ("clusters", "a") (cluster, empty_cache)).2.

Example recommended : (λ hc, mget (hcAnnotations hc) RecommendedClusterSizeAnnotation) <$> o_hcs after.1 !! ("clusters", "a") = Some "large".
Proof. vm_compute. reflexivity. Qed.

Lemma config_well_formed : well_formed config.
Proof.
  split; [discriminate|]. split; [apply (bool_decide_unpack _); vm_compute; exact I|].
  intros c Hc. unfold config in Hc. simpl in Hc. rewrite !elem_of_cons, elem_of_nil in Hc.
  destruct Hc as [->|[->|[->|[]]]]; (split; [discriminate|]); eexists; (split; [reflexivity|simpl; lia]).
Defined.

Lemma cache_current_witness : current (update empty_cache config (Ret [])).2 config.
Proof.
  apply (cache_current empty_cache config config (Ret [])).
  - apply run_start. simpl. lia.
  - split; [lia|done].
  - vm_compute. reflexivity.
Defined.

Definition sizing_reconciler : reconciler :=
  mkReconciler 0 (Ret config) (λ _ _, Ret hosted) (Ret []) (λ _, Ret false) (λ _, Ret []) (λ _, Ret None).
Definition measured' : VPA := reconcileKubeAPIServerVPAFunc hosted measured.

Lemma autoscaled_to_right_size_witness :
  ∃ hc' c, o_hcs (view after.1) !! ("clusters", "a") = Some hc' ∧
    computeSizeClass sizing_reconciler config hc' true = Ret (Some (Some c)) ∧
    scName c = mget (hcAnnotations hc') RecommendedClusterSizeAnnotation ∧ right_size config (gib 10) c.
Proof.
  apply (autoscaled_to_right_size empty_cache config ("clusters", "a") cluster no_requeue after.1 after.2 config hosted
    measured' (default [] (vpaRecommendation measured')) (gib 10) sizing_reconciler true).
  - vm_compute. reflexivity.
  - apply run_start. simpl. lia.
  - reflexivity.
  - split; [lia|done].
  - apply config_well_formed.
  - vm_compute. reflexivity.
  - reflexivity.
  - vm_compute. reflexivity.
  - vm_compute. reflexivity.
  - vm_compute. reflexivity.
  - vm_compute. reflexivity.
  - reflexivity.
  - vm_compute. reflexivity.
Defined.

(** When the sizes come from machine sets, a machine set of a size that is not
configured is in the cache too; it can be recommended, and the sizing controller
then falls back to the first size. *)
Definition machines_of (name mb : string) : MachineSet :=
  mkMachineSet machineSetNamespace name {[memoryMbAnnotation := mb; vCPUAnnotation := "4"]} ∅ {[NodeSizeLabel := name]} None 0.
Definition plain (name : string) : SizeConfiguration := mkSize name (mkCriteria 0 None) None.
Definition unlisted : ClusterSizingConfiguration := mkConfig [plain "small"; plain "large"] 0 0 0 0 [].
Definition introspected : machineSizesCache :=
  (update empty_cache unlisted (Ret [machines_of "retired" "32768"; machines_of "small" "8192"; machines_of "large" "65536"])).2.
Definition with_recommendation (s : string) : HostedCluster :=
  set_hcAnnotations (<[RecommendedClusterSizeAnnotation := s]> (hcAnnotations hosted)) hosted.

Lemma unconfigured_size_recommended :
  recommendedSize introspected (Quantity.AsApproximateFloat64 (gib 10)) = "retired" ∧
  computeSizeClass sizing_reconciler unlisted (with_recommendation "retired") true = Ret (Some (Some (plain "small"))).
Proof. split; vm_compute; reflexivity. Qed.

End Samples.
