(* ===== verification/Apply.v ===== *)
(** Applying manifests: [support/upsert/apply.go], with
[DeleteIfNeededWithOptions] of [support/util/util.go] and [FindJobCondition] of
[support/util/job.go].  [ApplyManifest] merges the metadata of the manifest into
the maps of the object it read from the server: the two objects share those maps
from then on, so the model keeps label and annotation maps in a heap. *)
From S2P Require Import Prelude GoSort Api Upsert UpsertProofs.

Module Apply.
Import Upsert UpsertProofs.

(** *** Maps in memory *)

(** A map value is an index into the heap. *)
Definition heap : Type := list StringMap.
Definition loc : Type := nat.

Definition alloc (h : heap) (m : StringMap) : heap * loc := (h ++ [m], length h).
(** A map field that may be nil. *)
Definition alloc_opt (h : heap) (m : option StringMap) : heap * option loc :=
  match m with
  | None => (h, None)
  | Some m => let '(h, l) := alloc h m in (h, Some l)
  end.
Definition hget (h : heap) (l : loc) : StringMap := default ∅ (h !! l).
Definition deref_opt (h : heap) (l : option loc) : option StringMap := hget h <$> l.

(** An object in memory: its labels and annotations are references. *)
Record memObject : Type := mkMem {
  m_base : Object;
  m_labels : option loc;
  m_annotations : option loc;
}.

Definition set_meta (labels annotations : option StringMap) (o : Object) : Object :=
  mkObject (oNamespace o) (oName o) (oUID o) labels annotations (oFinalizers o) (oResourceVersion o)
    (oDeletionTimestamp o) (oBody o) (oStatus o).
Definition set_finalizers (fs : list string) (o : Object) : Object :=
  mkObject (oNamespace o) (oName o) (oUID o) (oLabels o) (oAnnotations o) fs (oResourceVersion o)
    (oDeletionTimestamp o) (oBody o) (oStatus o).
Definition set_resourceVersion (rv : string) (o : Object) : Object :=
  mkObject (oNamespace o) (oName o) (oUID o) (oLabels o) (oAnnotations o) (oFinalizers o) rv
    (oDeletionTimestamp o) (oBody o) (oStatus o).

(** A freshly decoded object has maps of its own. *)
Definition load (h : heap) (o : Object) : heap * memObject :=
  let '(h, l) := alloc_opt h (oLabels o) in
  let '(h, a) := alloc_opt h (oAnnotations o) in
  (h, mkMem (set_meta None None o) l a).

(** The value an object has in a heap. *)
Definition deref (h : heap) (o : memObject) : Object :=
  set_meta (deref_opt h (m_labels o)) (deref_opt h (m_annotations o)) (m_base o).

(** *** Metadata *)

(** [const RemoveLabelMarker] *)
Definition RemoveLabelMarker : string := "__REMOVE_LABEL__".

(** [func cleanupRemovalMarkers(obj crclient.Object)] *)
Definition cleanupRemovalMarkers (obj : Object) : Object :=
  match oLabels obj with
  | None => obj
  | Some labels =>
      let filteredLabels := filter (λ kv, kv.2 ≠ RemoveLabelMarker) labels in
      set_meta (if (size filteredLabels =? 0)%nat then None else Some filteredLabels)
        (oAnnotations obj) obj
  end.

(** The loop over the labels of the manifest: a marked label is deleted, any
other is set. *)
Definition mergeLabels (labels mutated : StringMap) : StringMap :=
  map_fold (λ k v labels, if str_eqb v RemoveLabelMarker then delete k labels
                          else <[k := v]> labels) labels mutated.

(** [func preserveOriginalMetadata(original, mutated crclient.Object)]:
[GetLabels] returns the map itself, so the merge writes into the original's
maps, and [SetLabels] makes the mutated object refer to them. *)
Definition preserveOriginalMetadata (h : heap) (original mutated : memObject) : heap * memObject :=
  let '(h, labels) := match m_labels original with
                      | Some l => (h, l)
                      | None => alloc h ∅
                      end in
  let h := <[labels := mergeLabels (hget h labels) (default ∅ (deref_opt h (m_labels mutated)))]> h in
  let '(h, annotations) := match m_annotations original with
                           | Some l => (h, l)
                           | None => alloc h ∅
                           end in
  let h := <[annotations :=
    default ∅ (deref_opt h (m_annotations mutated)) ∪ hget h annotations]> h in
  let base := set_finalizers
    (sets_List (list_to_set (oFinalizers (m_base original)) ∪
                list_to_set (oFinalizers (m_base mutated)))) (m_base mutated) in
  let base := set_resourceVersion (oResourceVersion (m_base original)) base in
  (h, mkMem base (Some labels) (Some annotations)).

(** *** Unstructured objects *)

(** [unstructured.RemoveNestedField(obj, fields...)] *)
Fixpoint RemoveNestedField (path : list string) (u : json) : json :=
  match path, u with
  | [f], JMap fields => JMap (List.filter (λ kv, negb (str_eqb kv.1 f)) fields)
  | f :: path, JMap fields =>
      JMap ((λ kv, if str_eqb kv.1 f then (kv.1, RemoveNestedField path kv.2) else kv) <$> fields)
  | _, _ => u
  end.

(** The converter and the comparison of apimachinery: [DeepDerivative new old]
ignores the fields [new] leaves unset. *)
Class Unstructured : Type := {
  ToUnstructured : Object → go api_error json;
  DeepDerivative : json → json → bool;
  JobSpecDerivative : string → string → bool;
  DeepDerivative_refl u : DeepDerivative u u = true;
}.

(** [var ignoreMetadataFields] *)
Definition ignoreMetadataFields : list string := ["uid"; "generation"; "creationTimestamp"].

(** [func toUnstructured(obj crclient.Object) (map[string]any, error)] *)
Definition toUnstructured `{!Unstructured} (obj : Object) : go api_error json :=
  u ← ToUnstructured obj;
  let u := fold_left (λ u field, RemoveNestedField ["metadata"; field] u) ignoreMetadataFields u in
  Ret (RemoveNestedField ["status"] u).

(** *** The provider *)

(** [func FindJobCondition(object *batchv1.Job, conditionType)], over the
conditions of the status, type and status each. *)
Definition FindJobCondition (conds : list (string * string)) (t : string)
    : option (string * string) := List.find (λ c, str_eqb c.1 t) conds.

Section Provider.
Context {S : Type} `{!Client S ObjectRef Object} `{!Unstructured}.

(** [func DeleteIfNeededWithOptions(ctx, c, o, opts...) (exists bool, err error)] *)
Definition DeleteIfNeededWithOptions (o : Object) : st (world S) api_error bool := λ w,
  match c_get (ref_of o) (w_cluster w) with
  | Panic => (Panic, w)
  | Throw err =>
      if IsNotFound err || IsNoMatchError err then (Ret false, w)
      else (Throw (Wrapped ("error getting " +:+ goTypeName o) err), w)
  | Ret o =>
      if bool_decide (oDeletionTimestamp o ≠ None) then (Ret true, w) else
      match run (c_delete (ref_of o)) w with
      | (Ret _, w) => (Ret true, w)
      | (Throw err, w) =>
          if IsNotFound err then (Ret false, w)
          else (Throw (Wrapped ("error deleting " +:+ goTypeName o) err), w)
      | (Panic, w) => (Panic, w)
      end
  end.

(** The [switch existingTyped := existing.(type)] of [applyProvider.update]. *)
Definition preserveImmutable (existing obj : memObject) : go api_error memObject :=
  match oBody (m_base existing), oBody (m_base obj) with
  | ServiceAccount o, ServiceAccount m =>
      Ret (mkMem (set_body (ServiceAccount (preserveServiceAccountPullSecrets o m)) (m_base obj))
             (m_labels obj) (m_annotations obj))
  | Deployment (Some sel) _, Deployment _ m =>
      Ret (mkMem (set_body (Deployment (Some sel) m) (m_base obj)) (m_labels obj) (m_annotations obj))
  | Deployment None _, _ => Ret obj
  | ServiceAccount _, _ | Deployment _ _, _ => Panic
  | _, _ => Ret obj
  end.

(** [func (p *applyProvider) update] *)
Definition applyUpdate (h : heap) (obj existing : memObject)
    : st (world S) api_error OperationResult :=
  let key := ObjectKeyFromObject (m_base obj) in
  let originalLabelCount := size (default ∅ (deref_opt h (m_labels existing))) in
  obj ← st_lift (preserveImmutable existing obj);
  let '(h, obj) := preserveOriginalMetadata h existing obj in
  current ← st_lift (toUnstructured (deref h existing));
  modified ← st_lift (toUnstructured (deref h obj));
  let mutatedLabels := default ∅ (deref_opt h (m_labels obj)) in
  let labelsRemoved := (size mutatedLabels <? originalLabelCount)%nat in
  let isEqual := if labelsRemoved then false else DeepDerivative modified current in
  if isEqual then
    _ ← noteNoOp (deref h obj) key;
    mret OperationResultNone
  else
    _ ← (match oBody (m_base existing) with
         | Job _ => if bool_decide (oDeletionTimestamp (m_base existing) = None)
                    then run (c_delete (ref_of (m_base existing))) else mret ()
         | _ => mret ()
         end);
    _ ← noteUpdate (deref h existing) key;
    _ ← run (c_update (ref_of (m_base obj)) (deref h obj));
    mret OperationResultUpdated.

(** The [case *batchv1.Job] of [ApplyManifest]: a failed job or one with
another spec is deleted, to be created again by a later call. *)
Definition applyJob (obj existing : Object) (spec existingSpec : string)
    : st (world S) api_error OperationResult :=
  let failed := FindJobCondition (oStatus existing) "Failed" in
  let usable := match failed with None => true | Some c => str_eqb c.2 "False" end in
  if usable && JobSpecDerivative spec existingSpec then mret OperationResultNone
  else _ ← DeleteIfNeededWithOptions obj; mret OperationResultNone.

(** [func (p *applyProvider) ApplyManifest] *)
Definition ApplyManifest (obj : Object) : st (world S) api_error OperationResult := λ w,
  match c_get (ref_of obj) (w_cluster w) with
  | Panic => (Panic, w)
  | Throw err =>
      if negb (IsNotFound err) then (Throw err, w) else
      let obj := cleanupRemovalMarkers obj in
      (_ ← run (c_create (ref_of obj) obj); mret OperationResultCreated) w
  | Ret existing =>
      match oBody obj, oBody existing with
      | Job spec, Job existingSpec => applyJob obj existing spec existingSpec w
      | Job _, _ => (Panic, w)
      | _, _ =>
          let '(h, obj) := load [] obj in
          let '(h, existing) := load h existing in
          applyUpdate h obj existing w
      end
  end.

(** [func (p *applyProvider) ValidateUpdateEvents(threshold int) error]: the
aggregated errors, one per object, in no particular order. *)
Definition ValidateUpdateEvents (threshold : Z) (w : world S) : list (string * Z) :=
  match w_detector w with
  | None => []
  | Some d => List.filter (λ kc, (threshold <? kc.2)%Z) (map_to_list (updateEventCount d))
  end.

End Provider.

(** *** Merging *)

Lemma mergeLabels_lookup labels mutated k :
  mergeLabels labels mutated !! k =
  match mutated !! k with
  | Some v => if str_eqb v RemoveLabelMarker then None else Some v
  | None => labels !! k
  end.
Proof.
  unfold mergeLabels. revert k.
  apply (map_fold_weak_ind (λ r m, ∀ k, r !! k =
    match m !! k with
    | Some v => if str_eqb v RemoveLabelMarker then None else Some v
    | None => labels !! k end)); [done|].
  intros i v m r Hi IH k. destruct (decide (k = i)) as [-> | Hne].
  - rewrite lookup_insert_eq. case_match; [apply lookup_delete_eq|apply lookup_insert_eq].
  - rewrite lookup_insert_ne by done. rewrite <- IH.
    case_match; [by apply lookup_delete_ne|by apply lookup_insert_ne].
Qed.

(** The labels and annotations an update asks for. *)
Definition wantedLabels (e obj : Object) : StringMap :=
  mergeLabels (default ∅ (oLabels e)) (default ∅ (oLabels obj)).
Definition wantedAnnotations (e obj : Object) : StringMap :=
  default ∅ (oAnnotations obj) ∪ default ∅ (oAnnotations e).

(** The object [applyProvider.update] writes, for a body [b]. *)
Definition merged (b : ObjectBody) (e obj : Object) : Object :=
  mkObject (oNamespace obj) (oName obj) (oUID obj) (Some (wantedLabels e obj)) (Some (wantedAnnotations e obj))
    (sets_List (list_to_set (oFinalizers e) ∪ list_to_set (oFinalizers obj)))
    (oResourceVersion e) (oDeletionTimestamp obj) b (oStatus obj).

(** The server's object as it looks in memory after the merge: its non-nil maps
were overwritten by the merge. *)
Definition clobbered (e obj : Object) : Object :=
  set_meta ((λ _, wantedLabels e obj) <$> oLabels e)
    ((λ _, wantedAnnotations e obj) <$> oAnnotations e) e.

(** [preserveImmutable] on values. *)
Definition wantedBody (e obj : Object) : go api_error ObjectBody :=
  match oBody e, oBody obj with
  | ServiceAccount o, ServiceAccount m => Ret (ServiceAccount (preserveServiceAccountPullSecrets o m))
  | Deployment (Some sel) _, Deployment _ m => Ret (Deployment (Some sel) m)
  | Deployment None _, b => Ret b
  | ServiceAccount _, _ | Deployment _ _, _ => Panic
  | _, b => Ret b
  end.

Lemma preserveImmutable_body me mo e obj :
  m_base mo = set_meta None None obj → m_base me = set_meta None None e →
  preserveImmutable me mo =
  (b ← wantedBody e obj; Ret (mkMem (set_body b (m_base mo)) (m_labels mo) (m_annotations mo))).
Proof.
  destruct mo as [bo lo ao]. simpl. intros -> Hbe. unfold preserveImmutable, wantedBody.
  rewrite Hbe. simpl. destruct e as [???????? be ?], obj as [???????? bo' ?]; simpl.
  destruct be as [[|]| | | | | | | | | | | |], bo'; done.
Qed.

Lemma load_preserve e obj :
  let '(h, mo) := load [] obj in
  let '(h, me) := load h e in
  match preserveImmutable me mo with
  | Ret mo =>
      let '(h', mo') := preserveOriginalMetadata h me mo in
      wantedBody e obj = Ret (oBody (m_base mo)) ∧
      deref h' me = clobbered e obj ∧ deref h' mo' = merged (oBody (m_base mo)) e obj ∧
      deref_opt h (m_labels me) = oLabels e ∧
      deref_opt h' (m_labels mo') = Some (wantedLabels e obj) ∧
      ref_of (m_base mo') = ref_of (set_body (oBody (m_base mo)) obj)
  | Throw err => wantedBody e obj = Throw err
  | Panic => wantedBody e obj = Panic
  end.
Proof.
  destruct (load [] obj) as [h mo] eqn:Ho, (load h e) as [h2 me] eqn:He.
  assert (m_base mo = set_meta None None obj ∧ m_base me = set_meta None None e) as [Hbo Hbe].
  { unfold load in *. repeat case_match; by simplify_eq. }
  rewrite (preserveImmutable_body me mo e obj) by done.
  destruct (wantedBody e obj) as [b| |]; [|done..]. simpl. revert Ho He.
  destruct e as [??? [le|] [ae|] ??? be ?], obj as [??? [lo|] [ao|] ??? bo ?];
    intros [= <- <-] [= <- <-]; simpl; by split_and!.
Qed.

Section Provider.
Context {S : Type} `{!Client S ObjectRef Object} `{!ClientLaws S ObjectRef Object}.
Context `{!Unstructured}.

Definition is_job (o : Object) : bool := match oBody o with Job _ => true | _ => false end.

(** [ApplyManifest] of an object that exists, on values. *)
Lemma ApplyManifest_existing (w : world S) obj e b cur mod_ :
  c_get (ref_of obj) (w_cluster w) = Ret e →
  is_job obj = false → is_job e = false →
  wantedBody e obj = Ret b →
  toUnstructured (clobbered e obj) = Ret cur →
  toUnstructured (merged b e obj) = Ret mod_ →
  ApplyManifest obj w =
    if negb (size (wantedLabels e obj) <? size (default ∅ (oLabels e)))%nat && DeepDerivative mod_ cur
    then (_ ← noteNoOp (merged b e obj) (ObjectKeyFromObject obj); mret OperationResultNone) w
    else (_ ← noteUpdate (clobbered e obj) (ObjectKeyFromObject obj);
          _ ← run (c_update (ref_of (set_body b obj)) (merged b e obj));
          mret OperationResultUpdated) w.
Proof.
  intros Hg Hjo Hje Hb Hcur Hmod. unfold ApplyManifest. rewrite Hg.
  pose proof (load_preserve e obj) as Hl.
  destruct (load [] obj) as [h1 mo] eqn:Ho, (load h1 e) as [h2 me] eqn:He.
  assert (Hbo : m_base mo = set_meta None None obj).
  { unfold load in Ho. repeat case_match; by simplify_eq. }
  assert (Hbe : m_base me = set_meta None None e).
  { unfold load in He. repeat case_match; by simplify_eq. }
  assert (Hrun : ApplyManifest obj w = applyUpdate h2 mo me w).
  { unfold ApplyManifest. rewrite Hg, Ho, He. unfold is_job in *. by destruct (oBody obj), (oBody e). }
  unfold ApplyManifest in Hrun. rewrite Hg, Ho, He in Hrun. rewrite Hrun. clear Hrun.
  unfold applyUpdate, mbind, st_bind, st_lift.
  destruct (preserveImmutable me mo) as [mo'|err|]; [|congruence..].
  destruct (preserveOriginalMetadata h2 me mo') as [h' mo''].
  destruct Hl as (Hwb & Hde & Hdo & Hle & Hlo & Href).
  assert (b = oBody (m_base mo')) as -> by congruence.
  rewrite Hde, Hdo, Hcur, Hmod, Hle, Hlo, Href. simpl.
  replace (match oBody (m_base me) with Job _ => _ | _ => _ end)
    with (mret () : st (world S) api_error unit).
  2:{ rewrite Hbe. unfold is_job in Hje. simpl. by destruct (oBody e). }
  rewrite Hbo. change (ObjectKeyFromObject (set_meta None None obj)) with (ObjectKeyFromObject obj).
  destruct (size _ <? size _)%nat; simpl; [done|]. by destruct (DeepDerivative mod_ cur).
Qed.

Lemma default_fills_SA o : preserveServiceAccountPullSecrets o o = o.
Proof. apply default_fills; [apply fills_refl|done]. Qed.

(** An update happens only when both objects could be converted. *)
Lemma ApplyManifest_converts (w w' : world S) obj e :
  ApplyManifest obj w = (Ret OperationResultUpdated, w') →
  c_get (ref_of obj) (w_cluster w) = Ret e → is_job e = false → is_job obj = false →
  ∃ b cur md, wantedBody e obj = Ret b ∧ toUnstructured (clobbered e obj) = Ret cur ∧
    toUnstructured (merged b e obj) = Ret md.
Proof.
  intros Hrun Hg Hje Hjo.
  pose proof (load_preserve e obj) as Hl. unfold ApplyManifest in Hrun. rewrite Hg in Hrun.
  destruct (load [] obj) as [h1 mo], (load h1 e) as [h2 me].
  assert (Hu : applyUpdate h2 mo me w = (Ret OperationResultUpdated, w')).
  { unfold is_job in *. by destruct (oBody obj), (oBody e). }
  clear Hrun. unfold applyUpdate, mbind, st_bind, st_lift in Hu.
  destruct (preserveImmutable me mo) as [mo'| |]; [|done..].
  destruct (preserveOriginalMetadata h2 me mo') as [h' mo''].
  destruct Hl as (Hwb & Hde & Hdo & _). rewrite Hde, Hdo in Hu.
  destruct (toUnstructured (clobbered e obj)) as [cur| |]; [|done..].
  destruct (toUnstructured (merged _ e obj)) as [md| |] eqn:Hmd; [|done..]. eauto 10.
Qed.

(** Applying a manifest that equals the stored object in everything but its labels
and annotations writes nothing, whatever labels and annotations the manifest adds
or changes, when the stored object has labels and annotations already and the
merge leaves no fewer labels than before: the merge has written them into the
maps of the object it compares with. *)
Theorem ApplyManifest_loses_label_changes (w : world S) e obj u
    (Hget : c_get (ref_of obj) (w_cluster w) = Ret e)
    (Hjob : is_job e = false)
    (Hobj : obj = set_meta (oLabels obj) (oAnnotations obj) e)
    (Hlabels : oLabels e ≠ None) (Hannotations : oAnnotations e ≠ None)
    (Hfinalizers : sets_List (list_to_set (oFinalizers e)) = oFinalizers e)
    (Hcount : (size (default ∅ (oLabels e)) ≤ size (wantedLabels e obj))%nat)
    (Hconvert : toUnstructured (clobbered e obj) = Ret u) :
  ∃ w', ApplyManifest obj w = (Ret OperationResultNone, w') ∧ w_cluster w' = w_cluster w.
Proof.
  assert (Hb : wantedBody e obj = Ret (oBody e)).
  { rewrite Hobj. unfold wantedBody. simpl. destruct (oBody e) as [[|]| | | | | | | | | | | |]; try done.
    do 3 f_equal. apply default_fills_SA. }
  assert (Hm : merged (oBody e) e obj = clobbered e obj).
  { rewrite Hobj. unfold merged, clobbered. simpl. rewrite union_idemp_L, Hfinalizers.
    destruct e as [??? [|] [|] ?????]; done. }
  rewrite (ApplyManifest_existing w obj e (oBody e) u u); try done;
    [|by rewrite Hobj|by rewrite Hm].
  rewrite DeepDerivative_refl, (proj2 (Nat.ltb_ge _ _)) by done. simpl. by eexists.
Qed.

(** C37: When applying a manifest to a stored object other than a Job reports an
update, the object written under the manifest's name has exactly these labels:
those of the manifest, except the ones marked for removal, and the stored ones
the manifest does not name; exactly these annotations: those of the manifest and
the stored ones it does not name; the finalizers of both; the resource version
that was read; the manifest's body, but with the selector of a stored Deployment
that has one, and the secrets and additional pull secrets of a stored
ServiceAccount.  The cluster stores it as the server admits it, and nothing else
is written. *)
Theorem ApplyManifest_update_merges (w w' : world S) obj e
    (Hrun : ApplyManifest obj w = (Ret OperationResultUpdated, w'))
    (Hget : c_get (ref_of obj) (w_cluster w) = Ret e)
    (Hjob : is_job e = false) :
  ∃ o labels annotations,
    oNamespace o = oNamespace obj ∧ oName o = oName obj ∧
    oLabels o = Some labels ∧ oAnnotations o = Some annotations ∧
    (∀ k, labels !! k = match default ∅ (oLabels obj) !! k with
                        | Some v => if str_eqb v RemoveLabelMarker then None else Some v
                        | None => default ∅ (oLabels e) !! k end) ∧
    (∀ k, annotations !! k = match default ∅ (oAnnotations obj) !! k with
                             | Some v => Some v
                             | None => default ∅ (oAnnotations e) !! k end) ∧
    (∀ f, f ∈ oFinalizers o ↔ f ∈ oFinalizers e ∨ f ∈ oFinalizers obj) ∧
    oResourceVersion o = oResourceVersion e ∧
    wantedBody e obj = Ret (oBody o) ∧
    view (w_cluster w') = <[ref_of o := admit_object (view (w_cluster w) !! ref_of o) o]>
                            (view (w_cluster w)).
Proof.
  destruct (is_job obj) eqn:Hjo.
  { unfold ApplyManifest in Hrun. rewrite Hget in Hrun. unfold is_job in *.
    by destruct (oBody obj), (oBody e). }
  destruct (ApplyManifest_converts w w' obj e Hrun Hget Hjob Hjo) as (b & cur & md & Hb & Hc & Hm).
  rewrite (ApplyManifest_existing w obj e b cur md) in Hrun by done.
  case_match eqn:Heq; [by vm_compute in Hrun|]. clear Heq.
  unfold noteUpdate, run, mbind, st_bind in Hrun.
  exists (merged b e obj), (wantedLabels e obj), (wantedAnnotations e obj).
  split_and!; try done.
  - intros k. apply mergeLabels_lookup.
  - intros k. unfold wantedAnnotations. rewrite lookup_union.
    by destruct (default ∅ (oAnnotations obj) !! k), (default ∅ (oAnnotations e) !! k).
  - intros f. simpl. rewrite elem_of_sets_List. set_solver.
  - simpl in *. change (ref_of (merged b e obj)) with (ref_of (set_body b obj)).
    destruct (w_detector w) as [d|]; [destruct (recordActualUpdate _ _ _) as [d' ws]|]; simpl in *.
    all: destruct (c_update _ _ _) as [[o1| |] s1] eqn:Hu; try done.
    all: injection Hrun as <-; simpl; by apply update_stored in Hu as [-> ->].
Qed.

End Provider.

(** *** A label change that is lost *)

Module Sample.
Import SampleCluster.

(** A converter that keeps an object's labels. *)
Definition labels_json (o : Object) : json :=
  JMap [("metadata", JMap [("name", JLeaf (oName o)); ("uid", JLeaf "0");
     ("labels", JMap ((λ kv, (kv.1, JLeaf kv.2)) <$> map_to_list (default ∅ (oLabels o))))])].

#[export] Instance exact_Unstructured : Unstructured := {
  ToUnstructured o := Ret (labels_json o);
  DeepDerivative := json_eqb;
  JobSpecDerivative := str_eqb;
  DeepDerivative_refl := json_eqb_refl;
}.

Definition route (labels annotations : StringMap) : Object :=
  mkObject "clusters" "oauth" "" (Some labels) (Some annotations) [] "1" None
    (Route (mkRoute None "None" "")) [].
Definition before : Object := route {["app" := "oauth"]} {["owner" := "hypershift"]}.
Definition after : Object := route {["app" := "oauth"; "tier" := "control-plane"]} ∅.
Definition pruned : Object := route {["app" := RemoveLabelMarker]} ∅.
Definition w2 : world cluster := New true {[ref_of before := before]}.

End Sample.
Import SampleCluster Sample.

Lemma ApplyManifest_loses_label_changes_witness :
  default ∅ (oLabels before) !! "tier" = None ∧ default ∅ (oLabels after) !! "tier" = Some "control-plane" ∧
  ∃ w', ApplyManifest after w2 = (Ret OperationResultNone, w') ∧ w_cluster w' = w_cluster w2.
Proof.
  split; [reflexivity|]. split; [reflexivity|].
  eapply (ApplyManifest_loses_label_changes w2 before after); try reflexivity; try discriminate.
  vm_compute. lia.
Defined.

Lemma ApplyManifest_update_merges_witness :
  let '(r, w') := ApplyManifest pruned w2 in
  r = Ret OperationResultUpdated ∧
  ∃ o labels annotations,
    oNamespace o = oNamespace pruned ∧ oName o = oName pruned ∧
    oLabels o = Some labels ∧ oAnnotations o = Some annotations ∧
    (∀ k, labels !! k = match default ∅ (oLabels pruned) !! k with
                        | Some v => if str_eqb v RemoveLabelMarker then None else Some v
                        | None => default ∅ (oLabels before) !! k end) ∧
    (∀ k, annotations !! k = match default ∅ (oAnnotations pruned) !! k with
                             | Some v => Some v
                             | None => default ∅ (oAnnotations before) !! k end) ∧
    (∀ f, f ∈ oFinalizers o ↔ f ∈ oFinalizers before ∨ f ∈ oFinalizers pruned) ∧
    oResourceVersion o = oResourceVersion before ∧
    wantedBody before pruned = Ret (oBody o) ∧
    view (w_cluster w') = <[ref_of o := admit_object (view (w_cluster w2) !! ref_of o) o]>
                            (view (w_cluster w2)).
Proof.
  assert (Hr : (ApplyManifest pruned w2).1 = Ret OperationResultUpdated) by (vm_compute; reflexivity).
  destruct (ApplyManifest pruned w2) as [r w'] eqn:Hrun. simpl in Hr. subst r. split; [reflexivity|].
  apply (ApplyManifest_update_merges w2 w' pruned before Hrun); reflexivity.
Defined.

End Apply.
