(* ===== verification/GlobalConfig.v ===== *)
(** The cluster-wide proxy configuration:
[support/globalconfig/proxy.go]. *)
From S2P Require Import Prelude GoSort Semver Api.
From Stdlib Require Import Ascii.

Module GlobalConfig.

(** [configv1.ProxySpec]: the fields the package reads; [proxyRest] stands for
the others. *)
Record ProxySpec : Type := mkProxySpec {
  specHTTPProxy : string; specHTTPSProxy : string; specNoProxy : string; proxyRest : string }.

Record Proxy : Type := mkProxy {
  proxyAnnotations : option StringMap;
  proxySpec : ProxySpec;
  HTTPProxy : string; HTTPSProxy : string; NoProxy : string }.

(** The fields of [HostedControlPlane] and of [HostedCluster] the proxy depends on: the proxy of
[spec.configuration] (both may be nil), the CIDRs of the three networks as
strings, the platform type and the AWS region ([spec.platform.aws] may be nil). *)
Record ClusterNetworking : Type := mkNetworking {
  cnProxy : option (option ProxySpec);
  MachineNetwork : list string; ClusterNetwork : list string; ServiceNetwork : list string;
  cnPlatform : PlatformType; cnAWSRegion : option string }.

Definition emptyProxySpec : ProxySpec := mkProxySpec "" "" "" "".

(** [func ProxyConfig() *configv1.Proxy] *)
Definition ProxyConfig : Proxy := mkProxy None emptyProxySpec "" "" "".

Definition set_proxySpec (spec : ProxySpec) (cfg : Proxy) : Proxy :=
  mkProxy (proxyAnnotations cfg) spec (HTTPProxy cfg) (HTTPSProxy cfg) (NoProxy cfg).
Definition set_proxyAnnotations (m : option StringMap) (cfg : Proxy) : Proxy :=
  mkProxy m (proxySpec cfg) (HTTPProxy cfg) (HTTPSProxy cfg) (NoProxy cfg).

(** [func ReconcileProxyConfig(cfg *configv1.Proxy, hcfg *hyperv1.ClusterConfiguration)] *)
Definition ReconcileProxyConfig (cfg : Proxy) (hcfg : option (option ProxySpec)) : Proxy :=
  set_proxySpec (match hcfg with Some (Some spec) => spec | _ => emptyProxySpec end) cfg.

Definition hostedClusterProxyConfigDefinedAnnotation : string :=
  "hypershift.io/hosted-cluster-proxy-config".

(** [func ReconcileInClusterProxyConfig(cfg *configv1.Proxy, hcfg *hyperv1.ClusterConfiguration)] *)
Definition ReconcileInClusterProxyConfig (cfg : Proxy) (hcfg : option (option ProxySpec)) : Proxy :=
  let annotations := default ∅ (proxyAnnotations cfg) in
  match hcfg with
  | Some (Some spec) =>
      set_proxySpec spec
        (set_proxyAnnotations (Some (<[hostedClusterProxyConfigDefinedAnnotation := "true"]> annotations)) cfg)
  | _ =>
      if mhas annotations hostedClusterProxyConfigDefinedAnnotation then
        set_proxySpec emptyProxySpec
          (set_proxyAnnotations (delete hostedClusterProxyConfigDefinedAnnotation <$> proxyAnnotations cfg) cfg)
      else cfg
  end.

(** [strings.Join(l, ",")] *)
Fixpoint join_comma (l : list string) : string :=
  match l with
  | [] => ""
  | [x] => x
  | x :: l => x +:+ "," +:+ join_comma l
  end.

Definition cloudMetadata : string := "169.254.169.254".

(** The [no_proxy] entries that do not come from the user. *)
Definition builtinNoProxy (n : ClusterNetworking) (region : string) : list string :=
  ["127.0.0.1"; "localhost"; ".svc"; ".cluster.local"; ".local"] ++
  MachineNetwork n ++ ClusterNetwork n ++ ServiceNetwork n ++
  (if bool_decide (cnPlatform n = AWSPlatform) || bool_decide (cnPlatform n = AzurePlatform)
   then [cloudMetadata] else []) ++
  (if bool_decide (cnPlatform n = AWSPlatform) then
     if str_eqb region "us-east-1" then [".ec2.internal"] else ["." +:+ region +:+ ".compute.internal"]
   else []).

(** The entries of [spec.noProxy]. *)
Definition userNoProxy (noProxy : string) : list string :=
  if str_eqb noProxy "" then []
  else List.filter (λ v, negb (str_eqb v "")) (Semver.split ","%char noProxy).

(** [func defaultProxyStatus(p, machineNetwork, clusterNetwork, serviceNetwork, platform)];
[platform.AWS.Region] panics when the AWS platform has no [aws] field. *)
Definition defaultProxyStatus {E} (p : Proxy) (n : ClusterNetworking) : go E Proxy :=
  let spec := proxySpec p in
  let p := mkProxy (proxyAnnotations p) spec (specHTTPProxy spec) (specHTTPSProxy spec) (NoProxy p) in
  if str_eqb (specHTTPProxy spec) "" && str_eqb (specHTTPSProxy spec) "" then Ret p else
  region ← (if bool_decide (cnPlatform n = AWSPlatform)
            then match cnAWSRegion n with Some r => Ret r | None => Panic end else Ret "");
  let set : gset string :=
    list_to_set (builtinNoProxy n region) ∪ list_to_set (userNoProxy (specNoProxy spec)) in
  Ret (mkProxy (proxyAnnotations p) spec (HTTPProxy p) (HTTPSProxy p) (join_comma (sets_List set))).

(** [func ReconcileProxyConfigWithStatus(cfg *configv1.Proxy, hcp *hyperv1.HostedControlPlane)] *)
Definition ReconcileProxyConfigWithStatus {E} (cfg : Proxy) (n : ClusterNetworking) : go E Proxy :=
  defaultProxyStatus (ReconcileProxyConfig cfg (cnProxy n)) n.

(** [func ReconcileProxyConfigWithStatusFromHostedCluster(cfg *configv1.Proxy, hc *hyperv1.HostedCluster)] *)
Definition ReconcileProxyConfigWithStatusFromHostedCluster {E} (cfg : Proxy) (n : ClusterNetworking) : go E Proxy :=
  defaultProxyStatus (ReconcileProxyConfig cfg (cnProxy n)) n.

(** [func ImageConfig() *configv1.Image] of [support/globalconfig/image.go], its spec:
nothing but the name is set. *)
Definition ImageConfig (emptySpec : string) : string := emptySpec.

(** [func ReconcileImageConfigFromHostedCluster(cfg *configv1.Image, hc *hyperv1.HostedCluster)]:
the image spec of [spec.configuration], when both are there. *)
Definition ReconcileImageConfigFromHostedCluster (cfg : string) (image : option (option string)) : string :=
  match image with Some (Some spec) => spec | _ => cfg end.

End GlobalConfig.
