(* ===== verification/InPlaceUpgrader.v ===== *)
(** In-place upgrades of the nodes of a NodePool:
[control-plane-operator/hostedclusterconfigoperator/controllers/inplaceupgrader/inplaceupgrader.go].
The controller writes through [CreateOrUpdate] ([Upsert]), to the MachineSet on
the management cluster and to nodes, pods, a namespace and a config map on the
hosted cluster. *)
From S2P Require Import Prelude Semver Api Upsert GlobalConfig.

Module InPlaceUpgrader.
Import Upsert GlobalConfig.

(** *** Annotations *)

Definition CurrentMachineConfigAnnotationKey : string := "machineconfiguration.openshift.io/currentConfig".
Definition DesiredMachineConfigAnnotationKey : string := "machineconfiguration.openshift.io/desiredConfig".
Definition MachineConfigDaemonStateAnnotationKey : string := "machineconfiguration.openshift.io/state".
Definition MachineConfigDaemonStateDegraded : string := "Degraded".
Definition MachineConfigDaemonStateDone : string := "Done".
Definition MachineConfigDaemonMessageAnnotationKey : string := "machineconfiguration.openshift.io/reason".
Definition DesiredDrainerAnnotationKey : string := "machineconfiguration.openshift.io/desiredDrain".
Definition LastAppliedDrainerAnnotationKey : string := "machineconfiguration.openshift.io/lastAppliedDrain".
Definition MachineConfigOperatorImage : string := "machine-config-operator".
Definition nodePoolAnnotationTargetConfigVersion : string := "hypershift.openshift.io/nodePoolTargetConfigVersion".
Definition nodePoolAnnotationCurrentConfigVersion : string := "hypershift.openshift.io/nodePoolCurrentConfigVersion".
Definition nodePoolAnnotationUpgradeInProgressTrue : string := "hypershift.openshift.io/nodePoolUpgradeInProgressTrue".
Definition nodePoolAnnotationUpgradeInProgressFalse : string := "hypershift.openshift.io/nodePoolUpgradeInProgressFalse".
Definition nodePoolAnnotationMaxUnavailable : string := "hypershift.openshift.io/nodePoolMaxUnavailable".
Definition TokenSecretPayloadKey : string := "payload".

(** [o.Annotations[k]] *)
Definition annotation (o : Object) (k : string) : string := mget (default ∅ (oAnnotations o)) k.
Definition has_annotation (o : Object) (k : string) : bool := mhas (default ∅ (oAnnotations o)) k.

Definition set_annotations (m : option StringMap) (o : Object) : Object :=
  mkObject (oNamespace o) (oName o) (oUID o) (oLabels o) m (oFinalizers o) (oResourceVersion o)
    (oDeletionTimestamp o) (oBody o) (oStatus o).
Definition set_labels (m : option StringMap) (o : Object) : Object :=
  mkObject (oNamespace o) (oName o) (oUID o) m (oAnnotations o) (oFinalizers o) (oResourceVersion o)
    (oDeletionTimestamp o) (oBody o) (oStatus o).

(** [o.Annotations[k] = v]: a write to a nil map panics. *)
Definition set_annotation (k v : string) (o : Object) : go api_error Object :=
  match oAnnotations o with
  | None => Panic
  | Some m => Ret (set_annotations (Some (<[k := v]> m)) o)
  end.
(** [delete(o.Annotations, k)] *)
Definition delete_annotation (k : string) (o : Object) : Object :=
  set_annotations (delete k <$> oAnnotations o) o.

(** *** Which nodes to upgrade *)

(** [func nodeNeedsUpgrade(node *corev1.Node, currentConfigVersion, targetConfigVersion string) bool] *)
Definition nodeNeedsUpgrade (node : Object) (currentConfigVersion targetConfigVersion : string) : bool :=
  if negb (str_eqb (annotation node DesiredDrainerAnnotationKey)
             (annotation node LastAppliedDrainerAnnotationKey)) then true
  else if str_eqb (annotation node CurrentMachineConfigAnnotationKey) "" &&
          str_eqb currentConfigVersion targetConfigVersion then false
  else if negb (str_eqb (annotation node CurrentMachineConfigAnnotationKey) targetConfigVersion) then true
  else negb (str_eqb (annotation node MachineConfigDaemonStateAnnotationKey) MachineConfigDaemonStateDone).

(** [func inPlaceUpgradeComplete(nodes, currentConfigVersion, targetConfigVersion) bool] *)
Definition inPlaceUpgradeComplete (nodes : list Object) (currentConfigVersion targetConfigVersion : string) : bool :=
  forallb (λ node, negb (nodeNeedsUpgrade node currentConfigVersion targetConfigVersion)) nodes.

(** The current and the desired config of a node differ. *)
Definition updating (node : Object) : bool :=
  negb (str_eqb (annotation node CurrentMachineConfigAnnotationKey)
          (annotation node DesiredMachineConfigAnnotationKey)).
Definition targets (targetConfig : string) (node : Object) : bool :=
  str_eqb (annotation node DesiredMachineConfigAnnotationKey) targetConfig.

Definition count_nodes (p : Object → bool) (nodes : list Object) : Z :=
  Z.of_nat (length (List.filter p nodes)).

(** [func getCapacity(nodes, targetConfig, maxUnavailable int) int] *)
Definition getCapacity (nodes : list Object) (maxUnavailable : Z) : Z :=
  to_int64 (maxUnavailable - count_nodes updating nodes).

(** A [[]*corev1.Node] of the function's own: each element points to one of
the nodes of the pool, given by its index, or is nil. *)
Definition pointer : Type := option nat.

(** The pointers appended by [for _, node := range nodes { if p(node) { ... } }]. *)
Fixpoint indices_from (i : nat) (p : Object → bool) (nodes : list Object) : list nat :=
  match nodes with
  | [] => []
  | node :: nodes => if p node then i :: indices_from (S i) p nodes else indices_from (S i) p nodes
  end.
Definition indices (p : Object → bool) (nodes : list Object) : list nat := indices_from 0 p nodes.

(** The capacity of a slice of [n] elements appended one by one to a nil slice. *)
Class SliceGrowth : Type := {
  slice_cap : nat → nat;
  slice_cap_ge n : (n ≤ slice_cap n)%nat;
}.

(** [l[:n]]: the bound is the slice's capacity, not its length; elements past
the length are nil. *)
Definition slice_upto `{!SliceGrowth} (l : list nat) (n : Z) : go api_error (list pointer) :=
  if ((n <? 0) || (Z.of_nat (slice_cap (length l)) <? n))%Z then Panic
  else Ret (take (Z.to_nat n) ((Some <$> l) ++ replicate (slice_cap (length l) - length l) None)).

(** [func getAvailableCandidates(nodes, targetConfig, capacity int) []*corev1.Node] *)
Definition getAvailableCandidates `{!SliceGrowth} (nodes : list Object) (targetConfig : string)
    (capacity : Z) : go api_error (list pointer) :=
  if (capacity <? 1)%Z then Ret [] else
  let candidateNodes := indices (λ n, negb (targets targetConfig n) && negb (updating n)) nodes in
  if (length candidateNodes =? 0)%nat then Ret [] else
  slice_upto candidateNodes capacity.

(** [func getAlreadyUnavailableCandidates(nodes, targetConfig) []*corev1.Node] *)
Definition getAlreadyUnavailableCandidates (nodes : list Object) (targetConfig : string) : list nat :=
  indices (λ n, updating n && negb (targets targetConfig n)) nodes.

(** [func getNodesToUpgrade(nodes, targetConfig, maxUnavailable int) []*corev1.Node] *)
Definition getNodesToUpgrade `{!SliceGrowth} (nodes : list Object) (targetConfig : string)
    (maxUnavailable : Z) : go api_error (list pointer) :=
  let capacity := getCapacity nodes maxUnavailable in
  availableCandidates ← getAvailableCandidates nodes targetConfig capacity;
  let alreadyUnavailableNodes := getAlreadyUnavailableCandidates nodes targetConfig in
  Ret (availableCandidates ++ (Some <$> alreadyUnavailableNodes)).

(** *** The clusters *)

(** [metav1.OwnerReference] and [capiv1.Machine]: what the controller reads. *)
Record OwnerReference : Type := mkOwner {
  ownerKind : string; ownerName : string; ownerUID : string; ownerController : option bool }.
Record Machine : Type := mkMachine {
  mName : string; mOwners : list OwnerReference; mNodeRef : option string }.
Record HostedControlPlane : Type := mkHCP {
  hcpNamespace : string; hcpReleaseImage : string; hcpNetworking : ClusterNetworking }.

(** What the controller reads from the management cluster besides MachineSets. *)
Class Management (M : Type) : Type := {
  get_secret : string * string → M → go api_error StringMap;
  get_hcp : string * string → M → go api_error HostedControlPlane;
  list_machines : string → StringMap → M → go api_error (list Machine);
  get_machine : string * string → M → go api_error Machine;
}.

(** [metav1.GetControllerOf] *)
Definition GetControllerOf (m : Machine) : option OwnerReference :=
  List.find (λ r, match ownerController r with Some b => b | None => false end) (mOwners m).
(** [metav1.IsControlledBy] *)
Definition IsControlledBy (m : Machine) (owner : Object) : bool :=
  match GetControllerOf m with Some r => str_eqb (ownerUID r) (oUID owner) | None => false end.

(** [metav1.LabelSelectorAsMap] *)
Fixpoint selectorExpressions (exprs : list (string * string * list string)) (selector : StringMap)
    : go api_error StringMap :=
  match exprs with
  | [] => Ret selector
  | (key, op, values) :: exprs =>
      match values with
      | [v] => if str_eqb op "In" then selectorExpressions exprs (<[key := v]> selector)
               else Throw (OtherError "operator cannot be converted into the old label selector format")
      | _ => Throw (OtherError "operator cannot be converted into the old label selector format")
      end
  end.
Definition LabelSelectorAsMap (ps : LabelSelector) : go api_error StringMap :=
  selectorExpressions (MatchExpressions ps) (MatchLabels ps).

(** Both clusters and the one [CreateOrUpdateProvider] of the reconciler. *)
Record rstate (M G : Type) : Type := mkR {
  r_mgmt : M; r_guest : G;
  r_detector : option updateLoopDetector; r_warnings : list (string * Z) }.
Arguments mkR {M G} _ _ _ _.
Arguments r_mgmt {M G} _.
Arguments r_guest {M G} _.
Arguments r_detector {M G} _.
Arguments r_warnings {M G} _.

Definition kind_object (goType namespace name : string) (contents : json) : Object :=
  mkObject namespace name "" None None [] "" None (OtherObject goType contents) [].

(** [func inPlaceUpgradePod(namespace, nodeName string) *corev1.Pod] *)
Definition inPlaceUpgradePod (namespace nodeName : string) : Object :=
  kind_object "*v1.Pod" namespace ("machine-config-daemon-" +:+ nodeName) (JMap []).
(** [func inPlaceUpgradeNamespace(name string) *corev1.Namespace] *)
Definition inPlaceUpgradeNamespace (name : string) : Object :=
  kind_object "*v1.Namespace" "" (name +:+ "-upgrade") (JMap []).
(** [func inPlaceUpgradeConfigMap(poolName string, namespace string) *corev1.ConfigMap] *)
Definition inPlaceUpgradeConfigMap (poolName namespace : string) : Object :=
  kind_object "*v1.ConfigMap" namespace (poolName +:+ "-upgrade") (JMap []).

(** [func proxyToEnvVars(proxy *configv1.Proxy) []corev1.EnvVar] *)
Definition proxyToEnvVars (proxy : option Proxy) : list (string * string) :=
  match proxy with
  | None => []
  | Some p =>
      (if str_eqb (HTTPProxy p) "" then [] else [("HTTP_PROXY", HTTPProxy p)]) ++
      (if str_eqb (HTTPSProxy p) "" then [] else [("HTTPS_PROXY", HTTPSProxy p)]) ++
      (if str_eqb (NoProxy p) "" then [] else [("NO_PROXY", NoProxy p)])
  end.

(** Sets one field of a JSON object. *)
Definition json_set (k : string) (v : json) (u : json) : json :=
  match u with
  | JMap fields => JMap (List.filter (λ kv, negb (str_eqb kv.1 k)) fields ++ [(k, v)])
  | _ => JMap [(k, v)]
  end.
Definition strs (l : list string) : json := JList (JLeaf <$> l).
Definition obj_json (l : list (string * string)) : json := JMap ((λ kv, (kv.1, JLeaf kv.2)) <$> l).

(** The container of the upgrade pod. *)
Definition upgradeContainer (nodeName mcoImage : string) (env : list (string * string)) : json :=
  JMap ([("name", JLeaf "machine-config-daemon"); ("image", JLeaf mcoImage);
    ("command", strs ["/usr/bin/machine-config-daemon"]);
    ("args", strs ["start"; "--node-name=" +:+ nodeName; "--root-mount=/rootfs";
                   "--kubeconfig=/var/lib/kubelet/kubeconfig";
                   "--desired-configmap=/etc/machine-config-daemon-desired-config"]);
    ("terminationMessagePolicy", JLeaf "FallbackToLogsOnError");
    ("securityContext", obj_json [("privileged", "true")]);
    ("volumeMounts", JList [
       obj_json [("name", "rootfs"); ("mountPath", "/rootfs")];
       obj_json [("name", "desired-config-mount");
                 ("mountPath", "/rootfs/etc/machine-config-daemon-desired-config")]])] ++
    (if (length env =? 0)%nat then []
     else [("env", JList ((λ kv, obj_json [("name", kv.1); ("value", kv.2)]) <$> env))])).

(** [func (r *Reconciler) createUpgradePod(pod, nodeName, poolName, mcoImage, proxy) error],
on the [spec] of the pod *)
Definition createUpgradePod (pod : Object) (nodeName poolName mcoImage : string) (proxy : option Proxy)
    : go api_error Object :=
  let configmap := inPlaceUpgradeConfigMap poolName (oNamespace pod) in
  let spec := match oBody pod with OtherObject _ u => u | _ => JMap [] end in
  let spec := json_set "containers" (JList [upgradeContainer nodeName mcoImage (proxyToEnvVars proxy)]) spec in
  let spec := json_set "hostNetwork" (JLeaf "true") spec in
  let spec := json_set "hostPID" (JLeaf "true") spec in
  let spec := json_set "tolerations" (JList [obj_json [("operator", "Exists")]]) spec in
  let spec := json_set "nodeSelector" (obj_json [("kubernetes.io/hostname", nodeName)]) spec in
  let spec := json_set "volumes" (JList [
    JMap [("name", JLeaf "rootfs"); ("hostPath", obj_json [("path", "/")])];
    JMap [("name", JLeaf "desired-config-mount");
          ("configMap", obj_json [("name", oName configmap)])]]) spec in
  let spec := json_set "restartPolicy" (JLeaf "OnFailure") spec in
  Ret (set_body (OtherObject "*v1.Pod" spec) pod).

(** [func (r *Reconciler) reconcileUpgradeConfigmap(ctx, configmap, hash, payload) error] *)
Definition reconcileUpgradeConfigmap (configmap : Object) (hash payload : string) : go api_error Object :=
  let contents := match oBody configmap with OtherObject _ u => u | _ => JMap [] end in
  Ret (set_body (OtherObject "*v1.ConfigMap"
        (json_set "data" (obj_json [("config", payload); ("hash", hash)]) contents)) configmap).

(** *** The controller *)

Section Controller.
Context {M G : Type}.
Context `{!Client M ObjectRef Object} `{!Client G ObjectRef Object}.
Context `{!Management M} `{!SemanticEqual} `{!SliceGrowth}.

Abbreviation cmd := (st (rstate M G) api_error).

(** Code that runs against one of the two clusters. *)
Definition on_mgmt {A} (c : st (world M) api_error A) : cmd A := λ s,
  let '(r, w) := c (mkWorld (r_mgmt s) (r_detector s) (r_warnings s)) in
  (r, mkR (w_cluster w) (r_guest s) (w_detector w) (w_warnings w)).
Definition on_guest {A} (c : st (world G) api_error A) : cmd A := λ s,
  let '(r, w) := c (mkWorld (r_guest s) (r_detector s) (r_warnings s)) in
  (r, mkR (r_mgmt s) (w_cluster w) (w_detector w) (w_warnings w)).

(** [if err != nil { return fmt.Errorf("msg: %w", err) }] *)
Definition wrap {A} (msg : string) (c : cmd A) : cmd A := λ s,
  match c s with (Throw e, s) => (Throw (Wrapped msg e), s) | r => r end.

(** [Get] on the hosted cluster. *)
Definition guest_get (o : Object) : cmd Object := λ s, (c_get (ref_of o) (r_guest s), s).

(** Reads the pod and deletes it unless it is being deleted or gone: the body
of the loop of [deleteUpgradeManifests] and the first branch of
[reconcileUpgradePods]. *)
Definition deleteUpgradePod (pod : Object) : cmd unit := λ s,
  match c_get (ref_of pod) (r_guest s) with
  | Panic => (Panic, s)
  | Throw err => if IsNotFound err then (Ret (), s)
                 else (Throw (Wrapped "error getting upgrade MCD pod" err), s)
  | Ret found =>
      if bool_decide (oDeletionTimestamp found ≠ None) then (Ret (), s) else
      match on_guest (run (c_delete (ref_of pod))) s with
      | (Throw err, s) => if IsNotFound err then (Ret (), s)
                          else (Throw (Wrapped "error deleting upgrade MCD pod" err), s)
      | r => r
      end
  end.

(** [func deleteUpgradeManifests(ctx, hostedClusterClient, nodes, poolName) error] *)
Definition deleteUpgradeManifests (nodes : list Object) (poolName : string) : cmd unit :=
  let namespace := inPlaceUpgradeNamespace poolName in
  st_for nodes (λ node, deleteUpgradePod (inPlaceUpgradePod (oName namespace) (oName node))).

(** [func (r *Reconciler) setNodesDesiredConfig]: the nodes are shared with the
caller, which sees what [CreateOrUpdate] leaves in them; a nil pointer panics. *)
Fixpoint setNodesDesiredConfig (pointers : list pointer) (target : string) (nodes : list Object)
    : cmd (list Object) :=
  match pointers with
  | [] => mret nodes
  | p :: pointers =>
      match (p ≫= λ i, (nodes !! i) ≫= λ node, Some (i, node)) with
      | None => st_panic
      | Some (i, node) =>
          r ← wrap "failed to reconcile node desired config annotations"
                (on_guest (CreateOrUpdate node (set_annotation DesiredMachineConfigAnnotationKey target)));
          setNodesDesiredConfig pointers target (<[i := r.2]> nodes)
      end
  end.

(** The node has no update and no drain request open. *)
Definition idle (node : Object) : bool :=
  negb (updating node) &&
  str_eqb (annotation node DesiredDrainerAnnotationKey) (annotation node LastAppliedDrainerAnnotationKey).

(** One iteration of the loop of [reconcileUpgradePods]. *)
Definition reconcileUpgradePod (poolName mcoImage : string) (proxy : option Proxy) (node : Object)
    : cmd unit :=
  let namespace := inPlaceUpgradeNamespace poolName in
  let pod := inPlaceUpgradePod (oName namespace) (oName node) in
  if idle node then deleteUpgradePod pod
  else λ s,
    match c_get (ref_of pod) (r_guest s) with
    | Panic => (Panic, s)
    | Ret _ => (Ret (), s)
    | Throw err =>
        if negb (IsNotFound err)
        then (Throw (Wrapped ("failed to get upgrade pod for node " +:+ oName node) err), s)
        else (_ ← wrap ("failed to create upgrade pod for node " +:+ oName node)
                (on_guest (CreateOrUpdate pod
                   (λ pod, createUpgradePod pod (oName node) poolName mcoImage proxy)));
              mret ()) s
    end.

(** [func (r *Reconciler) reconcileUpgradePods] *)
Definition reconcileUpgradePods (nodes : list Object) (poolName mcoImage : string)
    (proxy : option Proxy) : cmd unit :=
  st_for nodes (reconcileUpgradePod poolName mcoImage proxy).

(** The labels of the upgrade namespace. *)
Definition namespaceLabels (namespace : Object) : go api_error Object :=
  let labels := default ∅ (oLabels namespace) in
  Ret (set_labels (Some
    (<["pod-security.kubernetes.io/warn" := "privileged"]>
     (<["pod-security.kubernetes.io/audit" := "privileged"]>
      (<["pod-security.kubernetes.io/enforce" := "privileged"]>
       (<["security.openshift.io/scc.podSecurityLabelSync" := "false"]> labels))))) namespace).

(** [func (r *Reconciler) reconcileInPlaceUpgradeManifests] *)
Definition reconcileInPlaceUpgradeManifests (hash payload poolName : string) : cmd unit :=
  let namespace := inPlaceUpgradeNamespace poolName in
  _ ← wrap ("failed to reconcile upgrade Namespace for hash " +:+ hash)
        (on_guest (CreateOrUpdate namespace namespaceLabels));
  let configmap := inPlaceUpgradeConfigMap poolName (oName namespace) in
  _ ← wrap ("failed to reconcile upgrade ConfigMap for hash " +:+ hash)
        (on_guest (CreateOrUpdate configmap (λ cm, reconcileUpgradeConfigmap cm hash payload)));
  mret ().

(** [func getNodesForMachineSet(ctx, c, hostedClusterClient, machineSet)] *)
Fixpoint getNodes (machines : list Machine) : cmd (list Object) :=
  match machines with
  | [] => mret []
  | machine :: machines =>
      match mNodeRef machine with
      | None => getNodes machines
      | Some name =>
          node ← wrap "error getting node" (guest_get (kind_object "*v1.Node" "" name (JMap [])));
          nodes ← getNodes machines;
          mret (node :: nodes)
      end
  end.
Definition getNodesForMachineSet (machineSet : Object) : cmd (list Object) :=
  selectorMap ← wrap ("failed to convert MachineSet label selector to a map: " +:+ oName machineSet)
    (st_lift (match oBody machineSet with
              | MachineSet selector _ => LabelSelectorAsMap selector
              | _ => Ret ∅ end));
  allMachines ← wrap "failed to list machines"
    (λ s, (list_machines (oNamespace machineSet) selectorMap (r_mgmt s), s));
  getNodes (List.filter (λ m, IsControlledBy m machineSet) allMachines).

(** [CreateOrUpdate] of the MachineSet, whose annotations are maps in memory. *)
Definition signal (machineSet : Object) (f : Object → go api_error Object) : cmd Object :=
  r ← wrap "failed to reconcile MachineSet" (on_mgmt (CreateOrUpdate machineSet f));
  mret r.2.

(** The three mutate functions of [reconcileInPlaceUpgrade]. *)
Definition signalComplete (target : string) (ms : Object) : go api_error Object :=
  ms ← set_annotation nodePoolAnnotationCurrentConfigVersion target ms;
  Ret (delete_annotation nodePoolAnnotationUpgradeInProgressFalse
        (delete_annotation nodePoolAnnotationUpgradeInProgressTrue ms)).
Definition signalDegraded (node : Object) (ms : Object) : go api_error Object :=
  set_annotation nodePoolAnnotationUpgradeInProgressFalse
    ("Node " +:+ oName node +:+ " in nodepool degraded: " +:+
     annotation node MachineConfigDaemonMessageAnnotationKey)
    (delete_annotation nodePoolAnnotationUpgradeInProgressTrue ms).
Definition signalProgress (target : string) (total upgraded : Z) (ms : Object) : go api_error Object :=
  set_annotation nodePoolAnnotationUpgradeInProgressTrue
    ("Nodepool update in progress. Target Config version: " +:+ target +:+ ". Total Nodes: " +:+
     itoa total +:+ ". Upgraded: " +:+ itoa upgraded)
    (delete_annotation nodePoolAnnotationUpgradeInProgressFalse ms).

Definition degraded (node : Object) : bool :=
  str_eqb (annotation node MachineConfigDaemonStateAnnotationKey) MachineConfigDaemonStateDegraded.

(** [nodePoolUpgradeAPI.spec.targetConfigVersion], [status.currentConfigVersion]
and [spec.poolRef] are read from the MachineSet when the request starts; the
maximum number of unavailable nodes from the MachineSet as last written. *)
Definition reconcileInPlaceUpgrade (machineSet : Object) (payload mcoImage : string)
    (proxy : option Proxy) : cmd unit :=
  let current := annotation machineSet nodePoolAnnotationCurrentConfigVersion in
  let target := annotation machineSet nodePoolAnnotationTargetConfigVersion in
  let poolName := oName machineSet in
  if str_eqb target current then mret () else
  nodes ← getNodesForMachineSet machineSet;
  if inPlaceUpgradeComplete nodes current target then
    _ ← deleteUpgradeManifests nodes poolName;
    _ ← signal machineSet (signalComplete target);
    mret ()
  else
  match List.find degraded nodes with
  | Some node =>
      _ ← signal machineSet (signalDegraded node);
      st_throw (OtherError ("degraded node found, cannot progress in-place upgrade. Degraded reason: " +:+
                            annotation node MachineConfigDaemonMessageAnnotationKey))
  | None =>
      let total := Z.of_nat (length nodes) in
      let nodeNeedUpgradeCount := count_nodes (λ n, nodeNeedsUpgrade n current target) nodes in
      machineSet ← signal machineSet (signalProgress target total (total - nodeNeedUpgradeCount));
      _ ← wrap "failed to create upgrade manifests in hosted cluster"
            (reconcileInPlaceUpgradeManifests target payload poolName);
      maxUnavail ← (if has_annotation machineSet nodePoolAnnotationMaxUnavailable then
                      match Semver.ParseInt (annotation machineSet nodePoolAnnotationMaxUnavailable) with
                      | Some n => mret n
                      | None => st_throw (OtherError "error getting max unavailable count from MachineSet annotation")
                      end
                    else mret 1%Z);
      nodesToUpgrade ← st_lift (getNodesToUpgrade nodes target maxUnavail);
      nodes ← wrap "failed to set hosted nodes for inplace upgrade"
                (setNodesDesiredConfig nodesToUpgrade target nodes);
      wrap "failed to delete idle upgrade pods"
        (reconcileUpgradePods nodes poolName mcoImage proxy)
  end.

(** [releaseProvider.Lookup(ctx, image, pullSecret)]: the component images of a
release. *)
Variable Lookup : string → string → go api_error StringMap.
Variables (r_hcpNamespace r_hcpName : string).

(** [func (r *Reconciler) getPayloadImage(ctx, imageName) (string, error)] *)
Definition getPayloadImage (imageName : string) : cmd string :=
  hcp ← wrap "failed to get hosted control plane" (λ s, (get_hcp (r_hcpNamespace, r_hcpName) (r_mgmt s), s));
  pullSecret ← wrap "failed to get pull secret"
    (λ s, (get_secret (hcpNamespace hcp, "pull-secret") (r_mgmt s), s));
  images ← wrap ("failed to get lookup release image " +:+ hcpReleaseImage hcp)
    (st_lift (Lookup (hcpReleaseImage hcp) (mget pullSecret ".dockerconfigjson")));
  match images !! imageName with
  | Some image => mret image
  | None => st_throw (OtherError ("release image does not contain " +:+ imageName))
  end.

(** [func (r *Reconciler) Reconcile(ctx, req)]: the requeue delay. *)
Definition Reconcile (namespace name : string) : cmd Duration := λ s,
  match c_get ("*v1beta1.MachineSet", (namespace, name)) (r_mgmt s) with
  | Panic => (Panic, s)
  | Throw err => if IsNotFound err then (Ret 0%Z, s) else (Throw err, s)
  | Ret machineSet =>
      if negb (has_annotation machineSet nodePoolAnnotationTargetConfigVersion) then (Ret 0%Z, s) else
      if str_eqb (annotation machineSet nodePoolAnnotationTargetConfigVersion)
           (annotation machineSet nodePoolAnnotationCurrentConfigVersion) then (Ret 0%Z, s) else
      let tokenSecret := "token-" +:+ oName machineSet +:+ "-" +:+
                         annotation machineSet nodePoolAnnotationTargetConfigVersion in
      (data ← (λ s, (get_secret (oNamespace machineSet, tokenSecret) (r_mgmt s), s));
       match data !! TokenSecretPayloadKey with
       | None => mret (5 * second)%Z
       | Some payload =>
           hcp ← wrap "failed to get hosted control plane"
             (λ s, (get_hcp (r_hcpNamespace, r_hcpName) (r_mgmt s), s));
           proxy ← st_lift (ReconcileProxyConfigWithStatus ProxyConfig (hcpNetworking hcp));
           mcoImage ← getPayloadImage MachineConfigOperatorImage;
           _ ← reconcileInPlaceUpgrade machineSet payload mcoImage (Some proxy);
           mret 0%Z
       end) s
  end.

(** [func (r *Reconciler) nodeToMachineSet(ctx, o) []reconcile.Request] *)
Definition nodeToMachineSet (node : Object) (s : rstate M G) : list (string * string) :=
  if negb (has_annotation node "cluster.x-k8s.io/machine") then [] else
  if negb (has_annotation node "cluster.x-k8s.io/cluster-namespace") then [] else
  let machineNamespace := annotation node "cluster.x-k8s.io/cluster-namespace" in
  match get_machine (machineNamespace, annotation node "cluster.x-k8s.io/machine") (r_mgmt s) with
  | Ret machine =>
      match GetControllerOf machine with
      | Some owner => if str_eqb (ownerKind owner) "MachineSet"
                      then [(machineNamespace, ownerName owner)] else []
      | None => []
      end
  | _ => []
  end.

End Controller.

End InPlaceUpgrader.
