(* ===== verification/InPlaceUpgraderProofs.v ===== *)
(** Safety of the in-place upgrade controller: how many nodes it takes down at
a time, when it cannot make progress, what it reports and which pods it leaves. *)
From S2P Require Import Prelude Semver Api Upsert UpsertProofs GlobalConfig InPlaceUpgrader.

Module InPlaceUpgraderProofs.
Import Upsert UpsertProofs GlobalConfig InPlaceUpgrader.

(** *** Selecting nodes *)

Lemma indices_from_spec i p nodes j :
  j ∈ indices_from i p nodes ↔ ∃ n, (i ≤ j)%nat ∧ nodes !! (j - i)%nat = Some n ∧ p n = true.
Proof.
  revert i. induction nodes as [|n nodes IH]; intros i; simpl.
  { rewrite elem_of_nil. split; [done|]. intros (n & _ & Hn & _). by rewrite lookup_nil in Hn. }
  assert (Hstep : j ∈ indices_from (S i) p nodes ↔
                  ∃ m, (S i ≤ j)%nat ∧ (n :: nodes) !! (j - i)%nat = Some m ∧ p m = true).
  { rewrite IH. split; intros (m & Hle & Hm & Hp); exists m; split_and!; try done.
    - by replace (j - i)%nat with (S (j - S i)) by lia.
    - by replace (j - i)%nat with (S (j - S i)) in Hm by lia. }
  destruct (p n) eqn:Hpn; rewrite ?elem_of_cons, Hstep.
  - split.
    + intros [->|(m & ? & ?)]; [|exists m; split; [lia|done]].
      exists n. by rewrite Nat.sub_diag.
    + intros (m & Hle & Hm & Hp). destruct (decide (j = i)) as [->|]; [by left|].
      right. exists m. split; [lia|done].
  - split; intros (m & Hle & Hm & Hp); exists m; split_and!; try done; [lia|].
    destruct (decide (j = i)) as [->|]; [|lia]. rewrite Nat.sub_diag in Hm. simpl in Hm; congruence.
Qed.

Lemma elem_of_indices p nodes j :
  j ∈ indices p nodes ↔ ∃ n, nodes !! j = Some n ∧ p n = true.
Proof.
  unfold indices. rewrite indices_from_spec, Nat.sub_0_r. split; [intros (n & _ & ? & ?); by exists n|].
  intros (n & ? & ?). exists n. split; [lia|done].
Qed.

Lemma indices_length p nodes : Z.of_nat (length (indices p nodes)) = count_nodes p nodes.
Proof.
  unfold indices, count_nodes. f_equal. generalize 0%nat as i.
  induction nodes as [|n nodes IH]; intros i; simpl; [done|].
  destruct (p n); simpl; auto.
Qed.

Lemma indices_from_NoDup i p nodes : NoDup (indices_from i p nodes).
Proof.
  revert i. induction nodes as [|n nodes IH]; intros i; simpl; [constructor|].
  destruct (p n); [|apply IH]. constructor; [|apply IH].
  rewrite indices_from_spec. intros (m & Hle & _). lia.
Qed.

(** The nodes [getAvailableCandidates] chooses from. *)
Definition candidate (target : string) (n : Object) : bool :=
  negb (targets target n) && negb (updating n).

(** What [setNodesDesiredConfig] does to the nodes when every write succeeds
unchanged. *)
Definition mark_node (target : string) (n : Object) : Object :=
  set_annotations (Some (<[DesiredMachineConfigAnnotationKey := target]> (default ∅ (oAnnotations n)))) n.
Definition mark (target : string) (pointers : list pointer) (nodes : list Object) : list Object :=
  imap (λ i n, if bool_decide (Some i ∈ pointers) then mark_node target n else n) nodes.

Lemma annotation_mark_current target n :
  annotation (mark_node target n) CurrentMachineConfigAnnotationKey =
  annotation n CurrentMachineConfigAnnotationKey.
Proof. unfold annotation, mget. simpl. by rewrite lookup_insert_ne. Qed.

Lemma annotation_mark_desired target n :
  annotation (mark_node target n) DesiredMachineConfigAnnotationKey = target.
Proof. unfold annotation, mget. simpl. by rewrite lookup_insert_eq. Qed.

Lemma count_nodes_cons p n nodes :
  count_nodes p (n :: nodes) = ((if p n then 1 else 0) + count_nodes p nodes)%Z.
Proof. unfold count_nodes. simpl. destruct (p n); simpl; lia. Qed.

(** Marking adds to the updating nodes at most the marked ones that were idle. *)
Lemma count_updating_mark target (chosen : nat → bool) nodes i :
  (count_nodes updating (imap (λ j n, if chosen (i + j)%nat then mark_node target n else n) nodes) ≤
   count_nodes updating nodes +
   Z.of_nat (length (List.filter chosen (indices_from i (λ n, negb (updating n)) nodes))))%Z.
Proof.
  revert i. induction nodes as [|n nodes IH]; intros i; [done|].
  rewrite imap_cons, !count_nodes_cons. rewrite Nat.add_0_r.
  specialize (IH (S i)).
  assert (He : imap ((λ j n, if chosen (i + j)%nat then mark_node target n else n) ∘ S) nodes =
               imap (λ j n, if chosen (S i + j)%nat then mark_node target n else n) nodes).
  { apply imap_ext. intros j m _. simpl. by rewrite Nat.add_succ_r. }
  rewrite He. cbn [indices_from]. destruct (updating n) eqn:Hu; cbn [negb List.filter length].
  - destruct (chosen i); rewrite ?Hu; try case_match; lia.
  - destruct (chosen i) eqn:Hc; cbn [length]; rewrite ?Hu; try case_match; lia.
Qed.

(** A node has finished an upgrade: it runs the target config, its daemon is done
and no drain is pending. *)
Definition finished (target : string) (node : Object) : Prop :=
  annotation node DesiredDrainerAnnotationKey = annotation node LastAppliedDrainerAnnotationKey ∧
  annotation node CurrentMachineConfigAnnotationKey = target ∧
  annotation node MachineConfigDaemonStateAnnotationKey = MachineConfigDaemonStateDone.

#[export] Instance finished_dec target node : Decision (finished target node).
Proof. unfold finished. apply _. Defined.

Lemma complete_finished nodes current target :
  target ≠ current →
  inPlaceUpgradeComplete nodes current target = bool_decide (Forall (finished target) nodes).
Proof.
  intros Hne. induction nodes as [|n nodes IH]; simpl; [done|]. rewrite IH.
  assert (Hn : negb (nodeNeedsUpgrade n current target) = bool_decide (finished target n)).
  { unfold nodeNeedsUpgrade, finished, str_eqb.
    repeat case_decide; repeat case_bool_decide; simpl; intuition congruence. }
  rewrite Hn, <- bool_decide_and. apply bool_decide_ext. by rewrite Forall_cons.
Qed.

Section Selection.
Context `{!SliceGrowth}.
Implicit Types (nodes : list Object) (target : string).

(** The counters fit in a Go [int]. *)
Definition fits nodes (maxUnavailable : Z) : Prop :=
  (min_int64 + Z.of_nat (length nodes) ≤ maxUnavailable ≤ max_int64)%Z.

Lemma count_nodes_range p nodes : (0 ≤ count_nodes p nodes ≤ Z.of_nat (length nodes))%Z.
Proof. unfold count_nodes. pose proof (filter_length_le p nodes). lia. Qed.

Lemma getCapacity_exact nodes maxUnavailable :
  fits nodes maxUnavailable →
  getCapacity nodes maxUnavailable = (maxUnavailable - count_nodes updating nodes)%Z.
Proof.
  unfold fits, getCapacity, min_int64, max_int64. intros.
  pose proof (count_nodes_range updating nodes). apply to_int64_small. lia.
Qed.

(** What the selection returns, by the number of candidates and the capacity. *)
Lemma getNodesToUpgrade_cases nodes target maxUnavailable :
  let capacity := getCapacity nodes maxUnavailable in
  let candidates := indices (candidate target) nodes in
  let already := Some <$> getAlreadyUnavailableCandidates nodes target in
  if ((capacity <? 1)%Z || (length candidates =? 0)%nat) then
    getNodesToUpgrade nodes target maxUnavailable = Ret already
  else if (capacity <=? Z.of_nat (length candidates))%Z then
    getNodesToUpgrade nodes target maxUnavailable =
      Ret ((Some <$> take (Z.to_nat capacity) candidates) ++ already)
  else getNodesToUpgrade nodes target maxUnavailable = Panic ∨
       ∃ n, (0 < n)%nat ∧
         getNodesToUpgrade nodes target maxUnavailable =
           Ret ((Some <$> candidates) ++ replicate n None ++ already).
Proof.
  simpl. unfold getNodesToUpgrade, getAvailableCandidates.
  fold (candidate target). set (cs := indices (candidate target) nodes).
  set (c := getCapacity nodes maxUnavailable).
  destruct (c <? 1)%Z eqn:Hc; simpl; [done|]. apply Z.ltb_ge in Hc.
  destruct (length cs =? 0)%nat eqn:Hl; simpl; [done|].
  unfold slice_upto. rewrite (proj2 (Z.ltb_ge c 0)) by lia. simpl.
  pose proof (slice_cap_ge (length cs)) as Hge.
  destruct (c <=? Z.of_nat (length cs))%Z eqn:Hle.
  - apply Z.leb_le in Hle. rewrite (proj2 (Z.ltb_ge _ c)) by lia. simpl.
    rewrite take_app_le by (rewrite length_fmap; lia). by rewrite fmap_take.
  - apply Z.leb_gt in Hle. destruct (Z.of_nat (slice_cap (length cs)) <? c)%Z eqn:Hcap; [by left|].
    apply Z.ltb_ge in Hcap. right. exists (Z.to_nat c - length cs)%nat. split; [lia|]. simpl.
    rewrite take_app_ge by (rewrite length_fmap; lia).
    rewrite length_fmap, take_replicate, Nat.min_l by lia. by rewrite <- app_assoc.
Qed.

(** Every candidate is idle and not at the target. *)
Lemma candidate_idle target n : candidate target n = true → updating n = false.
Proof. unfold candidate. intros [_ ?%negb_true_iff]%andb_prop. done. Qed.

(** The idle nodes among the pointers are the candidates taken. *)
Lemma chosen_idle_bound target nodes (taken : list nat) (ps : list pointer) :
  (∀ i, i ∈ taken → i ∈ indices (candidate target) nodes) →
  (∀ i, Some i ∈ ps ↔ i ∈ taken ∨ i ∈ getAlreadyUnavailableCandidates nodes target) →
  (length (List.filter (λ i, bool_decide (Some i ∈ ps))
     (indices_from 0 (λ n, negb (updating n)) nodes)) ≤ length taken)%nat.
Proof.
  intros Htaken Hps. apply submseteq_length, NoDup_submseteq.
  { apply NoDup_ListNoDup, List.NoDup_filter, NoDup_ListNoDup, indices_from_NoDup. }
  intros i [Hi Hin%bool_decide_eq_true]%elem_of_filter_bool.
  apply Hps in Hin as [?|Hin]; [done|]. exfalso.
  apply elem_of_indices in Hi as (n & Hn & Hu).
  unfold getAlreadyUnavailableCandidates in Hin.
  apply elem_of_indices in Hin as (n' & Hn' & [Hu' _]%andb_prop). simplify_eq.
  by rewrite Hu' in Hu.
Qed.

Lemma selection_bound nodes target maxUnavailable ps
    (Hfits : fits nodes maxUnavailable)
    (Hsel : getNodesToUpgrade nodes target maxUnavailable = Ret ps) :
  (count_nodes updating (mark target ps nodes) ≤
   Z.max maxUnavailable (count_nodes updating nodes))%Z.
Proof.
  pose proof (getNodesToUpgrade_cases nodes target maxUnavailable) as Hc. simpl in Hc.
  rewrite getCapacity_exact in Hc by done. rewrite Hsel in Hc.
  set (c := (maxUnavailable - count_nodes updating nodes)%Z) in *.
  assert (Hbound : ∃ taken : list nat, (Z.of_nat (length taken) ≤ Z.max 0 c)%Z ∧
    (∀ i, i ∈ taken → i ∈ indices (candidate target) nodes) ∧
    (∀ i, Some i ∈ ps ↔ i ∈ taken ∨ i ∈ getAlreadyUnavailableCandidates nodes target)).
  { destruct ((c <? 1)%Z || _) eqn:E1; [|destruct (c <=? _)%Z eqn:E2].
    - injection Hc as ->. exists []. split_and!; [simpl; lia|set_solver|]. intros i. set_solver.
    - injection Hc as ->. exists (take (Z.to_nat c) (indices (candidate target) nodes)).
      split_and!; [rewrite length_take; lia|intros i Hi; by apply subseteq_take in Hi|]. intros i. set_solver.
    - destruct Hc as [|(n & _ & [= ->])]; [done|]. exists (indices (candidate target) nodes).
      apply Z.leb_gt in E2. split_and!; [lia|done|]. intros i.
      rewrite !elem_of_app, elem_of_replicate. set_solver. }
  destruct Hbound as (taken & Hlen & Hsub & Hps).
  pose proof (chosen_idle_bound target nodes taken ps Hsub Hps).
  pose proof (count_updating_mark target (λ i, bool_decide (Some i ∈ ps)) nodes 0) as Hm.
  unfold mark. simpl in Hm. lia.
Qed.

(** C3: Selecting nodes never takes more nodes out of service than the pool
allows: once every selected node is told to move to the target version, the
number of nodes whose desired and current configs differ is at most
maxUnavailable, or what it was before when that was already more. *)
Theorem selection_respects_maxUnavailable nodes target maxUnavailable ps
    (Hfits : fits nodes maxUnavailable)
    (Hsel : getNodesToUpgrade nodes target maxUnavailable = Ret ps) :
  (count_nodes updating (mark target ps nodes) ≤
   Z.max maxUnavailable (count_nodes updating nodes))%Z.
Proof. by apply selection_bound. Qed.

(** When the capacity left does not exceed the number of candidates, or
there is no candidate, the selection is exactly the first candidates up to the
capacity, in the order of the nodes, followed by every node that is updating to
another version: no node is skipped and none is selected twice. *)
Theorem selection_exact nodes target maxUnavailable
    (Hfits : fits nodes maxUnavailable)
    (Henough : let c := (maxUnavailable - count_nodes updating nodes)%Z in
               (c ≤ count_nodes (candidate target) nodes)%Z ∨
               count_nodes (candidate target) nodes = 0%Z) :
  ∃ ps, getNodesToUpgrade nodes target maxUnavailable = Ret (Some <$> ps) ∧ NoDup ps ∧
    ps = take (Z.to_nat (maxUnavailable - count_nodes updating nodes)) (indices (candidate target) nodes) ++
         indices (λ n, updating n && negb (targets target n)) nodes.
Proof.
  eexists. split; [|split; [|reflexivity]].
  - pose proof (getNodesToUpgrade_cases nodes target maxUnavailable) as Hc. simpl in Hc.
    rewrite getCapacity_exact in Hc by done. rewrite <- (indices_length (candidate target)) in Henough. simpl in Henough.
    set (c := (maxUnavailable - count_nodes updating nodes)%Z) in *.
    set (cs := indices (candidate target) nodes) in *.
    rewrite fmap_app. destruct (c <? 1)%Z eqn:E1; simpl in Hc.
    { apply Z.ltb_lt in E1. by replace (Z.to_nat c) with 0%nat by lia. }
    destruct (length cs =? 0)%nat eqn:E2; simpl in Hc.
    { apply Nat.eqb_eq, nil_length_inv in E2. by rewrite E2, take_nil. }
    apply Nat.eqb_neq in E2. rewrite (proj2 (Z.leb_le _ _)) in Hc by lia. done.
  - apply NoDup_app. split_and!.
    + eapply sublist_NoDup; [apply indices_from_NoDup|apply sublist_take].
    + intros i Hi%subseteq_take Hj. apply elem_of_indices in Hi as (n & Hn & Hu%candidate_idle).
      apply elem_of_indices in Hj as (n' & Hn' & [Hu' _]%andb_prop). congruence.
    + apply indices_from_NoDup.
Qed.

End Selection.

(** *** Running against the clusters *)

Section Controller.
Context {M G : Type}.
Context `{!Client M ObjectRef Object} `{!Client G ObjectRef Object}.
Context `{!Management M} `{!SemanticEqual} `{!SliceGrowth}.
Implicit Types (s : rstate M G) (nodes : list Object).

Abbreviation cmd := (st (rstate M G) api_error).

(** The command leaves the management cluster, or the hosted cluster, alone. *)
Definition guest_only {A} (c : cmd A) : Prop := ∀ s, r_mgmt (c s).2 = r_mgmt s.
Definition mgmt_only {A} (c : cmd A) : Prop := ∀ s, r_guest (c s).2 = r_guest s.
Definition pure {A} (c : cmd A) : Prop := ∀ s, (c s).2 = s.

Lemma guest_only_ret {A} (a : A) : guest_only (mret a).
Proof. done. Qed.
Lemma guest_only_bind {A B} (c : cmd A) (k : A → cmd B) :
  guest_only c → (∀ a, guest_only (k a)) → guest_only (c ≫= k).
Proof.
  intros Hc Hk s. unfold mbind, st_bind. specialize (Hc s).
  destruct (c s) as [[a| |] s']; simpl in *; [|done..]. by rewrite Hk.
Qed.
Lemma guest_only_wrap {A} msg (c : cmd A) : guest_only c → guest_only (wrap msg c).
Proof. intros Hc s. unfold wrap. specialize (Hc s). by destruct (c s) as [[a| |] s']. Qed.
Lemma guest_only_on {A} (c : st (world G) api_error A) : guest_only (on_guest c).
Proof. intros s. unfold on_guest. by destruct (c _) as [r w]. Qed.
Lemma guest_only_for {A} (l : list A) (f : A → cmd unit) :
  (∀ a, guest_only (f a)) → guest_only (st_for l f).
Proof. intros Hf. induction l; simpl; [done|]. by apply guest_only_bind. Qed.
Lemma guest_only_lift {A} (m : go api_error A) : guest_only (st_lift m).
Proof. done. Qed.

Create HintDb frame.
Hint Resolve guest_only_ret guest_only_bind guest_only_wrap guest_only_on guest_only_for
  guest_only_lift : frame.

Lemma deleteUpgradePod_guest pod : guest_only (deleteUpgradePod pod).
Proof.
  intros s. unfold deleteUpgradePod. destruct (c_get _ _) as [o|e|]; [|by case_match|done].
  case_match; [done|]. pose proof (guest_only_on (run (c_delete (ref_of pod))) s) as Hd.
  destruct (on_guest _ s) as [[|e|] s']; [done| |done]. by case_match.
Qed.
Hint Resolve deleteUpgradePod_guest : frame.

Lemma reconcileUpgradePod_guest pool image proxy node :
  guest_only (reconcileUpgradePod pool image proxy node).
Proof.
  unfold reconcileUpgradePod. case_match; [auto with frame|]. intros s.
  destruct (c_get _ _) as [o|e|]; [done| |done]. case_match; [done|].
  generalize s. change (guest_only (wrap ("failed to create upgrade pod for node " +:+ oName node)
    (on_guest (CreateOrUpdate (inPlaceUpgradePod (oName (inPlaceUpgradeNamespace pool)) (oName node))
      (λ pod, createUpgradePod pod (oName node) pool image proxy))) ≫= λ _, mret ())).
  auto with frame.
Qed.

Lemma setNodesDesiredConfig_guest ps target nodes :
  guest_only (setNodesDesiredConfig ps target nodes).
Proof.
  revert nodes. induction ps as [|p ps IH]; intros nodes; simpl; [auto with frame|].
  destruct (p ≫= _) as [[i n]|]; [|done]. auto with frame.
Qed.

Lemma manifests_guest hash payload pool :
  guest_only (reconcileInPlaceUpgradeManifests hash payload pool).
Proof. unfold reconcileInPlaceUpgradeManifests. auto with frame. Qed.
Hint Resolve reconcileUpgradePod_guest setNodesDesiredConfig_guest manifests_guest : frame.

Lemma getNodes_pure ms : pure (getNodes ms).
Proof.
  induction ms as [|m ms IH]; intros s; simpl; [done|].
  destruct (mNodeRef m); [|apply IH].
  unfold mbind, st_bind, wrap, guest_get. destruct (c_get _ _); simpl; [|done..].
  specialize (IH s). by destruct (getNodes ms s) as [[| |] s'].
Qed.

Lemma getNodesForMachineSet_pure ms : pure (getNodesForMachineSet ms).
Proof.
  intros s. unfold getNodesForMachineSet, mbind, st_bind, wrap, st_lift.
  destruct (match oBody ms with MachineSet _ _ => _ | _ => _ end); [|done..].
  destruct (list_machines _ _ _); [|done..]. apply getNodes_pure.
Qed.

(** A nil pointer in the list of nodes to write never gets past the loop. *)
Lemma setNodes_nil ps target nodes s r s' :
  None ∈ ps → setNodesDesiredConfig ps target nodes s ≠ (Ret r, s').
Proof.
  intros Hin. revert nodes s. induction ps as [|p ps IH]; intros nodes s.
  { by apply not_elem_of_nil in Hin. }
  simpl. destruct p as [i|]; simpl; [|done].
  apply elem_of_cons in Hin as [?|Hin]; [done|].
  destruct (nodes !! i) as [n|]; simpl; [|done]. unfold mbind, st_bind.
  destruct (wrap _ _ s) as [[a| |] s1]; [|done..]. by apply IH.
Qed.

(** While some node is waiting to be upgraded and the pool allows more
unavailable nodes than there are candidates left, selecting the nodes and
writing their desired version never succeeds, whatever the clusters answer: the
selection slices past the end of the list of candidates, which panics or yields
nil nodes. *)
Theorem surplus_capacity_never_succeeds nodes target maxUnavailable s r s'
    (Hfits : fits nodes maxUnavailable)
    (Hcandidate : (0 < count_nodes (candidate target) nodes)%Z)
    (Hsurplus : (count_nodes (candidate target) nodes <
                 maxUnavailable - count_nodes updating nodes)%Z) :
  (ps ← st_lift (getNodesToUpgrade nodes target maxUnavailable);
   setNodesDesiredConfig ps target nodes) s ≠ (Ret r, s').
Proof.
  pose proof (getNodesToUpgrade_cases nodes target maxUnavailable) as Hc. simpl in Hc.
  rewrite getCapacity_exact in Hc by done. rewrite <- (indices_length (candidate target)) in *.
  rewrite (proj2 (Z.ltb_ge _ 1)), (proj2 (Nat.eqb_neq _ 0)), (proj2 (Z.leb_gt _ _)) in Hc by lia.
  simpl in Hc. unfold mbind, st_bind, st_lift.
  destruct Hc as [-> |(n & Hn & ->)]; [done|].
  apply setNodes_nil. rewrite !elem_of_app, elem_of_replicate. right; left. split; [done|lia].
Qed.

(** What a reconcile does once the nodes of the pool are known. *)
Lemma reconcileInPlaceUpgrade_nodes ms payload image proxy s nodes :
  annotation ms nodePoolAnnotationTargetConfigVersion ≠
    annotation ms nodePoolAnnotationCurrentConfigVersion →
  (getNodesForMachineSet ms s).1 = Ret nodes →
  let current := annotation ms nodePoolAnnotationCurrentConfigVersion in
  let target := annotation ms nodePoolAnnotationTargetConfigVersion in
  let total := Z.of_nat (length nodes) in
  reconcileInPlaceUpgrade ms payload image proxy s =
  if inPlaceUpgradeComplete nodes current target then
    (_ ← deleteUpgradeManifests nodes (oName ms); _ ← signal ms (signalComplete target); mret ()) s
  else match List.find degraded nodes with
  | Some node =>
      (_ ← signal ms (signalDegraded node);
       st_throw (OtherError ("degraded node found, cannot progress in-place upgrade. Degraded reason: " +:+
                             annotation node MachineConfigDaemonMessageAnnotationKey))) s
  | None =>
      (ms' ← signal ms (signalProgress target total
               (total - count_nodes (λ n, nodeNeedsUpgrade n current target) nodes));
       _ ← wrap "failed to create upgrade manifests in hosted cluster"
             (reconcileInPlaceUpgradeManifests target payload (oName ms));
       maxUnavail ← (if has_annotation ms' nodePoolAnnotationMaxUnavailable then
                       match Semver.ParseInt (annotation ms' nodePoolAnnotationMaxUnavailable) with
                       | Some n => mret n
                       | None => st_throw (OtherError "error getting max unavailable count from MachineSet annotation")
                       end
                     else mret 1%Z);
       nodesToUpgrade ← st_lift (getNodesToUpgrade nodes target maxUnavail);
       nodes ← wrap "failed to set hosted nodes for inplace upgrade"
                 (setNodesDesiredConfig nodesToUpgrade target nodes);
       wrap "failed to delete idle upgrade pods"
         (reconcileUpgradePods nodes (oName ms) image proxy)) s
  end.
Proof.
  intros Hne Hnodes. simpl. unfold reconcileInPlaceUpgrade.
  rewrite (proj2 (str_eqb_neq _ _)) by done.
  pose proof (getNodesForMachineSet_pure ms s) as Hp.
  unfold mbind at 1, st_bind at 1.
  destruct (getNodesForMachineSet ms s) as [r s']; simpl in *; subst.
  destruct (inPlaceUpgradeComplete _ _ _); [done|]. by destruct (List.find _ _).
Qed.

(** A degraded node stops the upgrade of the whole pool: as long as the
MachineSet's versions differ, the reconcile returns an error (or panics) and
changes nothing on the hosted cluster, neither nodes nor pods nor manifests. *)
Theorem degraded_node_stops_upgrade ms payload image proxy s nodes node
    (Hversions : annotation ms nodePoolAnnotationTargetConfigVersion ≠
                 annotation ms nodePoolAnnotationCurrentConfigVersion)
    (Hnodes : (getNodesForMachineSet ms s).1 = Ret nodes)
    (Hin : node ∈ nodes) (Hdegraded : degraded node = true) :
  let '(r, s') := reconcileInPlaceUpgrade ms payload image proxy s in
  r ≠ Ret () ∧ r_guest s' = r_guest s.
Proof.
  rewrite (reconcileInPlaceUpgrade_nodes _ _ _ _ _ nodes), complete_finished by done.
  rewrite bool_decide_false.
  2: { intros Hall. eapply Forall_forall in Hall as (_ & _ & Hd); [|done].
       apply str_eqb_eq in Hdegraded. rewrite Hdegraded in Hd. discriminate Hd. }
  destruct (List.find degraded nodes) as [n|] eqn:Hf.
  - unfold mbind, st_bind, signal, wrap, on_mgmt, mbind, st_bind.
    destruct (CreateOrUpdate _ _ _) as [[[]| |] w]; simpl; done.
  - apply (proj1 (find_None_elem _ _)) with (x := node) in Hf; [congruence|done].
Qed.

(** *** What the MachineSet says *)

Section Signals.
Context `{!ClientLaws M ObjectRef Object}.

(** The API server keeps annotations and kinds, and the semantic comparison
tells objects with different annotations apart. *)
Hypothesis Hadmit : ∀ old m, oAnnotations (admit_object old m) = oAnnotations m ∧
  goTypeName (admit_object old m) = goTypeName m.
Hypothesis Hequal : ∀ a b, DeepEqual a b = true →
  default ∅ (oAnnotations a) = default ∅ (oAnnotations b).

Definition is_machineset (o : Object) : bool :=
  match oBody o with MachineSet _ _ => true | _ => false end.

Lemma machineset_type o : is_machineset o = true → goTypeName o = "*v1beta1.MachineSet".
Proof. unfold is_machineset, goTypeName. by destruct (oBody o). Qed.

(** Whatever write is made, the stored MachineSet has the annotations the
mutate function gives it. *)
Lemma signal_stored ms f s e m :
  view (r_mgmt s) !! ref_of ms = Some e → is_machineset ms = true → is_machineset e = true →
  f e = Ret m → oBody m = oBody e →
  match signal ms f s with
  | (Ret o, s') => ∃ o', view (r_mgmt s') !! ref_of ms = Some o' ∧
      default ∅ (oAnnotations o') = default ∅ (oAnnotations m) ∧ r_guest s' = r_guest s
  | _ => True
  end.
Proof.
  intros Hv Hms Hme Hf Hb. unfold signal, wrap, on_mgmt, mbind, st_bind.
  destruct (CreateOrUpdate ms f _) as [[[r o]| |] w'] eqn:Hrun; [|done..]. simpl.
  apply CreateOrUpdate_success in Hrun. simpl in Hrun.
  rewrite (proj2 (get_stored _ _ _) Hv) in Hrun.
  destruct Hrun as (m' & d & [Hf' Hk]%mutate_Ret & Hd & Hrun). assert (m' = m) as -> by congruence.
  assert (d = m) as ->.
  { unfold defaultObject in Hd. unfold is_machineset in Hme. by destruct (oBody e); simplify_eq. }
  assert (Hms' : is_machineset m = true) by (unfold is_machineset in *; by rewrite Hb).
  destruct (DeepEqual e m) eqn:He.
  - destruct Hrun as (-> & -> & Hw). exists e. rewrite Hw. split_and!; [done|by apply Hequal|done].
  - destruct Hrun as (o1 & s1 & det & ws & (-> & Hv')%update_stored & Hst).
    assert (Href : ref_of m = ref_of ms).
    { unfold ref_of. by rewrite Hk, !machineset_type. }
    rewrite updateStatus_none in Hst.
    2:{ unfold hasStatusSubResource. rewrite (proj2 (Hadmit _ _)), machineset_type by done. done. }
    injection Hst as <- <- <-. simpl. eexists. rewrite Hv', Href, lookup_insert_eq.
    split_and!; [done|by rewrite (proj1 (Hadmit _ _))|done].
Qed.

Lemma signalComplete_ok target e an :
  oAnnotations e = Some an → ∃ m, signalComplete target e = Ret m ∧ oBody m = oBody e ∧
    annotation m nodePoolAnnotationTargetConfigVersion = annotation e nodePoolAnnotationTargetConfigVersion ∧
    annotation m nodePoolAnnotationCurrentConfigVersion = target ∧
    has_annotation m nodePoolAnnotationUpgradeInProgressTrue = false ∧
    has_annotation m nodePoolAnnotationUpgradeInProgressFalse = false.
Proof.
  intros Ha. unfold signalComplete, set_annotation. rewrite Ha. eexists. split; [done|].
  unfold annotation, has_annotation, mget, mhas. simpl. rewrite Ha. simpl. by simplify_map_eq.
Qed.

Lemma signalProgress_ok target total upgraded e an :
  oAnnotations e = Some an → ∃ m, signalProgress target total upgraded e = Ret m ∧ oBody m = oBody e ∧
    annotation m nodePoolAnnotationTargetConfigVersion = annotation e nodePoolAnnotationTargetConfigVersion ∧
    annotation m nodePoolAnnotationCurrentConfigVersion =
      annotation e nodePoolAnnotationCurrentConfigVersion ∧
    has_annotation m nodePoolAnnotationUpgradeInProgressTrue = true ∧
    has_annotation m nodePoolAnnotationUpgradeInProgressFalse = false.
Proof.
  intros Ha. unfold signalProgress, set_annotation. simpl. rewrite Ha. simpl. eexists. split; [done|].
  unfold annotation, has_annotation, mget, mhas. simpl. rewrite Ha. simpl. by simplify_map_eq.
Qed.

Lemma annotation_ext o o' k :
  default ∅ (oAnnotations o) = default ∅ (oAnnotations o') →
  annotation o k = annotation o' k ∧ has_annotation o k = has_annotation o' k.
Proof. unfold annotation, has_annotation. by intros ->. Qed.

(** The annotations of the MachineSet after a reconcile that succeeds. *)
Lemma upgrade_reported ms payload image proxy s s' nodes e an
    (target := annotation ms nodePoolAnnotationTargetConfigVersion)
    (Hrun : reconcileInPlaceUpgrade ms payload image proxy s = (Ret (), s'))
    (Hversions : target ≠ annotation ms nodePoolAnnotationCurrentConfigVersion)
    (Hnodes : (getNodesForMachineSet ms s).1 = Ret nodes)
    (Hstored : view (r_mgmt s) !! ref_of ms = Some e)
    (Hkind : is_machineset ms = true ∧ is_machineset e = true)
    (Hannotations : oAnnotations e = Some an) :
  ∃ e', view (r_mgmt s') !! ref_of ms = Some e' ∧
  annotation e' nodePoolAnnotationTargetConfigVersion = annotation e nodePoolAnnotationTargetConfigVersion ∧
  if decide (Forall (finished target) nodes)
  then annotation e' nodePoolAnnotationCurrentConfigVersion = target ∧
       has_annotation e' nodePoolAnnotationUpgradeInProgressTrue = false ∧
       has_annotation e' nodePoolAnnotationUpgradeInProgressFalse = false
  else annotation e' nodePoolAnnotationCurrentConfigVersion =
         annotation e nodePoolAnnotationCurrentConfigVersion ∧
       has_annotation e' nodePoolAnnotationUpgradeInProgressTrue = true ∧
       has_annotation e' nodePoolAnnotationUpgradeInProgressFalse = false.
Proof.
  destruct Hkind as [Hms Hme].
  rewrite (reconcileInPlaceUpgrade_nodes _ _ _ _ _ nodes), complete_finished in Hrun by (done || exact Hversions).
  fold target in Hrun. destruct (decide (Forall (finished target) nodes)).
  - rewrite bool_decide_true in Hrun by done. unfold mbind at 1, st_bind at 1 in Hrun.
    assert (Hg : guest_only (deleteUpgradeManifests nodes (oName ms))).
    { unfold deleteUpgradeManifests. auto with frame. }
    specialize (Hg s). destruct (deleteUpgradeManifests _ _ s) as [[| |] s1]; [|done..]. simpl in Hg.
    rewrite <- Hg in Hstored. unfold mbind, st_bind in Hrun.
    destruct (signalComplete_ok target e an Hannotations)
      as (m & Hm & Hb & ? & ? & ? & ?).
    pose proof (signal_stored ms _ s1 e m Hstored Hms Hme Hm Hb) as Hs.
    destruct (signal _ _ s1) as [[o| |] s2]; [|done..]. injection Hrun as <-.
    destruct Hs as (e' & Hv & Ha & _). exists e'. split; [done|].
    by rewrite !(proj1 (annotation_ext e' m _ Ha)), !(proj2 (annotation_ext e' m _ Ha)).
  - rewrite bool_decide_false in Hrun by done. destruct (List.find degraded nodes) as [d|].
    { unfold mbind, st_bind in Hrun. by destruct (signal _ _ _) as [[| |] ?]. }
    unfold mbind at 1, st_bind at 1 in Hrun.
    match type of Hrun with context [signalProgress target ?t ?u] =>
      destruct (signalProgress_ok target t u e an Hannotations) as (m & Hm & Hb & ? & ? & ? & ?) end.
    pose proof (signal_stored ms _ s e m Hstored Hms Hme Hm Hb) as Hs.
    destruct (signal _ _ s) as [[ms'| |] s1]; [|done..].
    destruct Hs as (e' & Hv & Ha & _). exists e'. split.
    { rewrite <- Hv. f_equal. f_equal.
      match type of Hrun with ?c s1 = _ => assert (Hg : guest_only c) end.
      { repeat first [apply guest_only_bind; [|intros] | apply guest_only_wrap; auto with frame
                     | apply guest_only_lift].
        - repeat case_match; done.
        - unfold reconcileUpgradePods. auto with frame. }
      specialize (Hg s1). by rewrite Hrun in Hg. }
    by rewrite !(proj1 (annotation_ext e' m _ Ha)), !(proj2 (annotation_ext e' m _ Ha)).
Qed.

(** After a reconcile that succeeds, the MachineSet on the management
cluster says the truth about the upgrade: its current version is the target
version and no progress is reported when, and only when, every node has
finished; otherwise its current version is unchanged and progress is reported. *)
Theorem machineset_reports_upgrade ms payload image proxy s s' nodes e an
    (target := annotation ms nodePoolAnnotationTargetConfigVersion)
    (Hrun : reconcileInPlaceUpgrade ms payload image proxy s = (Ret (), s'))
    (Hversions : target ≠ annotation ms nodePoolAnnotationCurrentConfigVersion)
    (Hnodes : (getNodesForMachineSet ms s).1 = Ret nodes)
    (Hstored : view (r_mgmt s) !! ref_of ms = Some e)
    (Hkind : is_machineset ms = true ∧ is_machineset e = true)
    (Hannotations : oAnnotations e = Some an) :
  ∃ e', view (r_mgmt s') !! ref_of ms = Some e' ∧
  if decide (Forall (finished target) nodes)
  then annotation e' nodePoolAnnotationCurrentConfigVersion = target ∧
       has_annotation e' nodePoolAnnotationUpgradeInProgressTrue = false ∧
       has_annotation e' nodePoolAnnotationUpgradeInProgressFalse = false
  else annotation e' nodePoolAnnotationCurrentConfigVersion =
         annotation e nodePoolAnnotationCurrentConfigVersion ∧
       has_annotation e' nodePoolAnnotationUpgradeInProgressTrue = true ∧
       has_annotation e' nodePoolAnnotationUpgradeInProgressFalse = false.
Proof.
  destruct (upgrade_reported _ _ _ _ _ _ _ _ _ Hrun Hversions Hnodes Hstored Hkind Hannotations)
    as (e' & Hv & _ & Hr).
  by exists e'.
Qed.

End Signals.

(** *** Upgrade pods *)

Section Pods.
Context `{!ClientLaws G ObjectRef Object}.
Hypothesis Hadmit : ∀ old m, goTypeName (admit_object old m) = goTypeName m.
(** A pod whose deletion was requested and that is still there says so. *)
Hypothesis Hterminating : ∀ o o' : Object, terminating o o' → oDeletionTimestamp o' ≠ None.

Definition podRef (pool : string) (node : Object) : ObjectRef :=
  ref_of (inPlaceUpgradePod (oName (inPlaceUpgradeNamespace pool)) (oName node)).

(** An idle node has no upgrade pod, or one that is being deleted; any other
node has one. *)
Definition pod_ok (pool : string) (cluster : gmap ObjectRef Object) (node : Object) : Prop :=
  if idle node
  then ∀ p, cluster !! podRef pool node = Some p → oDeletionTimestamp p ≠ None
  else is_Some (cluster !! podRef pool node).

(** The views differ at most at one object. *)
Definition only_at (k : ObjectRef) (v v' : gmap ObjectRef Object) : Prop :=
  ∀ k', k' ≠ k → v' !! k' = v !! k'.

Lemma deleteUpgradePod_post pod s s' :
  deleteUpgradePod pod s = (Ret (), s') →
  (∀ p, view (r_guest s') !! ref_of pod = Some p → oDeletionTimestamp p ≠ None) ∧
  only_at (ref_of pod) (view (r_guest s)) (view (r_guest s')).
Proof.
  unfold deleteUpgradePod. destruct (c_get _ _) as [o|e|] eqn:Hg; [| |done].
  - apply get_stored in Hg. case_bool_decide as Hd.
    { intros [= <-]. split; [|by intros ?]. intros p. rewrite Hg. by intros [= <-]. }
    unfold on_guest, run. simpl.
    destruct (c_delete _ _) as [[[]|e|] c] eqn:Hc; [| |done].
    + intros [= <-]. simpl. destruct (delete_requested _ _ _ Hc) as [-> |(o1 & o2 & _ & Ht & ->)].
      * split; [by rewrite lookup_delete_eq|]. intros k Hk. by rewrite lookup_delete_ne.
      * split; [|intros k Hk; by rewrite lookup_insert_ne]. intros p. rewrite lookup_insert_eq.
        intros [= <-]. by eapply Hterminating.
    + destruct (IsNotFound e) eqn:Hn; [|done]. intros [= <-]. simpl.
      rewrite (delete_missing _ _ _ _ Hc Hn).
      split; [by rewrite lookup_delete_eq|]. intros k Hk. by rewrite lookup_delete_ne.
  - destruct (IsNotFound e) eqn:Hn; [|done]. intros [= <-].
    rewrite (get_missing _ _ _ Hg Hn). by split.
Qed.

Lemma createUpgradePod_post pod node pool image proxy w r w' :
  goTypeName pod = "*v1.Pod" → (∃ e, c_get (ref_of pod) (w_cluster w) = Throw e) →
  CreateOrUpdate pod (λ pod, createUpgradePod pod node pool image proxy) w = (Ret r, w') →
  is_Some (view (w_cluster w') !! ref_of pod) ∧
  only_at (ref_of pod) (view (w_cluster w)) (view (w_cluster w')).
Proof.
  intros Ht [e Hg] Hrun. destruct r as [r o]. apply CreateOrUpdate_success in Hrun.
  rewrite Hg in Hrun.
  destruct Hrun as (m & o1 & s1 & [[= <-] Hk]%mutate_Ret & (-> & Hv)%create_stored & Hst).
  rewrite updateStatus_none in Hst by (unfold hasStatusSubResource; by rewrite Hadmit).
  injection Hst as <- <- <-. simpl. rewrite Hv. unfold ref_of. rewrite Ht. simpl.
  split; [rewrite lookup_insert_eq; by eexists|]. intros k Hne. by rewrite lookup_insert_ne.
Qed.

Lemma reconcileUpgradePod_post pool image proxy node s s' :
  reconcileUpgradePod pool image proxy node s = (Ret (), s') →
  pod_ok pool (view (r_guest s')) node ∧
  only_at (podRef pool node) (view (r_guest s)) (view (r_guest s')).
Proof.
  unfold reconcileUpgradePod, pod_ok. destruct (idle node); [apply deleteUpgradePod_post|].
  destruct (c_get _ _) as [o|e|] eqn:Hg; [| |done].
  - intros [= <-]. split; [|by intros ?]. apply get_stored in Hg. by eexists.
  - destruct (IsNotFound e); [|done]. simpl. unfold mbind, st_bind, wrap, on_guest.
    destruct (CreateOrUpdate _ _ _) as [[r| |] w'] eqn:Hrun; [|done..].
    intros [= <-]. apply createUpgradePod_post in Hrun; [done|done|]. by exists e.
Qed.

Lemma podRef_inj pool a b : podRef pool a = podRef pool b → oName a = oName b.
Proof. unfold podRef, ref_of. simpl. by intros [= ?]. Qed.

(** C32: When reconciling the upgrade pods succeeds, every node that is
updating or has a drain request open has an upgrade pod on the hosted cluster,
every other node has none that is not being deleted, and no other object of the
hosted cluster was touched. *)
Theorem upgrade_pods_follow_nodes nodes pool image proxy s s'
    (Hrun : reconcileUpgradePods nodes pool image proxy s = (Ret (), s'))
    (Hnames : NoDup (oName <$> nodes)) :
  (∀ node, node ∈ nodes → pod_ok pool (view (r_guest s')) node) ∧
  (∀ k, (∀ node, node ∈ nodes → k ≠ podRef pool node) →
        view (r_guest s') !! k = view (r_guest s) !! k).
Proof.
  unfold reconcileUpgradePods in Hrun. revert s Hrun.
  induction nodes as [|n nodes IH]; intros s Hrun; simpl in Hrun.
  { injection Hrun as <-. split; [|done]. by intros ? ?%not_elem_of_nil. }
  unfold mbind, st_bind in Hrun.
  destruct (reconcileUpgradePod pool image proxy n s) as [[[]| |] s1] eqn:Hn; [|done..].
  apply reconcileUpgradePod_post in Hn as [Hok Honly].
  apply NoDup_cons in Hnames as [Hfresh Hnames]. fold (fmap (M := list) oName) in *.
  destruct (IH Hnames s1 Hrun) as [IHok IHonly]. split.
  - intros node [-> | Hin]%elem_of_cons; [|by apply IHok].
    unfold pod_ok in *. rewrite IHonly; [done|].
    intros m Hm Heq%podRef_inj. apply Hfresh. rewrite Heq. by apply list_elem_of_fmap_2.
  - intros k Hk. rewrite IHonly by (intros; apply Hk; by right). apply Honly. apply Hk. left.
Qed.

End Pods.

End Controller.

(** *** A pool of three nodes *)

Module SamplePool.
Import SampleCluster.

(** Slices double their capacity. *)
#[export] Program Instance doubling : SliceGrowth := {
  slice_cap n := if (n =? 0)%nat then 0%nat else (2 ^ Nat.log2_up n)%nat }.
Next Obligation.
  intros n. simpl. destruct (Nat.eqb_spec n 0) as [-> |Hn]; [lia|].
  destruct (decide (n = 1%nat)) as [-> |]; [done|]. apply Nat.log2_up_spec. lia.
Qed.

Definition node (name current desired state : string) : Object :=
  mkObject "" name "" None (Some {[CurrentMachineConfigAnnotationKey := current;
      DesiredMachineConfigAnnotationKey := desired; MachineConfigDaemonStateAnnotationKey := state]})
    [] "" None (OtherObject "*v1.Node" (JMap [])) [].

Definition machines : list Machine :=
  (λ n, mkMachine n [mkOwner "MachineSet" "workers" "uid-1" (Some true)] (Some n)) <$> ["a"; "b"; "c"].

#[export] Instance sample_Management : Management cluster := {
  get_secret _ _ := Ret ∅;
  get_hcp _ _ := Throw NotFound;
  list_machines _ _ _ := Ret machines;
  get_machine _ _ := Throw NotFound;
}.

Definition machineSet (current target : string) : Object :=
  mkObject "clusters" "workers" "uid-1" None (Some {[nodePoolAnnotationCurrentConfigVersion := current;
     nodePoolAnnotationTargetConfigVersion := target]}) [] "" None
    (MachineSet (mkSelector ∅ []) (JMap [])) [].
Definition ms : Object := machineSet "v1" "v2".

Definition pool (a b c : Object) : rstate cluster cluster :=
  mkR {[ref_of ms := ms]} {[ref_of a := a; ref_of b := b; ref_of c := c]} (Some newUpdateLoopDetector) [].

Definition old (name : string) : Object := node name "v1" "v1" "Done".
Definition new (name : string) : Object := node name "v2" "v2" "Done".
Definition moving (name : string) : Object := node name "v1" "v2" "Working".
Definition broken (name : string) : Object := node name "v1" "v2" "Degraded".

Definition upgraded_pool : rstate cluster cluster := pool (new "a") (new "b") (new "c").
Definition moving_pool : rstate cluster cluster := pool (moving "a") (old "b") (new "c").

Lemma admit_keeps o m :
  oAnnotations (admit_object (S := cluster) o m) = oAnnotations m ∧
  goTypeName (admit_object (S := cluster) o m) = goTypeName m.
Proof. simpl. unfold admission, goTypeName. destruct (oBody m) eqn:E; simpl; by rewrite ?E. Qed.

Lemma marked_deleted_at (o o' : Object) : terminating (S := cluster) o o' → oDeletionTimestamp o' ≠ None.
Proof. simpl. by intros ->. Qed.

Lemma exact_annotations (a b : Object) : DeepEqual a b = true →
  default ∅ (oAnnotations a) = default ∅ (oAnnotations b).
Proof. by intros ->%bool_decide_eq_true. Qed.

End SamplePool.
Import SampleCluster SamplePool.

Lemma selection_respects_maxUnavailable_witness :
  ∃ ps, getNodesToUpgrade [old "a"; moving "b"; old "c"] "v2" 2 = Ret ps ∧
  (count_nodes updating (mark "v2" ps [old "a"; moving "b"; old "c"]) ≤
   Z.max 2 (count_nodes updating [old "a"; moving "b"; old "c"]))%Z.
Proof.
  exists [Some 0%nat]. split; [vm_compute; reflexivity|].
  apply selection_respects_maxUnavailable.
  - unfold fits, min_int64, max_int64. simpl. lia.
  - vm_compute. reflexivity.
Defined.

Lemma selection_exact_witness :
  ∃ ps, getNodesToUpgrade [old "a"; moving "b"; old "c"] "v3" 2 = Ret (Some <$> ps) ∧ NoDup ps ∧
    ps = take (Z.to_nat (2 - count_nodes updating [old "a"; moving "b"; old "c"]))
           (indices (candidate "v3") [old "a"; moving "b"; old "c"]) ++
         indices (λ n, updating n && negb (targets "v3" n)) [old "a"; moving "b"; old "c"].
Proof.
  apply (selection_exact [old "a"; moving "b"; old "c"] "v3" 2).
  - unfold fits, min_int64, max_int64. simpl. lia.
  - left. vm_compute. discriminate.
Defined.

Lemma surplus_capacity_never_succeeds_witness :
  ¬ ∃ r s', (ps ← st_lift (getNodesToUpgrade [old "a"; old "b"; new "c"] "v2" 3);
     setNodesDesiredConfig ps "v2" [old "a"; old "b"; new "c"]) (pool (old "a") (old "b") (new "c")) =
    (Ret r, s').
Proof.
  intros (r & s' & Hr). revert Hr. apply surplus_capacity_never_succeeds.
  - unfold fits, min_int64, max_int64. simpl. lia.
  - vm_compute. reflexivity.
  - vm_compute. reflexivity.
Defined.

Lemma degraded_node_stops_upgrade_witness :
  let s := pool (old "a") (broken "b") (old "c") in
  let '(r, s') := reconcileInPlaceUpgrade ms "payload" "mco" None s in
  r ≠ Ret () ∧ r_guest s' = r_guest s.
Proof.
  apply (degraded_node_stops_upgrade ms "payload" "mco" None _ [old "a"; broken "b"; old "c"] (broken "b")).
  - vm_compute. discriminate.
  - vm_compute. reflexivity.
  - apply elem_of_cons; right. apply elem_of_cons; by left.
  - vm_compute. reflexivity.
Defined.

Lemma upgraded_pool_run : ∃ s', reconcileInPlaceUpgrade ms "payload" "mco" None upgraded_pool = (Ret (), s').
Proof. apply run_Ret. vm_compute. reflexivity. Qed.

Lemma machineset_reports_upgrade_witness :
  ∃ s', reconcileInPlaceUpgrade ms "payload" "mco" None upgraded_pool = (Ret (), s') ∧
  ∃ e', view (r_mgmt s') !! ref_of ms = Some e' ∧
    annotation e' nodePoolAnnotationCurrentConfigVersion = "v2" ∧
    has_annotation e' nodePoolAnnotationUpgradeInProgressTrue = false ∧
    has_annotation e' nodePoolAnnotationUpgradeInProgressFalse = false.
Proof.
  destruct upgraded_pool_run as [s' Hrun]. exists s'. split; [exact Hrun|].
  pose proof (machineset_reports_upgrade (M := cluster) (G := cluster) admit_keeps exact_annotations
                ms "payload" "mco" None upgraded_pool s'
                [new "a"; new "b"; new "c"] ms (default ∅ (oAnnotations ms)) Hrun) as Hreport.
  destruct (decide (Forall _ _)) as [_|Hn] in Hreport; [|exfalso; apply Hn; vm_compute; by repeat constructor].
  apply Hreport.
  - vm_compute. discriminate.
  - vm_compute. reflexivity.
  - vm_compute. reflexivity.
  - vm_compute. by split.
  - reflexivity.
Defined.

Lemma moving_pool_run : ∃ s',
  reconcileUpgradePods [moving "a"; old "b"] "workers" "mco" None moving_pool = (Ret (), s').
Proof. apply run_Ret. vm_compute. reflexivity. Qed.

Lemma upgrade_pods_follow_nodes_witness :
  ∃ s', reconcileUpgradePods [moving "a"; old "b"] "workers" "mco" None moving_pool = (Ret (), s') ∧
  (∀ node, node ∈ [moving "a"; old "b"] → pod_ok "workers" (view (r_guest s')) node).
Proof.
  destruct moving_pool_run as [s' Hrun]. exists s'. split; [exact Hrun|].
  apply (upgrade_pods_follow_nodes (M := cluster) (G := cluster) (λ o m, proj2 (admit_keeps o m)) marked_deleted_at
           [moving "a"; old "b"] "workers" "mco" None moving_pool s' Hrun).
  vm_compute. apply NoDup_cons. split; [|apply NoDup_singleton].
  intros H%list_elem_of_singleton. discriminate H.
Defined.

End InPlaceUpgraderProofs.
