(* ===== verification/CertificateRevocation.v ===== *)
(** Revocation of break-glass certificates:
[control-plane-pki-operator/certificaterevocationcontroller/certificaterevocationcontroller.go],
with the names of [control-plane-pki-operator/manifests/pki.go] and the signer
classes of [control-plane-pki-operator/certificates].  A
CertificateRevocationRequest is driven through six steps; each call of the
controller performs at most one write, chosen from what it reads. *)
From S2P Require Import Prelude GoSort Semver Api Upsert.
From Stdlib Require Import Ascii.

Module CertificateRevocation.
Import Semver.

(** *** Data *)

(** [certificates.SignerClass] *)
Definition CustomerBreakGlassSigner : string := "customer-break-glass".
Definition SREBreakGlassSigner : string := "sre-break-glass".

(** [func ValidSignerClass(input string) bool] *)
Definition ValidSignerClass (input : string) : bool :=
  str_eqb input CustomerBreakGlassSigner || str_eqb input SREBreakGlassSigner.

Definition SignerClassValidType : string := "SignerClassValid".
Definition SignerClassUnknownReason : string := "SignerClassUnknown".
Definition RootCertificatesRegeneratedType : string := "RootCertificatesRegenerated".
Definition RootCertificatesStaleReason : string := "RootCertificatesStale".
Definition LeafCertificatesRegeneratedType : string := "LeafCertificatesRegenerated".
Definition LeafCertificatesStaleReason : string := "LeafCertificatesStale".
Definition NewCertificatesTrustedType : string := "NewCertificatesTrusted".
Definition PreviousCertificatesRevokedType : string := "PreviousCertificatesRevoked".
Definition WaitingForAvailableReason : string := "WaitingForAvailable".
Definition CertificateNotAfterAnnotation : string := "auth.openshift.io/certificate-not-after".
Definition CertificateIssuer : string := "auth.openshift.io/certificate-issuer".
Definition TLSCertKey : string := "tls.crt".
Definition TLSPrivateKeyKey : string := "tls.key".

(** [CertificateRevocationRequest]: name, UID, the signer class of the spec and
the status. *)
Record CRR : Type := mkCRR {
  crrNamespace : string;
  crrName : string;
  crrUID : string;
  SignerClass : string;
  RevocationTimestamp : option Time;
  PreviousSigner : option string;
  Conditions : list Condition;
}.

Record Owner : Type := mkOwner { ownerKind : string; ownerName : string }.

Record Secret : Type := mkSecret {
  sNamespace : string;
  sName : string;
  sOwners : list Owner;
  sAnnotations : StringMap;
  sData : StringMap;
}.

Record ConfigMap : Type := mkConfigMap { cmNamespace : string; cmName : string; cmData : StringMap }.

(** [x509.Certificate]: its identity and the start of its validity. *)
Record Certificate : Type := mkCert { certID : string; NotBefore : Time }.

#[export] Instance Certificate_eq_dec : EqDecision Certificate.
Proof. solve_decision. Defined.

(** [certgraphapi.CertKeyPair]: whether it is a signer, the common name of its
issuer (nil when unknown) and its own. *)
Record CertKeyPair : Type := mkPair {
  isSigner : bool; issuerCommonName : option string; CommonName : string }.

(** What the certificate libraries provide; [ParseCertsPEM] of client-go fails
when it finds no certificate. *)
Class X509 : Type := {
  ParseCertsPEM : string → go api_error (list Certificate);
  EncodeCertificates : list Certificate → go api_error string;
  Verify : list Certificate → Time → Certificate → bool;
  InspectSecret : Secret → go api_error (option (list CertKeyPair));
  ParseCertsPEM_some pem l : ParseCertsPEM pem = Ret l → l ≠ [];
}.

(** [sha256.Sum224] read as a big-endian number. *)
Class Digest : Type := { sum224 : string → Z }.

(** What the kube-apiserver answers to a SelfSubjectReview sent with a client
certificate. *)
Inductive review : Type := Authenticated | Unauthorized | ReviewFailed (e : api_error).

(** [struct CertificateRevocationController]: the listers are functions already
in the code; [selfSubjectReview] stands for the client built from the
kubeconfig, and [loadKubeconfig] for [clientcmd]. *)
Record Controller : Type := mkController {
  getCRR : string → string → go api_error CRR;
  getSecret : string → string → go api_error Secret;
  listSecrets : string → go api_error (list Secret);
  getConfigMap : string → string → go api_error ConfigMap;
  skipKASConnections : bool;
  loadKubeconfig : string → go api_error unit;
  selfSubjectReview : string → string → string → review;
}.

(** *** Names *)

Definition CustomerSystemAdminSigner : string := "customer-system-admin-signer".
Definition SRESystemAdminSigner : string := "sre-system-admin-signer".
Definition CustomerSystemAdminSignerCA : string := "customer-system-admin-signer-ca".
Definition SRESystemAdminSignerCA : string := "sre-system-admin-signer-ca".
Definition CustomerSystemAdminClientCertSecret : string := "customer-system-admin-client-cert-key".
Definition SRESystemAdminClientCertSecret : string := "sre-system-admin-client-cert-key".
Definition TotalKASClientCABundle : string := "total-client-ca".
Definition KASServiceKubeconfigSecret : string := "service-network-admin-kubeconfig".

(** [func signerClassForSecretName(name string) (certificates.SignerClass, bool)] *)
Definition signerClassForSecretName (name : string) : option string :=
  if str_eqb name CustomerSystemAdminSigner then Some CustomerBreakGlassSigner
  else if str_eqb name SRESystemAdminSigner then Some SREBreakGlassSigner
  else None.

(** [func signerClassForSecret(secret *corev1.Secret)] *)
Definition signerClassForSecret (secret : Secret) : option string :=
  signerClassForSecretName (sName secret).

(** [func secretForSignerClass(namespace, signer)]: the name of the secret. *)
Definition secretForSignerClass (signer : string) : option string :=
  if str_eqb signer CustomerBreakGlassSigner then Some CustomerSystemAdminSigner
  else if str_eqb signer SREBreakGlassSigner then Some SRESystemAdminSigner
  else None.

(** [func signerClassForLeafCertificateSecret(secret *corev1.Secret)] *)
Definition signerClassForLeafCertificateSecret (secret : Secret) : option string :=
  if str_eqb (sName secret) CustomerSystemAdminClientCertSecret then Some CustomerBreakGlassSigner
  else if str_eqb (sName secret) SRESystemAdminClientCertSecret then Some SREBreakGlassSigner
  else None.

(** [func signerClassForConfigMap(configMap *corev1.ConfigMap)] *)
Definition signerClassForConfigMap (configMap : ConfigMap) : option string :=
  if str_eqb (cmName configMap) CustomerSystemAdminSignerCA then Some CustomerBreakGlassSigner
  else if str_eqb (cmName configMap) SRESystemAdminSignerCA then Some SREBreakGlassSigner
  else None.

(** [func configMapForSignerClass(namespace, signer)]: the name of the config map. *)
Definition configMapForSignerClass (signer : string) : option string :=
  if str_eqb signer CustomerBreakGlassSigner then Some CustomerSystemAdminSignerCA
  else if str_eqb signer SREBreakGlassSigner then Some SRESystemAdminSignerCA
  else None.

(** *** Queue keys *)

(** [cache.MetaNamespaceKeyFunc] *)
Definition MetaNamespaceKey (namespace name : string) : string :=
  if str_eqb namespace "" then name else namespace +:+ "/" +:+ name.

(** [cache.SplitMetaNamespaceKey] *)
Definition SplitMetaNamespaceKey (key : string) : go api_error (string * string) :=
  match split "/"%char key with
  | [name] => Ret ("", name)
  | [namespace; name] => Ret (namespace, name)
  | _ => Throw (OtherError ("unexpected key format: " +:+ key))
  end.

Definition crrKey (crr : CRR) : string := MetaNamespaceKey (crrNamespace crr) (crrName crr).

(** [func enqueueForSigner(namespace, signer, listCRRs) []string] *)
Definition enqueueForSigner (namespace signer : string) (listCRRs : string → go api_error (list CRR))
    : list string :=
  match listCRRs namespace with
  | Ret crrs => crrKey <$> List.filter (λ crr, str_eqb (SignerClass crr) signer) crrs
  | _ => []
  end.

(** [func enqueueAll(namespace, listCRRs) []string] *)
Definition enqueueAll (namespace : string) (listCRRs : string → go api_error (list CRR)) : list string :=
  match listCRRs namespace with Ret crrs => crrKey <$> crrs | _ => [] end.

(** [func enqueueSecret(listCRRs) func(obj runtime.Object) []string] *)
Definition enqueueSecret (listCRRs : string → go api_error (list CRR)) (secret : Secret) : list string :=
  match List.find (λ o, str_eqb (ownerKind o) "CertificateRevocationRequest") (sOwners secret) with
  | Some owner => [MetaNamespaceKey (sNamespace secret) (ownerName owner)]
  | None =>
      match signerClassForLeafCertificateSecret secret with
      | Some signer => enqueueForSigner (sNamespace secret) signer listCRRs
      | None =>
          match signerClassForSecret secret with
          | Some signer => enqueueForSigner (sNamespace secret) signer listCRRs
          | None => []
          end
      end
  end.

(** [func enqueueConfigMap(listCRRs) func(obj runtime.Object) []string] *)
Definition enqueueConfigMap (listCRRs : string → go api_error (list CRR)) (configMap : ConfigMap)
    : list string :=
  if str_eqb (cmName configMap) TotalKASClientCABundle
  then enqueueAll (cmNamespace configMap) listCRRs
  else match signerClassForConfigMap configMap with
       | None => []
       | Some signer => enqueueForSigner (cmNamespace configMap) signer listCRRs
       end.

(** *** Actions *)

(** [metav1applyconfigurations.ConditionApplyConfiguration]; the observed
generation is set only on conditions that are carried over. *)
Record ConditionApply : Type := mkApply {
  aType : string; aStatus : ConditionStatus; aGeneration : option Z;
  aTime : Time; aReason : string; aMessage : string }.

(** The status of a [CertificateRevocationRequestApplyConfiguration]. *)
Record CRRApply : Type := mkCRRApply {
  applyTimestamp : option Time;
  applyPrevious : option string;
  applyConditions : list ConditionApply;
}.

Record SecretApply : Type := mkSecretApply {
  saNamespace : string; saName : string;
  saOwner : option (string * string);
  saAnnotations : StringMap; saData : StringMap }.

Record ConfigMapApply : Type := mkConfigMapApply {
  cmaNamespace : string; cmaName : string; cmaData : StringMap }.

Inductive event_arg : Type := ArgString (s : string) | ArgTime (t : Time).

(** [type eventInfo struct] *)
Record eventInfo : Type := event { reason : string; messageFmt : string; args : list event_arg }.

(** [type actions struct] *)
Record actions : Type := mkActions {
  act_event : option eventInfo;
  act_crr : option CRRApply;
  act_secret : option SecretApply;
  act_cm : option ConfigMapApply;
}.

Definition crr_action (e : eventInfo) (cfg : CRRApply) : actions := mkActions (Some e) (Some cfg) None None.
Definition secret_action (e : eventInfo) (cfg : SecretApply) : actions := mkActions (Some e) None (Some cfg) None.
Definition cm_action (e : eventInfo) (cfg : ConfigMapApply) : actions := mkActions (Some e) None None (Some cfg).

(** [func (a *actions) validate() error] *)
Definition validate (a : actions) : bool :=
  let count {A} (o : option A) : nat := match o with Some _ => 1 | None => 0 end in
  (count (act_crr a) + count (act_cm a) + count (act_secret a) <=? 1)%nat.

(** What a step returns: hand over to the next step, or stop with an optional
action and a flag that asks for a requeue. An error always stops. *)
Inductive step_result : Type :=
  | Next
  | Done (a : option actions) (requeue : bool).

Definition stop : go api_error step_result := Ret (Done None false).
Definition act (a : actions) : go api_error step_result := Ret (Done (Some a) false).

(** *** Helpers *)

Definition quote : string := String (ascii_of_nat 34) "".
(** [fmt.Sprintf("%q", s)] of a plain string. *)
Definition quoted (s : string) : string := quote +:+ s +:+ quote.

Definition carry (c : Condition) : ConditionApply :=
  mkApply (cType c) (cStatus c) (Some (cObservedGeneration c)) (cLastTransitionTime c)
    (cReason c) (cMessage c).

(** [func conditions(existing, updated...)] *)
Definition conditions (existing : list Condition) (updated : list ConditionApply) : list ConditionApply :=
  updated ++ (carry <$> List.filter (λ c, negb (bool_decide (cType c ∈ aType <$> updated))) existing).

(** [func partitionCertificatesByValidity(certs, cutoff)] *)
Definition partitionCertificatesByValidity (certs : list Certificate) (cutoff : Time)
    : list Certificate * list Certificate :=
  (List.filter (λ c, time_after (NotBefore c) cutoff) certs,
   List.filter (λ c, negb (time_after (NotBefore c) cutoff)) certs).

(** [type certificateSecret struct] *)
Record certificateSecret : Type := mkCertificateSecret {
  csNamespace : string; csName : string; csCert : Certificate }.

(** [func certificateSecretNames(leaves) sets.Set[string]] *)
Definition certificateSecretNames (leaves : list certificateSecret) : gset string :=
  list_to_set ((λ l, csNamespace l +:+ "/" +:+ csName l) <$> leaves).

(** [func isLeafCertificate(certKeyPair) bool] *)
Definition isLeafCertificate (p : CertKeyPair) : bool :=
  if isSigner p then false else
  match issuerCommonName p with
  | None => false
  | Some issuer => negb (str_eqb issuer (CommonName p))
  end.

(** [func parseIssuer(issuer string) (string, time.Time, error)]: the time in
seconds of the Unix epoch. *)
Definition parseIssuer (issuer : string) : go api_error (string * Z) :=
  match split "@"%char issuer with
  | [issuerName; issuerTimestamp] =>
      match ParseInt issuerTimestamp with
      | Some seconds => Ret (issuerName, seconds)
      | None => Throw (OtherError ("issuer timestamp malformed: " +:+ issuerTimestamp))
      end
  | _ => Throw (OtherError ("issuer malformed: " +:+ issuer))
  end.

(** The digits of [big.Int.Text(36)]. *)
Definition digit36 (d : Z) : ascii :=
  ascii_of_nat (Z.to_nat (if (d <? 10)%Z then d + 48 else d + 87)).
Fixpoint text36 (fuel : nat) (n : Z) (acc : string) : string :=
  match fuel with
  | 0 => acc
  | S fuel => if (n =? 0)%Z then acc else text36 fuel (n / 36) (String (digit36 (n mod 36)) acc)
  end.
(** 224 bits take at most 44 digits in base 36. *)
Definition Text36 (n : Z) : string := if (n =? 0)%Z then "0" else text36 44 n "".

(** Whether a condition of the type is recorded as true. *)
Definition recorded (conds : list Condition) (t : string) : bool :=
  existsb (λ c, str_eqb (cType c) t && bool_decide (cStatus c = ConditionTrue)) conds.

(** The dereference of a pointer that may be nil. *)
Definition deref {A} (o : option A) : go api_error A :=
  match o with Some a => Ret a | None => Panic end.

(** The value a map of bytes gives, when present and not empty. *)
Definition nonempty_data (m : StringMap) (k : string) : option string :=
  match m !! k with
  | Some v => if str_eqb v "" then None else Some v
  | None => None
  end.

(** *** The steps *)

Section Steps.
Context `{!X509} `{!Digest}.
Variable c : Controller.

(** [now func() time.Time]: the [i]th call the [s]th step makes. *)
Variable now : nat → nat → Time.

(** [func (c *CertificateRevocationController) loadCertificateSecret(namespace, name)]:
nil when the secret does not exist. *)
Definition loadCertificateSecret (namespace name : string)
    : go api_error (option (Secret * list Certificate)) :=
  match getSecret c namespace name with
  | Panic => Panic
  | Throw err =>
      if IsNotFound err then Ret None
      else Throw (Wrapped ("could not fetch client cert secret " +:+ namespace +:+ "/" +:+ name) err)
  | Ret secret =>
      match nonempty_data (sData secret) TLSCertKey with
      | None => Throw (OtherError ("found no certificate in secret " +:+ namespace +:+ "/" +:+ name))
      | Some pem =>
          match ParseCertsPEM pem with
          | Ret certs => Ret (Some (secret, certs))
          | Throw err => Throw (Wrapped ("could not parse certificate in secret " +:+ namespace +:+ "/" +:+ name) err)
          | Panic => Panic
          end
      end
  end.

(** [func (c *CertificateRevocationController) loadTrustBundleConfigMap(namespace, name)]:
nil when the config map does not exist. *)
Definition loadTrustBundleConfigMap (namespace name : string)
    : go api_error (option (list Certificate)) :=
  match getConfigMap c namespace name with
  | Panic => Panic
  | Throw err =>
      if IsNotFound err then Ret None
      else Throw (Wrapped ("could not fetch configmap " +:+ namespace +:+ "/" +:+ name) err)
  | Ret cm =>
      match nonempty_data (cmData cm) "ca-bundle.crt" with
      | None => Throw (OtherError ("found no trust bundle in configmap " +:+ namespace +:+ "/" +:+ name))
      | Some pem =>
          match ParseCertsPEM pem with
          | Ret certs => Ret (Some certs)
          | Throw err => Throw (Wrapped ("could not parse trust bundle in configmap " +:+ namespace +:+ "/" +:+ name) err)
          | Panic => Panic
          end
      end
  end.

(** [func trustedCertificates(trustBundle, secrets, now)], at the time it reads. *)
Definition trustedCertificates (trustBundle : list Certificate) (secrets : list certificateSecret)
    (t : Time) : list certificateSecret :=
  List.filter (λ s, Verify trustBundle t (csCert s)) secrets.

(** [func (c *CertificateRevocationController) commitRevocationTimestamp] *)
Definition commitRevocationTimestamp (crr : CRR) : go api_error step_result :=
  let class := SignerClass crr in
  if negb (ValidSignerClass class) then
    act (crr_action
      (event "CertificateRevocationInvalid" "Signer class %q unknown." [ArgString class])
      (mkCRRApply None None (conditions (Conditions crr)
        [mkApply SignerClassValidType ConditionFalse None (now 0 0) SignerClassUnknownReason
           ("Signer class " +:+ quoted class +:+ " unknown.")])))
  else match RevocationTimestamp crr with
  | None =>
      let revocationTimestamp := now 0 0 in
      act (crr_action
        (event "CertificateRevocationStarted" "%q certificates valid before %s will be revoked."
           [ArgString class; ArgTime revocationTimestamp])
        (mkCRRApply (Some revocationTimestamp) None (conditions (Conditions crr)
          [mkApply SignerClassValidType ConditionTrue None (now 0 1) AsExpectedReason
             ("Signer class " +:+ quoted class +:+ " known.")])))
  | Some _ => Ret Next
  end.

(** The name of the copy of the previous signer: base36(sha224(name)). *)
Definition previousSignerName (crr : CRR) : string := Text36 (sum224 (crrName crr)).

Definition force_regeneration : StringMap := {[CertificateNotAfterAnnotation := "force-regeneration"]}.

(** The part of [generateNewSignerCertificate] that runs while the signer is to
be regenerated; [current] is nil when the signer does not exist. *)
Definition regenerateSigner (namespace : string) (crr : CRR) (signer : string)
    (current : option Secret) : go api_error step_result :=
  let prev := previousSignerName crr in
  match getSecret c namespace prev with
  | Panic => Panic
  | Throw err =>
      if negb (IsNotFound err) then Throw err else
      current ← deref current;
      act (secret_action
        (event "CertificateRevocationProgressing" "Copying previous signer %s/%s to %s/%s."
           [ArgString namespace; ArgString signer; ArgString namespace; ArgString prev])
        (mkSecretApply namespace prev (Some (crrName crr, crrUID crr)) ∅
           (list_to_map [(TLSCertKey, mget (sData current) TLSCertKey);
                         (TLSPrivateKeyKey, mget (sData current) TLSPrivateKeyKey)])))
  | Ret _ =>
      match PreviousSigner crr with
      | None =>
          ts ← deref (RevocationTimestamp crr);
          act (crr_action
            (event "CertificateRevocationProgressing" "Recording reference to copied previous signer %s/%s."
               [ArgString namespace; ArgString prev])
            (mkCRRApply (Some ts) (Some prev) (conditions (Conditions crr)
              [mkApply RootCertificatesRegeneratedType ConditionFalse None (now 1 0) RootCertificatesStaleReason
                 ("Signer certificate " +:+ namespace +:+ "/" +:+ signer +:+ " needs to be regenerated.")])))
      | Some _ =>
          current ← deref current;
          if bool_decide (sAnnotations current !! CertificateNotAfterAnnotation = Some "force-regeneration")
          then stop
          else act (secret_action
                 (event "CertificateRevocationProgressing" "Marking signer %s/%s for regeneration."
                    [ArgString namespace; ArgString signer])
                 (mkSecretApply namespace signer None force_regeneration ∅))
      end
  end.

(** [var certificateNeedsRegeneration bool] *)
Definition certificateNeedsRegeneration (crr : CRR) (certs : list Certificate) : go api_error bool :=
  if (0 <? length certs)%nat then
    cutoff ← deref (RevocationTimestamp crr);
    let '(onlyAfter, beforeAndDuring) := partitionCertificatesByValidity certs cutoff in
    Ret ((0 <? length beforeAndDuring)%nat || (length onlyAfter =? 0)%nat)
  else Ret true.

(** [func (c *CertificateRevocationController) generateNewSignerCertificate] *)
Definition generateNewSignerCertificate (namespace : string) (crr : CRR) : go api_error step_result :=
  match secretForSignerClass (SignerClass crr) with
  | None => stop
  | Some signer =>
      loaded ← loadCertificateSecret namespace signer;
      let certs := match loaded with Some (_, certs) => certs | None => [] end in
      needed ← certificateNeedsRegeneration crr certs;
      if (needed : bool) then regenerateSigner namespace crr signer (fst <$> loaded)
      else if recorded (Conditions crr) RootCertificatesRegeneratedType then Ret Next
      else
        ts ← deref (RevocationTimestamp crr);
        prev ← deref (PreviousSigner crr);
        act (crr_action
          (event "CertificateRevocationProgressing" "New %q signer certificates generated."
             [ArgString (SignerClass crr)])
          (mkCRRApply (Some ts) (Some prev) (conditions (Conditions crr)
            [mkApply RootCertificatesRegeneratedType ConditionTrue None (now 1 0) AsExpectedReason
               ("Signer certificate " +:+ namespace +:+ "/" +:+ signer +:+ " regenerated.");
             mkApply NewCertificatesTrustedType ConditionFalse None (now 1 1) WaitingForAvailableReason
               ("New signer certificate " +:+ namespace +:+ "/" +:+ signer +:+ " not yet trusted.")])))
  end.

(** The SelfSubjectReview with a client certificate, through the kubeconfig of
the hosted cluster. *)
Definition askKAS (namespace certPEM keyPEM : string) : go api_error review :=
  match getSecret c namespace KASServiceKubeconfigSecret with
  | Panic => Panic
  | Throw err => Throw (Wrapped "couldn't fetch guest cluster service network kubeconfig" err)
  | Ret kubeconfig =>
      match loadKubeconfig c (mget (sData kubeconfig) "kubeconfig") with
      | Panic => Panic
      | Throw err => Throw (Wrapped "couldn't load guest cluster service network kubeconfig" err)
      | Ret _ => Ret (selfSubjectReview c (mget (sData kubeconfig) "kubeconfig") certPEM keyPEM)
      end
  end.

(** The signer secret must have both halves of the key pair. *)
Definition keyPair (secret : Secret) : go api_error (string * string) :=
  match nonempty_data (sData secret) TLSCertKey, nonempty_data (sData secret) TLSPrivateKeyKey with
  | Some cert, Some key => Ret (cert, key)
  | None, _ => Throw (OtherError ("signer certificate had no data for " +:+ TLSCertKey))
  | _, None => Throw (OtherError ("signer certificate had no data for " +:+ TLSPrivateKeyKey))
  end.

(** [func (c *CertificateRevocationController) ensureNewSignerCertificatePropagated] *)
Definition ensureNewSignerCertificatePropagated (namespace : string) (crr : CRR)
    : go api_error step_result :=
  match secretForSignerClass (SignerClass crr) with
  | None => stop
  | Some signer =>
      loaded ← loadCertificateSecret namespace signer;
      match loaded with
      | None => stop
      | Some (signerSecret, signers) =>
          pair ← keyPair signerSecret;
          bundle ← loadTrustBundleConfigMap namespace TotalKASClientCABundle;
          match bundle with
          | None => stop
          | Some totalClientTrustBundle =>
              first ← deref (head signers);
              if (length (trustedCertificates totalClientTrustBundle
                           [mkCertificateSecret "" "" first] (now 2 0)) =? 0)%nat then stop else
              answer ← (if skipKASConnections c then Ret Authenticated
                        else askKAS namespace pair.1 pair.2);
              match answer with
              | Unauthorized => Ret (Done None true)
              | ReviewFailed err => Throw (Wrapped "couldn't send SSR to guest cluster" err)
              | Authenticated =>
                  if recorded (Conditions crr) NewCertificatesTrustedType then Ret Next else
                  ts ← deref (RevocationTimestamp crr);
                  prev ← deref (PreviousSigner crr);
                  act (crr_action
                    (event "CertificateRevocationProgressing" "New %q signer certificates valid."
                       [ArgString (SignerClass crr)])
                    (mkCRRApply (Some ts) (Some prev) (conditions (Conditions crr)
                      [mkApply NewCertificatesTrustedType ConditionTrue None (now 2 1) AsExpectedReason
                         ("New signer certificate " +:+ namespace +:+ "/" +:+ signer +:+ " trusted.")])))
              end
          end
      end
  end.

(** The loop of [generateNewLeafCertificates] over the secrets. *)
Fixpoint markStaleLeaf (currentIssuerName : string) (currentIssuerTimestamp : Z)
    (secrets : list Secret) : go api_error step_result :=
  match secrets with
  | [] => Ret Next
  | secret :: secrets =>
      match sAnnotations secret !! CertificateIssuer with
      | None => markStaleLeaf currentIssuerName currentIssuerTimestamp secrets
      | Some issuer =>
          match parseIssuer issuer with
          | Panic => Panic
          | Throw err => Throw (Wrapped ("certificate malformed: " +:+ sName secret) err)
          | Ret (issuerName, issuerTimestamp) =>
              if str_eqb issuerName currentIssuerName && (issuerTimestamp <? currentIssuerTimestamp)%Z then
                act (secret_action
                  (event "CertificateRevocationProgressing" "Marking certificate %s/%s for regeneration."
                     [ArgString (sNamespace secret); ArgString (sName secret)])
                  (mkSecretApply (sNamespace secret) (sName secret) None force_regeneration ∅))
              else markStaleLeaf currentIssuerName currentIssuerTimestamp secrets
          end
      end
  end.

(** [func (c *CertificateRevocationController) generateNewLeafCertificates] *)
Definition generateNewLeafCertificates (namespace : string) (crr : CRR) : go api_error step_result :=
  match secretForSignerClass (SignerClass crr) with
  | None => stop
  | Some signer =>
      secrets ← listSecrets c namespace;
      let currentIssuer := match List.find (λ s, str_eqb (sName s) signer) secrets with
                           | Some secret => mget (sAnnotations secret) CertificateIssuer
                           | None => ""
                           end in
      match parseIssuer currentIssuer with
      | Panic => Panic
      | Throw err => Throw (Wrapped ("signer malformed: " +:+ signer) err)
      | Ret (name, timestamp) => markStaleLeaf name timestamp secrets
      end
  end.

(** The loop of [prunePreviousSignerCertificates] that collects the leaf
certificates of the namespace. *)
Fixpoint existingLeafCerts (secrets : list Secret) : go api_error (list certificateSecret) :=
  match secrets with
  | [] => Ret []
  | secret :: secrets =>
      match sData secret !! TLSCertKey with
      | None => existingLeafCerts secrets
      | Some pem =>
          match InspectSecret secret with
          | Throw _ | Ret None => existingLeafCerts secrets
          | Panic => Panic
          | Ret (Some pairs) =>
              match ParseCertsPEM pem with
              | Panic => Panic
              | Throw err => Throw (Wrapped ("could not parse certificate in secret " +:+ sName secret) err)
              | Ret certs =>
                  first ← deref (head certs);
                  rest ← existingLeafCerts secrets;
                  Ret (((λ _, mkCertificateSecret (sNamespace secret) (sName secret) first) <$>
                        List.filter isLeafCertificate pairs) ++ rest)
              end
          end
      end
  end.

(** [strings.Join(list, ", ")] *)
Fixpoint join (l : list string) : string :=
  match l with
  | [] => ""
  | [x] => x
  | x :: l => x +:+ ", " +:+ join l
  end.

(** [func (c *CertificateRevocationController) prunePreviousSignerCertificates] *)
Definition prunePreviousSignerCertificates (namespace : string) (crr : CRR) : go api_error step_result :=
  match configMapForSignerClass (SignerClass crr) with
  | None => stop
  | Some trustBundleCA =>
      bundle ← loadTrustBundleConfigMap namespace trustBundleCA;
      match bundle with
      | None => stop
      | Some currentTrustBundle =>
          cutoff ← deref (RevocationTimestamp crr);
          let '(onlyAfter, _) := partitionCertificatesByValidity currentTrustBundle cutoff in
          if negb (length onlyAfter =? length currentTrustBundle)%nat then
            match listSecrets c namespace with
            | Panic => Panic
            | Throw err => Throw (Wrapped "failed to list secrets" err)
            | Ret secrets =>
                leaves ← existingLeafCerts secrets;
                let currentlyTrustedLeaves := trustedCertificates currentTrustBundle leaves (now 4 0) in
                let futureTrustedLeaves := trustedCertificates onlyAfter leaves (now 4 1) in
                let diff := certificateSecretNames currentlyTrustedLeaves ∖
                            certificateSecretNames futureTrustedLeaves in
                if negb (size diff =? 0)%nat then
                  let list := sets_List diff in
                  prev ← deref (PreviousSigner crr);
                  act (crr_action
                    (event "CertificateRevocationProgressing" "Waiting for leaf certificates %v to regenerate."
                       [ArgString (join list)])
                    (mkCRRApply (Some cutoff) (Some prev) (conditions (Conditions crr)
                      [mkApply LeafCertificatesRegeneratedType ConditionFalse None (now 4 2)
                         LeafCertificatesStaleReason
                         ("Revocation would lose trust for leaf certificates: " +:+ join list +:+ ".")])))
                else
                  match EncodeCertificates onlyAfter with
                  | Panic => Panic
                  | Throw err => Throw (Wrapped ("failed to encode new cert bundle for configmap " +:+ trustBundleCA) err)
                  | Ret newBundlePEM =>
                      act (cm_action
                        (event "CertificateRevocationProgressing"
                           "Pruning previous %q signer certificates from CA bundle."
                           [ArgString (SignerClass crr)])
                        (mkConfigMapApply namespace trustBundleCA {["ca-bundle.crt" := newBundlePEM]}))
                  end
            end
          else if recorded (Conditions crr) LeafCertificatesRegeneratedType then Ret Next
          else
            prev ← deref (PreviousSigner crr);
            act (crr_action
              (event "CertificateRevocationProgressing" "Previous %q signer certificates pruned."
                 [ArgString (SignerClass crr)])
              (mkCRRApply (Some cutoff) (Some prev) (conditions (Conditions crr)
                [mkApply LeafCertificatesRegeneratedType ConditionTrue None (now 4 0) AsExpectedReason
                   "All leaf certificates are re-generated.";
                 mkApply PreviousCertificatesRevokedType ConditionFalse None (now 4 1) WaitingForAvailableReason
                   "Previous signer certificate not yet revoked."])))
      end
  end.

(** [func (c *CertificateRevocationController) ensureOldSignerCertificateRevoked] *)
Definition ensureOldSignerCertificateRevoked (namespace : string) (crr : CRR) : go api_error step_result :=
  prev ← deref (PreviousSigner crr);
  oldCertSecret ← getSecret c namespace prev;
  match nonempty_data (sData oldCertSecret) TLSCertKey with
  | None => Throw (OtherError ("signer certificate had no data for " +:+ TLSCertKey))
  | Some oldCertPEM =>
      oldCerts ← ParseCertsPEM oldCertPEM;
      match nonempty_data (sData oldCertSecret) TLSPrivateKeyKey with
      | None => Throw (OtherError ("signer certificate had no data for " +:+ TLSPrivateKeyKey))
      | Some oldKeyPEM =>
          bundle ← loadTrustBundleConfigMap namespace TotalKASClientCABundle;
          match bundle with
          | None => stop
          | Some totalClientTrustBundle =>
              first ← deref (head oldCerts);
              if negb (length (trustedCertificates totalClientTrustBundle
                               [mkCertificateSecret "" "" first] (now 5 0)) =? 0)%nat then stop else
              answer ← (if skipKASConnections c then Ret Unauthorized
                        else askKAS namespace oldCertPEM oldKeyPEM);
              match answer with
              | Authenticated => Ret (Done None true)
              | ReviewFailed err => Throw (Wrapped "couldn't send SSR to guest cluster" err)
              | Unauthorized =>
                  if recorded (Conditions crr) PreviousCertificatesRevokedType then Ret Next else
                  ts ← deref (RevocationTimestamp crr);
                  act (crr_action
                    (event "CertificateRevocationComplete" "%q signer certificates revoked."
                       [ArgString (SignerClass crr)])
                    (mkCRRApply (Some ts) (Some prev) (conditions (Conditions crr)
                      [mkApply PreviousCertificatesRevokedType ConditionTrue None (now 5 1) AsExpectedReason
                         "Previous signer certificate revoked."])))
              end
          end
      end
  end.

(** The loop over the steps: the first one that does not hand over decides. *)
Fixpoint run_steps (steps : list (go api_error step_result)) : go api_error (option actions * bool) :=
  match steps with
  | [] => Ret (None, false)
  | step :: steps =>
      r ← step;
      match r with
      | Next => run_steps steps
      | Done a requeue => Ret (a, requeue)
      end
  end.

(** [func (c *CertificateRevocationController) processCertificateRevocationRequest] *)
Definition steps (namespace : string) (crr : CRR) : list (go api_error step_result) :=
  [commitRevocationTimestamp crr;
   generateNewSignerCertificate namespace crr;
   ensureNewSignerCertificatePropagated namespace crr;
   generateNewLeafCertificates namespace crr;
   prunePreviousSignerCertificates namespace crr;
   ensureOldSignerCertificateRevoked namespace crr].

Definition processCertificateRevocationRequest (namespace name : string)
    : go api_error (option actions * bool) :=
  match getCRR c namespace name with
  | Panic => Panic
  | Throw err => if IsNotFound err then Ret (None, false) else Throw err
  | Ret crr => run_steps (steps namespace crr)
  end.

(** What [syncCertificateRevocationRequest] sends to the API server. *)
Inductive write : Type :=
  | ApplyStatus (cfg : CRRApply)
  | ApplySecret (cfg : SecretApply)
  | ApplyConfigMap (cfg : ConfigMapApply).

(** [func (c *CertificateRevocationController) syncCertificateRevocationRequest]:
the event recorded and the write made, if any; an invalid action panics. *)
Definition syncCertificateRevocationRequest (queueKey : string)
    : go api_error (option eventInfo * option write) :=
  key ← SplitMetaNamespaceKey queueKey;
  r ← processCertificateRevocationRequest key.1 key.2;
  let '(action, requeue) := r in
  if (requeue : bool) then Throw (OtherError "synthetic requeue request") else
  match action with
  | None => Ret (None, None)
  | Some a =>
      if negb (validate a) then Panic else
      Ret (act_event a,
           match act_crr a, act_secret a, act_cm a with
           | Some cfg, _, _ => Some (ApplyStatus cfg)
           | None, Some cfg, _ => Some (ApplySecret cfg)
           | None, None, Some cfg => Some (ApplyConfigMap cfg)
           | None, None, None => None
           end)
  end.

End Steps.

End CertificateRevocation.
