(* ===== verification/CertificateRevocationProofs.v ===== *)
(** Safety of certificate revocation: when trust is withdrawn, when the request
is reported complete, what the status keeps, and where the steps can panic. *)
From S2P Require Import Prelude GoSort Semver Api Upsert CertificateRevocation.

Module CertificateRevocationProofs.
Import CertificateRevocation.

Section Safety.
Context `{!X509} `{!Digest}.
Implicit Types (c : Controller) (now : nat → nat → Time) (crr : CRR) (a : actions).

(** *** Inversion *)

(** An action, with the step that took it. *)
Inductive taken c now (ns : string) crr a (rq : bool) : Prop :=
  | taken_commit : commitRevocationTimestamp now crr = Ret (Done (Some a) rq) → taken c now ns crr a rq
  | taken_signer :
      commitRevocationTimestamp now crr = Ret Next →
      generateNewSignerCertificate c now ns crr = Ret (Done (Some a) rq) → taken c now ns crr a rq
  | taken_propagated :
      commitRevocationTimestamp now crr = Ret Next →
      generateNewSignerCertificate c now ns crr = Ret Next →
      ensureNewSignerCertificatePropagated c now ns crr = Ret (Done (Some a) rq) → taken c now ns crr a rq
  | taken_leaf :
      commitRevocationTimestamp now crr = Ret Next →
      generateNewSignerCertificate c now ns crr = Ret Next →
      ensureNewSignerCertificatePropagated c now ns crr = Ret Next →
      generateNewLeafCertificates c ns crr = Ret (Done (Some a) rq) → taken c now ns crr a rq
  | taken_prune :
      commitRevocationTimestamp now crr = Ret Next →
      generateNewSignerCertificate c now ns crr = Ret Next →
      ensureNewSignerCertificatePropagated c now ns crr = Ret Next →
      generateNewLeafCertificates c ns crr = Ret Next →
      prunePreviousSignerCertificates c now ns crr = Ret (Done (Some a) rq) → taken c now ns crr a rq
  | taken_revoked :
      commitRevocationTimestamp now crr = Ret Next →
      generateNewSignerCertificate c now ns crr = Ret Next →
      ensureNewSignerCertificatePropagated c now ns crr = Ret Next →
      generateNewLeafCertificates c ns crr = Ret Next →
      prunePreviousSignerCertificates c now ns crr = Ret Next →
      ensureOldSignerCertificateRevoked c now ns crr = Ret (Done (Some a) rq) → taken c now ns crr a rq.

Lemma process_taken c now ns name a rq :
  processCertificateRevocationRequest c now ns name = Ret (Some a, rq) →
  ∃ crr, getCRR c ns name = Ret crr ∧ taken c now ns crr a rq.
Proof.
  unfold processCertificateRevocationRequest.
  destruct (getCRR c ns name) as [crr|e|]; [|by case_match|done].
  intros Hr. exists crr. split; [done|]. revert Hr. simpl.
  destruct (commitRevocationTimestamp now crr) as [[|]| |] eqn:?; simpl; try done.
  2:{ intros [= -> ->]. by apply taken_commit. }
  destruct (generateNewSignerCertificate c now ns crr) as [[|]| |] eqn:?; simpl; try done.
  2:{ intros [= -> ->]. by apply taken_signer. }
  destruct (ensureNewSignerCertificatePropagated c now ns crr) as [[|]| |] eqn:?; simpl; try done.
  2:{ intros [= -> ->]. by apply taken_propagated. }
  destruct (generateNewLeafCertificates c ns crr) as [[|]| |] eqn:?; simpl; try done.
  2:{ intros [= -> ->]. by apply taken_leaf. }
  destruct (prunePreviousSignerCertificates c now ns crr) as [[|]| |] eqn:?; simpl; try done.
  2:{ intros [= -> ->]. by apply taken_prune. }
  destruct (ensureOldSignerCertificateRevoked c now ns crr) as [[|]| |] eqn:?; simpl; try done.
  intros [= -> ->]. by apply taken_revoked.
Qed.

(** Runs a step symbolically: one case per read, early return and branch. *)
Ltac step_cases H :=
  unfold mbind, go_bind, deref, act, stop in H;
  repeat (simpl in H; first
    [ discriminate H
    | match type of H with
      | context [match ?x with _ => _ end] =>
          lazymatch x with
          | context [match _ with _ => _ end] => fail
          | _ => destruct x eqn:?; try discriminate H
          end
      end ]).

(** *** What handing over means *)

Lemma commit_next now crr :
  commitRevocationTimestamp now crr = Ret Next →
  ValidSignerClass (SignerClass crr) = true ∧ ∃ ts, RevocationTimestamp crr = Some ts.
Proof.
  unfold commitRevocationTimestamp. intros H1. step_cases H1. split; [|by eexists].
  by apply negb_false_iff.
Qed.

Lemma not_needed crr certs :
  certificateNeedsRegeneration crr certs = Ret false →
  certs ≠ [] ∧ ∃ ts, RevocationTimestamp crr = Some ts ∧
    ∀ cert, cert ∈ certs → (ts < NotBefore cert)%Z.
Proof.
  unfold certificateNeedsRegeneration, partitionCertificatesByValidity. intros H1. step_cases H1.
  injection H1 as [Hb Ha]%orb_false_iff. split; [by intros ->|]. eexists. split; [done|].
  apply Nat.ltb_ge in Hb. intros cert Hin.
  assert (Hn : length (List.filter (λ x, negb (time_after (NotBefore x) t)) certs) = 0%nat) by lia.
  rewrite filter_none in Hn. specialize (Hn cert Hin).
  apply negb_false_iff in Hn. by apply Z.ltb_lt in Hn.
Qed.

(** The signer's certificates all start after the revocation, and that is on
record. *)
Lemma signer_next c now ns crr :
  generateNewSignerCertificate c now ns crr = Ret Next →
  ∃ signer secret certs ts,
    secretForSignerClass (SignerClass crr) = Some signer ∧
    loadCertificateSecret c ns signer = Ret (Some (secret, certs)) ∧
    RevocationTimestamp crr = Some ts ∧
    (∀ cert, cert ∈ certs → (ts < NotBefore cert)%Z) ∧
    recorded (Conditions crr) RootCertificatesRegeneratedType = true.
Proof.
  unfold generateNewSignerCertificate, regenerateSigner. intros H1.
  destruct (secretForSignerClass _) as [signer|]; [|done].
  destruct (loadCertificateSecret c ns signer) as [loaded| |] eqn:Hl; [|done..]. simpl in H1.
  destruct (certificateNeedsRegeneration _ _) as [[|]| |] eqn:Hn; [|..]; try done; step_cases H1.
  apply not_needed in Hn as (Hne & ts & Hts & Hall).
  destruct loaded as [[secret certs]|]; [|done]. by exists signer, secret, certs, ts.
Qed.

(** The new signer is trusted, and that is on record. *)
Lemma propagated_next c now ns crr :
  ensureNewSignerCertificatePropagated c now ns crr = Ret Next →
  ∃ signer secret cert certs bundle,
    secretForSignerClass (SignerClass crr) = Some signer ∧
    loadCertificateSecret c ns signer = Ret (Some (secret, cert :: certs)) ∧
    loadTrustBundleConfigMap c ns TotalKASClientCABundle = Ret (Some bundle) ∧
    Verify bundle (now 2 0) cert = true ∧
    recorded (Conditions crr) NewCertificatesTrustedType = true.
Proof.
  unfold ensureNewSignerCertificatePropagated, trustedCertificates. intros H1.
  destruct (secretForSignerClass _) as [signer|]; [|done].
  destruct (loadCertificateSecret c ns signer) as [[[secret certs]|]| |] eqn:Hl; try done. simpl in H1.
  destruct (keyPair secret) as [pair| |]; try done. simpl in H1.
  destruct (loadTrustBundleConfigMap c ns TotalKASClientCABundle) as [[bundle|]| |]; try done. simpl in H1.
  destruct certs as [|cert certs]; [done|]. simpl in H1.
  destruct (Verify bundle (now 2 0) cert) eqn:Hv; simpl in H1; [|done].
  step_cases H1; by eexists _, _, _, _, _.
Qed.

(** Every certificate of the signer's bundle starts after the revocation. *)
Lemma prune_next c now ns crr :
  prunePreviousSignerCertificates c now ns crr = Ret Next →
  ∃ cm bundle ts,
    configMapForSignerClass (SignerClass crr) = Some cm ∧
    loadTrustBundleConfigMap c ns cm = Ret (Some bundle) ∧
    RevocationTimestamp crr = Some ts ∧
    (∀ cert, cert ∈ bundle → (ts < NotBefore cert)%Z) ∧
    recorded (Conditions crr) LeafCertificatesRegeneratedType = true.
Proof.
  unfold prunePreviousSignerCertificates, partitionCertificatesByValidity. intros H1.
  destruct (configMapForSignerClass _) as [cm|]; [|done].
  destruct (loadTrustBundleConfigMap c ns cm) as [[bundle|]| |] eqn:Hbundle; try done. simpl in H1.
  destruct (RevocationTimestamp crr) as [ts|]; [|done]. simpl in H1.
  destruct (length _ =? length bundle)%nat eqn:Hlen; simpl in H1; [|by step_cases H1].
  step_cases H1. exists cm, bundle, ts. split_and!; try done.
  intros cert Hin. apply Nat.eqb_eq in Hlen. rewrite filter_all in Hlen.
  specialize (Hlen cert Hin). by apply Z.ltb_lt in Hlen.
Qed.

(** *** What the actions are *)

(** A status write: it carries the conditions over and, once they are set, the
revocation timestamp and the previous signer. *)
Definition status_write crr a : Prop :=
  ∃ e cfg updated, a = crr_action e cfg ∧
    applyConditions cfg = conditions (Conditions crr) updated ∧
    NoDup (aType <$> updated) ∧
    (∀ ts, ValidSignerClass (SignerClass crr) = true → RevocationTimestamp crr = Some ts →
       applyTimestamp cfg = Some ts ∧
       (∀ prev, PreviousSigner crr = Some prev → applyPrevious cfg = Some prev)).

Ltac status_write :=
  eexists _, _, _; split; [reflexivity|]; split; [reflexivity|]; split;
  [first [apply NoDup_singleton | by apply NoDup_two] | simpl; intros; split; intros; congruence].

Lemma commit_action now crr a rq :
  commitRevocationTimestamp now crr = Ret (Done (Some a) rq) → status_write crr a.
Proof.
  unfold commitRevocationTimestamp. intros H1. step_cases H1; injection H1 as <- <-.
  - apply negb_true_iff in Heqb. status_write.
  - status_write.
Qed.

Lemma signer_action c now ns crr a rq :
  generateNewSignerCertificate c now ns crr = Ret (Done (Some a) rq) →
  status_write crr a ∨ ∃ e cfg, a = secret_action e cfg.
Proof.
  unfold generateNewSignerCertificate, regenerateSigner. intros H1.
  step_cases H1; injection H1 as <- <-; try (left; status_write); right; by eexists _, _.
Qed.

Lemma propagated_action c now ns crr a rq :
  ensureNewSignerCertificatePropagated c now ns crr = Ret (Done (Some a) rq) → status_write crr a.
Proof.
  unfold ensureNewSignerCertificatePropagated. intros H1.
  step_cases H1; injection H1 as <- <-; status_write.
Qed.

Lemma leaf_action c ns crr a rq :
  generateNewLeafCertificates c ns crr = Ret (Done (Some a) rq) → ∃ e cfg, a = secret_action e cfg.
Proof.
  unfold generateNewLeafCertificates. intros H1.
  destruct (secretForSignerClass _); [|done].
  destruct (listSecrets c ns) as [secrets| |]; try done. simpl in H1.
  destruct (parseIssuer _) as [[name ts]| |]; try done. clear -H1.
  induction secrets as [|s secrets IH]; simpl in H1; [done|].
  step_cases H1; auto. injection H1 as <- <-. by eexists _, _.
Qed.

(** Pruning: the bundle that is written and what was checked before. *)
Definition prunes c now ns crr a : Prop :=
  ∃ e cm bundle ts secrets leaves pem,
    configMapForSignerClass (SignerClass crr) = Some cm ∧
    loadTrustBundleConfigMap c ns cm = Ret (Some bundle) ∧
    RevocationTimestamp crr = Some ts ∧
    listSecrets c ns = Ret secrets ∧ existingLeafCerts secrets = Ret leaves ∧
    let newer := List.filter (λ cert, time_after (NotBefore cert) ts) bundle in
    (∀ leaf, leaf ∈ trustedCertificates bundle leaves (now 4 0) →
       ∃ leaf', leaf' ∈ trustedCertificates newer leaves (now 4 1) ∧
         csNamespace leaf' +:+ "/" +:+ csName leaf' = csNamespace leaf +:+ "/" +:+ csName leaf) ∧
    EncodeCertificates newer = Ret pem ∧
    a = cm_action e (mkConfigMapApply ns cm {["ca-bundle.crt" := pem]}).

Lemma names_subset (l l' : list certificateSecret) :
  size (certificateSecretNames l ∖ certificateSecretNames l') = 0%nat →
  ∀ x, x ∈ l → ∃ y, y ∈ l' ∧ csNamespace y +:+ "/" +:+ csName y = csNamespace x +:+ "/" +:+ csName x.
Proof.
  intros Hs%size_empty_inv x Hx.
  assert (Hin : csNamespace x +:+ "/" +:+ csName x ∈ certificateSecretNames l').
  { apply dec_stable. intros Hnot.
    assert (Hd : csNamespace x +:+ "/" +:+ csName x ∈
                 certificateSecretNames l ∖ certificateSecretNames l').
    { apply elem_of_difference. split; [|done]. unfold certificateSecretNames.
      apply elem_of_list_to_set, list_elem_of_fmap. by exists x. }
    set_solver. }
  unfold certificateSecretNames in Hin.
  apply elem_of_list_to_set, list_elem_of_fmap in Hin as (y & Hy & Hin). by exists y.
Qed.

Lemma prune_action c now ns crr a rq :
  prunePreviousSignerCertificates c now ns crr = Ret (Done (Some a) rq) →
  status_write crr a ∨ prunes c now ns crr a.
Proof.
  unfold prunePreviousSignerCertificates. intros H1.
  destruct (configMapForSignerClass _) as [cm|] eqn:Hcm; [|done].
  destruct (loadTrustBundleConfigMap c ns cm) as [[bundle|]| |] eqn:Hb; try done. simpl in H1.
  destruct (RevocationTimestamp crr) as [ts|] eqn:Hts; [|done]. simpl in H1.
  destruct (negb _) eqn:Hlen.
  - destruct (listSecrets c ns) as [secrets| |] eqn:Hl; try done. simpl in H1.
    destruct (existingLeafCerts secrets) as [leaves| |] eqn:Hleaves; try done. simpl in H1.
    destruct (size _ =? 0)%nat eqn:Hdiff; simpl in H1.
    + destruct (EncodeCertificates _) as [pem| |] eqn:Henc; try done. injection H1 as <- <-.
      right. apply Nat.eqb_eq in Hdiff. eexists _, cm, bundle, ts, secrets, leaves, pem.
      do 5 (split; [done|]). cbv zeta. split; [by apply names_subset|by split].
    + step_cases H1. injection H1 as <- <-. left. status_write.
  - step_cases H1. injection H1 as <- <-. left. status_write.
Qed.

Lemma revoked_action c now ns crr a rq :
  ensureOldSignerCertificateRevoked c now ns crr = Ret (Done (Some a) rq) → status_write crr a.
Proof.
  unfold ensureOldSignerCertificateRevoked. intros H1.
  step_cases H1; injection H1 as <- <-; status_write.
Qed.

(** Every action is one write. *)
Lemma taken_shape c now ns crr a rq :
  taken c now ns crr a rq →
  status_write crr a ∨ (∃ e cfg, a = secret_action e cfg) ∨ prunes c now ns crr a.
Proof.
  intros [H1|_ H1|_ _ H1|_ _ _ H1|_ _ _ _ H1|_ _ _ _ _ H1].
  - left. by eapply commit_action.
  - apply signer_action in H1. tauto.
  - left. by eapply propagated_action.
  - right; left. by eapply leaf_action.
  - apply prune_action in H1. tauto.
  - left. by eapply revoked_action.
Qed.

(** The controller never trips over its own sanity check: whatever the
listers, the libraries and the kube-apiserver answer, an action it decides on
sets exactly one of the three writes, so a sync panics only if one of the steps
does. *)
Theorem sync_panics_only_in_steps c now key :
  syncCertificateRevocationRequest c now key = Panic ↔
  ∃ ns name, SplitMetaNamespaceKey key = Ret (ns, name) ∧
             processCertificateRevocationRequest c now ns name = Panic.
Proof.
  unfold syncCertificateRevocationRequest.
  destruct (SplitMetaNamespaceKey key) as [[ns name]|e|] eqn:Hk; simpl.
  - destruct (processCertificateRevocationRequest c now ns name) as [[[a|] rq]|e|] eqn:Hp; simpl.
    + destruct rq; [split; [done|intros (?&?&[= <- <-]&?); congruence]|].
      pose proof (process_taken _ _ _ _ _ _ Hp) as (crr & _ & Ht). apply taken_shape in Ht.
      assert (Hv : validate a = true).
      { destruct Ht as [(?&?&?&->&_)|[(?&?&->)|Hp']]; try done.
        by destruct Hp' as (?&?&?&?&?&?&?&?&?&?&?&?&?&?&->). }
      rewrite Hv. simpl. split; [done|]. by intros (?&?&[= <- <-]&Hp2); rewrite Hp in Hp2.
    + destruct rq; split; try done; intros (?&?&[= <- <-]&?); congruence.
    + split; [done|intros (?&?&[= <- <-]&?); congruence].
    + split; [|done]. by exists ns, name.
  - split; [done|intros (?&?&[= <- <-]&?); congruence].
  - unfold SplitMetaNamespaceKey in Hk. repeat case_match; done.
Qed.

(** A condition of a type is applied as true only if it is one of the updates
or on record. *)
Lemma no_revoked_condition crr updated x t :
  recorded (Conditions crr) t = false →
  x ∈ conditions (Conditions crr) updated → aType x = t → aStatus x = ConditionTrue →
  (∀ u, u ∈ updated → aType u = t → aStatus u = ConditionTrue → False) → False.
Proof.
  intros Hrec Hin Ht Hs Hu. unfold conditions in Hin.
  apply elem_of_app in Hin as [Hin|Hin]; [by eapply Hu|].
  apply list_elem_of_fmap in Hin as (y & -> & [Hy _]%elem_of_filter_bool). simpl in *.
  enough (recorded (Conditions crr) t = true) by congruence.
  unfold recorded. apply existsb_elem. exists y. split; [done|].
  rewrite Ht, Hs, str_eqb_refl. done.
Qed.

(** The last step acts only once the old certificate is rejected. *)
Lemma revoked_step c now ns crr a rq :
  ensureOldSignerCertificateRevoked c now ns crr = Ret (Done (Some a) rq) →
  ∃ prev old pem key cert certs total,
    PreviousSigner crr = Some prev ∧ getSecret c ns prev = Ret old ∧
    sData old !! TLSCertKey = Some pem ∧ sData old !! TLSPrivateKeyKey = Some key ∧
    ParseCertsPEM pem = Ret (cert :: certs) ∧
    loadTrustBundleConfigMap c ns TotalKASClientCABundle = Ret (Some total) ∧
    Verify total (now 5 0) cert = false ∧
    (skipKASConnections c = false → askKAS c ns pem key = Ret Unauthorized).
Proof.
  unfold ensureOldSignerCertificateRevoked, trustedCertificates. intros H1.
  destruct (PreviousSigner crr) as [prev|]; [|done]. simpl in H1.
  destruct (getSecret c ns prev) as [old| |] eqn:Hold; try done. simpl in H1.
  destruct (nonempty_data (sData old) TLSCertKey) as [pem|] eqn:Hpem; [|done].
  destruct (ParseCertsPEM pem) as [[|cert certs]| |] eqn:Hparse; try done; simpl in H1.
  { by apply ParseCertsPEM_some in Hparse. }
  destruct (nonempty_data (sData old) TLSPrivateKeyKey) as [key|] eqn:Hkey; [|done].
  destruct (loadTrustBundleConfigMap c ns _) as [[total|]| |] eqn:Ht; try done. simpl in H1.
  destruct (Verify total (now 5 0) cert) eqn:Hv; simpl in H1; [done|].
  exists prev, old, pem, key, cert, certs, total. split_and!; try done.
  - unfold nonempty_data in Hpem. by repeat case_match; simplify_eq.
  - unfold nonempty_data in Hkey. by repeat case_match; simplify_eq.
  - intros Hskip. rewrite Hskip in H1. destruct (askKAS c ns pem key) as [[]| |]; done.
Qed.

(** C1: Trust is withdrawn only when it is safe. Whenever the controller
writes a trust bundle, the request has a revocation timestamp, the signer's
certificates all start after it, the new signer verifies against the
kube-apiserver's bundle, both facts are on record in the status, the bundle
written holds exactly the certificates of the current one that start after the
timestamp, and every secret with a leaf certificate that the current bundle
trusts still has one that the new bundle trusts. *)
Theorem pruning_is_safe c now ns name a rq cfg
    (Hrun : processCertificateRevocationRequest c now ns name = Ret (Some a, rq))
    (Hcm : act_cm a = Some cfg) :
  ∃ crr ts signer secret cert certs total bundle secrets leaves,
    getCRR c ns name = Ret crr ∧ RevocationTimestamp crr = Some ts ∧
    secretForSignerClass (SignerClass crr) = Some signer ∧
    loadCertificateSecret c ns signer = Ret (Some (secret, cert :: certs)) ∧
    (∀ x, x ∈ cert :: certs → (ts < NotBefore x)%Z) ∧
    loadTrustBundleConfigMap c ns TotalKASClientCABundle = Ret (Some total) ∧
    Verify total (now 2 0) cert = true ∧
    recorded (Conditions crr) RootCertificatesRegeneratedType = true ∧
    recorded (Conditions crr) NewCertificatesTrustedType = true ∧
    configMapForSignerClass (SignerClass crr) = Some (cmaName cfg) ∧
    loadTrustBundleConfigMap c ns (cmaName cfg) = Ret (Some bundle) ∧
    listSecrets c ns = Ret secrets ∧ existingLeafCerts secrets = Ret leaves ∧
    let newer := List.filter (λ x, time_after (NotBefore x) ts) bundle in
    (∃ pem, EncodeCertificates newer = Ret pem ∧ cmaData cfg = {["ca-bundle.crt" := pem]}) ∧
    (∀ leaf, leaf ∈ trustedCertificates bundle leaves (now 4 0) →
       ∃ leaf', leaf' ∈ trustedCertificates newer leaves (now 4 1) ∧
         csNamespace leaf' +:+ "/" +:+ csName leaf' = csNamespace leaf +:+ "/" +:+ csName leaf).
Proof.
  apply process_taken in Hrun as (crr & Hcrr & Ht).
  assert (Hnot : ¬ status_write crr a ∧ ¬ ∃ e s, a = secret_action e s).
  { split; [intros (?&?&?&->&_)|intros (?&?&->)]; done. }
  destruct Hnot as [Hns Hnsec]. destruct Ht as [H1|_ H1|_ _ H1|_ _ _ H1|_ H2 H3 _ H1|_ _ _ _ _ H1].
  - by apply commit_action in H1.
  - apply signer_action in H1. tauto.
  - by apply propagated_action in H1.
  - by apply leaf_action in H1.
  - apply prune_action in H1 as [|Hp]; [done|].
    apply signer_next in H2 as (signer & secret & l & ts & Hs & Hl & Hts & Hall & Hr1).
    apply propagated_next in H3 as (signer' & secret' & cert & certs & total & Hs' & Hl' & Ht & Hv & Hr2).
    assert (signer' = signer) as -> by congruence.
    assert (secret' = secret ∧ l = cert :: certs) as [-> ->] by (split; congruence).
    destruct Hp as (e & cm & bundle & ts' & secrets & leaves & pem & Hc & Hb & Hts' & Hls & Hlv & Hp).
    assert (ts' = ts) as -> by congruence. destruct Hp as (Hkeep & Henc & ->).
    injection Hcm as <-.
    exists crr, ts, signer, secret, cert, certs, total, bundle, secrets, leaves.
    do 13 (split; [done|]). cbv zeta. split; [by exists pem|done].
  - by apply revoked_action in H1.
Qed.

(** C2: A request is reported complete only when the old certificate is
really rejected: when the condition [PreviousCertificatesRevoked] becomes true,
the signer's bundle holds only certificates that start after the revocation
timestamp, the kept copy of the previous signer does not verify against the
kube-apiserver's bundle, and the kube-apiserver, when it may be asked, answered
that a client with that certificate is unauthorized. *)
Theorem revoked_means_rejected c now ns name a rq cfg crr done_
    (Hrun : processCertificateRevocationRequest c now ns name = Ret (Some a, rq))
    (Hcrr : getCRR c ns name = Ret crr)
    (Hwrite : act_crr a = Some cfg)
    (Hcondition : done_ ∈ applyConditions cfg ∧ aType done_ = PreviousCertificatesRevokedType ∧
                  aStatus done_ = ConditionTrue)
    (Hnew : recorded (Conditions crr) PreviousCertificatesRevokedType = false) :
  ∃ prev old pem key cert certs total cm bundle ts,
    PreviousSigner crr = Some prev ∧ getSecret c ns prev = Ret old ∧
    sData old !! TLSCertKey = Some pem ∧ sData old !! TLSPrivateKeyKey = Some key ∧
    ParseCertsPEM pem = Ret (cert :: certs) ∧
    loadTrustBundleConfigMap c ns TotalKASClientCABundle = Ret (Some total) ∧
    Verify total (now 5 0) cert = false ∧
    (skipKASConnections c = false → askKAS c ns pem key = Ret Unauthorized) ∧
    configMapForSignerClass (SignerClass crr) = Some cm ∧
    loadTrustBundleConfigMap c ns cm = Ret (Some bundle) ∧
    RevocationTimestamp crr = Some ts ∧ (∀ x, x ∈ bundle → (ts < NotBefore x)%Z).
Proof.
  destruct Hcondition as (Hin & Htype & Hstatus).
  apply process_taken in Hrun as (crr' & Hcrr' & Ht).
  assert (crr' = crr) as -> by congruence.
  destruct Ht as [H1|_ H1|_ _ H1|_ _ _ H1|_ _ _ _ H1|_ _ _ _ H2 H1].
  - exfalso. unfold commitRevocationTimestamp in H1.
    step_cases H1; injection H1 as <- <-; injection Hwrite as <-;
      (eapply no_revoked_condition; [exact Hnew|exact Hin|exact Htype|exact Hstatus|];
       intros u Hu; elem_cases; discriminate).
  - exfalso. unfold generateNewSignerCertificate, regenerateSigner in H1.
    step_cases H1; injection H1 as <- <-; try discriminate Hwrite; injection Hwrite as <-;
      (eapply no_revoked_condition; [exact Hnew|exact Hin|exact Htype|exact Hstatus|];
       intros u Hu; elem_cases; discriminate).
  - exfalso. unfold ensureNewSignerCertificatePropagated in H1.
    step_cases H1; injection H1 as <- <-; injection Hwrite as <-;
      (eapply no_revoked_condition; [exact Hnew|exact Hin|exact Htype|exact Hstatus|];
       intros u Hu; elem_cases; discriminate).
  - apply leaf_action in H1 as (? & ? & ->). done.
  - exfalso. unfold prunePreviousSignerCertificates in H1.
    step_cases H1; injection H1 as <- <-; try discriminate Hwrite; injection Hwrite as <-;
      (eapply no_revoked_condition; [exact Hnew|exact Hin|exact Htype|exact Hstatus|];
       intros u Hu; elem_cases; discriminate).
  - apply prune_next in H2 as (cm & bundle & ts & Hcm & Hb & Hts & Hall & _).
    apply revoked_step in H1 as (prev & old & pem & key & cert & certs & total & H1).
    exists prev, old, pem, key, cert, certs, total, cm, bundle, ts. tauto.
Qed.

Lemma conditions_cover existing updated x :
  x ∈ existing → ∃ y, y ∈ conditions existing updated ∧ aType y = cType x.
Proof.
  intros Hx. unfold conditions. destruct (decide (cType x ∈ aType <$> updated)) as [Hin|Hout].
  - apply list_elem_of_fmap in Hin as (y & Hy & Hin). exists y. split; [|done].
    apply elem_of_app. by left.
  - exists (carry x). split; [|done]. apply elem_of_app. right.
    apply list_elem_of_fmap. exists x. split; [done|]. apply elem_of_filter_bool. split; [done|].
    by rewrite bool_decide_false.
Qed.

Lemma conditions_NoDup existing updated :
  NoDup (aType <$> updated) → NoDup (cType <$> existing) →
  NoDup (aType <$> conditions existing updated).
Proof.
  intros Hu He. unfold conditions. rewrite fmap_app. apply NoDup_app. split_and!; [done| |].
  - intros t Ht Hin. apply list_elem_of_fmap in Hin as (y & -> & Hin).
    apply list_elem_of_fmap in Hin as (x & -> & [_ Hx]%elem_of_filter_bool). simpl in Ht.
    by rewrite bool_decide_true in Hx.
  - rewrite <- list_fmap_compose. change (aType ∘ carry) with cType. by apply NoDup_fmap_filter.
Qed.

Lemma all_new_not_needed crr certs ts :
  certs ≠ [] → (∀ x, x ∈ certs → (ts < NotBefore x)%Z) → RevocationTimestamp crr = Some ts →
  certificateNeedsRegeneration crr certs = Ret false.
Proof.
  intros Hne Hall Hts. unfold certificateNeedsRegeneration.
  rewrite (proj2 (Nat.ltb_lt 0 (length certs))) by (destruct certs; [done|simpl; lia]).
  rewrite Hts. simpl. f_equal. apply orb_false_iff. split.
  - apply Nat.ltb_ge. apply Nat.eq_le_incl, filter_none.
    intros x Hx. apply negb_false_iff, Z.ltb_lt. by apply Hall.
  - apply Nat.eqb_neq. rewrite (proj2 (filter_all _ certs)); [by destruct certs|].
    intros x Hx. apply Z.ltb_lt. by apply Hall.
Qed.

(** A status write never forgets. Server-side apply drops what a call
leaves out, so every status the controller applies names each condition type the
request already has, each type once, and repeats the revocation timestamp and
the reference to the previous signer once they are set. *)
Theorem status_is_carried c now ns name a rq cfg crr
    (Hrun : processCertificateRevocationRequest c now ns name = Ret (Some a, rq))
    (Hcrr : getCRR c ns name = Ret crr)
    (Hwrite : act_crr a = Some cfg) :
  (∀ x, x ∈ Conditions crr → ∃ y, y ∈ applyConditions cfg ∧ aType y = cType x) ∧
  (NoDup (cType <$> Conditions crr) → NoDup (aType <$> applyConditions cfg)) ∧
  (ValidSignerClass (SignerClass crr) = true → ∀ ts, RevocationTimestamp crr = Some ts →
     applyTimestamp cfg = Some ts ∧
     ∀ prev, PreviousSigner crr = Some prev → applyPrevious cfg = Some prev).
Proof.
  apply process_taken in Hrun as (crr' & Hcrr' & Ht). assert (crr' = crr) as -> by congruence.
  apply taken_shape in Ht as [Hw|[(?&?&->)|Hp]]; [|done|].
  2:{ by destruct Hp as (?&?&?&?&?&?&?&?&?&?&?&?&?&?&->). }
  destruct Hw as (e & cfg' & updated & -> & Hc & Hnd & Hcarry). injection Hwrite as ->.
  rewrite Hc. split_and!; [apply conditions_cover|by apply conditions_NoDup|auto].
Qed.

(** *** Where the steps panic *)

Lemma valid_class_secret class :
  ValidSignerClass class = true → ∃ signer, secretForSignerClass class = Some signer.
Proof.
  unfold ValidSignerClass, secretForSignerClass. intros [H1|H1]%orb_prop; rewrite H1; [by eexists|].
  case_match; by eexists.
Qed.

Lemma commit_passes now crr ts :
  ValidSignerClass (SignerClass crr) = true → RevocationTimestamp crr = Some ts →
  commitRevocationTimestamp now crr = Ret Next.
Proof. intros Hv Hts. unfold commitRevocationTimestamp. by rewrite Hv, Hts. Qed.

(** A request whose signer secret does not exist brings the controller
down instead of being retried: once the revocation timestamp is set, reading a
missing signer yields a nil secret that the next step dereferences, either to
copy it or to look at its annotations. *)
Theorem missing_signer_panics c now ns name crr ts signer e
    (Hcrr : getCRR c ns name = Ret crr)
    (Hclass : ValidSignerClass (SignerClass crr) = true)
    (Hts : RevocationTimestamp crr = Some ts)
    (Hsigner : secretForSignerClass (SignerClass crr) = Some signer)
    (Hmissing : getSecret c ns signer = Throw e ∧ IsNotFound e = true)
    (Hcopy : (∃ e', getSecret c ns (previousSignerName crr) = Throw e' ∧ IsNotFound e' = true) ∨
             (∃ s, getSecret c ns (previousSignerName crr) = Ret s) ∧ PreviousSigner crr ≠ None) :
  processCertificateRevocationRequest c now ns name = Panic.
Proof.
  destruct Hmissing as [Hget Hnf].
  unfold processCertificateRevocationRequest. rewrite Hcrr. simpl.
  rewrite (commit_passes now crr ts) by done. simpl.
  unfold generateNewSignerCertificate, loadCertificateSecret. rewrite Hsigner, Hget, Hnf. simpl.
  unfold regenerateSigner. destruct Hcopy as [(e' & -> & ->)|[(s & ->) Hprev]]; [done|].
  by destruct (PreviousSigner crr).
Qed.

(** A signer that is rotated for another reason after the revocation
timestamp is set but before the controller has copied it also brings the
controller down: its certificates are all new, so the previous signer was never
recorded, and recording the regeneration dereferences the missing reference. *)
Theorem early_rotation_panics c now ns name crr ts signer secret certs
    (Hcrr : getCRR c ns name = Ret crr)
    (Hclass : ValidSignerClass (SignerClass crr) = true)
    (Hts : RevocationTimestamp crr = Some ts)
    (Hsigner : secretForSignerClass (SignerClass crr) = Some signer)
    (Hload : loadCertificateSecret c ns signer = Ret (Some (secret, certs)))
    (Hcerts : certs ≠ [] ∧ ∀ x, x ∈ certs → (ts < NotBefore x)%Z)
    (Hprev : PreviousSigner crr = None)
    (Hrecorded : recorded (Conditions crr) RootCertificatesRegeneratedType = false) :
  processCertificateRevocationRequest c now ns name = Panic.
Proof.
  unfold processCertificateRevocationRequest. rewrite Hcrr. simpl.
  rewrite (commit_passes now crr ts) by done. simpl.
  unfold generateNewSignerCertificate. rewrite Hsigner, Hload. simpl.
  rewrite (all_new_not_needed crr certs ts) by (done || apply Hcerts). simpl.
  by rewrite Hrecorded, Hts, Hprev.
Qed.

(** The listers and the certificate libraries return or fail, they do not
panic. *)
Record reads_return c : Prop := {
  crr_returns ns n : getCRR c ns n ≠ Panic;
  secret_returns ns n : getSecret c ns n ≠ Panic;
  list_returns ns : listSecrets c ns ≠ Panic;
  cm_returns ns n : getConfigMap c ns n ≠ Panic;
  kubeconfig_returns s : loadKubeconfig c s ≠ Panic;
  parse_returns s : ParseCertsPEM s ≠ Panic;
  encode_returns l : EncodeCertificates l ≠ Panic;
  inspect_returns s : InspectSecret s ≠ Panic;
}.

Lemma load_secret_returns c ns n : reads_return c → loadCertificateSecret c ns n ≠ Panic.
Proof.
  intros Hr. unfold loadCertificateSecret. pose proof (secret_returns c Hr ns n).
  destruct (getSecret c ns n) as [s| |]; [|by case_match|done].
  case_match; [|done]. pose proof (parse_returns c Hr s0). by case_match.
Qed.

Lemma load_bundle_returns c ns n : reads_return c → loadTrustBundleConfigMap c ns n ≠ Panic.
Proof.
  intros Hr. unfold loadTrustBundleConfigMap. pose proof (cm_returns c Hr ns n).
  destruct (getConfigMap c ns n) as [s| |]; [|by case_match|done].
  case_match; [|done]. pose proof (parse_returns c Hr s0). by case_match.
Qed.

Lemma askKAS_returns c ns x y : reads_return c → askKAS c ns x y ≠ Panic.
Proof.
  intros Hr. unfold askKAS. pose proof (secret_returns c Hr ns KASServiceKubeconfigSecret).
  destruct (getSecret c ns _) as [s| |]; [|done..].
  pose proof (kubeconfig_returns c Hr (mget (sData s) "kubeconfig")). by case_match.
Qed.

Lemma leaves_return c secrets : reads_return c → existingLeafCerts secrets ≠ Panic.
Proof.
  intros Hr. induction secrets as [|s secrets IH]; simpl; [done|].
  destruct (sData s !! TLSCertKey) as [pem|]; [|done].
  pose proof (inspect_returns c Hr s). destruct (InspectSecret s) as [[pairs|]| |]; try done.
  pose proof (parse_returns c Hr pem). destruct (ParseCertsPEM pem) as [certs| |] eqn:Hp; try done.
  apply ParseCertsPEM_some in Hp. destruct certs; [done|]. simpl.
  by destruct (existingLeafCerts secrets).
Qed.

Lemma loaded_nonempty c ns n secret certs :
  loadCertificateSecret c ns n = Ret (Some (secret, certs)) → certs ≠ [].
Proof.
  unfold loadCertificateSecret. intros H1. step_cases H1. simplify_eq. by eapply ParseCertsPEM_some.
Qed.

Ltac no_panic := unfold act, stop; simpl; done.

Lemma signer_returns c now ns crr ts :
  reads_return c → RevocationTimestamp crr = Some ts →
  (∀ signer, secretForSignerClass (SignerClass crr) = Some signer → ∃ s, getSecret c ns signer = Ret s) →
  (∀ signer secret certs, loadCertificateSecret c ns signer = Ret (Some (secret, certs)) →
     certificateNeedsRegeneration crr certs = Ret false → PreviousSigner crr ≠ None) →
  generateNewSignerCertificate c now ns crr ≠ Panic.
Proof.
  intros Hr Hts Hexists Hprev. unfold generateNewSignerCertificate.
  destruct (secretForSignerClass _) as [signer|]; [|no_panic]. destruct (Hexists signer) as [s Hs]; [no_panic|].
  pose proof (load_secret_returns c ns signer Hr).
  destruct (loadCertificateSecret c ns signer) as [[[secret certs]|]| |] eqn:Hl; try no_panic; simpl.
  - destruct (certificateNeedsRegeneration crr certs) as [[|]| |] eqn:Hn; simpl; try no_panic.
    + unfold regenerateSigner. pose proof (secret_returns c Hr ns (previousSignerName crr)).
      destruct (getSecret c ns (previousSignerName crr)); [|case_match; no_panic|no_panic].
      rewrite Hts. destruct (PreviousSigner crr); simpl; [case_match; no_panic|no_panic].
    + destruct (recorded _ _); [no_panic|]. rewrite Hts. specialize (Hprev _ _ _ Hl Hn).
      by destruct (PreviousSigner crr).
    + unfold certificateNeedsRegeneration in Hn. rewrite Hts in Hn. case_match; no_panic.
  - unfold loadCertificateSecret in Hl. rewrite Hs in Hl. step_cases Hl.
Qed.

Lemma propagated_returns c now ns crr ts prev :
  reads_return c → RevocationTimestamp crr = Some ts → PreviousSigner crr = Some prev →
  ensureNewSignerCertificatePropagated c now ns crr ≠ Panic.
Proof.
  intros Hr Hts Hp. unfold ensureNewSignerCertificatePropagated.
  destruct (secretForSignerClass _) as [signer|]; [|no_panic].
  pose proof (load_secret_returns c ns signer Hr).
  destruct (loadCertificateSecret c ns signer) as [[[secret certs]|]| |] eqn:Hl; try no_panic; simpl.
  destruct (keyPair secret) as [pair| |] eqn:Hk; try no_panic; simpl.
  2:{ unfold keyPair in Hk. repeat case_match; done. }
  pose proof (load_bundle_returns c ns TotalKASClientCABundle Hr).
  destruct (loadTrustBundleConfigMap c ns _) as [[b|]| |]; try no_panic; simpl.
  apply loaded_nonempty in Hl. destruct certs as [|cert certs]; [no_panic|]. simpl.
  destruct (_ =? 0)%nat; [no_panic|]. pose proof (askKAS_returns c ns pair.1 pair.2 Hr).
  rewrite Hts, Hp. destruct (skipKASConnections c); simpl; [destruct (recorded _ _); no_panic|].
  destruct (askKAS c ns pair.1 pair.2) as [[]| |]; simpl; try no_panic. destruct (recorded _ _); no_panic.
Qed.

Lemma leaf_returns c ns crr : reads_return c → generateNewLeafCertificates c ns crr ≠ Panic.
Proof.
  intros Hr. unfold generateNewLeafCertificates. destruct (secretForSignerClass _); [|no_panic].
  pose proof (list_returns c Hr ns). destruct (listSecrets c ns) as [secrets| |]; try no_panic. simpl.
  assert (Hi : ∀ i, parseIssuer i ≠ Panic) by (intros i; unfold parseIssuer; by repeat case_match).
  match goal with |- context [parseIssuer ?i] => pose proof (Hi i) end.
  destruct (parseIssuer _) as [[n t]| |]; try no_panic. clear -Hi. rename secrets into l.
  induction l as [|x l IH]; simpl; [no_panic|]. destruct (sAnnotations x !! CertificateIssuer) as [i|]; [|no_panic].
  pose proof (Hi i). destruct (parseIssuer i) as [[n' t']| |]; try no_panic. destruct (_ && _); no_panic.
Qed.

Lemma prune_returns c now ns crr ts prev :
  reads_return c → RevocationTimestamp crr = Some ts → PreviousSigner crr = Some prev →
  prunePreviousSignerCertificates c now ns crr ≠ Panic.
Proof.
  intros Hr Hts Hp. unfold prunePreviousSignerCertificates.
  destruct (configMapForSignerClass _) as [cm|]; [|no_panic].
  pose proof (load_bundle_returns c ns cm Hr).
  destruct (loadTrustBundleConfigMap c ns cm) as [[b|]| |]; try no_panic; simpl.
  rewrite Hts, Hp. simpl. destruct (negb _); [|destruct (recorded _ _); no_panic].
  pose proof (list_returns c Hr ns). destruct (listSecrets c ns) as [secrets| |]; try no_panic.
  pose proof (leaves_return c secrets Hr). destruct (existingLeafCerts secrets) as [l| |]; try no_panic. simpl.
  destruct (negb _); [no_panic|].
  match goal with |- context [EncodeCertificates ?x] => pose proof (encode_returns c Hr x) end.
  destruct (EncodeCertificates _); no_panic.
Qed.

Lemma revoked_returns c now ns crr ts prev :
  reads_return c → RevocationTimestamp crr = Some ts → PreviousSigner crr = Some prev →
  ensureOldSignerCertificateRevoked c now ns crr ≠ Panic.
Proof.
  intros Hr Hts Hp. unfold ensureOldSignerCertificateRevoked. rewrite Hp. simpl.
  pose proof (secret_returns c Hr ns prev). destruct (getSecret c ns prev) as [old| |]; try no_panic. simpl.
  destruct (nonempty_data (sData old) TLSCertKey) as [pem|]; [|no_panic].
  pose proof (parse_returns c Hr pem). destruct (ParseCertsPEM pem) as [certs| |] eqn:Hparse; try no_panic.
  simpl. destruct (nonempty_data (sData old) TLSPrivateKeyKey) as [key|]; [|no_panic].
  pose proof (load_bundle_returns c ns TotalKASClientCABundle Hr).
  destruct (loadTrustBundleConfigMap c ns _) as [[b|]| |]; try no_panic; simpl.
  apply ParseCertsPEM_some in Hparse. destruct certs as [|cert certs]; [no_panic|]. simpl.
  destruct (negb _); [no_panic|]. pose proof (askKAS_returns c ns pem key Hr). rewrite Hts.
  destruct (skipKASConnections c); simpl; [destruct (recorded _ _); no_panic|].
  destruct (askKAS c ns pem key) as [[]| |]; simpl; try no_panic. destruct (recorded _ _); no_panic.
Qed.

(** Apart from a missing signer and an early rotation the controller does
not panic: when the signer of the request's class exists, and the previous
signer is recorded by the time the signer has only new certificates, processing
the request returns an action or an error. *)
Theorem process_returns c now ns name
    (Hreads : reads_return c)
    (Hsigner : ∀ crr signer, getCRR c ns name = Ret crr →
       secretForSignerClass (SignerClass crr) = Some signer → ∃ s, getSecret c ns signer = Ret s)
    (Hprevious : ∀ crr signer secret certs, getCRR c ns name = Ret crr →
       loadCertificateSecret c ns signer = Ret (Some (secret, certs)) →
       certificateNeedsRegeneration crr certs = Ret false → PreviousSigner crr ≠ None) :
  processCertificateRevocationRequest c now ns name ≠ Panic.
Proof.
  unfold processCertificateRevocationRequest. pose proof (crr_returns c Hreads ns name).
  destruct (getCRR c ns name) as [crr|e|]; [|case_match; no_panic|no_panic]. simpl.
  destruct (commitRevocationTimestamp now crr) as [[|]| |] eqn:Hcommit; simpl; try no_panic.
  2:{ unfold commitRevocationTimestamp in Hcommit. step_cases Hcommit. }
  apply commit_next in Hcommit as [_ [ts Hts]].
  pose proof (signer_returns c now ns crr ts Hreads Hts
    (λ signer, Hsigner crr signer eq_refl) (λ x y z, Hprevious crr x y z eq_refl)).
  destruct (generateNewSignerCertificate c now ns crr) as [[|]| |] eqn:Hsig; simpl; try no_panic.
  assert (Hp : ∃ prev, PreviousSigner crr = Some prev).
  { apply signer_next in Hsig as (signer & secret & certs & ts' & _ & Hl & Hts' & Hall & _).
    assert (ts' = ts) as -> by congruence.
    destruct (PreviousSigner crr) as [prev|] eqn:Hp; [by exists prev|]. exfalso.
    eapply (Hprevious crr); [done|exact Hl| |no_panic].
    apply (all_new_not_needed _ _ ts); try no_panic. by eapply loaded_nonempty. }
  destruct Hp as [prev Hp].
  pose proof (propagated_returns c now ns crr ts prev Hreads Hts Hp).
  destruct (ensureNewSignerCertificatePropagated c now ns crr) as [[|]| |]; simpl; try no_panic.
  pose proof (leaf_returns c ns crr Hreads).
  destruct (generateNewLeafCertificates c ns crr) as [[|]| |]; simpl; try no_panic.
  pose proof (prune_returns c now ns crr ts prev Hreads Hts Hp).
  destruct (prunePreviousSignerCertificates c now ns crr) as [[|]| |]; simpl; try no_panic.
  pose proof (revoked_returns c now ns crr ts prev Hreads Hts Hp).
  by destruct (ensureOldSignerCertificateRevoked c now ns crr) as [[|]| |].
Qed.

(** While leaf certificates are still to be regenerated, every sync
writes the status again, also when the request already says so: the condition
[LeafCertificatesRegenerated] stays false but its transition time moves to the
time of the sync, so the write is never a no-op. *)
Theorem waiting_status_rewritten c now ns name crr ts prev cm bundle secrets leaves
    (Hcrr : getCRR c ns name = Ret crr)
    (Hbefore : Forall (λ step, step = Ret Next)
       [commitRevocationTimestamp now crr; generateNewSignerCertificate c now ns crr;
        ensureNewSignerCertificatePropagated c now ns crr; generateNewLeafCertificates c ns crr])
    (Hts : RevocationTimestamp crr = Some ts) (Hprev : PreviousSigner crr = Some prev)
    (Hcm : configMapForSignerClass (SignerClass crr) = Some cm)
    (Hbundle : loadTrustBundleConfigMap c ns cm = Ret (Some bundle))
    (Hlist : listSecrets c ns = Ret secrets) (Hleaves : existingLeafCerts secrets = Ret leaves)
    (Hold : ∃ x, x ∈ bundle ∧ (NotBefore x ≤ ts)%Z)
    (Hstale : let newer := List.filter (λ x, time_after (NotBefore x) ts) bundle in
       certificateSecretNames (trustedCertificates bundle leaves (now 4 0)) ∖
       certificateSecretNames (trustedCertificates newer leaves (now 4 1)) ≠ ∅) :
  ∃ a cfg x, processCertificateRevocationRequest c now ns name = Ret (Some a, false) ∧
    act_crr a = Some cfg ∧ x ∈ applyConditions cfg ∧
    aType x = LeafCertificatesRegeneratedType ∧ aStatus x = ConditionFalse ∧ aTime x = now 4 2.
Proof.
  cbv zeta in Hstale. set (newer := List.filter _ bundle) in *.
  assert (Hlen : length newer ≠ length bundle).
  { subst newer. rewrite filter_all. intros Hall. destruct Hold as (x & Hx & Hle).
    specialize (Hall x Hx). apply Z.ltb_lt in Hall. lia. }
  unfold processCertificateRevocationRequest. rewrite Hcrr. simpl.
  repeat match goal with H : Forall _ (_ :: _) |- _ => apply Forall_cons in H as [-> H] end. simpl.
  unfold prunePreviousSignerCertificates, partitionCertificatesByValidity.
  rewrite Hcm, Hbundle, Hts. simpl. fold newer.
  rewrite (proj2 (Nat.eqb_neq _ _) Hlen). simpl. rewrite Hlist, Hleaves. simpl.
  rewrite (proj2 (Nat.eqb_neq _ 0)).
  2:{ intros Hsize. apply Hstale. apply leibniz_equiv. by apply size_empty_inv. }
  simpl. rewrite Hprev. simpl. eexists _, _, _. split; [reflexivity|]. split; [reflexivity|].
  simpl. split; [left|]. by split_and!.
Qed.

End Safety.

(** *** A revocation from start to end *)

Module SamplePKI.

Definition oldCert : Certificate := mkCert "old" 100.
Definition newCert : Certificate := mkCert "new" 2000.
Definition oldLeaf : Certificate := mkCert "leaf-old" 150.
Definition newLeaf : Certificate := mkCert "leaf-new" 2100.

(** Encoded certificates by name. *)
Definition pems : list (string * list Certificate) :=
  [("old", [oldCert]); ("new", [newCert]); ("old+new", [oldCert; newCert]);
   ("leaf-old", [oldLeaf]); ("leaf-new", [newLeaf])].

Definition parse (pem : string) : go api_error (list Certificate) :=
  match List.find (λ kv, str_eqb kv.1 pem) pems with
  | Some kv => Ret kv.2
  | None => Throw (OtherError "data does not contain any valid certificates")
  end.
Definition encode (l : list Certificate) : go api_error string :=
  match List.find (λ kv, bool_decide (kv.2 = l)) pems with
  | Some kv => Ret kv.1
  | None => Throw (OtherError "cannot encode")
  end.

#[export] Program Instance sample_X509 : X509 := {
  ParseCertsPEM := parse;
  EncodeCertificates := encode;
  Verify roots _ cert := existsb (λ r, str_eqb (certID cert) (certID r) ||
                                       str_eqb (certID cert) ("leaf-" +:+ certID r)) roots;
  InspectSecret s := Ret (Some [mkPair (negb (has_prefix (mget (sData s) TLSCertKey) "leaf-"))
                                  (Some "signer") (sName s)]);
}.
Next Obligation.
  intros pem l. unfold parse. destruct (List.find _ pems) as [kv|] eqn:Hf; [|done].
  intros [= <-]. apply find_Some_elem in Hf as [Hin _]. unfold pems in Hin. elem_cases; done.
Qed.

#[export] Instance sample_Digest : Digest := { sum224 := λ s, Z.of_nat (String.length s) }.

Record cluster : Type := mkPKI { p_crr : CRR; p_secrets : list Secret; p_cms : list ConfigMap }.

Definition controller (s : cluster) : Controller := {|
  getCRR ns n := if str_eqb n (crrName (p_crr s)) then Ret (p_crr s) else Throw NotFound;
  getSecret ns n := match List.find (λ x, str_eqb (sName x) n) (p_secrets s) with
                    | Some x => Ret x | None => Throw NotFound end;
  listSecrets ns := Ret (p_secrets s);
  getConfigMap ns n := match List.find (λ x, str_eqb (cmName x) n) (p_cms s) with
                       | Some x => Ret x | None => Throw NotFound end;
  skipKASConnections := true;
  loadKubeconfig _ := Ret ();
  selfSubjectReview _ _ _ := Unauthorized |}.

Definition clock (_ _ : nat) : Time := 1000%Z.

Definition toCondition (x : ConditionApply) : Condition :=
  mkCondition (aType x) (aStatus x) (default 0%Z (aGeneration x)) (aTime x) (aReason x) (aMessage x).

(** The API server. *)
Definition applySecret (cfg : SecretApply) (l : list Secret) : list Secret :=
  if existsb (λ x, str_eqb (sName x) (saName cfg)) l
  then (λ x, if str_eqb (sName x) (saName cfg)
             then mkSecret (sNamespace x) (sName x) (sOwners x) (saAnnotations cfg ∪ sAnnotations x)
                    (saData cfg ∪ sData x) else x) <$> l
  else l ++ [mkSecret (saNamespace cfg) (saName cfg) [] (saAnnotations cfg) (saData cfg)].
Definition setCM (n pem : string) (l : list ConfigMap) : list ConfigMap :=
  (λ x, if str_eqb (cmName x) n then mkConfigMap (cmNamespace x) n {["ca-bundle.crt" := pem]} else x) <$> l.
Definition applyWrite (w : write) (s : cluster) : cluster :=
  let crr := p_crr s in
  match w with
  | ApplyStatus cfg =>
      mkPKI (mkCRR (crrNamespace crr) (crrName crr) (crrUID crr) (SignerClass crr)
               (applyTimestamp cfg) (applyPrevious cfg) (toCondition <$> applyConditions cfg))
        (p_secrets s) (p_cms s)
  | ApplySecret cfg => mkPKI crr (applySecret cfg (p_secrets s)) (p_cms s)
  | ApplyConfigMap cfg =>
      mkPKI crr (p_secrets s) (setCM (cmaName cfg) (mget (cmaData cfg) "ca-bundle.crt") (p_cms s))
  end.

(** The certificate rotation controller: a secret marked for regeneration gets
new certificates; the signer's bundle takes the new signer, and the
kube-apiserver's bundle follows it. *)
Definition marked (x : Secret) : bool :=
  bool_decide (sAnnotations x !! CertificateNotAfterAnnotation = Some "force-regeneration").
Definition regenerate (x : Secret) : Secret :=
  if negb (marked x) then x else
  if str_eqb (sName x) SRESystemAdminSigner
  then mkSecret (sNamespace x) (sName x) [] {[CertificateIssuer := "signer@2000"]}
         {[TLSCertKey := "new"; TLSPrivateKeyKey := "key"]}
  else mkSecret (sNamespace x) (sName x) [] {[CertificateIssuer := "signer@2000"]}
         {[TLSCertKey := "leaf-new"; TLSPrivateKeyKey := "key"]}.
Definition rotate (s : cluster) : cluster :=
  let cms := if existsb (λ x, marked x && str_eqb (sName x) SRESystemAdminSigner) (p_secrets s)
             then setCM SRESystemAdminSignerCA "old+new" (p_cms s) else p_cms s in
  let bundle := match List.find (λ x, str_eqb (cmName x) SRESystemAdminSignerCA) cms with
                | Some x => mget (cmData x) "ca-bundle.crt" | None => "" end in
  mkPKI (p_crr s) (regenerate <$> p_secrets s) (setCM TotalKASClientCABundle bundle cms).

(** One sync of the controller, then the rest of the system. *)
Definition round (s : cluster) : cluster :=
  match syncCertificateRevocationRequest (controller s) clock "clusters/revoke" with
  | Ret (_, Some w) => rotate (applyWrite w s)
  | _ => rotate s
  end.

Definition start : cluster :=
  mkPKI (mkCRR "clusters" "revoke" "uid" SREBreakGlassSigner None None [])
    [mkSecret "clusters" SRESystemAdminSigner [] {[CertificateIssuer := "signer@100"]}
       {[TLSCertKey := "old"; TLSPrivateKeyKey := "key"]};
     mkSecret "clusters" SRESystemAdminClientCertSecret [] {[CertificateIssuer := "signer@100"]}
       {[TLSCertKey := "leaf-old"; TLSPrivateKeyKey := "key"]}]
    [mkConfigMap "clusters" SRESystemAdminSignerCA {["ca-bundle.crt" := "old"]};
     mkConfigMap "clusters" TotalKASClientCABundle {["ca-bundle.crt" := "old"]}].

Definition after (n : nat) : cluster := Nat.iter n round start.

End SamplePKI.
Import SamplePKI.

(** The system above carries a revocation through in ten writes. *)
Example revocation_completes :
  recorded (Conditions (p_crr (after 10))) PreviousCertificatesRevokedType = true ∧
  recorded (Conditions (p_crr (after 9))) PreviousCertificatesRevokedType = false.
Proof. vm_compute. split; reflexivity. Qed.

(** States of the run above and variations of it. *)
Definition after1 : cluster := Eval vm_compute in after 1.
Definition after5 : cluster := Eval vm_compute in after 5.
Definition after7 : cluster := Eval vm_compute in after 7.
Definition after9 : cluster := Eval vm_compute in after 9.

Definition proc (s : cluster) : go api_error (option actions * bool) :=
  processCertificateRevocationRequest (controller s) clock "clusters" "revoke".

Definition with_secrets (f : list Secret → list Secret) (s : cluster) : cluster :=
  mkPKI (p_crr s) (f (p_secrets s)) (p_cms s).

(** Right after the timestamp is set: the signer is gone, or was rotated. *)
Definition without_signer : cluster := Eval vm_compute in
  with_secrets (List.filter (λ x, negb (str_eqb (sName x) SRESystemAdminSigner))) after1.
Definition rotated_early : cluster := Eval vm_compute in
  with_secrets (fmap (λ x, if str_eqb (sName x) SRESystemAdminSigner
    then mkSecret (sNamespace x) (sName x) [] {[CertificateIssuer := "signer@2000"]}
           {[TLSCertKey := "new"; TLSPrivateKeyKey := "key"]} else x)) after1.
(** A leaf that the old signer still vouches for and that names another issuer. *)
Definition stale_leaf : cluster := Eval vm_compute in
  with_secrets (λ l, l ++ [mkSecret "clusters" "other" [] ∅
    {[TLSCertKey := "leaf-old"; TLSPrivateKeyKey := "key"]}]) after7.

Lemma pruning_is_safe_witness :
  ∃ a cfg, proc after7 = Ret (Some a, false) ∧ act_cm a = Some cfg ∧
  ∃ crr ts, getCRR (controller after7) "clusters" "revoke" = Ret crr ∧
    RevocationTimestamp crr = Some ts ∧
    recorded (Conditions crr) NewCertificatesTrustedType = true.
Proof.
  eexists _, _. split; [vm_compute; reflexivity|]. split; [reflexivity|].
  edestruct (pruning_is_safe (controller after7) clock "clusters" "revoke")
    as (crr & ts & _ & _ & _ & _ & _ & _ & _ & _ & Hc & Ht & _ & _ & _ & _ & _ & _ & Hr & _).
  - vm_compute. reflexivity.
  - reflexivity.
  - exists crr, ts. split; [exact Hc|]. split; [exact Ht|exact Hr].
Defined.

Lemma revoked_means_rejected_witness :
  ∃ a cfg, proc after9 = Ret (Some a, false) ∧ act_crr a = Some cfg ∧
  ∃ prev, PreviousSigner (p_crr after9) = Some prev.
Proof.
  eexists _, _. split; [vm_compute; reflexivity|]. split; [reflexivity|].
  edestruct (revoked_means_rejected (controller after9) clock "clusters" "revoke")
    as (prev & _ & _ & _ & _ & _ & _ & _ & _ & _ & Hp & _).
  - vm_compute. reflexivity.
  - vm_compute. reflexivity.
  - reflexivity.
  - split; [apply elem_of_cons; left; reflexivity|]. split; reflexivity.
  - vm_compute. reflexivity.
  - exists prev. vm_compute in Hp. vm_compute. exact Hp.
Defined.

Lemma status_is_carried_witness :
  ∃ a cfg, proc after5 = Ret (Some a, false) ∧ act_crr a = Some cfg ∧
  (NoDup (cType <$> Conditions (p_crr after5)) → NoDup (aType <$> applyConditions cfg)).
Proof.
  eexists _, _. split; [vm_compute; reflexivity|]. split; [reflexivity|].
  edestruct (status_is_carried (controller after5) clock "clusters" "revoke")
    as (_ & Hnd & _).
  - vm_compute. reflexivity.
  - reflexivity.
  - reflexivity.
  - exact Hnd.
Defined.

Lemma missing_signer_panics_witness : proc without_signer = Panic.
Proof.
  eapply (missing_signer_panics (controller without_signer) clock "clusters" "revoke").
  - vm_compute. reflexivity.
  - reflexivity.
  - reflexivity.
  - reflexivity.
  - split; [vm_compute; reflexivity|reflexivity].
  - left. exists NotFound. split; [vm_compute; reflexivity|reflexivity].
Defined.

Lemma early_rotation_panics_witness : proc rotated_early = Panic.
Proof.
  eapply (early_rotation_panics (controller rotated_early) clock "clusters" "revoke").
  - vm_compute. reflexivity.
  - reflexivity.
  - reflexivity.
  - reflexivity.
  - vm_compute. reflexivity.
  - split; [discriminate|]. intros x Hx. elem_cases. vm_compute. reflexivity.
  - reflexivity.
  - vm_compute. reflexivity.
Defined.

Lemma sample_reads s : reads_return (controller s).
Proof.
  split; intros; simpl; try (by case_match); try done.
  - unfold parse. by case_match.
  - unfold encode. by case_match.
Qed.

Lemma process_returns_witness : proc start ≠ Panic.
Proof.
  apply (process_returns (controller start) clock "clusters" "revoke" (sample_reads start)).
  - intros crr signer [= <-] [= <-]. eexists. vm_compute. reflexivity.
  - intros crr signer secret certs [= <-] _. unfold certificateNeedsRegeneration.
    destruct (0 <? length certs)%nat; discriminate.
Defined.

Lemma waiting_status_rewritten_witness :
  ∃ a cfg x, proc stale_leaf = Ret (Some a, false) ∧
    act_crr a = Some cfg ∧ x ∈ applyConditions cfg ∧
    aType x = LeafCertificatesRegeneratedType ∧ aStatus x = ConditionFalse ∧ aTime x = 1000%Z.
Proof.
  eapply (waiting_status_rewritten (controller stale_leaf) clock "clusters" "revoke").
  - vm_compute. reflexivity.
  - repeat constructor; vm_compute; reflexivity.
  - reflexivity.
  - reflexivity.
  - reflexivity.
  - vm_compute. reflexivity.
  - reflexivity.
  - vm_compute. reflexivity.
  - exists oldCert. split; [apply elem_of_cons; left; reflexivity|]. vm_compute. discriminate.
  - vm_compute. discriminate.
Defined.

End CertificateRevocationProofs.
