(* ===== verification/CertificateSigning.v ===== *)
(** Signing of break-glass certificates, [control-plane-pki-operator]: the
conditions, usages and validation of CertificateSigningRequests
([certificates]), the approval controller
([certificatesigningrequestapprovalcontroller]), the CA loading and signing
controllers ([certificatesigningcontroller]) and the status conditions of
[clienthelpers].  A request is approved when a CertificateSigningRequestApproval
of its name exists in the namespace of the control plane, and signed, by the CA
of its signer class, when it is approved and passes the validator. *)
From S2P Require Import Prelude GoSort Api Upsert CertificateRevocation.

Module CertificateSigning.
Import CertificateRevocation.

(** *** Data *)

(** The fields of a [HostedControlPlane] the controllers read. *)
Record HostedControlPlane : Type := mkHCP { hcpNamespace : string; hcpName : string; hcpUID : string }.

(** [certificatesv1.CertificateSigningRequestCondition]; an empty status is
allowed and means true. *)
Record CSRCondition : Type := mkCSRCondition {
  ccType : string; ccStatus : string; ccReason : string; ccMessage : string; ccLastUpdateTime : Time;
}.

(** [certificatesv1.CertificateSigningRequest] *)
Record CSR : Type := mkCSR {
  csrName : string;
  csrResourceVersion : Z;
  csrSignerName : string;
  csrRequest : string;
  csrUsages : list string;
  csrExpirationSeconds : option Z;
  csrConditions : list CSRCondition;
  csrCertificate : option string;
}.

#[export] Instance CSRCondition_eq_dec : EqDecision CSRCondition.
Proof. solve_decision. Defined.
#[export] Instance CSR_eq_dec : EqDecision CSR.
Proof. solve_decision. Defined.

Definition CertificateApproved : string := "Approved".
Definition CertificateDenied : string := "Denied".
Definition CertificateFailed : string := "Failed".

(** *** Conditions *)

(** [func GetCertApprovalCondition(status) (approved bool, denied bool)] *)
Definition GetCertApprovalCondition (conds : list CSRCondition) : bool * bool :=
  foldl (λ r c,
    let r := if str_eqb (ccType c) CertificateApproved then (true, r.2) else r in
    if str_eqb (ccType c) CertificateDenied then (r.1, true) else r) (false, false) conds.

Definition IsCertificateRequestApproved (csr : CSR) : bool :=
  let '(approved, denied) := GetCertApprovalCondition (csrConditions csr) in approved && negb denied.

Definition IsCertificateRequestPending (csr : CSR) : bool :=
  let '(approved, denied) := GetCertApprovalCondition (csrConditions csr) in negb approved && negb denied.

Definition HasTrueCondition (csr : CSR) (conditionType : string) : bool :=
  existsb (λ c, str_eqb (ccType c) conditionType &&
    ((String.length (ccStatus c) =? 0) || str_eqb (ccStatus c) "True"))%nat (csrConditions csr).

(** *** Key usages *)

Definition UsageDigitalSignature : string := "digital signature".
Definition UsageKeyEncipherment : string := "key encipherment".
Definition UsageClientAuth : string := "client auth".

(** [var keyUsageDict]: the bits of [x509.KeyUsage]. *)
Definition keyUsageDict (usage : string) : option Z :=
  (list_to_map [("signing", 1); (UsageDigitalSignature, 1); ("content commitment", 2);
    (UsageKeyEncipherment, 4); ("key agreement", 16); ("data encipherment", 8);
    ("cert sign", 32); ("crl sign", 64); ("encipher only", 128); ("decipher only", 256)]%Z
    : gmap string Z) !! usage.

(** [var extKeyUsageDict]: the constants of [x509.ExtKeyUsage]. *)
Definition extKeyUsageDict (usage : string) : option Z :=
  (list_to_map [("any", 0); ("server auth", 1); (UsageClientAuth, 2); ("code signing", 3);
    ("email protection", 4); ("s/mime", 4); ("ipsec end system", 5); ("ipsec tunnel", 6);
    ("ipsec user", 7); ("timestamping", 8); ("ocsp signing", 9); ("microsoft sgc", 10);
    ("netscape sgc", 11)]%Z : gmap string Z) !! usage.

Definition ExtKeyUsageClientAuth : Z := 2.
Definition KeyUsageDigitalSignature : Z := 1.
Definition KeyUsageKeyEncipherment : Z := 4.

Section Sorting.
Context `{!SliceSort}.

(** The three accumulators of the loop of [KeyUsagesFromStrings]. *)
Definition add_usage (acc : Z * gset Z * list string) (usage : string) : Z * gset Z * list string :=
  let '(keyUsage, ext, unrecognized) := acc in
  match keyUsageDict usage with
  | Some val => (Z.lor keyUsage val, ext, unrecognized)
  | None =>
      match extKeyUsageDict usage with
      | Some val => (keyUsage, {[val]} ∪ ext, unrecognized)
      | None => (keyUsage, ext, unrecognized ++ [usage])
      end
  end.

(** [%q] on a list of strings that need no escaping *)
Definition quoted_list (l : list string) : string :=
  "[" +:+ foldr (λ s acc, quoted s +:+ (if str_eqb acc "" then "" else " " +:+ acc)) "" l +:+ "]".

(** [func KeyUsagesFromStrings(usages []certificatesv1.KeyUsage) (x509.KeyUsage, []x509.ExtKeyUsage, error)] *)
Definition KeyUsagesFromStrings (usages : list string) : go api_error (Z * list Z) :=
  let '(keyUsage, ext, unrecognized) := foldl add_usage (0%Z, ∅, []) usages in
  let extKeyUsages := sort_slice (λ i j, (i <? j)%Z) (elements ext) in
  if (0 <? length unrecognized)%nat
  then Throw (OtherError ("unrecognized usage values: " +:+ quoted_list unrecognized))
  else Ret (keyUsage, extKeyUsages).

(** *** Validation *)

(** [func ValidUsagesFor(signer SignerClass) (required, optional sets.Set[KeyUsage])] *)
Definition ValidUsagesFor (signer : string) : gset string * gset string :=
  if str_eqb signer CustomerBreakGlassSigner || str_eqb signer SREBreakGlassSigner
  then ({[UsageClientAuth]}, {[UsageDigitalSignature; UsageKeyEncipherment]})
  else (∅, ∅).

Definition SignerDomain : string := "hypershift.openshift.io".

(** [func SignerNameForHCP(hcp, signer) string] *)
Definition SignerNameForHCP (hcp : HostedControlPlane) (signer : string) : string :=
  SignerDomain +:+ "/" +:+ hcpNamespace hcp +:+ "." +:+ signer.

(** [func SignerNameForHC(hc, signer) string]: by the namespace and name of the
HostedCluster. *)
Definition SignerNameForHC (hcNamespace hcName signer : string) : string :=
  SignerDomain +:+ "/" +:+ HostedControlPlaneNamespace hcNamespace hcName +:+ "." +:+ signer.

(** [func CommonNamePrefix(signer SignerClass) string] *)
Definition CommonNamePrefix (signer : string) : string := "system:" +:+ signer +:+ ":".

(** [x509.CertificateRequest] and the subject it asks for. *)
Record PKIXName : Type := mkName { CommonName : string; nameRest : string }.
Record CertificateRequest : Type := mkRequest {
  Subject : PKIXName;
  DNSNames : list string;
  EmailAddresses : list string;
  IPAddresses : list string;
  URIs : list string;
  PublicKeyAlgorithm : Z;
  PublicKey : string;
}.

(** [%v] on a [sets.Set[KeyUsage]]: maps print sorted by key. *)
Definition set_text (s : gset string) : string :=
  "map[" +:+ foldr (λ k acc, k +:+ ":{}" +:+ (if str_eqb acc "" then "" else " " +:+ acc)) ""
    (sort_slice str_lt (elements s)) +:+ "]".

(** [func Validator(hcp, signer) ValidatorFunc]: the error, if any; the
arguments of the returned function are pointers. *)
Definition Validator (hcp : HostedControlPlane) (signer : string)
    (csr : option CSR) (x509cr : option CertificateRequest) : option string :=
  let signerName := SignerNameForHCP hcp signer in
  let '(requiredUsages, optionalUsages) := ValidUsagesFor signer in
  let validUsages := optionalUsages ∪ requiredUsages in
  match csr, x509cr with
  | None, _ => Some "the Kubernetes CertificateSigningRequest object is missing - programmer error"
  | Some _, None => Some "the x509 CertificateRequest object is missing - programmer error"
  | Some csr, Some x509cr =>
      let requestedUsages : gset string := list_to_set (csrUsages csr) in
      if negb (str_eqb (csrSignerName csr) signerName) then
        Some ("signer name " +:+ quoted (csrSignerName csr) +:+ " does not match " +:+ quoted signerName)
      else if negb (has_prefix (CommonName (Subject x509cr)) (CommonNamePrefix signer)) then
        Some ("invalid certificate request: subject CommonName must begin with "
                +:+ quoted (CommonNamePrefix signer))
      else if negb (bool_decide (requiredUsages ⊆ requestedUsages)) then
        Some ("missing required usages: " +:+ set_text (requiredUsages ∖ requestedUsages))
      else if negb (bool_decide (requestedUsages ⊆ validUsages)) then
        Some ("invalid usages: " +:+ set_text (requestedUsages ∖ validUsages))
      else if (0 <? length (DNSNames x509cr))%nat then
        Some "invalid certificate request: DNS subjectAltNames are not allowed"
      else if (0 <? length (EmailAddresses x509cr))%nat then
        Some "invalid certificate request: Email subjectAltNames are not allowed"
      else if (0 <? length (IPAddresses x509cr))%nat then
        Some "invalid certificate request: IP subjectAltNames are not allowed"
      else if (0 <? length (URIs x509cr))%nat then
        Some "invalid certificate request: URI subjectAltNames are not allowed"
      else None
  end.

(** *** Certificates *)

(** [librarygocrypto.CA]: the expiry of each certificate of its chain. *)
Record CA : Type := mkCA { caID : string; caNotAfter : list Time }.

(** The [x509.Certificate] handed to the CA as a template. *)
Record Template : Type := mkTemplate {
  tNotBefore : Time;
  tNotAfter : Time;
  tSubject : PKIXName;
  tDNSNames : list string;
  tIPAddresses : list string;
  tEmailAddresses : list string;
  tURIs : list string;
  tPublicKeyAlgorithm : Z;
  tPublicKey : string;
  tKeyUsage : Z;
  tExtKeyUsage : list Z;
  tBasicConstraintsValid : bool;
  tIsCA : bool;
}.

(** [encoding/pem], [crypto/x509] and library-go's [crypto]: decoding a PEM
block (its type and bytes), parsing a request, checking its signature (the
error, if any), loading a CA, signing a template with a random serial number
and encoding the certificate. *)
Class Crypto : Type := {
  pem_decode : string → option (string * string);
  ParseCertificateRequest : string → go api_error CertificateRequest;
  CheckSignature : CertificateRequest → option string;
  GetCAFromBytes : string → string → go api_error CA;
  SignCertificate : CA → Template → string → Z → go api_error string;
  EncodeCertificates : string → go api_error string;
}.

Context `{!Crypto}.

(** [func ParseCSR(pemBytes []byte) (x509.CertificateRequest, error)] *)
Definition ParseCSR (pemBytes : string) : go api_error CertificateRequest :=
  match pem_decode pemBytes with
  | Some (blockType, blockBytes) =>
      if negb (str_eqb blockType "CERTIFICATE REQUEST")
      then Throw (OtherError "PEM block type must be CERTIFICATE REQUEST")
      else ParseCertificateRequest blockBytes
  | None => Throw (OtherError "PEM block type must be CERTIFICATE REQUEST")
  end.

Definition backdate : Duration := (5 * minute)%Z.

(** [csr.ExpirationSecondsToDuration], an [int32] number of seconds *)
Definition ExpirationSecondsToDuration (expirationSeconds : Z) : Duration :=
  to_int64 (expirationSeconds * second).

(** [func duration(certTTL time.Duration, expirationSeconds *int32) time.Duration] *)
Definition duration (certTTL : Duration) (expirationSeconds : option Z) : Duration :=
  match expirationSeconds with
  | None => certTTL
  | Some expirationSeconds =>
      let min := (2 * backdate)%Z in
      let requestedDuration := ExpirationSecondsToDuration expirationSeconds in
      if (certTTL <? requestedDuration)%Z then certTTL
      else if (requestedDuration <? min)%Z then min
      else requestedDuration
  end.

(** [func boundaries(now, ttl, backdate, horizon, signerNotAfter) (time.Time, time.Time, error)];
[instant] is what [now()] gives.  [notBefore] is declared and never assigned. *)
Definition boundaries (instant : Time) (ttl backdate horizon : Duration) (signerNotAfter : Time)
    : go api_error (Time * Time) :=
  let notBefore := zero_time in
  let notAfter := if (ttl <? horizon)%Z then time_add instant ttl
                  else time_add instant (to_int64 (ttl - backdate)) in
  let notAfter := if negb (time_before notAfter signerNotAfter) then signerNotAfter else notAfter in
  if negb (time_before notBefore signerNotAfter) then
    Throw (OtherError "the signer has expired")
  else if negb (time_before instant signerNotAfter) then
    Throw (OtherError "refusing to sign a certificate that expired in the past")
  else Ret (notBefore, notAfter).

(** The template [sign] builds from the request. *)
Definition template_for (x509cr : CertificateRequest) (notBefore notAfter : Time)
    (x509usages : Z) (extUsages : list Z) : Template :=
  mkTemplate notBefore notAfter (Subject x509cr) (DNSNames x509cr) (IPAddresses x509cr)
    (EmailAddresses x509cr) (URIs x509cr) (PublicKeyAlgorithm x509cr) (PublicKey x509cr)
    x509usages extUsages true false.

(** [func sign(ca, x509cr, usages, certTTL, expirationSeconds, now) ([]byte, error)];
[serial] stands for the random serial number of the CA's generator. *)
Definition sign (ca : CA) (x509cr : CertificateRequest) (usages : list string) (certTTL : Duration)
    (expirationSeconds : option Z) (instant : Time) (serial : Z) : go api_error string :=
  match CheckSignature x509cr with
  | Some err => Throw (OtherError ("unable to verify certificate request signature: " +:+ err))
  | None =>
      match caNotAfter ca with
      | [] => Panic
      | signerNotAfter :: _ =>
          b ← boundaries instant (duration certTTL expirationSeconds) backdate (100 * backdate)%Z
                signerNotAfter;
          u ← KeyUsagesFromStrings usages;
          cert ← SignCertificate ca (template_for x509cr b.1 b.2 u.1 u.2) (PublicKey x509cr) serial;
          EncodeCertificates cert
      end
  end.

(** *** The cluster *)

(** [CertificateSigningRequestApplyConfiguration]: the status applied. *)
Record StatusApply : Type := mkStatusApply {
  saName : string; saConditions : list CSRCondition; saCertificate : option string;
}.

(** The informers' caches and the API server, for a cluster state [S]: the
listers of requests, approvals and secrets, [UpdateApproval] and the status
apply of a field manager. *)
Class CSRServer (S : Type) : Type := {
  listCSR : string → S → go api_error CSR;
  listCSRA : string → string → S → go api_error unit;
  listSecret : string → string → S → go api_error Secret;
  UpdateApproval : string → CSR → S → go api_error unit * S;
  ApplyCSRStatus : string → StatusApply → S → go api_error unit * S;
}.

Context {S : Type} `{!CSRServer S}.

(** *** The approval controller *)

Record ApprovalController : Type := mkApprovalController { apNamespace : string; apSignerName : string }.

(** [func NewCertificateSigningRequestApprovalController], the fields *)
Definition NewCertificateSigningRequestApprovalController (hcp : HostedControlPlane) (signer : string)
    : ApprovalController :=
  mkApprovalController (hcpNamespace hcp) (SignerNameForHCP hcp signer).

(** The condition the approval adds. *)
Definition approval_condition (now : Time) : CSRCondition :=
  mkCSRCondition CertificateApproved "True" "ApprovalPresent"
    "The requisite approval resource exists." now.

(** [csr.Status.Conditions = append(csr.Status.Conditions, c)] on a copy *)
Definition with_condition (csr : CSR) (c : CSRCondition) : CSR :=
  mkCSR (csrName csr) (csrResourceVersion csr) (csrSignerName csr) (csrRequest csr) (csrUsages csr)
    (csrExpirationSeconds csr) (csrConditions csr ++ [c]) (csrCertificate csr).

(** [func (c *CertificateSigningRequestApprovalController) processCertificateSigningRequest(name)]:
the request to approve, if any (the requeue flag is never set). *)
Definition approveCertificateSigningRequest (c : ApprovalController) (name : string) (now : Time) (s : S)
    : go api_error (option CSR) :=
  match listCSR name s with
  | Panic => Panic
  | Throw err => if IsNotFound err then Ret None else Throw err
  | Ret csr =>
      if negb (str_eqb (csrSignerName csr) (apSignerName c)) then Ret None else
      let '(approved, denied) := GetCertApprovalCondition (csrConditions csr) in
      if approved || denied then Ret None else
      match listCSRA (apNamespace c) name s with
      | Panic => Panic
      | Throw err => if IsNotFound err then Ret None else Throw err
      | Ret _ => Ret (Some (with_condition csr (approval_condition now)))
      end
  end.

(** [func (c *CertificateSigningRequestApprovalController) syncCertificateSigningRequest]:
the events recorded, the error and the new state. *)
Definition syncApproval (c : ApprovalController) (queueKey : string) (now : Time) (s : S)
    : list eventInfo * go api_error unit * S :=
  match SplitMetaNamespaceKey queueKey with
  | Panic => ([], Panic, s)
  | Throw err => ([], Throw err, s)
  | Ret (_, name) =>
      match approveCertificateSigningRequest c name now s with
      | Panic => ([], Panic, s)
      | Throw err => ([], Throw err, s)
      | Ret None => ([], Ret (), s)
      | Ret (Some csr) =>
          let '(r, s') := UpdateApproval name csr s in
          ([event "CertificateSigningRequestApproved" "%q in is approved" [ArgString (csrName csr)]], r, s')
      end
  end.

(** *** The CA loading controller *)

(** The state of a [CertificateLoadingController]: [caValue]; the channel
[loaded] is closed by the first [Store], so it is closed when a value is
there. *)
Definition Loaded : Type := option CA.

(** [func (c *CertificateLoadingController) SetCA(certPEM, keyPEM []byte) (bool, error)] *)
Definition SetCA (certPEM keyPEM : string) : st Loaded api_error bool := λ ca,
  match GetCAFromBytes certPEM keyPEM with
  | Panic => (Panic, ca)
  | Throw err => (Throw (Wrapped "error parsing CA cert and key" err), ca)
  | Ret ca' => (Ret true, Some ca')
  end.

(** [func (c *CertificateLoadingController) sync]: events and error with the
new value *)
Definition syncLoading (namespace name : string) (s : S) (ca : Loaded)
    : list eventInfo * go api_error unit * Loaded :=
  match listSecret namespace name s with
  | Panic => ([], Panic, ca)
  | Throw err => if IsNotFound err then ([], Ret (), ca) else ([], Throw err, ca)
  | Ret secret =>
      match SetCA (mget (sData secret) "tls.crt") (mget (sData secret) "tls.key") ca with
      | (Panic, ca') => ([], Panic, ca')
      | (Throw _, ca') => ([event "CertificateLoadingFailed" "failed to load certificate: %v" []], Ret (), ca')
      | (Ret updated, ca') =>
          (if (updated : bool) then [event "CertificateLoadingSucceeded" "loaded certificate" []] else [],
           Ret (), ca')
      end
  end.

(** [func (c *CertificateLoadingController) CurrentCA(ctx)]: it waits for the
first load; a call that waits until its context ends gives the error. *)
Definition CurrentCA (ca : Loaded) : go api_error CA :=
  match ca with
  | Some ca => Ret ca
  | None => Throw (OtherError "failed to wait for current CA: context canceled")
  end.

(** *** The signing controller *)

Record SigningController : Type := mkSigningController {
  scFieldManager : string;
  scSignerName : string;
  scValidator : option CSR → option CertificateRequest → option string;
  scCertTTL : Duration;
}.

(** [func NewCertificateSigningController], the fields *)
Definition NewCertificateSigningController (hcp : HostedControlPlane) (signer : string) (certTTL : Duration)
    : SigningController :=
  mkSigningController (signer +:+ "-certificate-signing-controller") (SignerNameForHCP hcp signer)
    (Validator hcp signer) certTTL.

(** What is applied when the validator refuses the request. *)
Definition failed_status (name validationErr : string) (now : Time) : StatusApply :=
  mkStatusApply name [mkCSRCondition CertificateFailed "True" "SignerValidationFailure" validationErr now] None.

(** [CertificateSigningRequestStatus().WithCertificate(raw...)] *)
Definition signed_status (name raw : string) : StatusApply :=
  mkStatusApply name [] (if str_eqb raw "" then None else Some raw).

(** [func (c *CertificateSigningController) processCertificateSigningRequest(ctx, name, now)]:
the status to apply with the validation error (the requeue flag is never set). *)
Definition processCertificateSigningRequest (c : SigningController) (name : string)
    (getCurrentCABundleContent : go api_error CA) (now : Time) (serial : Z) (s : S)
    : go api_error (option StatusApply * option string) :=
  match listCSR name s with
  | Panic => Panic
  | Throw err => if IsNotFound err then Ret (None, None) else Throw err
  | Ret csr =>
      if negb (IsCertificateRequestApproved csr) || HasTrueCondition csr CertificateFailed
         || negb (str_eqb (csrSignerName csr) (scSignerName c))
         || bool_decide (is_Some (csrCertificate csr))
      then Ret (None, None) else
      match ParseCSR (csrRequest csr) with
      | Panic => Panic
      | Throw err => Throw (Wrapped ("unable to parse csr " +:+ quoted (csrName csr)) err)
      | Ret x509cr =>
          match scValidator c (Some csr) (Some x509cr) with
          | Some validationErr => Ret (Some (failed_status name validationErr now), Some validationErr)
          | None =>
              ca ← getCurrentCABundleContent;
              raw ← sign ca x509cr (csrUsages csr) (scCertTTL c) (csrExpirationSeconds csr) now serial;
              Ret (Some (signed_status name raw), None)
          end
      end
  end.

(** [func (c *CertificateSigningController) syncCertificateSigningRequest]: the
"fulfilled" event is guarded by [err != nil]. *)
Definition syncSigning (c : SigningController) (queueKey : string)
    (getCurrentCABundleContent : go api_error CA) (now : Time) (serial : Z) (s : S)
    : list eventInfo * go api_error unit * S :=
  match SplitMetaNamespaceKey queueKey with
  | Panic => ([], Panic, s)
  | Throw err => ([], Throw err, s)
  | Ret (_, name) =>
      match processCertificateSigningRequest c name getCurrentCABundleContent now serial s with
      | Panic => ([], Panic, s)
      | Throw err => ([], Throw err, s)
      | Ret (None, _) => ([], Ret (), s)
      | Ret (Some cfg, validationErr) =>
          let ev := match validationErr with
                    | Some e => event "CertificateSigningRequestInvalid" "%q is invalid: %s"
                                  [ArgString name; ArgString e]
                    | None => event "CertificateSigningRequestValid" "%q is valid" [ArgString name]
                    end in
          let '(r, s') := ApplyCSRStatus (scFieldManager c) cfg s in
          match r, validationErr with
          | Throw _, None =>
              ([ev; event "CertificateSigningRequestFulfilled" "%q in %q is fulfilled" [ArgString name]], r, s')
          | _, _ => ([ev], r, s')
          end
      end
  end.

End Sorting.

(** *** The operator *)

(** [RunOperator]: a loading, an approval and a signing controller run for each
of the two signer classes, with the secret the class's CA is loaded from. *)
Definition breakGlassSigners : list (string * string) :=
  [(CustomerBreakGlassSigner, CustomerSystemAdminSigner); (SREBreakGlassSigner, SRESystemAdminSigner)].

(** [36*certRotationScale/24], the lifetime of the certificates it signs *)
Definition signingTTL (certRotationScale : Duration) : Duration :=
  Z.quot (to_int64 (36 * certRotationScale)) 24.

(** [func GetCertRotationScale() (time.Duration, error)]: [value] is the
environment variable, [ParseDuration] is [time.ParseDuration]. *)
Definition GetCertRotationScale (ParseDuration : string → go api_error Duration) (value : string)
    : go api_error Duration :=
  if negb (str_eqb value "") then
    match ParseDuration value with
    | Panic => Panic
    | Throw err => Throw (Wrapped "invalid format for $CERT_ROTATION_SCALE" err)
    | Ret certRotationScale =>
        if (24 * hour <? certRotationScale)%Z
        then Throw (OtherError ("scale longer than 24h is not allowed: " +:+ dur_string certRotationScale))
        else Ret certRotationScale
    end
  else Ret (24 * hour)%Z.

(** *** Conditions of the hosted control plane *)

(** The condition [UpdateHostedControlPlaneStatusCondition] applies, given the
conditions of the control plane it read: [existingCondition] points into the
list, and the apply configuration carries no observed generation. *)
Definition merged_condition (now : Time) (current : list Condition) (newCondition : Condition) : Condition :=
  match Meta.FindStatusCondition current (cType newCondition) with
  | None =>
      mkCondition (cType newCondition) (cStatus newCondition) (cObservedGeneration newCondition) now
        (cReason newCondition) (cMessage newCondition)
  | Some existing =>
      let time := if bool_decide (cStatus existing ≠ cStatus newCondition) then now
                  else cLastTransitionTime existing in
      mkCondition (cType existing) (cStatus newCondition) (cObservedGeneration existing) time
        (cReason newCondition) (cMessage newCondition)
  end.

Section Status.
(** The client of HostedControlPlanes: [Get] gives the conditions of the status,
[ApplyStatus] applies one condition for a field manager. *)
Context {S : Type} (getConditions : string → string → S → go api_error (list Condition))
  (applyCondition : string → string → string → Condition → S → go api_error unit * S).

(** [func UpdateHostedControlPlaneStatusCondition(ctx, newCondition, namespace, name, fieldManager, client) (bool, error)]:
whether it applied, and the error. *)
Definition UpdateHostedControlPlaneStatusCondition (now : Time) (newCondition : Condition)
    (namespace name fieldManager : string) : S → bool * go api_error unit * S := λ s,
  match getConditions namespace name s with
  | Panic => (false, Panic, s)
  | Throw err => (false, Throw err, s)
  | Ret current =>
      let '(r, s') := applyCondition namespace name fieldManager (merged_condition now current newCondition) s in
      (true, r, s')
  end.

(** [func (h *HostedControlPlaneStatusReporter) Report(ctx, conditionName, syncErr)] *)
Definition Report (now : Time) (hcp : HostedControlPlane) (rotator conditionName : string)
    (syncErr : option string) : S → bool * go api_error unit * S :=
  let t := "CertRotation_" +:+ conditionName +:+ "_Degraded" in
  UpdateHostedControlPlaneStatusCondition now
    match syncErr with
    | None => mkCondition t ConditionFalse 0 zero_time AsExpectedReason ""
    | Some e => mkCondition t ConditionTrue 0 zero_time "RotationError" e
    end (hcpNamespace hcp) (hcpName hcp) (rotator +:+ "-cert-rotation-controller").

(** [ManageClientCABundle], the part of it that is not library-go's: the
combined bundle of the two signers' trust bundles, owned by the control plane,
is applied. *)
Record OwnerReference : Type := mkOwnerReference { orKind : string; orName : string; orUID : string }.
Record Bundle : Type := mkBundle {
  bName : (string * string); bData : StringMap; bOwnerReferences : list OwnerReference;
}.

Context (CombineCABundleConfigMaps : (string * string) → list (string * string) → S → go api_error Bundle)
  (ApplyBundle : Bundle → S → go api_error unit * S).

Definition ManageClientCABundle (owner : HostedControlPlane) : st S api_error unit := λ s,
  let loc name := (hcpNamespace owner, name) in
  match CombineCABundleConfigMaps (loc TotalKASClientCABundle)
          [loc CustomerSystemAdminSignerCA; loc SRESystemAdminSignerCA] s with
  | Panic => (Panic, s)
  | Throw err => (Throw err, s)
  | Ret b =>
      ApplyBundle (mkBundle (bName b) (bData b)
        (bOwnerReferences b ++ [mkOwnerReference "HostedControlPlane" (hcpName owner) (hcpUID owner)])) s
  end.

(** [func createTargetConfig(ctx, c, recorder) (bool, error)]: whether to
requeue, and the error of the status update; [error_text] renders the error of
the bundle. *)
Definition createTargetConfig (error_text : api_error → string) (now : Time) (hcp : HostedControlPlane)
    : S → bool * go api_error unit * S := λ s,
  let report c s :=
    let '(_, r, s') := UpdateHostedControlPlaneStatusCondition now c (hcpNamespace hcp) (hcpName hcp)
                         "target-config-controller" s in (r, s') in
  match ManageClientCABundle hcp s with
  | (Panic, s1) => (false, Panic, s1)
  | (Throw err, s1) =>
      let message := quoted ("configmap/" +:+ TotalKASClientCABundle) +:+ ": " +:+ error_text err in
      let '(r, s2) := report (mkCondition "TargetConfigControllerDegraded" ConditionTrue 0 zero_time
                                "SynchronizationError" message) s1 in
      (true, r, s2)
  | (Ret _, s1) =>
      let '(r, s2) := report (mkCondition "TargetConfigControllerDegraded" ConditionFalse 0 zero_time
                                AsExpectedReason "") s1 in
      match r with
      | Ret _ => (false, Ret (), s2)
      | _ => (true, r, s2)
      end
  end.

(** [func (c TargetConfigController) sync] *)
Definition syncTargetConfig (error_text : api_error → string) (now : Time) (hcp : HostedControlPlane)
    : st S api_error unit := λ s,
  match createTargetConfig error_text now hcp s with
  | (_, Panic, s') => (Panic, s')
  | (_, Throw err, s') => (Throw err, s')
  | (true, Ret _, s') => (Throw (OtherError "synthetic requeue request"), s')
  | (false, Ret _, s') => (Ret (), s')
  end.
End Status.

End CertificateSigning.
