(* ===== verification/CertificateSigningProofs.v ===== *)
(** Properties of the signing of break-glass certificates: what the validator
admits, how usages translate, the lifetime of a certificate, and, over every
interleaving of the operator's controllers with the rest of the cluster, that
a certificate was approved, validated and signed by the CA of its class. *)
From S2P Require Import Prelude GoSort Api Upsert CertificateRevocation CertificateSigning.

Module CertificateSigningProofs.
Import CertificateRevocation CertificateSigning.

(** *** Conditions *)

Definition has_type (t : string) (c : CSRCondition) : bool := str_eqb (ccType c) t.

Lemma GetCertApprovalCondition_spec conds :
  GetCertApprovalCondition conds =
    (existsb (has_type CertificateApproved) conds, existsb (has_type CertificateDenied) conds).
Proof.
  unfold GetCertApprovalCondition.
  assert (Hgen : ∀ a d, foldl (λ r c,
      let r := if str_eqb (ccType c) CertificateApproved then (true, r.2) else r in
      if str_eqb (ccType c) CertificateDenied then (r.1, true) else r) (a, d) conds =
    (a || existsb (has_type CertificateApproved) conds, d || existsb (has_type CertificateDenied) conds));
    [|apply Hgen].
  induction conds as [|c conds IH]; intros a d; simpl; [by rewrite !orb_false_r|].
  unfold has_type at 1 3. destruct (str_eqb _ CertificateApproved), (str_eqb _ CertificateDenied);
    simpl; rewrite IH; by destruct a, d.
Qed.

(** Of the three answers exactly one holds unless a request is both approved
and denied, and then it counts as denied. *)
Lemma approved_not_pending csr :
  IsCertificateRequestApproved csr = true → IsCertificateRequestPending csr = false.
Proof.
  unfold IsCertificateRequestApproved, IsCertificateRequestPending.
  rewrite GetCertApprovalCondition_spec. by destruct (existsb _ _), (existsb _ _).
Qed.

Definition approved (c : CSR) : Prop := ∃ k, k ∈ csrConditions c ∧ ccType k = CertificateApproved.

Lemma IsCertificateRequestApproved_approved c : IsCertificateRequestApproved c = true → approved c.
Proof.
  unfold IsCertificateRequestApproved. rewrite GetCertApprovalCondition_spec.
  intros [Ha _]%andb_prop. apply existsb_elem in Ha as (k & Hk & Ht). exists k.
  split; [done|]. by apply str_eqb_eq.
Qed.

(** *** Usages *)

Section Usages.
Context `{!SliceSort}.

Definition recognized (u : string) : Prop := is_Some (keyUsageDict u) ∨ is_Some (extKeyUsageDict u).

(** Usage [u] asks for bit [i], or for the extended usage [e]. *)
Definition asks_bit (i : Z) (u : string) : Prop :=
  ∃ v, keyUsageDict u = Some v ∧ Z.testbit v i = true.
Definition asks_ext (e : Z) (u : string) : Prop :=
  keyUsageDict u = None ∧ extKeyUsageDict u = Some e.

Lemma exists_cons {A} (P : A → Prop) x l :
  (∃ u, u ∈ x :: l ∧ P u) ↔ P x ∨ ∃ u, u ∈ l ∧ P u.
Proof. setoid_rewrite elem_of_cons. naive_solver. Qed.

Lemma add_usage_fold us k ext un k' ext' un' :
  foldl add_usage (k, ext, un) us = (k', ext', un') →
  (∀ i, Z.testbit k' i = true ↔ Z.testbit k i = true ∨ ∃ u, u ∈ us ∧ asks_bit i u) ∧
  (∀ e, e ∈ ext' ↔ e ∈ ext ∨ ∃ u, u ∈ us ∧ asks_ext e u) ∧
  (∀ w, w ∈ un' ↔ w ∈ un ∨ (∃ u, u ∈ us ∧ (w = u ∧ ¬ recognized u))).
Proof.
  revert k ext un. induction us as [|u us IH]; intros k ext un E; simpl in E.
  { simplify_eq/=. set_solver. }
  setoid_rewrite exists_cons. unfold asks_bit at 1, asks_ext at 1, recognized at 1.
  destruct (keyUsageDict u) as [v|]; [|destruct (extKeyUsageDict u) as [v|]];
    destruct (IH _ _ _ E) as (Hb & Hs & Hu); clear IH E;
    (split_and!; [intros i; rewrite Hb, ?Z.lor_spec, ?orb_true_iff
      |intros e; rewrite Hs, ?elem_of_union, ?elem_of_singleton
      |intros w; rewrite Hu, ?elem_of_app, ?list_elem_of_singleton]; clear Hb Hs Hu;
      match goal with |- context [∃ u, u ∈ us ∧ @?P u] => generalize (∃ u, u ∈ us ∧ P u) end;
      naive_solver).
Qed.

Definition int_lt (i j : Z) : bool := (i <? j)%Z.

#[local] Instance int_lt_StrictWeak : StrictWeak int_lt.
Proof. split; unfold int_lt; intros *; rewrite ?Z.ltb_lt, ?Z.ltb_ge; lia. Qed.

Lemma sorted_elements (ext : gset Z) : StronglySorted Z.lt (sort_slice int_lt (elements ext)).
Proof.
  assert (Hnd : NoDup (sort_slice int_lt (elements ext))).
  { rewrite sort_slice_perm. apply NoDup_elements. }
  assert (Hs : StronglySorted (sorts_before int_lt) (sort_slice int_lt (elements ext))).
  { apply sort_slice_sorted. apply StrictWeak_on. apply _. }
  induction Hs as [|x l Hs IH Hall]; [constructor|].
  apply NoDup_cons in Hnd as [Hx Hnd]. constructor; [auto|].
  rewrite Forall_forall in Hall |- *. intros y Hy. specialize (Hall y Hy).
  unfold sorts_before, int_lt in Hall. apply Z.ltb_ge in Hall.
  assert (x ≠ y) by (intros ->; done). lia.
Qed.

(** The translation of the usages of a request: it fails exactly when a usage
is in neither table; otherwise the bits are the union of the bits of the key
usages, and the extended usages are those requested, sorted and without
duplicates. *)
Lemma KeyUsagesFromStrings_spec us :
  match KeyUsagesFromStrings us with
  | Ret (k, ext) =>
      (∀ u, u ∈ us → recognized u) ∧
      (∀ i, Z.testbit k i = true ↔ ∃ u, u ∈ us ∧ asks_bit i u) ∧
      (∀ e, e ∈ ext ↔ ∃ u, u ∈ us ∧ asks_ext e u) ∧
      StronglySorted Z.lt ext
  | Throw _ => ∃ u, u ∈ us ∧ ¬ recognized u
  | Panic => False
  end.
Proof.
  unfold KeyUsagesFromStrings. destruct (foldl add_usage _ us) as [[k ext] un] eqn:E.
  apply add_usage_fold in E as (Hb & Hs & Hu). fold int_lt.
  destruct (Nat.ltb_spec 0 (length un)) as [Hl|Hl].
  - destruct un as [|u un]; [simpl in Hl; lia|]. exists u.
    destruct (Hu u) as [[Hu'|(w & Hin & -> & Hnr)] _]; [left|by apply not_elem_of_nil in Hu'|done].
  - destruct un as [|u un]; [|simpl in Hl; lia]. split_and!.
    + intros u Hin. destruct (decide (is_Some (keyUsageDict u))) as [|Hk]; [by left|].
      destruct (decide (is_Some (extKeyUsageDict u))) as [|He]; [by right|].
      destruct (Hu u) as [_ Hu']. exfalso. apply (not_elem_of_nil u), Hu'. right. exists u.
      split_and!; [done|done|]. by intros [?|?].
    + intros i. rewrite Hb, Z.bits_0. split; [by intros [?|?]|by right].
    + intros e. rewrite sort_slice_perm, elem_of_elements, Hs. set_solver.
    + apply sorted_elements.
Qed.

(** *** The validator *)

(** What a valid break-glass request is. *)
Record valid_request (hcp : HostedControlPlane) (signer : string) (csr : CSR) (x : CertificateRequest) : Prop := {
  vr_signer : csrSignerName csr = SignerNameForHCP hcp signer;
  vr_common_name : ∃ who, CommonName (Subject x) = CommonNamePrefix signer +:+ who;
  vr_required : UsageClientAuth ∈ csrUsages csr;
  vr_usages : ∀ u, u ∈ csrUsages csr → u ∈ [UsageClientAuth; UsageDigitalSignature; UsageKeyEncipherment];
  vr_dns : DNSNames x = [];
  vr_email : EmailAddresses x = [];
  vr_ip : IPAddresses x = [];
  vr_uri : URIs x = [];
}.

Lemma no_names {A} (l : list A) : (0 <? length l)%nat = false ↔ l = [].
Proof. destruct l; simpl; split; intros; simplify_eq; done. Qed.

Lemma Validator_spec hcp signer csr x :
  ValidSignerClass signer = true →
  Validator hcp signer (Some csr) (Some x) = None ↔ valid_request hcp signer csr x.
Proof.
  intros Hv. unfold Validator, ValidUsagesFor. unfold ValidSignerClass in Hv. rewrite Hv.
  split.
  - intros E. repeat case_match; try discriminate E.
    rewrite !no_names in *. rewrite !negb_false_iff in *.
    repeat match goal with Hb : bool_decide _ = true |- _ => apply bool_decide_eq_true in Hb end.
    constructor; try done.
    + by apply str_eqb_eq.
    + by apply has_prefix_app.
    + set_solver.
    + intros u Hu. set_solver.
  - intros [Hs [who Hp] Hr Hu Hd He Hi Hur].
    rewrite Hs, str_eqb_refl, Hd, He, Hi, Hur. simpl.
    assert (Hpre : has_prefix (CommonName (Subject x)) (CommonNamePrefix signer) = true)
      by (apply has_prefix_app; eauto).
    rewrite Hpre. simpl. rewrite !bool_decide_eq_true_2; [done|set_solver|set_solver].
Qed.

(** The usages of a valid request translate to client authentication and at
most the two optional bits. *)
Lemma valid_usages hcp signer csr x :
  valid_request hcp signer csr x →
  ∃ k, KeyUsagesFromStrings (csrUsages csr) = Ret (k, [ExtKeyUsageClientAuth]) ∧
    ∀ i, Z.testbit k i = true → i = 0%Z ∨ i = 2%Z.
Proof.
  intros [_ _ Hr Hu _ _ _ _]. generalize (KeyUsagesFromStrings_spec (csrUsages csr)).
  destruct (KeyUsagesFromStrings (csrUsages csr)) as [[k ext]|e|]; [|intros (u & Hin & Hnr)|done].
  - intros (_ & Hb & He & Hs). exists k. split.
    + do 2 f_equal. assert (Hall : ∀ e, e ∈ ext ↔ e = 2%Z).
      { intros e. rewrite He. split.
        - intros (u & Hin & Hk & Hx). apply Hu in Hin. elem_cases; vm_compute in Hk, Hx; by simplify_eq.
        - intros ->. exists UsageClientAuth. done. }
      destruct Hs as [|y l Hs Hf]; [by exfalso; apply (not_elem_of_nil 2%Z), Hall|].
      assert (y = 2%Z) as -> by (apply Hall; left).
      destruct l as [|z l]; [done|]. apply Forall_cons in Hf as [Hlt _].
      assert (z = 2%Z) as -> by (apply Hall; right; left). lia.
    + intros i Hi. apply Hb in Hi as (u & Hin & v & Hk & Hv). apply Hu in Hin.
      elem_cases; vm_compute in Hk; simplify_eq.
      * destruct (Z.eq_dec i 0); [by left|]. exfalso. revert Hv.
        change 1%Z with (2 ^ 0)%Z. rewrite Z.pow2_bits_false by lia. done.
      * destruct (Z.eq_dec i 2); [by right|]. exfalso. revert Hv.
        change 4%Z with (2 ^ 2)%Z. rewrite Z.pow2_bits_false by lia. done.
  - exfalso. apply Hnr. apply Hu in Hin. elem_cases; [right|left|left]; vm_compute; eauto.
Qed.

End Usages.

(** *** Lifetimes *)

Lemma duration_bound certTTL e : (duration certTTL e ≤ Z.max certTTL (2 * backdate))%Z.
Proof.
  unfold duration. destruct e as [e|]; [|lia].
  repeat match goal with |- context [if ?b then _ else _] => destruct b eqn:? end; lia.
Qed.

(** A requested lifetime is honoured between twice the backdating and the
default. *)
Lemma duration_honoured certTTL e :
  (2 * backdate ≤ ExpirationSecondsToDuration e ≤ certTTL)%Z →
  duration certTTL (Some e) = ExpirationSecondsToDuration e.
Proof. intros [? ?]. unfold duration. destruct (Z.ltb_spec certTTL (ExpirationSecondsToDuration e));
  [lia|]. destruct (Z.ltb_spec (ExpirationSecondsToDuration e) (2 * backdate)); [lia|done]. Qed.

Lemma signingTTL_bound scale : (signingTTL scale < 2 ^ 63)%Z.
Proof.
  unfold signingTTL. pose proof (to_int64_range (36 * scale)) as Hr.
  apply Z.le_lt_trans with (Z.abs (to_int64 (36 * scale) ÷ 24)); [lia|].
  rewrite <- Z.quot_abs by done. change (Z.abs 24) with 24%Z.
  apply Z.quot_lt_upper_bound; lia.
Qed.

(** The end of a certificate's life is within its lifetime from now and within
the CA's life, and its start is the zero time: the documented
[Now() - Backdate] is never computed. *)
Lemma boundaries_spec instant ttl signerNotAfter nb na :
  (ttl < 2 ^ 63)%Z →
  boundaries instant ttl backdate (100 * backdate) signerNotAfter = Ret (nb, na) →
  nb = zero_time ∧ (na ≤ signerNotAfter)%Z ∧ (na ≤ instant + ttl)%Z ∧ (instant < signerNotAfter)%Z.
Proof.
  intros Hmax. unfold boundaries, time_add, time_before. cbv zeta.
  assert (Hb : backdate = 300000000000%Z) by reflexivity.
  destruct (Z.ltb_spec ttl (100 * backdate)) as [Ht|Ht];
    [|rewrite (to_int64_small (ttl - backdate)) by lia]; intros E;
    repeat match type of E with context [(?a <? ?b)%Z] => destruct (Z.ltb_spec a b) end;
    simpl in E; simplify_eq; split_and!; first [done|lia].
Qed.

(** *** Signing *)

Section Signing.
Context `{!SliceSort, !Crypto}.

(** [raw] is a certificate the CA signed, at [instant], for the break-glass
request [csr] of [signer], parsed as [x]. *)
Definition issued (hcp : HostedControlPlane) (signer : string) (certTTL : Duration) (csr : CSR) (ca : CA)
    (raw : string) : Prop :=
  ∃ x instant serial notAfter keyUsage signerNotAfter cert,
    ParseCSR (csrRequest csr) = Ret x ∧ CheckSignature x = None ∧
    valid_request hcp signer csr x ∧
    head (caNotAfter ca) = Some signerNotAfter ∧
    (notAfter ≤ signerNotAfter)%Z ∧ (notAfter ≤ instant + Z.max certTTL (2 * backdate))%Z ∧
    (instant < signerNotAfter)%Z ∧
    (∀ i, Z.testbit keyUsage i = true → i = 0%Z ∨ i = 2%Z) ∧
    SignCertificate ca (mkTemplate zero_time notAfter (Subject x) [] [] [] []
      (PublicKeyAlgorithm x) (PublicKey x) keyUsage [ExtKeyUsageClientAuth] true false)
      (PublicKey x) serial = Ret cert ∧
    EncodeCertificates cert = Ret raw.

Lemma sign_issued hcp signer certTTL csr ca x instant serial raw :
  (certTTL < 2 ^ 63)%Z →
  ParseCSR (csrRequest csr) = Ret x → valid_request hcp signer csr x →
  sign ca x (csrUsages csr) certTTL (csrExpirationSeconds csr) instant serial = Ret raw →
  issued hcp signer certTTL csr ca raw.
Proof.
  intros Hmax Hp Hv. unfold sign. destruct (CheckSignature x) eqn:Hsig; [done|].
  destruct (caNotAfter ca) as [|signerNotAfter chain] eqn:Hca; [done|].
  pose proof (duration_bound certTTL (csrExpirationSeconds csr)) as Hd.
  intros E. apply go_bind_Ret in E as ([nb na] & Hb & E).
  apply boundaries_spec in Hb as (-> & H1 & H2 & H3); [|unfold backdate, minute, second in *; lia].
  destruct (valid_usages _ _ _ _ Hv) as (k & Hk & Hbits). rewrite Hk in E. cbn in E.
  apply go_bind_Ret in E as (cert & Hs & E). unfold template_for in Hs.
  pose proof Hv as [_ _ _ _ Hdns Hem Hip Hur]. rewrite Hdns, Hem, Hip, Hur in Hs.
  exists x, instant, serial, na, k, signerNotAfter, cert. rewrite Hca.
  split_and!; first [done|lia].
Qed.

(** *** The cluster *)

(** What the controllers rely on.  [versions], [approvals] and [secrets] are
what the API server has stored so far, [current] what it stores now.  A lister
gives a version of the object that was stored once, not always the last one.
[UpdateApproval] changes nothing but the conditions, and only of the very
version it was given; applying a status adds the conditions and the
certificate applied and leaves the rest of the object. *)
Record status_of (cur new : CSR) : Prop := {
  so_name : csrName new = csrName cur;
  so_signer : csrSignerName new = csrSignerName cur;
  so_request : csrRequest new = csrRequest cur;
  so_usages : csrUsages new = csrUsages cur;
  so_expiration : csrExpirationSeconds new = csrExpirationSeconds cur;
}.

Class CSRServerLaws (S : Type) `{!CSRServer S} : Type := {
  versions : S → list CSR;
  approvals : S → gset (string * string);
  secrets : S → list Secret;
  current : S → string → option CSR;
  current_version n c s : current s n = Some c → c ∈ versions s ∧ csrName c = n;
  version_unique s c c' : c ∈ versions s → c' ∈ versions s → csrName c = csrName c' →
    csrResourceVersion c = csrResourceVersion c' → c = c';
  listCSR_version n s c : listCSR n s = Ret c → c ∈ versions s ∧ csrName c = n;
  listCSRA_approval ns n s : listCSRA ns n s = Ret () → (ns, n) ∈ approvals s;
  listSecret_stored ns n s x : listSecret ns n s = Ret x →
    x ∈ secrets s ∧ sNamespace x = ns ∧ sName x = n;
  UpdateApproval_stored n c s r s' : UpdateApproval n c s = (r, s') →
    approvals s' = approvals s ∧ secrets s' = secrets s ∧
    (versions s' = versions s ∨
     ∃ cur new, current s n = Some cur ∧ csrResourceVersion cur = csrResourceVersion c ∧
       versions s' = new :: versions s ∧ status_of cur new ∧
       csrConditions new = csrConditions c ∧ csrCertificate new = csrCertificate cur);
  ApplyCSRStatus_stored m cfg s r s' : ApplyCSRStatus m cfg s = (r, s') →
    approvals s' = approvals s ∧ secrets s' = secrets s ∧
    (versions s' = versions s ∨
     ∃ cur new, current s (saName cfg) = Some cur ∧ versions s' = new :: versions s ∧
       status_of cur new ∧
       (∀ k, k ∈ csrConditions new → k ∈ csrConditions cur ∨ k ∈ saConditions cfg) ∧
       (csrCertificate new = csrCertificate cur ∨ csrCertificate new = saCertificate cfg));
}.

Context {S : Type} `{!CSRServer S} `{!CSRServerLaws S}.
Context (hcp : HostedControlPlane) (scale : Duration).

(** The rest of the cluster: requests and approvals are created, changed and
deleted, caches are refreshed, secrets rotated.  Nobody else approves or signs
requests for the signers of this control plane, and the status of a request is
empty when it is created. *)
Record environment (s s' : S) : Prop := {
  env_versions : versions s ⊆ versions s';
  env_approvals : approvals s ⊆ approvals s';
  env_secrets : secrets s ⊆ secrets s';
  env_requests c : c ∈ versions s' →
    c ∈ versions s ∨ (csrConditions c = [] ∧ csrCertificate c = None) ∨
    (∃ c0, c0 ∈ versions s ∧ csrName c0 = csrName c ∧ csrSignerName c0 = csrSignerName c ∧
       (∀ k, k ∈ csrConditions c → ccType k = CertificateApproved → k ∈ csrConditions c0) ∧
       csrCertificate c = csrCertificate c0) ∨
    (∀ signer secret, (signer, secret) ∈ breakGlassSigners → csrSignerName c ≠ SignerNameForHCP hcp signer);
}.

(** The operator's controllers and the environment, interleaved: the cluster
with the CA each loading controller holds. *)
Inductive step : S * gmap string CA → S * gmap string CA → Prop :=
  | step_environment s s' cas : environment s s' → step (s, cas) (s', cas)
  | step_approval signer secret key now s cas evs r s' :
      (signer, secret) ∈ breakGlassSigners →
      syncApproval (NewCertificateSigningRequestApprovalController hcp signer) key now s = (evs, r, s') →
      step (s, cas) (s', cas)
  | step_loading signer secret s cas evs r ca :
      (signer, secret) ∈ breakGlassSigners →
      syncLoading (hcpNamespace hcp) secret s (cas !! signer) = (evs, r, ca) →
      step (s, cas) (s, partial_alter (λ _, ca) signer cas)
  | step_signing signer secret key now serial s cas evs r s' :
      (signer, secret) ∈ breakGlassSigners →
      syncSigning (NewCertificateSigningController hcp signer (signingTTL scale)) key
        (CurrentCA (cas !! signer)) now serial s = (evs, r, s') →
      step (s, cas) (s', cas).

(** What holds of every version of every request for this control plane: it
was approved because an approval of its name was created in the namespace of
the control plane, and a certificate in it was issued, by a CA loaded from the
secret of a signer class, for an approved version of a request of that name. *)
Definition from_secret (s : S) (secret : string) (ca : CA) : Prop :=
  ∃ x, x ∈ secrets s ∧ sNamespace x = hcpNamespace hcp ∧ sName x = secret ∧
    GetCAFromBytes (mget (sData x) "tls.crt") (mget (sData x) "tls.key") = Ret ca.

Definition authorised (s : S) (name raw : string) : Prop :=
  ∃ signer secret c ca, (signer, secret) ∈ breakGlassSigners ∧ from_secret s secret ca ∧
    c ∈ versions s ∧ csrName c = name ∧ csrSignerName c = SignerNameForHCP hcp signer ∧ approved c ∧
    (hcpNamespace hcp, name) ∈ approvals s ∧ issued hcp signer (signingTTL scale) c ca raw.

Definition for_us (c : CSR) : Prop :=
  ∃ signer secret, (signer, secret) ∈ breakGlassSigners ∧ csrSignerName c = SignerNameForHCP hcp signer.

Record sound (p : S * gmap string CA) : Prop := {
  sound_cas signer secret ca : (signer, secret) ∈ breakGlassSigners →
    p.2 !! signer = Some ca → from_secret p.1 secret ca;
  sound_approved c : c ∈ versions p.1 → for_us c → approved c →
    (hcpNamespace hcp, csrName c) ∈ approvals p.1;
  sound_issued c raw : c ∈ versions p.1 → for_us c → csrCertificate c = Some raw →
    authorised p.1 (csrName c) raw;
}.

Lemma from_secret_mono s s' secret ca :
  secrets s ⊆ secrets s' → from_secret s secret ca → from_secret s' secret ca.
Proof. intros Hs (x & Hx & ?). exists x. split; [by apply Hs|done]. Qed.

Lemma authorised_mono s s' name raw :
  versions s ⊆ versions s' → approvals s ⊆ approvals s' → secrets s ⊆ secrets s' →
  authorised s name raw → authorised s' name raw.
Proof.
  intros Hv Ha Hs (signer & secret & c & ca & ? & Hf & Hc & ? & ? & ? & Hap & ?).
  exists signer, secret, c, ca. split_and!; [done|by eapply from_secret_mono|set_solver..].
Qed.

(** A write that stores at most one more version keeps the invariant if the
new version does. *)
Lemma sound_store s s' cas (Q : CSR → Prop) :
  sound (s, cas) → approvals s' = approvals s → secrets s' = secrets s →
  (versions s' = versions s ∨ ∃ new, versions s' = new :: versions s ∧ Q new) →
  (∀ new, Q new → for_us new → approved new → (hcpNamespace hcp, csrName new) ∈ approvals s) →
  (∀ new raw, Q new → for_us new → csrCertificate new = Some raw → authorised s (csrName new) raw) →
  sound (s', cas).
Proof.
  intros [Hca Hap His] Ea Es Ev Qa Qi. simpl in *.
  assert (Hsub : versions s ⊆ versions s') by (destruct Ev as [->|(new & -> & _)]; set_solver).
  assert (Hnew : ∀ c, c ∈ versions s' → c ∈ versions s ∨ Q c).
  { intros c Hc. destruct Ev as [Ev|(new & Ev & Hq)]; rewrite Ev in Hc; [by left|].
    apply elem_of_cons in Hc as [->|Hc]; auto. }
  assert (Hmono : ∀ n raw, authorised s n raw → authorised s' n raw).
  { intros n raw. apply authorised_mono; [done|by rewrite Ea|by rewrite Es]. }
  constructor; simpl.
  - intros signer secret ca Hb Hl. apply (from_secret_mono s); [by rewrite Es|]. eauto.
  - intros c Hc Hu Hap'. rewrite Ea. destruct (Hnew c Hc); eauto.
  - intros c raw Hc Hu Hr. apply Hmono. destruct (Hnew c Hc); eauto.
Qed.

Lemma status_of_for_us cur new : status_of cur new → for_us new → for_us cur.
Proof. intros [] (signer & secret & ? & E). exists signer, secret. split; [done|congruence]. Qed.

Lemma environment_sound s s' cas : environment s s' → sound (s, cas) → sound (s', cas).
Proof.
  intros [Hv Ha Hs Hreq] [Hca Hap His]. simpl in *. constructor; simpl.
  - intros signer secret ca Hb Hl. apply (from_secret_mono s); [done|]. eauto.
  - intros c Hc Hu (k & Hk & Ht).
    destruct (Hreq c Hc) as [Hc0|[[Hn _]|[(c0 & Hc0 & <- & Hsn & Happ & _)|Hno]]].
    + apply Ha, (Hap c); [done..|by exists k].
    + rewrite Hn in Hk. by apply not_elem_of_nil in Hk.
    + apply Ha, (Hap c0); [done| |exists k; auto].
      destruct Hu as (signer & secret & ? & E). exists signer, secret. split; [done|congruence].
    + destruct Hu as (signer & secret & Hb & E). by destruct (Hno signer secret).
  - intros c raw Hc Hu Hr.
    destruct (Hreq c Hc) as [Hc0|[[_ Hn]|[(c0 & Hc0 & <- & Hsn & _ & Hr')|Hno]]].
    + eapply authorised_mono; eauto.
    + congruence.
    + eapply authorised_mono; [done..|]. apply His; [done| |congruence].
      destruct Hu as (signer & secret & ? & E). exists signer, secret. split; [done|congruence].
    + destruct Hu as (signer & secret & Hb & E). by destruct (Hno signer secret).
Qed.

Lemma approve_spec c name now s csr :
  approveCertificateSigningRequest c name now s = Ret (Some csr) →
  ∃ old, listCSR name s = Ret old ∧ csr = with_condition old (approval_condition now) ∧
    listCSRA (apNamespace c) name s = Ret ().
Proof.
  unfold approveCertificateSigningRequest. intros E. repeat case_match; simplify_eq.
  match goal with u : unit |- _ => destruct u end. eauto.
Qed.

Lemma approval_sound signer key now s cas evs r s' :
  syncApproval (NewCertificateSigningRequestApprovalController hcp signer) key now s = (evs, r, s') →
  sound (s, cas) → sound (s', cas).
Proof.
  intros E Hs. unfold syncApproval in E.
  destruct (SplitMetaNamespaceKey key) as [[ns name]| |]; [|by simplify_eq..].
  destruct (approveCertificateSigningRequest _ _ _ _) as [[csr|]| |] eqn:Ea; [|by simplify_eq..].
  destruct (UpdateApproval name csr s) as [r0 s0] eqn:Eu. simplify_eq.
  apply approve_spec in Ea as (old & Hold & -> & Hcsra).
  apply listCSRA_approval in Hcsra. apply listCSR_version in Hold as [Hold Hn].
  apply UpdateApproval_stored in Eu as (Hea & Hes & Hv).
  apply (sound_store s s' cas (λ new, ∃ cur, current s name = Some cur ∧ status_of cur new ∧
    csrCertificate new = csrCertificate cur)); [done..| | |].
  - destruct Hv as [?|(cur & new & ? & _ & ? & ? & _ & ?)]; [by left|right; exists new; eauto].
  - intros new (cur & Hcur & Hso & _) _ _. apply current_version in Hcur as [_ Hcn].
    rewrite (so_name _ _ Hso), Hcn. done.
  - intros new raw (cur & Hcur & Hso & Hcert) Hu Hr. apply current_version in Hcur as [Hcur Hcn].
    rewrite (so_name _ _ Hso). apply (sound_issued _ Hs); [done|by eapply status_of_for_us|congruence].
Qed.

Lemma breakGlassSigners_secret signer secret secret' :
  (signer, secret) ∈ breakGlassSigners → (signer, secret') ∈ breakGlassSigners → secret' = secret.
Proof. unfold breakGlassSigners. rewrite !elem_of_cons, !elem_of_nil. intros; destruct_or?; by simplify_eq. Qed.

Lemma breakGlassSigners_valid signer secret :
  (signer, secret) ∈ breakGlassSigners → ValidSignerClass signer = true.
Proof. unfold breakGlassSigners. rewrite !elem_of_cons, elem_of_nil. intros; destruct_or?; by simplify_eq. Qed.

Lemma loading_sound signer secret s cas evs r ca :
  (signer, secret) ∈ breakGlassSigners →
  syncLoading (hcpNamespace hcp) secret s (cas !! signer) = (evs, r, ca) →
  sound (s, cas) → sound (s, partial_alter (λ _, ca) signer cas).
Proof.
  intros Hin E [Hca Hap His]. constructor; [|done..]. simpl in *.
  intros signer' secret' ca' Hin' Hl.
  destruct (decide (signer' = signer)) as [->|Hne];
    [|rewrite lookup_partial_alter_ne in Hl by done; eauto].
  rewrite lookup_partial_alter_eq in Hl. subst ca.
  assert (secret' = secret) as -> by by eapply breakGlassSigners_secret.
  unfold syncLoading, SetCA in E. repeat case_match; simplify_eq; eauto.
  match goal with Hl : listSecret _ _ _ = Ret ?x |- _ =>
    apply listSecret_stored in Hl as (? & ? & ?); exists x; split_and!; done end.
Qed.

Lemma process_signed c name ca now serial s cfg v raw :
  processCertificateSigningRequest c name ca now serial s = Ret (Some cfg, v) →
  saName cfg = name ∧ (∀ k, k ∈ saConditions cfg → ccType k = CertificateFailed) ∧
  (saCertificate cfg = Some raw →
   ∃ csr x a, listCSR name s = Ret csr ∧ IsCertificateRequestApproved csr = true ∧
     csrSignerName csr = scSignerName c ∧ ParseCSR (csrRequest csr) = Ret x ∧
     scValidator c (Some csr) (Some x) = None ∧ ca = Ret a ∧
     sign a x (csrUsages csr) (scCertTTL c) (csrExpirationSeconds csr) now serial = Ret raw).
Proof.
  unfold processCertificateSigningRequest. intros E.
  destruct (listCSR name s) as [csr| |] eqn:Hl; [|by repeat case_match|done].
  destruct (_ || _) eqn:Hg in E; [done|]. rewrite !orb_false_iff, !negb_false_iff in Hg.
  destruct Hg as [[[Hap _] Hsn] _]. apply str_eqb_eq in Hsn.
  destruct (ParseCSR _) as [x| |] eqn:Hp; [|done..].
  destruct (scValidator _ _ _) as [e|] eqn:Hv.
  - simplify_eq/=. split_and!; [done| |done]. intros k ->%list_elem_of_singleton. done.
  - apply go_bind_Ret in E as (a & -> & E). apply go_bind_Ret in E as (raw' & Hs & E).
    simplify_eq/=. split_and!; [done|by intros k ?%not_elem_of_nil|].
    intros Hr. destruct (str_eqb raw' ""); [done|]. simplify_eq. exists csr, x, a. done.
Qed.

Lemma signing_sound signer secret key now serial s cas evs r s' :
  (signer, secret) ∈ breakGlassSigners →
  syncSigning (NewCertificateSigningController hcp signer (signingTTL scale)) key
    (CurrentCA (cas !! signer)) now serial s = (evs, r, s') →
  sound (s, cas) → sound (s', cas).
Proof.
  intros Hin E Hs. unfold syncSigning in E.
  destruct (SplitMetaNamespaceKey key) as [[ns name]| |]; [|by simplify_eq..].
  destruct (processCertificateSigningRequest _ _ _ _ _ _) as [[[cfg|] v]| |] eqn:Ep; [|by simplify_eq..].
  destruct (ApplyCSRStatus _ cfg s) as [r0 s0] eqn:Eu.
  assert (s0 = s') as -> by (destruct r0, v; by simplify_eq). clear E.
  apply ApplyCSRStatus_stored in Eu as (Hea & Hes & Hv).
  destruct (process_signed _ _ _ _ _ _ _ _ "" Ep) as (Hname & Hfail & _).
  rewrite Hname in Hv.
  apply (sound_store s s' cas (λ new, ∃ cur, current s name = Some cur ∧ status_of cur new ∧
    (∀ k, k ∈ csrConditions new → k ∈ csrConditions cur ∨ k ∈ saConditions cfg) ∧
    (csrCertificate new = csrCertificate cur ∨ csrCertificate new = saCertificate cfg))); [done..| | |].
  - destruct Hv as [?|(cur & new & ? & ? & ? & ? & ?)]; [by left|right; exists new].
    split; [done|by exists cur].
  - intros new (cur & Hcur & Hso & Hk & _) Hu (k & Hin' & Ht).
    apply current_version in Hcur as [Hcur _]. rewrite (so_name _ _ Hso).
    apply (sound_approved _ Hs); [done|by eapply status_of_for_us|]. exists k. split; [|done].
    destruct (Hk k Hin') as [|Hf]; [done|]. apply Hfail in Hf. by rewrite Hf in Ht.
  - intros new raw (cur & Hcur & Hso & _ & Hcert) Hu Hr.
    apply current_version in Hcur as [Hcur Hcn]. rewrite (so_name _ _ Hso).
    destruct Hcert as [Hcert|Hcert]; rewrite Hcert in Hr;
      [by apply (sound_issued _ Hs); [|eapply status_of_for_us|]|].
    destruct (process_signed _ _ _ _ _ _ _ _ raw Ep) as (_ & _ & Hsig).
    destruct (Hsig Hr) as (csr & x & a & Hl & Hap & Hsn & Hp & Hval & Ha & Hsign).
    apply listCSR_version in Hl as [Hl Hn]. simpl in Hsn, Hval.
    apply Validator_spec in Hval; [|by eapply breakGlassSigners_valid].
    apply IsCertificateRequestApproved_approved in Hap.
    destruct (cas !! signer) as [a'|] eqn:Hca; [|done]. simpl in Ha. injection Ha as <-.
    exists signer, secret, csr, a'. rewrite Hcn, Hn in *. subst. split_and!; try done.
    + by apply (sound_cas _ Hs signer).
    + rewrite <- Hn. apply (sound_approved _ Hs csr); [done| |done]. by exists signer, secret.
    + eapply sign_issued; [apply signingTTL_bound|done..].
Qed.

(** The invariant holds in every state the controllers and the rest of the
cluster can reach. *)
Lemma step_sound p p' : step p p' → sound p → sound p'.
Proof.
  intros [] Hs.
  - by eapply environment_sound.
  - by eapply approval_sound.
  - by eapply loading_sound.
  - by eapply signing_sound.
Qed.

Lemma steps_sound p p' : rtc step p p' → sound p → sound p'.
Proof. induction 1; eauto using step_sound. Qed.

(** A cluster the operator starts in: no request has a status, no CA is
loaded. *)
Definition initial (p : S * gmap string CA) : Prop :=
  p.2 = ∅ ∧ ∀ c, c ∈ versions p.1 → csrConditions c = [] ∧ csrCertificate c = None.

Lemma initial_sound p : initial p → sound p.
Proof.
  intros [Hca Hv]. constructor.
  - intros signer secret ca _ Hl. by rewrite Hca in Hl.
  - intros c Hc _ (k & Hk & _). destruct (Hv c Hc) as [Hn _]. rewrite Hn in Hk.
    by apply not_elem_of_nil in Hk.
  - intros c raw Hc _ Hr. destruct (Hv c Hc). congruence.
Qed.

(** C8: Break-glass certificates are authorised.  From a cluster without request
statuses, and as long as nothing else approves requests to, or issues
certificates for, the signers of this control plane: however the approval, CA
loading and signing controllers of both signer classes interleave with each
other and with other changes of the cluster, and however stale the caches they
read are, a certificate in the status of a request to a signer of this control
plane was issued for an approved request of that name for which an approval
resource was created in the control plane's namespace; it was signed with a CA
from the signer secret of a class, for a subject with the prefix of that class,
for client authentication only, with no alternative names, not as a CA, and does
not outlive that CA (its start, the zero time, is not bounded by the CA's). *)
Theorem certificates_authorised p p' c raw :
  initial p → rtc step p p' →
  c ∈ versions p'.1 → for_us c → csrCertificate c = Some raw →
  authorised p'.1 (csrName c) raw.
Proof.
  intros Hi Hsteps. assert (Hs : sound p') by (eapply steps_sound, initial_sound; done).
  intros. by apply (sound_issued _ Hs).
Qed.

(** *** Refusals and events *)

(** A request that fails validation is marked failed and never gets a
certificate from the same call. *)
Lemma invalid_request_failed signer csr x name ca now serial s e :
  listCSR name s = Ret csr → IsCertificateRequestApproved csr = true →
  HasTrueCondition csr CertificateFailed = false → csrCertificate csr = None →
  csrSignerName csr = SignerNameForHCP hcp signer → ParseCSR (csrRequest csr) = Ret x →
  Validator hcp signer (Some csr) (Some x) = Some e →
  processCertificateSigningRequest (NewCertificateSigningController hcp signer (signingTTL scale))
    name ca now serial s = Ret (Some (failed_status name e now), Some e).
Proof.
  intros Hl Ha Hf Hc Hs Hp Hv. unfold processCertificateSigningRequest.
  rewrite Hl, Ha, Hf, Hc. simpl. rewrite Hs, str_eqb_refl, Hp. simpl. by rewrite Hv.
Qed.

(** An approved, valid request is signed by the next call that sees it, once an
unexpired CA is loaded that signs. *)
Lemma valid_request_signed signer csr x name ca na chain now serial s :
  ValidSignerClass signer = true →
  listCSR name s = Ret csr → IsCertificateRequestApproved csr = true →
  HasTrueCondition csr CertificateFailed = false → csrCertificate csr = None →
  ParseCSR (csrRequest csr) = Ret x → valid_request hcp signer csr x → CheckSignature x = None →
  caNotAfter ca = na :: chain → (zero_time < na)%Z → (now < na)%Z →
  (∀ t, ∃ cert raw, SignCertificate ca t (PublicKey x) serial = Ret cert ∧ EncodeCertificates cert = Ret raw) →
  ∃ raw, processCertificateSigningRequest
    (NewCertificateSigningController hcp signer (signingTTL scale)) name (CurrentCA (Some ca)) now serial s
    = Ret (Some (signed_status name raw), None).
Proof.
  intros Hs Hl Ha Hf Hc Hp Hv Hsig Hca Hz Hn Hsign. unfold processCertificateSigningRequest.
  rewrite Hl, Ha, Hf, Hc. simpl. rewrite (vr_signer _ _ _ _ Hv), str_eqb_refl, Hp. simpl.
  rewrite (proj2 (Validator_spec _ _ _ _ Hs) Hv). unfold sign. rewrite Hsig, Hca.
  unfold boundaries, time_before. rewrite (proj2 (Z.ltb_lt _ _) Hz), (proj2 (Z.ltb_lt _ _) Hn). simpl.
  destruct (valid_usages _ _ _ _ Hv) as (k & -> & _). simpl.
  match goal with |- context [SignCertificate ca ?t _ _] =>
    destruct (Hsign t) as (cert & raw & -> & He) end.
  simpl. rewrite He. by exists raw.
Qed.

(** The "fulfilled" event is recorded exactly when applying the certificate
failed. *)
Lemma fulfilled_event_on_failure c key ca now serial s evs r s' :
  syncSigning c key ca now serial s = (evs, r, s') →
  (∃ ev, ev ∈ evs ∧ reason ev = "CertificateSigningRequestFulfilled") → ∃ e, r = Throw e.
Proof.
  unfold syncSigning. intros E (ev & Hev & Hr). repeat case_match; simplify_eq; eauto;
    elem_cases; done.
Qed.

End Signing.

(** *** Conditions of the control plane *)

(** The condition applied is the one [meta.SetStatusCondition] would store, up
to the observed generation: its transition time moves with its status only. *)
Lemma merged_condition_set now cs new :
  cLastTransitionTime new = zero_time →
  let c := merged_condition now cs new in
  Meta.FindStatusCondition (Meta.SetStatusCondition now cs new) (cType new) =
    Some (mkCondition (cType c) (cStatus c) (cObservedGeneration new) (cLastTransitionTime c)
            (cReason c) (cMessage c)).
Proof.
  intros Hz c. subst c. rewrite Meta.FindStatusCondition_Set, str_eqb_refl. unfold merged_condition.
  destruct (Meta.FindStatusCondition cs (cType new)) as [e|] eqn:E; simpl.
  - unfold Meta.update_condition. rewrite Hz. repeat case_bool_decide; simpl; try done; congruence.
  - rewrite Hz. by rewrite bool_decide_eq_true_2.
Qed.

(** *** A cluster in memory *)

Module Samples.

(** A history of requests, newest first, whose resource versions are their
positions, with the approvals and secrets stored. *)
Record Cluster : Type := mkCluster {
  history : list CSR; granted : gset (string * string); stored : list Secret;
}.

Definition at_version (v : Z) (c : CSR) : CSR :=
  mkCSR (csrName c) v (csrSignerName c) (csrRequest c) (csrUsages c) (csrExpirationSeconds c)
    (csrConditions c) (csrCertificate c).

Fixpoint number (l : list CSR) : list CSR :=
  match l with [] => [] | c :: l => at_version (Z.of_nat (length l)) c :: number l end.

Definition newest (s : Cluster) (n : string) : option CSR :=
  List.find (λ c, str_eqb (csrName c) n) (number (history s)).

Definition with_status (c : CSR) (conds : list CSRCondition) (cert : option string) : CSR :=
  mkCSR (csrName c) (csrResourceVersion c) (csrSignerName c) (csrRequest c) (csrUsages c)
    (csrExpirationSeconds c) conds cert.

Definition push (c : CSR) (s : Cluster) : Cluster := mkCluster (c :: history s) (granted s) (stored s).

#[local] Instance Cluster_server : CSRServer Cluster := {|
  listCSR n s := match newest s n with Some c => Ret c | None => Throw NotFound end;
  listCSRA ns n s := if decide ((ns, n) ∈ granted s) then Ret () else Throw NotFound;
  listSecret ns n s :=
    match List.find (λ x, str_eqb (sNamespace x) ns && str_eqb (sName x) n) (stored s) with
    | Some x => Ret x | None => Throw NotFound end;
  UpdateApproval n c s :=
    match newest s n with
    | Some cur =>
        if (csrResourceVersion cur =? csrResourceVersion c)%Z
        then (Ret (), push (with_status cur (csrConditions c) (csrCertificate cur)) s)
        else (Throw Conflict, s)
    | None => (Throw NotFound, s)
    end;
  ApplyCSRStatus _ cfg s :=
    match newest s (saName cfg) with
    | Some cur =>
        (Ret (), push (with_status cur (csrConditions cur ++ saConditions cfg)
                   match saCertificate cfg with Some r => Some r | None => csrCertificate cur end) s)
    | None => (Throw NotFound, s)
    end;
|}.

Lemma number_version l c : c ∈ number l → (0 ≤ csrResourceVersion c < Z.of_nat (length l))%Z.
Proof.
  induction l as [|x l IH]; simpl; [by intros ?%not_elem_of_nil|].
  intros [->|Hc]%elem_of_cons; simpl; [lia|]. apply IH in Hc. lia.
Qed.

Lemma number_unique l c c' :
  c ∈ number l → c' ∈ number l → csrResourceVersion c = csrResourceVersion c' → c = c'.
Proof.
  induction l as [|x l IH]; simpl; [by intros ?%not_elem_of_nil|].
  intros [->|Hc]%elem_of_cons [->|Hc']%elem_of_cons E; [done| | |auto]; simpl in E.
  - apply number_version in Hc'. lia.
  - apply number_version in Hc. lia.
Qed.

Lemma newest_version s n c : newest s n = Some c → c ∈ number (history s) ∧ csrName c = n.
Proof. intros [Hc Hn]%find_Some_elem. by apply str_eqb_eq in Hn. Qed.

#[local] Instance Cluster_laws : CSRServerLaws Cluster.
Proof.
  refine {| versions := λ s, number (history s); approvals := granted; secrets := stored;
            current := newest |}.
  - intros. by apply newest_version.
  - intros s c c' ? ? _ ?. by eapply number_unique.
  - intros n s c. simpl. destruct (newest s n) eqn:E; [|done]. intros; simplify_eq. by apply newest_version.
  - intros ns n s. simpl. by case_decide.
  - intros ns n s x. simpl. destruct (List.find _ _) eqn:E; [|done]. intros; simplify_eq.
    apply find_Some_elem in E as [? [? ?]%andb_prop]. split_and!; [done|by apply str_eqb_eq..].
  - intros n c s r s'. simpl. destruct (newest s n) as [cur|] eqn:E; [|intros; simplify_eq; auto].
    destruct (Z.eqb_spec (csrResourceVersion cur) (csrResourceVersion c)); intros; simplify_eq; auto.
    split_and!; [done..|]. right. eexists cur, _. split_and!; [done|done|reflexivity|done..].
  - intros m cfg s r s'. simpl. destruct (newest s (saName cfg)) as [cur|] eqn:E;
      intros; simplify_eq; auto.
    split_and!; [done..|]. right. eexists cur, _. split_and!; [done|reflexivity|done| |].
    + simpl. intros k. rewrite elem_of_app. done.
    + simpl. destruct (saCertificate cfg); auto.
Defined.

#[local] Instance toy_crypto : Crypto := {|
  pem_decode s := Some ("CERTIFICATE REQUEST", s);
  ParseCertificateRequest s := Ret (mkRequest (mkName ("system:customer-break-glass:" +:+ s) "") [] [] [] [] 1 "key");
  CheckSignature _ := None;
  GetCAFromBytes crt key := if str_eqb crt "" then Throw (OtherError "no certificate") else Ret (mkCA crt [10 ^ 20]%Z);
  SignCertificate ca t _ _ := Ret (caID ca +:+ ":" +:+ CommonName (tSubject t));
  EncodeCertificates c := Ret c;
|}.

Definition hcp0 : HostedControlPlane := mkHCP "clusters-a" "a" "uid".
Definition csr0 : CSR :=
  mkCSR "alice" 0 (SignerNameForHCP hcp0 CustomerBreakGlassSigner) "alice" ["client auth"; "digital signature"]
    (Some 3600%Z) [] None.
Definition secret0 : Secret :=
  mkSecret "clusters-a" CustomerSystemAdminSigner [] ∅ {["tls.crt" := "ca1"; "tls.key" := "k"]}.
Definition s0 : Cluster := mkCluster [csr0] {[("clusters-a", "alice")]} [secret0].
Definition day : Time := (24 * hour)%Z.
Definition s1 : Cluster :=
  (syncApproval (NewCertificateSigningRequestApprovalController hcp0 CustomerBreakGlassSigner) "alice" day s0).2.
Definition ca1 : Loaded := (syncLoading (hcpNamespace hcp0) CustomerSystemAdminSigner s1 None).2.
Definition s2 : Cluster :=
  (syncSigning (NewCertificateSigningController hcp0 CustomerBreakGlassSigner (signingTTL day)) "alice"
     (CurrentCA ca1) day 7 s1).2.
Definition cas1 : gmap string CA := partial_alter (λ _, ca1) CustomerBreakGlassSigner ∅.

Lemma certificates_authorised_witness :
  authorised hcp0 day s2 "alice" "ca1:system:customer-break-glass:alice".
Proof.
  assert (Hin : (CustomerBreakGlassSigner, CustomerSystemAdminSigner) ∈ breakGlassSigners) by left.
  refine (certificates_authorised hcp0 day (s0, ∅) (s2, cas1) (default csr0 (newest s2 "alice")) _ _ _ _ _ _).
  - split; [done|]. intros c. simpl. intros [->|?%not_elem_of_nil]%elem_of_cons; done.
  - eapply rtc_l; [eapply (step_approval hcp0 day _ _ "alice" day s0 ∅ _ _ s1 Hin); vm_compute; reflexivity|].
    eapply rtc_l; [eapply (step_loading hcp0 day _ _ s1 ∅ _ _ ca1 Hin); vm_compute; reflexivity|].
    apply rtc_once. eapply (step_signing hcp0 day _ _ "alice" day 7 s1 cas1 _ _ s2 Hin); vm_compute; reflexivity.
  - vm_compute. left.
  - exists CustomerBreakGlassSigner, CustomerSystemAdminSigner. split; [done|]. vm_compute. reflexivity.
  - vm_compute. reflexivity.
Defined.

End Samples.
End CertificateSigningProofs.
