(* ===== verification/HostedCluster.v ===== *)
(** The HostedCluster controller,
[hypershift-operator/controllers/hostedcluster/hostedcluster_controller.go]: the
HostedCluster as the controller reads it, its version history, the conditions
computed from the hosted control plane, and the decision whether the cluster
may be upgraded. *)
From S2P Require Import Prelude Semver Api Upsert SupportedVersion.
From Stdlib Require Import Ascii.

Module HostedClusters.
Import Semver SupportedVersion.

(** *** Data *)

(** [net.IP] in the form [To4] leaves it: an IPv4-mapped address is the IPv4
address.  [net.IPNet] with its mask. *)
Inductive IP : Type := V4 (a : Z) | V6 (a : Z).
Record IPNet : Type := mkIPNet { netIP : IP; netMask : Z }.

#[export] Instance IP_eq_dec : EqDecision IP.
Proof. solve_decision. Defined.
#[export] Instance IPNet_eq_dec : EqDecision IPNet.
Proof. solve_decision. Defined.

(** [hyperv1.ServicePublishingStrategyMapping]; the three structs are pointers. *)
Record NodePortPublishing : Type := mkNodePort { npAddress : string; npPort : Z }.
Record ServiceMapping : Type := mkService {
  svcService : string;
  svcType : string;
  svcNodePort : option NodePortPublishing;
  svcLoadBalancerHostname : option string;
  svcRouteHostname : option string;
}.

(** [hyperv1.ClusterNetworking]; [AdvertiseAddress] is [None] when the pointer
or the one to [APIServer] is nil. *)
Record Networking : Type := mkNetworking {
  netNetworkType : NetworkType;
  ClusterNetwork : list IPNet;
  ServiceNetwork : list IPNet;
  MachineNetwork : list IPNet;
  AdvertiseAddress : option string;
}.

(** [hyperv1.AWSPlatformSpec] *)
Record AWSPlatformSpec : Type := mkAWS { awsEndpointAccess : string; awsRegion : string }.

(** [configv1.UpdateHistory], [configv1.Release], [hyperv1.ClusterVersionStatus] *)
Inductive UpdateState : Type := CompletedUpdate | PartialUpdate.
Record UpdateHistory : Type := mkHistory {
  uState : UpdateState;
  uStartedTime : Time;
  uCompletionTime : option Time;
  uVersion : string;
  uImage : string;
}.
Record Release : Type := mkRelease { rImage : string; rVersion : string }.
Record ClusterVersionStatus : Type := mkVersionStatus {
  vDesired : Release;
  vHistory : list UpdateHistory;
  vObservedGeneration : Z;
}.

(** [hyperv1.UnmanagedEtcdSpec] *)
Record UnmanagedEtcd : Type := mkUnmanagedEtcd { etcdClientSecret : string; etcdEndpoint : string }.

(** [hyperv1.HostedCluster]: metadata, the parts of the spec the controller
validates and acts on, and the status.  Pointers are options;
[ovnIPv4] holds the join and transit switch subnets when every pointer on the
way to them is set, [serviceNodePortRange] likewise. *)
Record HostedCluster : Type := mkHC {
  hcNamespace : string;
  hcName : string;
  hcGeneration : Z;
  hcAnnotations : StringMap;
  hcFinalizers : list string;
  hcDeletionTimestamp : option Time;
  hcInfraID : string;
  hcPlatform : PlatformType;
  hcAWS : option AWSPlatformSpec;
  hcAzure : bool;
  hcAgentNamespace : option string;
  hcReleaseImage : string;
  hcControlPlaneRelease : option string;
  hcNetworking : Networking;
  hcServices : list ServiceMapping;
  hcEtcdUnmanaged : option UnmanagedEtcd;
  ovnIPv4 : option (string * string);
  serviceNodePortRange : option string;
  hcVersion : option ClusterVersionStatus;
  hcConditions : list Condition;
}.

(** The fields of a [hyperv1.HostedControlPlane] the status is computed from. *)
Record HostedControlPlane : Type := mkHCP {
  hcpReleaseImage : string;
  hcpControlPlaneReleaseImage : option string;
  hcpVersionStatus : option ClusterVersionStatus;
  hcpStatusReleaseImage : string;
  hcpStatusVersion : string;
  hcpLastReleaseImageTransitionTime : option Time;
  hcpConditions : list Condition;
}.

(** [func HCControlPlaneReleaseImage(hcluster) string] *)
Definition HCControlPlaneReleaseImage (hc : HostedCluster) : string :=
  match hcControlPlaneRelease hc with Some image => image | None => hcReleaseImage hc end.

(** [func HCPControlPlaneReleaseImage(hcp) string] *)
Definition HCPControlPlaneReleaseImage (hcp : HostedControlPlane) : string :=
  match hcpControlPlaneReleaseImage hcp with Some image => image | None => hcpReleaseImage hcp end.

(** *** The version history *)

Definition partial_entry (now : Time) (image : string) : UpdateHistory :=
  mkHistory PartialUpdate now None "" image.

(** [version.History[0].State = ...]: the head of the history once the rollout
is complete *)
Definition complete_entry (hcp : HostedControlPlane) (e : UpdateHistory) : UpdateHistory :=
  mkHistory CompletedUpdate (uStartedTime e)
    (match hcpLastReleaseImageTransitionTime hcp with Some t => Some t | None => uCompletionTime e end)
    (hcpStatusVersion hcp) (uImage e).

(** [if releaseImage != hcluster.Status.Version.Desired.Image { ... }]: a new
rollout puts a partial entry in front. *)
Definition start_rollout (now : Time) (hcluster : HostedCluster) (current : ClusterVersionStatus)
    : ClusterVersionStatus :=
  let releaseImage := HCControlPlaneReleaseImage hcluster in
  if negb (str_eqb releaseImage (rImage (vDesired current)))
  then mkVersionStatus (mkRelease releaseImage (rVersion (vDesired current)))
         (partial_entry now releaseImage :: vHistory current) (hcGeneration hcluster)
  else current.

(** From [if hcp == nil] on: the newest entry is completed when the control
plane runs the desired image.  An empty history cannot be indexed. *)
Definition finish_rollout (hcp : option HostedControlPlane) (version : ClusterVersionStatus)
    : go api_error ClusterVersionStatus :=
  match hcp with
  | None => Ret version
  | Some hcp =>
      let hcpRolloutComplete :=
        str_eqb (HCPControlPlaneReleaseImage hcp) (hcpStatusReleaseImage hcp) &&
        str_eqb (rImage (vDesired version)) (hcpStatusReleaseImage hcp) in
      if negb hcpRolloutComplete then Ret version else
      match vHistory version with
      | [] => Panic
      | e :: rest =>
          Ret (mkVersionStatus (vDesired version) (complete_entry hcp e :: rest) (vObservedGeneration version))
      end
  end.

(** [func computeClusterVersionStatus(clock, hcluster, hcp) *hyperv1.ClusterVersionStatus] *)
Definition computeClusterVersionStatus (now : Time) (hcluster : HostedCluster)
    (hcp : option HostedControlPlane) : go api_error ClusterVersionStatus :=
  match hcp ≫= hcpVersionStatus with
  | Some v => Ret v
  | None =>
      let releaseImage := HCControlPlaneReleaseImage hcluster in
      match hcVersion hcluster with
      | None | Some (mkVersionStatus _ [] _) =>
          Ret (mkVersionStatus (mkRelease releaseImage "") [partial_entry now releaseImage]
                 (hcGeneration hcluster))
      | Some current => finish_rollout hcp (start_rollout now hcluster current)
      end
  end.

(** *** Conditions *)

Definition HostedClusterAvailable : string := "Available".
Definition HostedClusterProgressing : string := "Progressing".
Definition HostedControlPlaneAvailable : string := "Available".
Definition UnmanagedEtcdAvailable : string := "UnmanagedEtcdAvailable".
Definition ClusterVersionUpgradeable : string := "ClusterVersionUpgradeable".
Definition WaitingForAvailableReason : string := "WaitingForAvailable".
Definition BlockedReason : string := "Blocked".
Definition StatusUnknownReason : string := "StatusUnknown".
Definition UnmanagedEtcdMisconfiguredReason : string := "UnmanagedEtcdMisconfigured".
Definition UnmanagedEtcdAsExpected : string := "UnmanagedEtcdAsExpected".

(** A condition literal without the fields left at their zero values. *)
Definition cond (t : string) (s : ConditionStatus) (reason message : string) : Condition :=
  mkCondition t s 0 zero_time reason message.

(** [func computeHostedClusterAvailability(hcluster, hcp) metav1.Condition] *)
Definition computeHostedClusterAvailability (hcluster : HostedCluster) (hcp : option HostedControlPlane)
    : Condition :=
  let '(status, reason, message) :=
    match hcp ≫= λ hcp, Meta.FindStatusCondition (hcpConditions hcp) HostedControlPlaneAvailable with
    | Some c =>
        if bool_decide (cStatus c = ConditionTrue)
        then (ConditionTrue, AsExpectedReason, "The hosted control plane is available")
        else (cStatus c, cReason c, cMessage c)
    | None =>
        let message :=
          match Meta.FindStatusCondition (hcConditions hcluster) HostedClusterProgressing with
          | Some p => if str_eqb (cReason p) BlockedReason then cMessage p
                      else "Waiting for hosted control plane to be healthy"
          | None => "Waiting for hosted control plane to be healthy"
          end in
        (ConditionFalse, WaitingForAvailableReason, message)
    end in
  mkCondition HostedClusterAvailable status (hcGeneration hcluster) zero_time reason message.

(** [func computeUnmanagedEtcdAvailability(hcluster, unmanagedEtcdTLSClientSecret) metav1.Condition]:
the secret's data, when there is a secret.  The message of the first branch
dereferences [Spec.Etcd.Unmanaged]. *)
Definition computeUnmanagedEtcdAvailability (hcluster : HostedCluster)
    (unmanagedEtcdTLSClientSecret : option StringMap) : go api_error Condition :=
  let misconfigured m := Ret (cond UnmanagedEtcdAvailable ConditionFalse UnmanagedEtcdMisconfiguredReason m) in
  match unmanagedEtcdTLSClientSecret with
  | None =>
      match hcEtcdUnmanaged hcluster with
      | None => Panic
      | Some e => misconfigured ("missing TLS client secret " +:+ etcdClientSecret e)
      end
  | Some data =>
      match hcEtcdUnmanaged hcluster with
      | None => misconfigured "etcd metadata not specified for unmanaged deployment"
      | Some e =>
          if str_eqb (etcdClientSecret e) "" || str_eqb (etcdEndpoint e) ""
          then misconfigured "etcd metadata not specified for unmanaged deployment"
          else if negb (mhas data "etcd-client.crt")
          then misconfigured ("etcd secret " +:+ etcdClientSecret e +:+ " does not have client cert")
          else if negb (mhas data "etcd-client.key")
          then misconfigured ("etcd secret " +:+ etcdClientSecret e +:+ " does not have client key")
          else if negb (mhas data "etcd-client-ca.crt")
          then misconfigured ("etcd secret " +:+ etcdClientSecret e +:+ " does not have client ca")
          else Ret (cond UnmanagedEtcdAvailable ConditionTrue UnmanagedEtcdAsExpected "")
      end
  end.

(** [strings.Join(l, "; ")] *)
Fixpoint join_semicolon (l : list string) : string :=
  match l with
  | [] => ""
  | [s] => s
  | s :: l => s +:+ "; " +:+ join_semicolon l
  end.

(** The two functions that sum up the conditions of the endpoint resources of a
cluster differ in their reasons and in one message; [items] are the conditions
of each resource. *)
Definition endpoint_condition (errorReason successReason notFound : string)
    (items : list (list Condition)) (conditionType : string) : Condition :=
  let conditions := omap (λ cs, Meta.FindStatusCondition cs conditionType) items in
  let messages := cMessage <$> List.filter (λ c, bool_decide (cStatus c = ConditionFalse)) conditions in
  if (length conditions =? 0)%nat then cond conditionType ConditionUnknown StatusUnknownReason notFound
  else if (0 <? length messages)%nat
  then cond conditionType ConditionFalse errorReason (join_semicolon messages)
  else cond conditionType ConditionTrue successReason "All is well".

(** [func computeAWSEndpointServiceCondition(awsEndpointServiceList, conditionType) metav1.Condition] *)
Definition computeAWSEndpointServiceCondition : list (list Condition) → string → Condition :=
  endpoint_condition "AWSError" "AWSSuccess" "AWSEndpointService conditions not found".

(** [func computeGCPPSCCondition(gcpPSCList, conditionType) metav1.Condition] *)
Definition computeGCPPSCCondition : list (list Condition) → string → Condition :=
  endpoint_condition "GCPError" "GCPSuccess" "GCPPrivateServiceConnect conditions not found".

(** *** Upgrades *)

Definition ForceUpgradeToAnnotation : string := "hypershift.openshift.io/force-upgrade-to".
Definition SkipReleaseImageValidation : string := "hypershift.openshift.io/skip-release-image-validation".

(** An error of [semver.Parse] as an error of the controller. *)
Definition parse_version (s : string) (err : string) : go api_error Version :=
  match Parse s with
  | Ret v => Ret v
  | Throw _ => Throw (OtherError err)
  | Panic => Panic
  end.

(** [func isUpgrading(hcluster, releaseImage) (bool, string, error)]: the pair
when there is no error; every error comes with [true].  [releaseVersion] is
[releaseImage.Version()]. *)
Definition isUpgrading (hcluster : HostedCluster) (releaseVersion : string)
    : go api_error (bool * string) :=
  match hcVersion hcluster with
  | None => Ret (false, "")
  | Some version =>
      if str_eqb (rImage (vDesired version)) (HCControlPlaneReleaseImage hcluster)
      then Ret (false, "") else
      match Meta.FindStatusCondition (hcConditions hcluster) ClusterVersionUpgradeable with
      | None => Ret (true, "")
      | Some upgradeable =>
          if bool_decide (cStatus upgradeable = ConditionTrue) then Ret (true, "") else
          match hcAnnotations hcluster !! ForceUpgradeToAnnotation with
          | Some upgradeImage =>
              if negb (str_eqb upgradeImage (HCControlPlaneReleaseImage hcluster))
              then Throw (OtherError "force upgrade annotation is present but does not match desired release image")
              else Ret (true, "upgrade is forced by annotation")
          | None =>
              match hcControlPlaneRelease hcluster with
              | Some _ => Ret (true, "upgrade is forced by ControlPlaneRelease being set")
              | None =>
                  currentTargetVersion ← parse_version (rVersion (vDesired version))
                    "failed to parse the current target as a Semantic Version";
                  requestedVersion ← parse_version releaseVersion "failed to parse release image version";
                  if (Major requestedVersion =? Major currentTargetVersion)%Z
                     && (Minor requestedVersion =? Minor currentTargetVersion)%Z
                  then Ret (true, "")
                  else Throw (OtherError "cluster version is not upgradeable")
              end
          end
      end
  end.

(** The conditions that stop a rollout while they are false. *)
Definition blocking_conditions : list string :=
  ["SupportedHostedCluster"; "ValidConfiguration"; "ValidReleaseImage"; "ReconciliationActive"].

(** The loop of [isProgressing] over the conditions. *)
Fixpoint check_conditions (hc : HostedCluster) (releaseVersion : string) (conditions : list Condition)
    : go api_error unit :=
  match conditions with
  | [] => Ret ()
  | c :: conditions =>
      if bool_decide (cType c ∈ blocking_conditions) then
        if bool_decide (cStatus c = ConditionFalse)
        then Throw (OtherError (cType c +:+ " condition is false: " +:+ cMessage c))
        else check_conditions hc releaseVersion conditions
      else if str_eqb (cType c) ClusterVersionUpgradeable then
        match isUpgrading hc releaseVersion with
        | Throw err => Throw (Wrapped "ClusterVersionUpgradeable condition is false" err)
        | Panic => Panic
        | Ret _ => check_conditions hc releaseVersion conditions
        end
      else check_conditions hc releaseVersion conditions
  end.

(** [func isProgressing(hc, releaseImage, refWithDigest) (bool, error)] *)
Definition isProgressing (hc : HostedCluster) (releaseVersion : string)
    (refWithDigest : go api_error string) : go api_error bool :=
  _ ← check_conditions hc releaseVersion (hcConditions hc);
  withDigest ← refWithDigest;
  match hcVersion hc with
  | None => Ret true
  | Some v => Ret (negb (str_eqb (hcReleaseImage hc) (rImage (vDesired v)))
                   && negb (str_eqb withDigest (rImage (vDesired v))))
  end.

Section Release.
(** [GetPullSecretBytes] and [releaseProvider.Lookup] with the version of the
release it finds. *)
Context (GetPullSecretBytes : HostedCluster → go api_error string)
  (LookupVersion : string → string → go api_error string).

(** [func (r *HostedClusterReconciler) lookupReleaseImage] *)
Definition lookupReleaseImage (hc : HostedCluster) : go api_error string :=
  pullSecretBytes ← GetPullSecretBytes hc;
  LookupVersion (HCControlPlaneReleaseImage hc) pullSecretBytes.

Definition wrap_err {A} (msg : string) (m : go api_error A) : go api_error A :=
  match m with Throw err => Throw (Wrapped msg err) | m => m end.

(** [func (r *HostedClusterReconciler) validateReleaseImage(ctx, hc, releaseProvider) error] *)
Definition validateReleaseImage (hc : HostedCluster) : go api_error unit :=
  if mhas (hcAnnotations hc) SkipReleaseImageValidation then Ret () else
  pullSecretBytes ← GetPullSecretBytes hc;
  releaseVersion ← wrap_err "failed to lookup release image" (lookupReleaseImage hc);
  version ← parse_version releaseVersion "invalid release version";
  currentVersion ←
    match hcVersion hc with
    | Some v =>
        if negb (str_eqb (rImage (vDesired v)) (HCControlPlaneReleaseImage hc)) then
          current ← wrap_err "failed to lookup release image" (LookupVersion (rImage (vDesired v)) pullSecretBytes);
          version ← parse_version current "invalid release version";
          Ret (Some version)
        else Ret None
    | None => Ret None
    end;
  let minSupportedVersion :=
    GetMinSupportedVersion (mhas (hcAnnotations hc) SkipReleaseImageValidation) (hcPlatform hc) in
  match IsValidReleaseVersion version currentVersion LatestSupportedVersion minSupportedVersion
          (netNetworkType (hcNetworking hc)) (hcPlatform hc) with
  | Ret _ => Ret ()
  | Throw _ => Throw (OtherError "the release version is not valid")
  | Panic => Panic
  end.
End Release.

(** *** The outer reconcile *)

Definition ReconciliationSucceeded : string := "ReconciliationSucceeded".

(** What [Reconcile] makes of the conditions after the inner reconcile ended
with error [err]: the new list when the status is updated.  [old] points into
the list, and its transition time is overwritten before the comparison. *)
Definition reconciled_conditions (now : Time) (generation : Z) (err : option string)
    (conditions : list Condition) : option (list Condition) :=
  let condition :=
    match err with
    | None => mkCondition ReconciliationSucceeded ConditionTrue generation now "ReconciliatonSucceeded"
                "Reconciliation completed successfully"
    | Some e => mkCondition ReconciliationSucceeded ConditionFalse generation now "ReconciliationError" e
    end in
  let touch c := if str_eqb (cType c) ReconciliationSucceeded
                 then mkCondition (cType c) (cStatus c) (cObservedGeneration c) now (cReason c) (cMessage c)
                 else c in
  match Meta.FindStatusCondition conditions ReconciliationSucceeded with
  | Some old =>
      if bool_decide (touch old = condition) then None
      else Some (Meta.SetStatusCondition now
                   ((fix first cs := match cs with
                     | [] => []
                     | c :: cs => if str_eqb (cType c) ReconciliationSucceeded then touch c :: cs
                                  else c :: first cs
                     end) conditions) condition)
  | None => Some (Meta.SetStatusCondition now conditions condition)
  end.

End HostedClusters.
