(* ===== verification/HostedClusterProofs.v ===== *)
(** Properties of the HostedCluster status: the version history stays well
formed over every sequence of reconciliations, an update is recorded as
complete only when the control plane rolled it out, upgrades are gated by what
the cluster version operator reports, and an accepted release lies in the
supported window. *)
From S2P Require Import Prelude Semver Api Upsert SupportedVersion HostedCluster.

Module HostedClusterProofs.
Import Semver SupportedVersion HostedClusters.

(** *** The version history *)

(** No two neighbours have the same image. *)
Fixpoint adjacent_distinct (l : list UpdateHistory) : Prop :=
  match l with
  | e :: ((e' :: _) as l') => uImage e ≠ uImage e' ∧ adjacent_distinct l'
  | _ => True
  end.

(** A well-formed version status: the newest entry is for the desired image,
and an entry is added only when the image changes. *)
Record wf_version (v : ClusterVersionStatus) : Prop := {
  wf_head : uImage <$> head (vHistory v) = Some (rImage (vDesired v));
  wf_adjacent : adjacent_distinct (vHistory v);
}.

Lemma adjacent_head e e' rest :
  uImage e' = uImage e → adjacent_distinct (e :: rest) → adjacent_distinct (e' :: rest).
Proof. intros E. destruct rest; [done|]. simpl. by rewrite E. Qed.

(** The control plane reports that it runs the image it was asked to run, and
that this is [image]. *)
Definition rolled_out (hcp : option HostedControlPlane) (image : string) : Prop :=
  ∃ p, hcp = Some p ∧ HCPControlPlaneReleaseImage p = image ∧ hcpStatusReleaseImage p = image.

(** [after] follows [before] in the history of one cluster: at most one partial
entry is put in front, at most the newest entry is completed, and that only
when its image is rolled out. *)
Definition extends (hcp : option HostedControlPlane) (before after : list UpdateHistory) : Prop :=
  ∃ e rest, after = e :: rest ∧
    (rest = before ∨ ∃ h, before = h :: rest ∧ uImage e = uImage h) ∧
    (uState e = CompletedUpdate → rolled_out hcp (uImage e) ∨ head before = Some e).

Lemma start_rollout_spec now hc v :
  wf_version v →
  let v' := start_rollout now hc v in
  wf_version v' ∧ rImage (vDesired v') = HCControlPlaneReleaseImage hc ∧
  ∃ e rest, vHistory v' = e :: rest ∧
    (vHistory v = e :: rest ∨ (rest = vHistory v ∧ uState e = PartialUpdate)).
Proof.
  intros [Hh Ha]. unfold start_rollout, str_eqb. case_bool_decide as E; simpl.
  - destruct (vHistory v) as [|e rest] eqn:Hv; [done|].
    split_and!; [by constructor; rewrite Hv|done|]. exists e, rest. auto.
  - split_and!; [|done|eauto 10]. constructor; [done|]. simpl.
    destruct (vHistory v) as [|e rest]; [done|]. simpl in Hh. injection Hh as Hh. split; [congruence|done].
Qed.

Lemma finish_rollout_spec hcp v e rest :
  wf_version v → vHistory v = e :: rest →
  ∃ v' e', finish_rollout hcp v = Ret v' ∧ wf_version v' ∧ vDesired v' = vDesired v ∧
    vHistory v' = e' :: rest ∧ uImage e' = uImage e ∧
    (e' = e ∨ rolled_out hcp (uImage e')).
Proof.
  intros Hwf He. pose proof Hwf as [Hh Ha]. rewrite He in Hh, Ha. simpl in Hh. injection Hh as Hh.
  assert (Hsame : ∃ v' e', @Ret api_error _ v = Ret v' ∧ wf_version v' ∧ vDesired v' = vDesired v ∧
    vHistory v' = e' :: rest ∧ uImage e' = uImage e ∧ (e' = e ∨ rolled_out hcp (uImage e')))
    by (exists v, e; eauto 10).
  unfold finish_rollout. destruct hcp as [p|]; [|done].
  destruct (str_eqb (HCPControlPlaneReleaseImage p) _) eqn:E1; [|done].
  destruct (str_eqb (rImage (vDesired v)) _) eqn:E2; [|done].
  apply str_eqb_eq in E1, E2. rewrite He. simpl. eexists _, (complete_entry p e).
  split_and!; [done| |done|done|done|].
  - constructor; simpl; [by rewrite Hh|]. by eapply adjacent_head.
  - right. exists p. simpl. split_and!; [done|congruence..].
Qed.

(** One reconciliation of a cluster whose history is empty or well formed. *)
Lemma compute_spec now hc hcp before :
  hcp ≫= hcpVersionStatus = None →
  match hcVersion hc with Some v => before = vHistory v ∧ (before = [] ∨ wf_version v) | None => before = [] end →
  ∃ v, computeClusterVersionStatus now hc hcp = Ret v ∧ wf_version v ∧
    rImage (vDesired v) = HCControlPlaneReleaseImage hc ∧ extends hcp before (vHistory v).
Proof.
  intros Hvs Hb. unfold computeClusterVersionStatus. rewrite Hvs.
  assert (Hnew : before = [] → ∃ v, @Ret api_error _ (mkVersionStatus
      (mkRelease (HCControlPlaneReleaseImage hc) "") [partial_entry now (HCControlPlaneReleaseImage hc)]
      (hcGeneration hc)) = Ret v ∧ wf_version v ∧
    rImage (vDesired v) = HCControlPlaneReleaseImage hc ∧ extends hcp before (vHistory v)).
  { intros ->. eexists. split_and!; [done|by constructor|done|]. eexists _, _.
    split_and!; [done|by left|done]. }
  destruct (hcVersion hc) as [[d [|h t] g]|] eqn:Hv; [by apply Hnew; destruct Hb| |by apply Hnew].
  destruct Hb as [-> [?|Hwf]]; [done|].
  destruct (start_rollout_spec now hc _ Hwf) as (Hwf1 & Hd & e & rest & He & Hst).
  destruct (finish_rollout_spec hcp _ e rest Hwf1 He) as (v & e' & -> & Hwf2 & Hd2 & He2 & Hi & Hc).
  exists v. split_and!; [done|done|congruence|]. exists e', rest. split_and!; [done| |].
  - destruct Hst as [Hst|[-> _]]; [right; eauto|by left].
  - intros Hcomp. destruct Hc as [->|]; [right|by left].
    destruct Hst as [Hst|[_ Hp]]; [by rewrite Hst|congruence].
Qed.

(** The version status the control plane reports, if it does, has a history that is
empty or well formed. *)
Definition reports_well (hcp : option HostedControlPlane) : Prop :=
  ∀ v, hcp ≫= hcpVersionStatus = Some v → vHistory v = [] ∨ wf_version v.

(** Any sequence of reconciliations from a cluster without a status, in which the
control plane may be missing, may report a status of its own or not, and may
change between the two; the control plane of the last one and the status it
leaves. *)
Inductive recorded_history : option HostedControlPlane → ClusterVersionStatus → Prop :=
  | recorded_first now hc hcp v :
      hcVersion hc = None → reports_well hcp →
      computeClusterVersionStatus now hc hcp = Ret v → recorded_history hcp v
  | recorded_next now hc hcp0 hcp v v' :
      recorded_history hcp0 v → hcVersion hc = Some v → reports_well hcp →
      computeClusterVersionStatus now hc hcp = Ret v' → recorded_history hcp v'.

(** One step of a sequence. *)
Lemma compute_step now hc hcp v :
  reports_well hcp →
  match hcVersion hc with Some v0 => vHistory v0 = [] ∨ wf_version v0 | None => True end →
  computeClusterVersionStatus now hc hcp = Ret v →
  (match hcp ≫= hcpVersionStatus with
   | Some reported => v = reported
   | None => wf_version v ∧ rImage (vDesired v) = HCControlPlaneReleaseImage hc
   end) ∧ (vHistory v = [] ∨ wf_version v).
Proof.
  intros Hr Hprev E. destruct (hcp ≫= hcpVersionStatus) as [reported|] eqn:Hvs.
  - assert (v = reported) as -> by (unfold computeClusterVersionStatus in E; rewrite Hvs in E; congruence).
    split; [done|]. by apply Hr.
  - destruct (compute_spec now hc hcp (match hcVersion hc with Some v0 => vHistory v0 | None => [] end) Hvs)
      as (v' & E' & Hwf & Hd & _); [by destruct (hcVersion hc)|].
    assert (v' = v) as -> by congruence. auto.
Qed.

(** C24: The version status of a HostedCluster stays well formed.  After every
sequence of reconciliations, with control planes that report a version status, as
current ones do, and others that do not: the status is the reported one, verbatim,
when the last control plane reports one; otherwise its history is not empty, its
newest entry is for the desired image, and neighbouring entries are for different
images, so that no rollout is recorded twice.  Reported histories are assumed to
be empty or of that form, and the status then always is. *)
Theorem version_history_well_formed hcp v :
  recorded_history hcp v →
  match hcp ≫= hcpVersionStatus with Some reported => v = reported | None => wf_version v end ∧
  (vHistory v = [] ∨ wf_version v).
Proof.
  induction 1 as [now hc hcp v Hv Hr E|now hc hcp0 hcp v v' _ [_ IH] Hv Hr E];
    (apply compute_step in E as [Hm ?]; [|done|by rewrite Hv]); (split; [|done]);
    destruct (hcp ≫= hcpVersionStatus); tauto.
Qed.

(** *** Upgrades *)

Section Upgrades.
Variables (hc : HostedCluster) (releaseVersion : string) (v : ClusterVersionStatus) (c : Condition).
Hypothesis (Hv : hcVersion hc = Some v)
  (Hc : Meta.FindStatusCondition (hcConditions hc) ClusterVersionUpgradeable = Some c)
  (Hup : cStatus c ≠ ConditionTrue)
  (Himage : rImage (vDesired v) ≠ HCControlPlaneReleaseImage hc).

(** While the cluster version operator does not report the cluster as
upgradeable, an upgrade goes ahead only when it is forced or stays within the
minor version of the current target. *)
Lemma isUpgrading_gated b m :
  isUpgrading hc releaseVersion = Ret (b, m) →
  b = true ∧
  (hcAnnotations hc !! ForceUpgradeToAnnotation = Some (HCControlPlaneReleaseImage hc) ∨
   (hcAnnotations hc !! ForceUpgradeToAnnotation = None ∧
    (is_Some (hcControlPlaneRelease hc) ∨
     ∃ cur req, Parse (rVersion (vDesired v)) = Ret cur ∧ Parse releaseVersion = Ret req ∧
       Major req = Major cur ∧ Minor req = Minor cur))).
Proof.
  unfold isUpgrading. rewrite Hv, Hc. rewrite (proj2 (str_eqb_neq _ _) Himage).
  rewrite bool_decide_eq_false_2 by done. intros E.
  destruct (hcAnnotations hc !! _) as [image|] eqn:Ha.
  { destruct (str_eqb image _) eqn:Ei; [|done]. apply str_eqb_eq in Ei as ->. simplify_eq/=. auto. }
  destruct (hcControlPlaneRelease hc) eqn:Hr; [simplify_eq; eauto|].
  apply go_bind_Ret in E as (cur & Hcur & E). apply go_bind_Ret in E as (req & Hreq & E).
  unfold parse_version in Hcur, Hreq.
  destruct (Parse (rVersion (vDesired v))); [|done..]. destruct (Parse releaseVersion); [|done..].
  simplify_eq. destruct (_ && _) eqn:Em in E; [|done]. apply andb_prop in Em as [?%Z.eqb_eq ?%Z.eqb_eq].
  simplify_eq. split; [done|]. right. eauto 10.
Qed.

End Upgrades.

Lemma check_conditions_upgradeable hc releaseVersion cs c :
  check_conditions hc releaseVersion cs = Ret () →
  Meta.FindStatusCondition cs ClusterVersionUpgradeable = Some c →
  ∃ r, isUpgrading hc releaseVersion = Ret r.
Proof.
  induction cs as [|c' cs IH]; [done|]. simpl. intros E Hf.
  destruct (str_eqb (cType c') ClusterVersionUpgradeable) eqn:Et.
  - apply str_eqb_eq in Et. rewrite Et in E. rewrite bool_decide_eq_false_2 in E by set_solver.
    destruct (isUpgrading _ _); naive_solver.
  - destruct (bool_decide (cType c' ∈ _)); [destruct (bool_decide _); [done|]|]; auto.
Qed.

Lemma check_conditions_blocking hc releaseVersion cs :
  check_conditions hc releaseVersion cs = Ret () →
  ∀ c, c ∈ cs → cType c ∈ blocking_conditions → cStatus c ≠ ConditionFalse.
Proof.
  induction cs as [|c' cs IH]; [intros _ c ?%not_elem_of_nil; done|]. simpl. intros E c.
  rewrite elem_of_cons. intros [->|Hc] Hb.
  - rewrite bool_decide_eq_true_2 in E by done. by case_bool_decide.
  - repeat case_match; naive_solver.
Qed.

(** C21: A rollout that the cluster version operator does not allow is not
started silently.  When [isProgressing] reports that the rollout may progress,
none of the conditions that block it is false, and if the cluster is reported
as not upgradeable and its image changes, then the upgrade is forced by an
annotation that names the very image, or by a separate control plane release,
or it stays within the minor version of the current target. *)
Theorem progress_gated hc releaseVersion refWithDigest v c :
  isProgressing hc releaseVersion refWithDigest = Ret true →
  hcVersion hc = Some v →
  Meta.FindStatusCondition (hcConditions hc) ClusterVersionUpgradeable = Some c →
  cStatus c ≠ ConditionTrue → rImage (vDesired v) ≠ HCControlPlaneReleaseImage hc →
  (∀ k, k ∈ hcConditions hc → cType k ∈ blocking_conditions → cStatus k ≠ ConditionFalse) ∧
  (hcAnnotations hc !! ForceUpgradeToAnnotation = Some (HCControlPlaneReleaseImage hc) ∨
   is_Some (hcControlPlaneRelease hc) ∨
   ∃ cur req, Parse (rVersion (vDesired v)) = Ret cur ∧ Parse releaseVersion = Ret req ∧
     Major req = Major cur ∧ Minor req = Minor cur).
Proof.
  intros E Hv Hc Hup Himage. apply go_bind_Ret in E as ([] & Hk & _).
  split; [by eapply check_conditions_blocking|].
  destruct (check_conditions_upgradeable _ _ _ _ Hk Hc) as ([b m] & Hi).
  apply (isUpgrading_gated hc releaseVersion v c) in Hi as [_ [?|[_ [?|?]]]]; auto.
Qed.

(** *** Releases *)

(** A release the controller accepts is accepted by the version window, against
the version of the image it runs now when the image changes. *)
Lemma validateReleaseImage_accepted GetPullSecretBytes LookupVersion hc :
  mhas (hcAnnotations hc) SkipReleaseImageValidation = false →
  validateReleaseImage GetPullSecretBytes LookupVersion hc = Ret () →
  ∃ secret s version current,
    GetPullSecretBytes hc = Ret secret ∧ LookupVersion (HCControlPlaneReleaseImage hc) secret = Ret s ∧
    Parse s = Ret version ∧
    accepted version current LatestSupportedVersion
      (GetMinSupportedVersion false (hcPlatform hc)) (netNetworkType (hcNetworking hc)) (hcPlatform hc) ∧
    (∀ v, hcVersion hc = Some v → rImage (vDesired v) ≠ HCControlPlaneReleaseImage hc →
       ∃ s' cur, LookupVersion (rImage (vDesired v)) secret = Ret s' ∧ Parse s' = Ret cur ∧ current = Some cur).
Proof.
  unfold validateReleaseImage. intros -> E.
  apply go_bind_Ret in E as (secret & Hs & E). apply go_bind_Ret in E as (s & Hl & E).
  apply go_bind_Ret in E as (version & Hp & E). apply go_bind_Ret in E as (current & Hcur & E).
  unfold lookupReleaseImage in Hl. rewrite Hs in Hl. simpl in Hl.
  destruct (LookupVersion (HCControlPlaneReleaseImage hc) secret) eqn:Hlv; [|done..]. simpl in Hl. simplify_eq.
  unfold parse_version in Hp. destruct (Parse s) eqn:Hps; [|done..]. simplify_eq.
  destruct (IsValidReleaseVersion _ _ _ _ _ _) as [[]| |] eqn:Hva; [|done..].
  apply IsValid_accepted in Hva.
  exists secret, s, version, current. split_and!; [done..|].
  intros v Hv Hne. rewrite Hv, (proj2 (str_eqb_neq _ _) Hne) in Hcur. simpl in Hcur.
  apply go_bind_Ret in Hcur as (s' & Hl' & Hcur). apply go_bind_Ret in Hcur as (cur & Hp' & Hcur).
  destruct (LookupVersion (rImage (vDesired v)) secret); [|done..]. simpl in Hl'. simplify_eq.
  unfold parse_version in Hp'. destruct (Parse s') eqn:Hps'; [|done..]. simplify_eq. by exists s', cur.
Qed.

(** *** Conditions *)

(** The condition of a set of endpoint resources is unknown when none of them
reports it, false when one reports false, and true otherwise. *)
Lemma endpoint_condition_status er sr nf items t :
  let found := omap (λ cs, Meta.FindStatusCondition cs t) items in
  cStatus (endpoint_condition er sr nf items t) =
    if bool_decide (found = []) then ConditionUnknown
    else if existsb (λ c, bool_decide (cStatus c = ConditionFalse)) found then ConditionFalse
    else ConditionTrue.
Proof.
  simpl. unfold endpoint_condition. set (found := omap _ items). clearbody found.
  destruct found as [|c found]; [done|]. rewrite bool_decide_eq_false_2 by done. simpl.
  assert (E : (0 <? length (cMessage <$> List.filter (λ c, bool_decide (cStatus c = ConditionFalse)) (c :: found)))%nat
    = existsb (λ c, bool_decide (cStatus c = ConditionFalse)) (c :: found)).
  { rewrite length_fmap. generalize (c :: found) as l. induction l as [|x l IH]; [done|]. simpl.
    by destruct (bool_decide _). }
  simpl in E. rewrite E. by destruct (_ || _).
Qed.

(** The HostedCluster is reported available exactly when its control plane is. *)
Lemma availability_true hc hcp :
  cStatus (computeHostedClusterAvailability hc hcp) = ConditionTrue ↔
  ∃ p c, hcp = Some p ∧ Meta.FindStatusCondition (hcpConditions p) HostedControlPlaneAvailable = Some c ∧
    cStatus c = ConditionTrue.
Proof.
  unfold computeHostedClusterAvailability. destruct hcp as [p|]; simpl; [|naive_solver].
  destruct (Meta.FindStatusCondition _ _) as [c|] eqn:E; simpl; [|naive_solver].
  case_bool_decide; simpl; naive_solver.
Qed.

(** Without the secret the unmanaged etcd check reads the etcd settings it has
not checked yet. *)
Lemma unmanaged_etcd_panics hc :
  computeUnmanagedEtcdAvailability hc None = Panic ↔ hcEtcdUnmanaged hc = None.
Proof. unfold computeUnmanagedEtcdAvailability. destruct (hcEtcdUnmanaged hc); naive_solver. Qed.

(** When only the message of a failed reconciliation changes, the condition's
transition time moves all the same. *)
Lemma message_moves_transition now t g e e' cs :
  e ≠ e' →
  Meta.FindStatusCondition cs ReconciliationSucceeded =
    Some (mkCondition ReconciliationSucceeded ConditionFalse g t "ReconciliationError" e) →
  ∃ cs', reconciled_conditions now g (Some e') cs = Some cs' ∧
    Meta.FindStatusCondition cs' ReconciliationSucceeded =
      Some (mkCondition ReconciliationSucceeded ConditionFalse g now "ReconciliationError" e').
Proof.
  intros Hne Hf. unfold reconciled_conditions. rewrite Hf. simpl.
  rewrite bool_decide_eq_false_2 by congruence. eexists. split; [done|].
  rewrite Meta.FindStatusCondition_Set. simpl.
  assert (Hfirst : Meta.FindStatusCondition
    ((fix first cs := match cs with
       | [] => []
       | c :: cs => if str_eqb (cType c) ReconciliationSucceeded
            then (if str_eqb (cType c) ReconciliationSucceeded
                  then mkCondition (cType c) (cStatus c) (cObservedGeneration c) now (cReason c) (cMessage c)
                  else c) :: cs
            else c :: first cs
       end) cs) ReconciliationSucceeded =
    Some (mkCondition ReconciliationSucceeded ConditionFalse g now "ReconciliationError" e)).
  { induction cs as [|c cs IH]; [done|]. simpl in *.
    destruct (str_eqb (cType c) _) eqn:E; simpl; rewrite E; [|auto]. by simplify_eq. }
  rewrite Hfirst. done.
Qed.

(** *** A cluster *)

Module Samples.

Definition networking0 : Networking := mkNetworking OVNKubernetes [] [] [] None.
Definition cluster (image : string) (v : option ClusterVersionStatus) (cs : list Condition) : HostedCluster :=
  mkHC "clusters" "a" 3 ∅ [] None "a-infra" NonePlatform None false None image None networking0 [] None
    None None v cs.
Definition control_plane (image : string) : HostedControlPlane :=
  mkHCP image None None image "4.17.3" (Some 9%Z) [].

Definition v1 : ClusterVersionStatus := mkVersionStatus (mkRelease "img1" "") [partial_entry 5 "img1"] 3.
Definition v2 : ClusterVersionStatus :=
  mkVersionStatus (mkRelease "img1" "") [mkHistory CompletedUpdate 5 (Some 9%Z) "4.17.3" "img1"] 3.
Definition v3 : ClusterVersionStatus :=
  mkVersionStatus (mkRelease "img2" "")
    [partial_entry 20 "img2"; mkHistory CompletedUpdate 5 (Some 9%Z) "4.17.3" "img1"] 3.

Definition v4 : ClusterVersionStatus :=
  mkVersionStatus (mkRelease "img3" "")
    [partial_entry 30 "img3"; partial_entry 20 "img2"; mkHistory CompletedUpdate 5 (Some 9%Z) "4.17.3" "img1"] 3.
Definition reporting : HostedControlPlane := mkHCP "img2" None (Some v3) "img2" "4.17.3" (Some 9%Z) [].

Lemma v3_well : reports_well (Some reporting).
Proof. intros v [= <-]. right. constructor; [done|]. simpl. done. Qed.

(** A control plane that reports its status is followed by one that does not. *)
Lemma version_history_well_formed_witness : wf_version v4.
Proof.
  refine (proj1 (version_history_well_formed (Some (control_plane "img1")) v4 _)).
  apply (recorded_next 30 (cluster "img3" (Some v3) []) (Some reporting) (Some (control_plane "img1")) v3); [|done..].
  apply (recorded_next 20 (cluster "img2" (Some v2) []) (Some (control_plane "img1")) (Some reporting) v2);
    [|done|exact v3_well|done].
  apply (recorded_next 10 (cluster "img1" (Some v1) []) None (Some (control_plane "img1")) v1); [|done..].
  by apply (recorded_first 5 (cluster "img1" None []) None).
Defined.

Definition upgrading : HostedCluster :=
  cluster "img2" (Some (mkVersionStatus (mkRelease "img1" "4.17.3") [partial_entry 5 "img1"] 3))
    [cond ClusterVersionUpgradeable ConditionFalse "x" ""].

Lemma progress_gated_witness :
  ∃ cur req, Parse "4.17.3" = Ret cur ∧ Parse "4.17.9" = Ret req ∧ Minor req = Minor cur.
Proof.
  destruct (progress_gated upgrading "4.17.9" (Ret "img2@sha256:0")
    (mkVersionStatus (mkRelease "img1" "4.17.3") [partial_entry 5 "img1"] 3)
    (cond ClusterVersionUpgradeable ConditionFalse "x" "")) as [_ [Hf|[[x Hx]|(cur & req & H1 & H2 & H3 & H4)]]];
    [vm_compute; reflexivity|reflexivity|reflexivity|discriminate|discriminate| | |].
  - discriminate Hf.
  - discriminate Hx.
  - exists cur, req. done.
Defined.

End Samples.

End HostedClusterProofs.
