(* ===== verification/HostedClusterValidation.v ===== *)
(** Validation of a HostedCluster,
[hypershift-operator/controllers/hostedcluster/hostedcluster_controller.go]: the
networks of the cluster (one address family, disjoint ranges, an advertise
address and a node port address outside of them, ports in the configured
range), the published services and the settings of the platform; with the
helpers of [support/util/expose.go] it calls. *)
From S2P Require Import Prelude Semver Api Upsert HostedCluster.
From Stdlib Require Import Ascii.

Module HostedClusterValidation.
Import Semver HostedClusters.

(** [field.Error]: its type, path and detail. *)
Inductive ErrorType : Type := ErrorTypeInvalid | ErrorTypeForbidden | ErrorTypeRequired.
Record field_error : Type := mkFieldError { feType : ErrorType; fePath : string; feDetail : string }.

(** The parsing and printing of [net] and [netip]: [net.ParseIP], [net.IP.String],
[netip.ParseAddr], [netip.Addr.String], [net.IPNet.String], [net.ParseCIDR] (the
network) and [netip.ParsePrefix]. *)
Class NetText : Type := {
  ParseIP : string → option IP;
  IP_String : IP → string;
  ParseAddr : string → option IP;
  netip_String : IP → string;
  IPNet_String : IPNet → string;
  ParseCIDR : string → option IPNet;
  ParsePrefix : string → option IPNet;
}.

(** *** Networks *)

(** [func (n *IPNet) Contains(ip IP) bool] and, on addresses of the form kept
here, [netip.Prefix.Contains] *)
Definition Contains (n : IPNet) (ip : IP) : bool :=
  match netIP n, ip with
  | V4 a, V4 b | V6 a, V6 b => (Z.land a (netMask n) =? Z.land b (netMask n))%Z
  | _, _ => false
  end.

(** [config.DefaultAdvertiseIPv4Address], [172.20.0.1], and
[config.DefaultAdvertiseIPv6Address], [fd00::1] *)
Definition DefaultAdvertiseIPv4Address : IP := V4 (172 * 2 ^ 24 + 20 * 2 ^ 16 + 1).
Definition DefaultAdvertiseIPv6Address : IP := V6 (253 * 2 ^ 120 + 1).

Section Text.
Context `{!NetText, !MapOrder}.

(** [netip.Addr]: the zero value is not an address. *)
Definition Addr : Type := option IP.
Definition Addr_String (a : Addr) : string :=
  match a with Some ip => netip_String ip | None => "invalid IP" end.

(** [func findAdvertiseAddress(hc) (netip.Addr, *field.Error)]: the cluster
network is indexed without a look at its length. *)
Definition findAdvertiseAddress (hc : HostedCluster) : go api_error (Addr * option field_error) :=
  match AdvertiseAddress (hcNetworking hc) with
  | Some s =>
      match ParseAddr s with
      | None => Ret (None, Some (mkFieldError ErrorTypeInvalid "hc.Spec.Networking.APIServer.AdvertiseAddress"
                  ("advertise address set in HostedCluster " +:+ s +:+ " is not parseable")))
      | Some ip => Ret (Some ip, None)
      end
  | None =>
      match ClusterNetwork (hcNetworking hc) with
      | [] => Panic
      | n :: _ =>
          let s := IP_String (netIP n) in
          match ParseAddr s with
          | None => Ret (None, Some (mkFieldError ErrorTypeInvalid "hc.Spec.Networking.ClusterNetwork[0].CIDR.IP"
                      ("Cluster Network ip address " +:+ s +:+ " is not parseable")))
          | Some _ =>
              let a := if str_contains s "." then Some DefaultAdvertiseIPv4Address else None in
              let a := if str_contains s ":" then Some DefaultAdvertiseIPv6Address else a in
              Ret (a, None)
          end
      end
  end.

(** The first entry of each of the three networks, printed by [f]: the map
both checks build. *)
Definition primary_networks (f : IPNet → string) (hc : HostedCluster) : gmap string string :=
  let add path nets m := match nets with n :: _ => <[path := f n]> m | [] => m end in
  add "spec.networking.MachineNetwork" (MachineNetwork (hcNetworking hc))
    (add "spec.networking.ServiceNetwork" (ServiceNetwork (hcNetworking hc))
      (add "spec.networking.ClusterNetwork" (ClusterNetwork (hcNetworking hc)) ∅)).

(** The error of an entry that is no address. *)
Definition stack_error (e : string * string) : list field_error :=
  match ParseIP e.2 with
  | Some _ => []
  | None => [mkFieldError ErrorTypeInvalid e.1 ("error checking network stack of " +:+ e.1 +:+ " with ip " +:+ e.2)]
  end.

Definition of_stack (sep : string) (e : string * string) : bool :=
  bool_decide (is_Some (ParseIP e.2)) && str_contains e.2 sep.

(** [func validateNetworkStackAddresses(hc) field.ErrorList] *)
Definition validateNetworkStackAddresses (hc : HostedCluster) : go api_error (list field_error) :=
  adv ← findAdvertiseAddress hc;
  let '(advAddr, err) := adv in
  let networks := range (<["spec.networking.APIServerNetworking.AdvertiseAddress" := Addr_String advAddr]>
                           (primary_networks (λ n, IP_String (netIP n)) hc)) in
  let ipv4 := List.filter (of_stack ".") networks in
  let ipv6 := List.filter (of_stack ":") networks in
  Ret (option_list err ++ mjoin (stack_error <$> networks) ++
       (if (0 <? length ipv4)%nat && (0 <? length ipv6)%nat
        then [mkFieldError ErrorTypeForbidden "spec.networking"
                "declare multiple network stacks as primary network in the cluster definition is not allowed"]
        else [])).

(** The two checks of one network of [checkAdvertiseAddressOverlapping]; a
prefix that does not parse is the zero prefix, which contains nothing. *)
Definition advertise_errors (advAddr : Addr) (e : string * string) : list field_error :=
  let network := ParsePrefix e.2 in
  (match network with
   | None => [mkFieldError ErrorTypeInvalid e.1 ("error parsing field " +:+ e.1 +:+ " prefix")]
   | Some _ => []
   end) ++
  (match network, advAddr with
   | Some n, Some a =>
       if Contains n a then
         [mkFieldError ErrorTypeInvalid e.1 ("the field " +:+ e.1 +:+ " with content " +:+ e.2
            +:+ " overlaps with the defined AdvertiseAddress " +:+ Addr_String advAddr +:+ " prefix")]
       else []
   | _, _ => []
   end).

(** [func checkAdvertiseAddressOverlapping(hc) field.ErrorList] *)
Definition checkAdvertiseAddressOverlapping (hc : HostedCluster) : go api_error (list field_error) :=
  adv ← findAdvertiseAddress hc;
  match adv with
  | (_, Some fieldErr) => Ret [fieldErr]
  | (advAddr, None) => Ret (mjoin (advertise_errors advAddr <$> range (primary_networks IPNet_String hc)))
  end.

Definition APIServer : string := "APIServer".
Definition LoadBalancer : string := "LoadBalancer".
Definition NodePort : string := "NodePort".
Definition Route : string := "Route".

(** [func getNodePortIP(hcluster) (net.IP, *field.Error)]: [idx] is the index
of the head of [services]. *)
Fixpoint nodePortIP (idx : Z) (services : list ServiceMapping) : option IP * option field_error :=
  match services with
  | [] => (None, None)
  | svc :: services =>
      if str_eqb (svcService svc) APIServer && str_eqb (svcType svc) NodePort then
        match svcNodePort svc with
        | None => (None, Some (mkFieldError ErrorTypeRequired ("spec.Services[" +:+ itoa idx +:+ "].NodePort")
                                 "Nodeport can not be empty"))
        | Some np => (ParseIP (npAddress np), None)
        end
      else nodePortIP (idx + 1) services
  end.
Definition getNodePortIP (hc : HostedCluster) : option IP * option field_error := nodePortIP 0 (hcServices hc).

(** [func validateNodePortVsServiceNetwork(hc) field.ErrorList] *)
Definition validateNodePortVsServiceNetwork (hc : HostedCluster) : list field_error :=
  let '(ip, err) := getNodePortIP hc in
  option_list err ++
  match ip with
  | None => []
  | Some ip =>
      (λ cidr, mkFieldError ErrorTypeInvalid "spec.networking.ServiceNetwork"
         ("Nodeport IP is within the service network range: " +:+ IP_String ip +:+ " is within " +:+ IPNet_String cidr))
      <$> List.filter (λ cidr, Contains cidr ip) (ServiceNetwork (hcNetworking hc))
  end.

(** [func parseNodePortRange(rangeStr string) (min, max int32, err error)] *)
Definition parse_int32 (s : string) : option Z :=
  match ParseInt s with
  | Some n => if ((n <? - 2 ^ 31) || (2 ^ 31 - 1 <? n))%Z then None else Some n
  | None => None
  end.

Definition parseNodePortRange (rangeStr : string) : go api_error (Z * Z) :=
  if str_eqb rangeStr "" then Ret (30000, 32767)%Z else
  match split "-"%char rangeStr with
  | [a; b] =>
      match parse_int32 a with
      | None => Throw (OtherError ("invalid minimum port: " +:+ a))
      | Some minPort =>
          match parse_int32 b with
          | None => Throw (OtherError ("invalid maximum port: " +:+ b))
          | Some maxPort =>
              if (maxPort <? minPort)%Z
              then Throw (OtherError ("invalid range: minimum port " +:+ itoa minPort
                     +:+ " must be less than or equal to maximum port " +:+ itoa maxPort))
              else Ret (minPort, maxPort)
          end
      end
  | _ => Throw (OtherError ("invalid range format: " +:+ rangeStr))
  end.

(** The port check of the service at index [idx]. *)
Definition port_errors (minPort maxPort idx : Z) (svc : ServiceMapping) : list field_error :=
  if str_eqb (svcService svc) APIServer && str_eqb (svcType svc) NodePort then
    match svcNodePort svc with
    | Some np =>
        if (0 <? npPort np)%Z && ((npPort np <? minPort)%Z || (maxPort <? npPort np)%Z)
        then [mkFieldError ErrorTypeInvalid ("spec.services[" +:+ itoa idx +:+ "].nodePort.port")
                ("port must be within the configured range " +:+ itoa minPort +:+ "-" +:+ itoa maxPort
                   +:+ " or 0 for dynamic assignment")]
        else []
    | None => []
    end
  else [].

(** [func validateNodePortPortRange(hc) field.ErrorList] *)
Definition validateNodePortPortRange (hc : HostedCluster) : list field_error :=
  let nodePortRange := default "" (serviceNodePortRange hc) in
  let nodePortRange := if str_eqb nodePortRange "" then "30000-32767" else nodePortRange in
  match parseNodePortRange nodePortRange with
  | Ret (minPort, maxPort) =>
      mjoin (imap (λ i svc, port_errors minPort maxPort (Z.of_nat i) svc) (hcServices hc))
  | _ => [mkFieldError ErrorTypeInvalid "spec.configuration.network.serviceNodePortRange"
            "invalid ServiceNodePortRange format"]
  end.

(** [type cidrEntry struct] *)
Record cidrEntry : Type := mkEntry { ceNet : IPNet; cePath : string }.

(** [func cidrsOverlap(net1, net2 *net.IPNet) error] *)
Definition cidrsOverlap (net1 net2 : IPNet) : option string :=
  if Contains net1 (netIP net2) || Contains net2 (netIP net1)
  then Some (IPNet_String net1 +:+ " and " +:+ IPNet_String net2) else None.

(** The inner loop of [compareCIDREntries]: [o] against the entries after it. *)
Definition compare_with (o : cidrEntry) (rest : list cidrEntry) : list field_error :=
  omap (λ i, (λ err, mkFieldError ErrorTypeInvalid (cePath o)
                (cePath o +:+ " and " +:+ cePath i +:+ " overlap: " +:+ err))
             <$> cidrsOverlap (ceNet o) (ceNet i)) rest.

(** [func compareCIDREntries(ce []cidrEntry) field.ErrorList] *)
Fixpoint compareCIDREntries (ce : list cidrEntry) : list field_error :=
  match ce with
  | [] => []
  | o :: rest => compare_with o rest ++ compareCIDREntries rest
  end.

(** The subnets of the OVN configuration, when they are set and parse. *)
Definition ovn_entry (subnet path : string) : list cidrEntry :=
  if negb (str_eqb subnet "") then
    match ParseCIDR subnet with
    | Some cidr => [mkEntry cidr ("spec.operatorConfiguration.clusterNetworkOperator.ovnKubernetesConfig.ipv4." +:+ path)]
    | None => []
    end
  else [].

(** The entries [validateSliceNetworkCIDRs] collects. *)
Definition cidr_entries (hc : HostedCluster) : list cidrEntry :=
  let entries path nets := (λ n, mkEntry n path) <$> nets in
  entries "spec.networking.MachineNetwork" (MachineNetwork (hcNetworking hc)) ++
  entries "spec.networking.ServiceNetwork" (ServiceNetwork (hcNetworking hc)) ++
  entries "spec.networking.ClusterNetwork" (ClusterNetwork (hcNetworking hc)) ++
  (if bool_decide (netNetworkType (hcNetworking hc) = OVNKubernetes) then
     match ovnIPv4 hc with
     | Some (join, transit) => ovn_entry join "internalJoinSubnet" ++ ovn_entry transit "internalTransitSwitchSubnet"
     | None => []
     end
   else []).

(** [func validateSliceNetworkCIDRs(hc) field.ErrorList] *)
Definition validateSliceNetworkCIDRs (hc : HostedCluster) : list field_error :=
  compareCIDREntries (cidr_entries hc).

(** [func (r *HostedClusterReconciler) validateNetworks(hc) error]: the errors
it aggregates *)
Definition validateNetworks (hc : HostedCluster) : go api_error (list field_error) :=
  stack ← validateNetworkStackAddresses hc;
  let slices := validateSliceNetworkCIDRs hc in
  advertise ← checkAdvertiseAddressOverlapping hc;
  Ret (stack ++ slices ++ advertise ++ validateNodePortVsServiceNetwork hc ++ validateNodePortPortRange hc).

(** The call of [validateNetworks] in [validateConfigAndClusterCapabilities] *)
Definition networkErrors (hc : HostedCluster) : go api_error (list field_error) :=
  if bool_decide (hcPlatform hc = IBMCloudPlatform) then Ret [] else validateNetworks hc.

End Text.

(** *** Published services *)

(** [func ServicePublishingStrategyByTypeByHC(hc, svcType)] *)
Definition ServicePublishingStrategyByTypeByHC (hc : HostedCluster) (svcType : string) : option ServiceMapping :=
  List.find (λ m, str_eqb (svcService m) svcType) (hcServices hc).

(** [func IsLBKASByHC(hc) bool] *)
Definition IsLBKASByHC (hc : HostedCluster) : bool :=
  match ServicePublishingStrategyByTypeByHC hc APIServer with
  | Some m => str_eqb (svcType m) LoadBalancer
  | None => false
  end.

(** [func IsRouteByHC(hc, svcType) bool] *)
Definition IsRouteByHC (hc : HostedCluster) (t : string) : bool :=
  match ServicePublishingStrategyByTypeByHC hc t with
  | Some m => str_eqb (svcType m) Route
  | None => false
  end.

(** [func UseDedicatedDNSByHC(hc, svcType) bool] *)
Definition UseDedicatedDNSByHC (hc : HostedCluster) (t : string) : bool :=
  IsRouteByHC hc t &&
  match ServicePublishingStrategyByTypeByHC hc t with
  | Some m => match svcRouteHostname m with Some h => negb (str_eqb h "") | None => false end
  | None => false
  end.

Definition UseDedicatedDNSForKASByHC (hc : HostedCluster) : bool := UseDedicatedDNSByHC hc APIServer.

(** The hostname a service is published under, if any. *)
Definition published_hostname (svc : ServiceMapping) : string :=
  let hostname := if str_eqb (svcType svc) LoadBalancer then default "" (svcLoadBalancerHostname svc) else "" in
  if str_eqb (svcType svc) Route then
    match svcRouteHostname svc with Some h => h | None => hostname end
  else hostname.

(** [func (r *HostedClusterReconciler) validatePublishingStrategyMapping(hc) error],
its loop with the map of the hostnames seen. *)
Fixpoint check_hostnames (services : list ServiceMapping) (hostnameServiceMap : StringMap) : go api_error unit :=
  match services with
  | [] => Ret ()
  | svc :: services =>
      let hostname := published_hostname svc in
      if str_eqb hostname "" then check_hostnames services hostnameServiceMap else
      match hostnameServiceMap !! hostname with
      | Some serviceType =>
          Throw (OtherError ("service type " +:+ svcService svc +:+ " can't be published with the same hostname "
                   +:+ hostname +:+ " as service type " +:+ serviceType))
      | None => check_hostnames services (<[hostname := svcService svc]> hostnameServiceMap)
      end
  end.
Definition validatePublishingStrategyMapping (hc : HostedCluster) : go api_error unit :=
  check_hostnames (hcServices hc) ∅.

(** *** Platforms *)

Definition Public : string := "Public".
Definition Private : string := "Private".

(** The services that must be routes, in the order of the loop. *)
Definition route_only_services : list string := ["Konnectivity"; "OAuthServer"; "Ignition"].

Definition route_only_error (hc : HostedCluster) (serviceType : string) : list string :=
  match ServicePublishingStrategyByTypeByHC hc serviceType with
  | None => ["service type " +:+ serviceType +:+ " not found"]
  | Some m =>
      if negb (str_eqb (svcType m) Route)
      then ["service type " +:+ serviceType +:+ " with publishing strategy " +:+ svcType m
              +:+ " is not supported, use Route"]
      else []
  end.

(** [func (r *HostedClusterReconciler) validateAWSConfig(hc) error]: the errors
it aggregates *)
Definition validateAWSConfig (hc : HostedCluster) : list string :=
  if negb (bool_decide (hcPlatform hc = AWSPlatform)) then [] else
  match hcAWS hc with
  | None => ["aws cluster needs .spec.platform.aws to be filled"]
  | Some aws =>
      let errs := mjoin (route_only_error hc <$> route_only_services) in
      match ServicePublishingStrategyByTypeByHC hc APIServer with
      | None => errs ++ ["service type APIServer not found"]
      | Some kas =>
          if str_eqb (svcType kas) Route && negb (UseDedicatedDNSForKASByHC hc) then
            errs ++ ["if serviceType is 'APIServer' and publishing strategy is 'Route', then hostname must be set"]
          else if str_eqb (awsEndpointAccess aws) Private then
            if negb (str_eqb (svcType kas) Route) && negb (str_eqb (svcType kas) LoadBalancer)
            then errs ++ ["service type APIServer with publishing strategy " +:+ svcType kas
                            +:+ " is not supported, use Route"]
            else errs
          else if negb (UseDedicatedDNSForKASByHC hc) && negb (str_eqb (svcType kas) LoadBalancer)
          then errs ++ ["service type APIServer with publishing strategy " +:+ svcType kas
                          +:+ " is not supported, use Route or LoadBalancer"]
          else errs
      end
  end.

(** [func (r *HostedClusterReconciler) validateAzureConfig(hc) error] *)
Definition validateAzureConfig (hc : HostedCluster) : go api_error unit :=
  if negb (bool_decide (hcPlatform hc = AzurePlatform)) then Ret ()
  else if negb (hcAzure hc) then Throw (OtherError "azurecluster needs .spec.platform.azure to be filled")
  else Ret ().

(** [func (r *HostedClusterReconciler) validateAgentConfig(ctx, hc) error];
[getNamespace] is the client's [Get]. *)
Definition validateAgentConfig (getNamespace : string → go api_error unit) (hc : HostedCluster)
    : go api_error unit :=
  if negb (bool_decide (hcPlatform hc = AgentPlatform)) then Ret () else
  match hcAgentNamespace hc with
  | None => Throw (OtherError "agentcluster needs .spec.platform.agent to be filled")
  | Some ns =>
      match getNamespace ns with
      | Throw err => Throw (Wrapped "failed to get agent namespace" err)
      | r => r
      end
  end.

(** [func (r *HostedClusterReconciler) validateHostedClusterSupport(hc) error]:
[region] and [credFile] are the environment of the operator. *)
Definition validateHostedClusterSupport (region credFile : string) (hc : HostedCluster) : go api_error unit :=
  match hcPlatform hc, hcAWS hc with
  | AWSPlatform, Some aws =>
      if str_eqb (awsEndpointAccess aws) Public then Ret ()
      else if str_eqb region ""
      then Throw (OtherError "AWS_REGION environment variable is not set for the operator")
      else if str_eqb credFile ""
      then Throw (OtherError "AWS_SHARED_CREDENTIALS_FILE environment variable is not set for the operator")
      else if negb (str_eqb (awsRegion aws) region)
      then Throw (OtherError ("operator only supports private clusters in region " +:+ region))
      else Ret ()
  | _, _ => Ret ()
  end.

End HostedClusterValidation.
