(* ===== verification/HostedClusterValidationProofs.v ===== *)
(** Properties of the validation of a HostedCluster: the overlap test of two
networks decides whether they share an address, a cluster that passes has
disjoint networks of one address family with the advertise address and the node
port address outside of them, hostnames are unique, and what the checks of the
AWS settings admit. *)
From S2P Require Import Prelude Semver Api Upsert HostedCluster HostedClusterValidation.
From Stdlib Require Import Ascii.

Module HostedClusterValidationProofs.
Import Semver HostedClusters HostedClusterValidation.

(** *** Networks as sets of addresses *)

(** The mask of a prefix of [p] of [w] bits. *)
Definition prefix_mask (w p : Z) : Z := Z.shiftl (Z.ones p) (w - p).

Definition width (a : IP) : Z := match a with V4 _ => 32 | V6 _ => 128 end.

(** A network with a contiguous mask, as [net.ParseCIDR] makes them. *)
Definition wf_net (n : IPNet) : Prop :=
  ∃ p, (0 ≤ p ≤ width (netIP n))%Z ∧ netMask n = prefix_mask (width (netIP n)) p.

Lemma prefix_mask_bits w p i :
  (0 ≤ p ≤ w)%Z → (0 ≤ i)%Z → Z.testbit (prefix_mask w p) i = ((w - p <=? i) && (i <? w))%Z.
Proof.
  intros Hp Hi. unfold prefix_mask. rewrite Z.shiftl_spec by lia.
  destruct (Z.leb_spec (w - p) i).
  - destruct (Z.ltb_spec i w); [by rewrite Z.ones_spec_low by lia|by rewrite Z.ones_spec_high by lia].
  - rewrite Z.testbit_neg_r by lia. done.
Qed.

(** A shorter prefix keeps fewer bits. *)
Lemma prefix_mask_sub w p q :
  (0 ≤ p ≤ q)%Z → (q ≤ w)%Z → Z.land (prefix_mask w q) (prefix_mask w p) = prefix_mask w p.
Proof.
  intros Hp Hq. apply Z.bits_inj'. intros i Hi.
  rewrite Z.land_spec, !prefix_mask_bits by lia. lia.
Qed.

(** Two addresses that agree on a longer prefix agree on a shorter one. *)
Lemma agree_shorter w p q a b :
  (0 ≤ p ≤ q)%Z → (q ≤ w)%Z →
  Z.land a (prefix_mask w q) = Z.land b (prefix_mask w q) →
  Z.land a (prefix_mask w p) = Z.land b (prefix_mask w p).
Proof.
  intros Hp Hq E. rewrite <- (prefix_mask_sub w p q) by done.
  by rewrite !Z.land_assoc, E.
Qed.

Lemma Contains_self n : Contains n (netIP n) = true.
Proof. unfold Contains. destruct (netIP n); apply Z.eqb_refl. Qed.

(** The base addresses of two networks of width [w] that share an address. *)
Lemma bases_meet w p q a b c :
  (0 ≤ p ≤ w)%Z → (0 ≤ q ≤ w)%Z →
  Z.land a (prefix_mask w p) = Z.land c (prefix_mask w p) →
  Z.land b (prefix_mask w q) = Z.land c (prefix_mask w q) →
  Z.land a (prefix_mask w p) = Z.land b (prefix_mask w p) ∨
  Z.land b (prefix_mask w q) = Z.land a (prefix_mask w q).
Proof.
  intros Hp Hq Ea Eb. destruct (Z.le_ge_cases p q).
  - left. rewrite Ea. symmetry. eapply agree_shorter; [| |exact Eb]; lia.
  - right. rewrite Eb. symmetry. eapply agree_shorter; [| |exact Ea]; lia.
Qed.

Section Overlap.
Context `{!NetText}.

(** Two prefixes that share an address contain one of the two base addresses. *)
Lemma cidrsOverlap_common n1 n2 :
  wf_net n1 → wf_net n2 →
  is_Some (cidrsOverlap n1 n2) ↔ ∃ ip, Contains n1 ip = true ∧ Contains n2 ip = true.
Proof.
  intros Hwf1 Hwf2. unfold cidrsOverlap. split.
  - destruct (_ || _) eqn:E; [|by intros [? ?]]. intros _. apply orb_prop in E as [E|E].
    + exists (netIP n2). by rewrite Contains_self.
    + exists (netIP n1). by rewrite Contains_self.
  - intros (ip & H1 & H2). destruct n1 as [[a|a] m1], n2 as [[b|b] m2], ip as [c|c]; try done;
      destruct Hwf1 as (p & Hp & Em1), Hwf2 as (q & Hq & Em2); simpl in *; subst;
      unfold Contains in *; simpl in *; apply Z.eqb_eq in H1, H2;
      destruct (bases_meet _ _ _ _ _ _ Hp Hq H1 H2) as [E|E]; rewrite E, Z.eqb_refl, ?orb_true_r; done.
Qed.

(** C23: The overlap test of two networks, which looks only at the two base
addresses, decides whether any address is in both. *)
Theorem cidrsOverlap_iff n1 n2 :
  wf_net n1 → wf_net n2 →
  is_Some (cidrsOverlap n1 n2) ↔ ∃ ip, Contains n1 ip = true ∧ Contains n2 ip = true.
Proof. apply cidrsOverlap_common. Qed.

(** Two networks share no address. *)
Definition disjoint_nets (n1 n2 : IPNet) : Prop :=
  ∀ ip, Contains n1 ip = true → Contains n2 ip = true → False.

Lemma cidrsOverlap_None n1 n2 :
  wf_net n1 → wf_net n2 → cidrsOverlap n1 n2 = None ↔ disjoint_nets n1 n2.
Proof.
  intros H1 H2. rewrite eq_None_not_Some, cidrsOverlap_common by done. unfold disjoint_nets. naive_solver.
Qed.

Lemma compare_with_nil o rest :
  compare_with o rest = [] ↔ Forall (λ i, cidrsOverlap (ceNet o) (ceNet i) = None) rest.
Proof.
  induction rest as [|i rest IH]; [done|]. rewrite Forall_cons, <- IH.
  unfold compare_with at 1. simpl. destruct (cidrsOverlap _ _); simpl; naive_solver.
Qed.

Lemma compareCIDREntries_nil ce :
  Forall (λ e, wf_net (ceNet e)) ce →
  compareCIDREntries ce = [] ↔ ForallOrdPairs disjoint_nets (ceNet <$> ce).
Proof.
  induction ce as [|o rest IH]; intros Hwf; [by split; constructor|].
  apply Forall_cons in Hwf as [Ho Hr]. simpl. rewrite app_nil, compare_with_nil, IH by done. split.
  - intros [Hf Hp]. constructor; [|done]. rewrite Forall_fmap. rewrite Forall_forall in *.
    intros i Hi. apply cidrsOverlap_None; auto.
  - intros Hp. inversion Hp as [|? ? Hf Hp']; subst. split; [|done].
    rewrite Forall_fmap in Hf. rewrite Forall_forall in *.
    intros i Hi. apply cidrsOverlap_None; auto. by apply Hf.
Qed.

End Overlap.

(** *** A cluster that passes *)

(** The first entry of each network. *)
Definition primaries (hc : HostedCluster) : list IPNet :=
  option_list (head (ClusterNetwork (hcNetworking hc))) ++
  option_list (head (ServiceNetwork (hcNetworking hc))) ++
  option_list (head (MachineNetwork (hcNetworking hc))).

(** An address in the form [To4] leaves it. *)
Definition normal (a : IP) : Prop := match a with V4 _ => True | V6 x => (x / 2 ^ 32 ≠ 65535)%Z end.

Definition same_family (a b : IP) : Prop :=
  match a, b with V4 _, V4 _ | V6 _, V6 _ => True | _, _ => False end.

(** What the checks rely on: a dot is in the text of an IPv4 address, a colon
in that of an IPv6 address, and a prefix that was printed parses, unless it is of
an IPv6 address that stands for an IPv4 one. *)
Definition real_net (n : IPNet) : Prop :=
  wf_net n ∧ normal (netIP n) ∧ match netIP n with V4 a => 0 ≤ a < 2 ^ 32 | V6 a => 0 ≤ a < 2 ^ 128 end%Z.

Class NetTextLaws `{!NetText} : Prop := {
  IP_String_V4 a : str_contains (IP_String (V4 a)) "." = true;
  IP_String_V6 a : normal (V6 a) → str_contains (IP_String (V6 a)) ":" = true;
  netip_String_V4 a : str_contains (netip_String (V4 a)) "." = true;
  netip_String_V6 a : str_contains (netip_String (V6 a)) ":" = true;
  ParsePrefix_String n : real_net n → ParsePrefix (IPNet_String n) = Some n;
}.

Section Valid.
Context `{!NetText, !NetTextLaws, !MapOrder}.

Definition advertise_path : string := "spec.networking.APIServerNetworking.AdvertiseAddress".

Lemma primary_elem f hc n :
  n ∈ primaries hc → ∃ path, path ≠ advertise_path ∧ primary_networks f hc !! path = Some (f n).
Proof.
  unfold primaries, primary_networks. rewrite !elem_of_app.
  destruct (ClusterNetwork (hcNetworking hc)) as [|c ?], (ServiceNetwork (hcNetworking hc)) as [|s ?],
    (MachineNetwork (hcNetworking hc)) as [|m ?]; simpl; rewrite ?list_elem_of_singleton, ?elem_of_nil;
    intros Hn; destruct_or?; try done; subst;
    first [by exists "spec.networking.ClusterNetwork"|by exists "spec.networking.ServiceNetwork"
          |by exists "spec.networking.MachineNetwork"].
Qed.

Lemma elem_of_range (m : gmap string string) k v : m !! k = Some v → (k, v) ∈ range m.
Proof. intros Hm. by rewrite range_Permutation, elem_of_map_to_list. Qed.

Lemma join_nil {A} (l : list (list A)) x : mjoin l = [] → x ∈ l → x = [].
Proof.
  induction l as [|y l IH]; [by intros _ ?%not_elem_of_nil|]. simpl. intros [Hy Hl]%app_nil.
  intros [->|?]%elem_of_cons; auto.
Qed.

(** The stacks: every address of the map is of the family of every other. *)
Lemma stack_same_family hc adv :
  findAdvertiseAddress hc = Ret (Some adv, None) →
  validateNetworkStackAddresses hc = Ret [] →
  ∀ n, n ∈ primaries hc → normal (netIP n) → same_family (netIP n) adv.
Proof.
  intros Hadv E n Hn Hnorm. unfold validateNetworkStackAddresses in E. rewrite Hadv in E.
  cbn -[range Nat.ltb] in E. injection E as E. apply app_nil in E as [Herrs Hmix].
  set (l := range _) in *.
  assert (Hany : ∀ e sep, e ∈ l → str_contains e.2 sep = true → (0 <? length (List.filter (of_stack sep) l))%nat = true).
  { intros e sep He Hs. apply Nat.ltb_lt. destruct (List.filter (of_stack sep) l) eqn:Hf; [|simpl; lia].
    exfalso. apply (not_elem_of_nil e). rewrite <- Hf. apply elem_of_filter_bool. split; [done|].
    unfold of_stack. rewrite Hs, andb_true_r. apply bool_decide_eq_true.
    assert (Hx : stack_error e = []) by (eapply join_nil; [exact Herrs|by apply list_elem_of_fmap_2]).
    unfold stack_error in Hx. by destruct (ParseIP e.2). }
  destruct (primary_elem (λ n, IP_String (netIP n)) hc n Hn) as (path & Hp & Hl).
  assert (He1 : (path, IP_String (netIP n)) ∈ l)
    by (apply elem_of_range; by rewrite lookup_insert_ne by done).
  assert (He2 : (advertise_path, netip_String adv) ∈ l) by (apply elem_of_range, lookup_insert_eq).
  destruct (netIP n) as [a|a], adv as [b|b]; try done; simpl; exfalso.
  - rewrite (Hany _ "." He1), (Hany _ ":" He2) in Hmix; [done|apply netip_String_V6|apply IP_String_V4].
  - rewrite (Hany _ "." He2), (Hany _ ":" He1) in Hmix; [done|by apply IP_String_V6|apply netip_String_V4].
Qed.

Lemma advertise_outside hc adv :
  findAdvertiseAddress hc = Ret (Some adv, None) →
  checkAdvertiseAddressOverlapping hc = Ret [] →
  ∀ n, n ∈ primaries hc → real_net n → Contains n adv = false.
Proof.
  intros Hadv E n Hn Hwf. unfold checkAdvertiseAddressOverlapping in E. rewrite Hadv in E.
  cbn -[range Nat.ltb] in E. injection E as E.
  destruct (primary_elem IPNet_String hc n Hn) as (path & _ & Hl).
  assert (Hx : advertise_errors (Some adv) (path, IPNet_String n) = []).
  { eapply join_nil; [exact E|]. apply list_elem_of_fmap_2. by apply elem_of_range. }
  unfold advertise_errors in Hx. simpl in Hx. rewrite (ParsePrefix_String n Hwf) in Hx.
  by destruct (Contains n adv).
Qed.

Lemma nodeport_outside hc ip err :
  getNodePortIP hc = (Some ip, err) → validateNodePortVsServiceNetwork hc = [] →
  ∀ n, n ∈ ServiceNetwork (hcNetworking hc) → Contains n ip = false.
Proof.
  intros Hip E n Hn. unfold validateNodePortVsServiceNetwork in E. rewrite Hip in E.
  apply app_nil in E as [_ E]. apply fmap_nil_inv in E.
  destruct (Contains n ip) eqn:Hc; [|done]. exfalso. apply (not_elem_of_nil n).
  rewrite <- E. apply elem_of_filter_bool. done.
Qed.

(** A port that is set explicitly is in the configured range. *)
Lemma ports_in_range hc svc np :
  validateNodePortPortRange hc = [] → svc ∈ hcServices hc →
  svcService svc = APIServer → svcType svc = NodePort → svcNodePort svc = Some np → (0 < npPort np)%Z →
  ∃ lo hi, parseNodePortRange (if str_eqb (default "" (serviceNodePortRange hc)) "" then "30000-32767"
                               else default "" (serviceNodePortRange hc)) = Ret (lo, hi) ∧
    (lo ≤ npPort np ≤ hi)%Z.
Proof.
  unfold validateNodePortPortRange. intros E Hin Hs Ht Hnp Hpos.
  destruct (parseNodePortRange _) as [[lo hi]| |]; [|done..]. exists lo, hi. split; [done|].
  apply list_elem_of_lookup in Hin as [i Hi].
  assert (Hx : port_errors lo hi (Z.of_nat i) svc = []).
  { eapply join_nil; [exact E|]. apply list_elem_of_lookup. exists i. rewrite list_lookup_imap, Hi. done. }
  unfold port_errors in Hx. rewrite Hs, Ht, Hnp in Hx. simpl in Hx.
  rewrite (proj2 (Z.ltb_lt 0 (npPort np)) Hpos) in Hx. simpl in Hx.
  destruct (Z.ltb_spec (npPort np) lo), (Z.ltb_spec hi (npPort np)); simpl in Hx; try done; lia.
Qed.

(** What [validateNetworks] promises of a cluster whose networks it accepts; of the
node ports it checks the one of the API server only. *)
Record valid_networks (hc : HostedCluster) : Prop := {
  vn_disjoint : ForallOrdPairs disjoint_nets (ceNet <$> cidr_entries hc);
  vn_advertise : ∃ adv, findAdvertiseAddress hc = Ret (adv, None) ∧
    ∀ a, adv = Some a → ∀ n, n ∈ primaries hc →
      Contains n a = false ∧ (normal (netIP n) → same_family (netIP n) a);
  vn_nodeport ip err n : getNodePortIP hc = (Some ip, err) → n ∈ ServiceNetwork (hcNetworking hc) →
    Contains n ip = false;
  vn_ports svc np : svc ∈ hcServices hc → svcService svc = APIServer → svcType svc = NodePort →
    svcNodePort svc = Some np → (0 < npPort np)%Z →
    ∃ lo hi, parseNodePortRange (if str_eqb (default "" (serviceNodePortRange hc)) "" then "30000-32767"
                                 else default "" (serviceNodePortRange hc)) = Ret (lo, hi) ∧
      (lo ≤ npPort np ≤ hi)%Z;
}.

Lemma primaries_entries hc n : n ∈ primaries hc → n ∈ ceNet <$> cidr_entries hc.
Proof.
  unfold primaries, cidr_entries. rewrite !fmap_app, !elem_of_app, <- !list_fmap_compose, !list_elem_of_fmap.
  destruct (ClusterNetwork (hcNetworking hc)) as [|c ?], (ServiceNetwork (hcNetworking hc)) as [|s ?],
    (MachineNetwork (hcNetworking hc)) as [|m ?]; simpl; rewrite ?list_elem_of_singleton, ?elem_of_nil;
    intros Hn; destruct_or?; try done; subst;
    first [left; exists m; split; [done|left]|right; left; exists s; split; [done|left]
          |right; right; left; exists c; split; [done|left]].
Qed.

(** C22: The networks of a HostedCluster that passes validation are usable, unless
its platform is IBM Cloud, for which networks are not validated: the machine,
service, cluster and OVN networks are pairwise disjoint, the advertise address is
outside the primary networks and of their address family, the node port address
is outside the service networks, and an explicit node port of the API server is
within the configured range.  The node ports of other services are not checked. *)
Theorem validateNetworks_sound hc :
  hcPlatform hc ≠ IBMCloudPlatform →
  Forall (λ e, real_net (ceNet e)) (cidr_entries hc) →
  networkErrors hc = Ret [] → valid_networks hc.
Proof.
  intros Hp Hreal E. unfold networkErrors in E. rewrite bool_decide_false in E by done. unfold validateNetworks in E.
  assert (Hwf : Forall (λ e, wf_net (ceNet e)) (cidr_entries hc)) by (eapply Forall_impl; [exact Hreal|]; by intros ? []).
  apply go_bind_Ret in E as (stack & Hstack & E). apply go_bind_Ret in E as (adverr & Hadv & E).
  injection E as E. rewrite !app_nil in E. destruct E as (-> & Hs & -> & Hnp & Hpr).
  constructor.
  - by apply compareCIDREntries_nil.
  - destruct (findAdvertiseAddress hc) as [[adv [err|]]| |] eqn:Hf.
    + unfold checkAdvertiseAddressOverlapping in Hadv. rewrite Hf in Hadv. done.
    + exists adv. split; [done|]. intros a -> n Hn. split.
      * eapply advertise_outside; [done..|]. apply primaries_entries in Hn.
        apply list_elem_of_fmap in Hn as (e & -> & He). rewrite Forall_forall in Hreal. by apply Hreal.
      * intros. by eapply stack_same_family.
    + unfold checkAdvertiseAddressOverlapping in Hadv. by rewrite Hf in Hadv.
    + unfold checkAdvertiseAddressOverlapping in Hadv. by rewrite Hf in Hadv.
  - intros. by eapply nodeport_outside.
  - intros. by eapply ports_in_range.
Qed.

(** Without an advertise address and a cluster network the validation does not
return. *)
Lemma validateNetworks_panics hc :
  AdvertiseAddress (hcNetworking hc) = None → ClusterNetwork (hcNetworking hc) = [] →
  validateNetworks hc = Panic.
Proof.
  intros Ha Hc. unfold validateNetworks, validateNetworkStackAddresses, findAdvertiseAddress.
  by rewrite Ha, Hc.
Qed.

End Valid.

(** *** Hostnames *)

Definition hostnames (services : list ServiceMapping) : list string :=
  List.filter (λ h, negb (str_eqb h "")) (published_hostname <$> services).

Lemma check_hostnames_Ret services seen :
  check_hostnames services seen = Ret () ↔
  NoDup (hostnames services) ∧ ∀ h, h ∈ hostnames services → seen !! h = None.
Proof.
  revert seen. induction services as [|svc services IH]; intros seen; simpl.
  { split; [|done]. intros _. split; [constructor|]. by intros h ?%not_elem_of_nil. }
  unfold hostnames in *. simpl. destruct (str_eqb (published_hostname svc) "") eqn:Eh; simpl; [apply IH|].
  rewrite NoDup_cons. setoid_rewrite elem_of_cons.
  destruct (seen !! published_hostname svc) as [t|] eqn:Hs; [naive_solver|].
  rewrite IH. setoid_rewrite lookup_insert_None. naive_solver.
Qed.

(** Every published hostname belongs to one service. *)
Lemma validatePublishingStrategyMapping_iff hc :
  validatePublishingStrategyMapping hc = Ret () ↔ NoDup (hostnames (hcServices hc)).
Proof.
  unfold validatePublishingStrategyMapping. rewrite check_hostnames_Ret.
  split; [naive_solver|]. intros. split; [done|]. intros. apply lookup_empty.
Qed.

(** *** AWS *)

(** What an accepted AWS cluster publishes: routes for everything but the API
server, which is a route with a hostname of its own or a load balancer. *)
Lemma validateAWSConfig_nil hc :
  hcPlatform hc = AWSPlatform → validateAWSConfig hc = [] →
  is_Some (hcAWS hc) ∧
  (∀ t, t ∈ route_only_services → IsRouteByHC hc t = true) ∧
  (UseDedicatedDNSForKASByHC hc = true ∨ IsLBKASByHC hc = true).
Proof.
  intros Hp E. unfold validateAWSConfig in E. rewrite Hp in E. simpl in E.
  destruct (hcAWS hc) as [aws|]; [|done]. split; [done|].
  assert (Herrs : mjoin (route_only_error hc <$> route_only_services) = []).
  { repeat case_match; try (by apply app_nil in E as [? ?]); done. }
  split.
  - intros t Ht. assert (Hx : route_only_error hc t = [])
      by (eapply join_nil; [exact Herrs|by apply list_elem_of_fmap_2]).
    unfold route_only_error, IsRouteByHC in *. destruct (ServicePublishingStrategyByTypeByHC hc t); [|done].
    by destruct (str_eqb _ Route).
  - unfold IsLBKASByHC. destruct (ServicePublishingStrategyByTypeByHC hc APIServer) as [kas|] eqn:Hk;
      [|by apply app_nil in E as [_ ?]].
    destruct (UseDedicatedDNSForKASByHC hc) eqn:Hd; [by left|]. right.
    destruct (str_eqb (svcType kas) LoadBalancer) eqn:Hl; [done|].
    destruct (str_eqb (svcType kas) Route) eqn:Hr; simpl in E; [by apply app_nil in E as [_ ?]|].
    repeat case_match; try (by apply app_nil in E as [_ ?]); done.
Qed.

(** *** A cluster *)

Module Samples.

#[local] Instance listed : MapOrder := {| range A m := map_to_list m; range_Permutation A m := reflexivity _ |}.

(** A text for addresses and networks: the family, then the bits, least first. *)
Fixpoint enc_pos (p : positive) (k : string) : string :=
  match p with
  | xI p => String "1" (enc_pos p k)
  | xO p => String "0" (enc_pos p k)
  | xH => String "/" k
  end%char.
Fixpoint dec_pos (s : string) : option (positive * string) :=
  match s with
  | String "1" s => (λ r, (xI r.1, r.2)) <$> dec_pos s
  | String "0" s => (λ r, (xO r.1, r.2)) <$> dec_pos s
  | String "/" s => Some (xH, s)
  | _ => None
  end%char.
Lemma dec_enc_pos p k : dec_pos (enc_pos p k) = Some (p, k).
Proof. induction p as [p IH|p IH|]; simpl; [by rewrite IH..|done]. Qed.

Definition enc_Z (z : Z) (k : string) : string :=
  match z with
  | Z0 => String "z" k
  | Zpos p => String "p" (enc_pos p k)
  | Zneg p => String "n" (enc_pos p k)
  end%char.
Definition dec_Z (s : string) : option (Z * string) :=
  match s with
  | String "z" s => Some (Z0, s)
  | String "p" s => (λ r, (Zpos r.1, r.2)) <$> dec_pos s
  | String "n" s => (λ r, (Zneg r.1, r.2)) <$> dec_pos s
  | _ => None
  end%char.
Lemma dec_enc_Z z k : dec_Z (enc_Z z k) = Some (z, k).
Proof. destruct z; simpl; by rewrite ?dec_enc_pos. Qed.

Definition enc_IP (a : IP) (k : string) : string :=
  match a with V4 z => String "." (enc_Z z k) | V6 z => String ":" (enc_Z z k) end%char.
Definition dec_IP (s : string) : option (IP * string) :=
  match s with
  | String "." s => (λ r, (V4 r.1, r.2)) <$> dec_Z s
  | String ":" s => (λ r, (V6 r.1, r.2)) <$> dec_Z s
  | _ => None
  end%char.
Lemma dec_enc_IP a k : dec_IP (enc_IP a k) = Some (a, k).
Proof. destruct a; cbn -[dec_Z enc_Z]; by rewrite dec_enc_Z. Qed.
Definition dec_net (s : string) : option IPNet :=
  '(ip, k) ← dec_IP s; '(m, _) ← dec_Z k; Some (mkIPNet ip m).

#[local] Instance bit_text : NetText := {|
  ParseIP s := fst <$> dec_IP s;
  IP_String a := enc_IP a "";
  ParseAddr s := fst <$> dec_IP s;
  netip_String a := enc_IP a "";
  IPNet_String n := enc_IP (netIP n) (enc_Z (netMask n) "");
  ParseCIDR := dec_net;
  ParsePrefix := dec_net;
|}.

#[local] Instance bit_text_laws : NetTextLaws.
Proof.
  constructor; [by intros []|by intros [] _|by intros []|by intros []|].
  intros [a m] _. cbn -[dec_Z enc_Z dec_IP enc_IP]. unfold dec_net.
  rewrite dec_enc_IP. cbn -[dec_Z enc_Z]. by rewrite dec_enc_Z.
Qed.

(** [10.0.0.0/16], [172.31.0.0/16], [10.132.0.0/14] *)
Definition net4 (a b len : Z) : IPNet := mkIPNet (V4 (a * 2 ^ 24 + b * 2 ^ 16)) (prefix_mask 32 len).

Definition hc0 : HostedCluster :=
  mkHC "clusters" "a" 3 ∅ [] None "a-infra" NonePlatform None false None "img" None
    (mkNetworking OVNKubernetes [net4 10 132 14] [net4 172 31 16] [net4 10 0 16] None)
    [mkService APIServer NodePort (Some (mkNodePort (enc_IP (V4 5) "") 30001)) None None] None None None None [].

Lemma net4_real a b len : (0 ≤ a < 256)%Z → (0 ≤ b < 256)%Z → (0 ≤ len ≤ 32)%Z → real_net (net4 a b len).
Proof. intros. split; [by exists len|]. split; [done|]. simpl. lia. Qed.

Lemma net4_wf a b len : (0 ≤ len ≤ 32)%Z → wf_net (net4 a b len).
Proof. intros. by exists len. Qed.

Lemma cidrsOverlap_iff_witness :
  ¬ ∃ ip, Contains (net4 10 132 14) ip = true ∧ Contains (net4 10 0 16) ip = true.
Proof.
  intros He. apply (cidrsOverlap_iff (net4 10 132 14) (net4 10 0 16)) in He;
    [|apply net4_wf; lia|apply net4_wf; lia].
  vm_compute in He. destruct He as [x Hx]. discriminate Hx.
Defined.

Lemma validateNetworks_sound_witness : valid_networks hc0.
Proof.
  refine (validateNetworks_sound hc0 _ _ _).
  - vm_compute. discriminate.
  - repeat (apply Forall_cons; split; [apply net4_real; lia|]). apply Forall_nil. exact I.
  - vm_compute. reflexivity.
Defined.

End Samples.

End HostedClusterValidationProofs.
