(* ===== verification/HostedClusterDeletion.v ===== *)
(** Deletion of a HostedCluster,
[hypershift-operator/controllers/hostedcluster/hostedcluster_controller.go]: the
start of [reconcile], which carries conditions of the control plane over to the
cluster, the deletion of what belongs to the cluster in order, the grace period
and the finalizer; with [DeleteIfNeeded] of [support/util/util.go] and the
deletion code of the AWS and Agent platforms. *)
From S2P Require Import Prelude Api Upsert HostedCluster.

Module HostedClusterDeletion.
Import HostedClusters.

(** *** The cluster *)

Inductive Kind : Type :=
  | KNodePool | KCAPICluster | KHostedControlPlane | KNamespace | KDeployment | KConfigMap | KSecret
  | KRole | KRoleBinding | KClusterRole | KClusterRoleBinding
  | KAWSEndpointService | KGCPPrivateServiceConnect | KAWSMachine.

#[export] Instance Kind_eq_dec : EqDecision Kind.
Proof. solve_decision. Defined.
#[export] Instance Kind_countable : Countable Kind.
Proof.
  refine (inj_countable' (λ k, match k with
    | KNodePool => 0 | KCAPICluster => 1 | KHostedControlPlane => 2 | KNamespace => 3 | KDeployment => 4
    | KConfigMap => 5 | KSecret => 6 | KRole => 7 | KRoleBinding => 8 | KClusterRole => 9
    | KClusterRoleBinding => 10 | KAWSEndpointService => 11 | KGCPPrivateServiceConnect => 12
    | KAWSMachine => 13 end)%nat
   (λ n, match n with
    | 0 => KNodePool | 1 => KCAPICluster | 2 => KHostedControlPlane | 3 => KNamespace | 4 => KDeployment
    | 5 => KConfigMap | 6 => KSecret | 7 => KRole | 8 => KRoleBinding | 9 => KClusterRole
    | 10 => KClusterRoleBinding | 11 => KAWSEndpointService | 12 => KGCPPrivateServiceConnect
    | _ => KAWSMachine end)%nat _).
  by intros [].
Defined.

(** An object is named by its kind, namespace and name. *)
Record Key : Type := mkKey { kKind : Kind; kNamespace : string; kName : string }.
#[export] Instance Key_eq_dec : EqDecision Key.
Proof. solve_decision. Defined.
#[export] Instance Key_countable : Countable Key.
Proof.
  refine (inj_countable' (λ k, (kKind k, kNamespace k, kName k)) (λ p, mkKey p.1.1 p.1.2 p.2) _).
  by intros [].
Defined.

(** What the deletion code reads and writes of any object. *)
Record Obj : Type := mkObj {
  oDeletionTimestamp : option Time;
  oFinalizers : list string;
  oAnnotations : StringMap;
  oPaused : bool;
  oClusterName : string;
  oConditions : list Condition;
}.

Inductive s3_error : Type := NoSuchBucket | S3Failed (msg : string).

(** The clients of the controller: the API server of the management cluster, a
HostedCluster's own object, whose updates return it as stored, and S3.  A list
is restricted to a namespace, or to the labels that name the owning
HostedCluster.  [DeleteObjects] deletes keys from a bucket; its output names the
keys that were not deleted. *)
Class Cloud (S : Type) : Type := {
  sGet : Key → S → go api_error Obj;
  sList : Kind → S → go api_error (list (Key * Obj));
  sListOwned : Kind → string → string → S → go api_error (list (Key * Obj));
  sDelete : Key → S → go api_error unit * S;
  sUpdate : Key → Obj → S → go api_error unit * S;
  sDeleteAllOwned : Kind → string → string → S → go api_error unit * S;
  hcUpdate : HostedCluster → S → go api_error HostedCluster * S;
  hcStatusUpdate : HostedCluster → S → go api_error HostedCluster * S;
  DeleteObjects : string → list string → S → go s3_error (list string) * S;
}.

(** The fields of the [HostedClusterReconciler] the deletion reads. *)
Record Reconciler : Type := mkReconciler {
  MonitoringDashboards : bool;
  hasCapabilityRoute : bool;
  OIDCStorageProviderS3BucketName : string;
  hasS3Client : bool;
}.

Definition has_annotation (hc : HostedCluster) (k v : string) : bool := str_eqb (mget (hcAnnotations hc) k) v.

Definition CleanupCloudResourcesAnnotation : string := "hypershift.openshift.io/cleanup-cloud-resources".
Definition SkipControlPlaneNamespaceDeletionAnnotation : string :=
  "hypershift.openshift.io/skip-delete-hosted-controlplane-namespace".
Definition DisableMachineManagement : string := "hypershift.openshift.io/disable-machine-management".
Definition HCDestroyGracePeriodAnnotation : string := "hypershift.openshift.io/destroy-grace-period".
Definition HostedClusterFinalizer : string := "hypershift.openshift.io/finalizer".
Definition ControlPlaneComponentFinalizer : string := "hypershift.openshift.io/component-finalizer".
Definition oidcDocumentsFinalizer : string := "hypershift.io/aws-oidc-discovery".
Definition cpoFinalizer : string := "hypershift.openshift.io/control-plane-operator-finalizer".
Definition referencedResourceAnnotationPrefix : string := "referenced-resource.hypershift.openshift.io/".
Definition CAPIComponents : list string := ["cluster-api"; "capi-provider"].
Definition awsEndpointDeletionGracePeriod : Duration := (10 * minute)%Z.
Definition clusterDeletionRequeueDuration : Duration := (5 * second)%Z.

Definition HostedClusterDestroyed : string := "HostedClusterDestroyed".
Definition CloudResourcesDestroyed : string := "CloudResourcesDestroyed".
Definition AWSDefaultSecurityGroupDeleted : string := "AWSDefaultSecurityGroupDeleted".
Definition ValidAWSIdentityProvider : string := "ValidAWSIdentityProvider".
Definition ValidOIDCConfiguration : string := "ValidOIDCConfiguration".

(** [controllerutil.RemoveFinalizer] *)
Definition remove_finalizer (f : string) (l : list string) : list string :=
  List.filter (λ x, negb (str_eqb x f)) l.

Definition set_finalizers (o : Obj) (l : list string) : Obj :=
  mkObj (oDeletionTimestamp o) l (oAnnotations o) (oPaused o) (oClusterName o) (oConditions o).
Definition set_annotations (o : Obj) (m : StringMap) : Obj :=
  mkObj (oDeletionTimestamp o) (oFinalizers o) m (oPaused o) (oClusterName o) (oConditions o).
Definition set_paused (o : Obj) (b : bool) : Obj :=
  mkObj (oDeletionTimestamp o) (oFinalizers o) (oAnnotations o) b (oClusterName o) (oConditions o).

Definition hc_with (hc : HostedCluster) (finalizers : list string) (conditions : list Condition) : HostedCluster :=
  mkHC (hcNamespace hc) (hcName hc) (hcGeneration hc) (hcAnnotations hc) finalizers (hcDeletionTimestamp hc)
    (hcInfraID hc) (hcPlatform hc) (hcAWS hc) (hcAzure hc) (hcAgentNamespace hc) (hcReleaseImage hc)
    (hcControlPlaneRelease hc) (hcNetworking hc) (hcServices hc) (hcEtcdUnmanaged hc) (ovnIPv4 hc)
    (serviceNodePortRange hc) (hcVersion hc) conditions.

(** *** Running against the cluster *)

Section Deletion.
Context {S : Type} `{!Cloud S} (r : Reconciler) (now : Time).

(** The store, the HostedCluster in memory and the identifiers of the cached
KubeVirt infrastructure clients. *)
Record World : Type := mkWorld { wStore : S; wHC : HostedCluster; wInfraClients : gset string }.

Definition M (A : Type) : Type := st World api_error A.

Definition call {A} (f : S → go api_error A * S) : M A := λ w,
  let '(a, s) := f (wStore w) in (a, mkWorld s (wHC w) (wInfraClients w)).
Definition read {A} (f : S → go api_error A) : M A := λ w, (f (wStore w), w).
Definition theHC : M HostedCluster := λ w, (Ret (wHC w), w).
Definition putHC (hc : HostedCluster) : M unit := λ w, (Ret (), mkWorld (wStore w) hc (wInfraClients w)).

(** [fmt.Errorf("msg: %w", err)] *)
Definition wrap {A} (msg : string) (m : M A) : M A := λ w,
  match m w with (Throw e, w') => (Throw (Wrapped msg e), w') | res => res end.

(** [if err := m(); err != nil && !apierrors.IsNotFound(err) { return err }] *)
Definition ignore_missing (msg : string) (m : M unit) : M unit := λ w,
  match m w with
  | (Throw e, w') => if IsNotFound e then (Ret (), w') else (Throw (Wrapped msg e), w')
  | res => res
  end.

(** [Get], [None] when the object is not found *)
Definition find (msg : string) (k : Key) : M (option Obj) := λ w,
  match sGet k (wStore w) with
  | Ret o => (Ret (Some o), w)
  | Throw e => if IsNotFound e then (Ret None, w) else (Throw (Wrapped msg e), w)
  | Panic => (Panic, w)
  end.

(** [r.Client.Update(ctx, hcluster)] and [r.Client.Status().Update(ctx, hcluster)]:
the answer of the server is decoded into the object in memory. *)
Definition updateHC : M unit :=
  hc ← theHC; hc' ← call (hcUpdate hc); putHC hc'.
Definition updateHCStatus : M unit :=
  hc ← theHC; hc' ← call (hcStatusUpdate hc); putHC hc'.

(** [func DeleteIfNeeded(ctx, c, o) (exists bool, err error)] *)
Definition DeleteIfNeeded (k : Key) : M bool := λ w,
  match sGet k (wStore w) with
  | Panic => (Panic, w)
  | Throw e => if IsNotFound e || IsNoMatchError e then (Ret false, w)
               else (Throw (Wrapped "error getting" e), w)
  | Ret o =>
      match oDeletionTimestamp o with
      | Some _ => (Ret true, w)
      | None =>
          match call (sDelete k) w with
          | (Panic, w') => (Panic, w')
          | (Throw e, w') => if IsNotFound e then (Ret false, w') else (Throw (Wrapped "error deleting" e), w')
          | (Ret _, w') => (Ret true, w')
          end
      end
  end.

Definition cpNamespace (hc : HostedCluster) : string := HostedControlPlaneNamespace (hcNamespace hc) (hcName hc).
Definition hcpKey (hc : HostedCluster) : Key := mkKey KHostedControlPlane (cpNamespace hc) (hcName hc).
Definition capiKey (hc : HostedCluster) : Key := mkKey KCAPICluster (cpNamespace hc) (hcInfraID hc).
Definition nsKey (hc : HostedCluster) : Key := mkKey KNamespace "" (cpNamespace hc).

(** [func pauseCAPICluster(ctx, c, hc, paused) error] *)
Definition pauseCAPICluster (paused : bool) : M unit :=
  hc ← theHC;
  capiCluster ← find "failed to get CAPI Cluster" (capiKey hc);
  match capiCluster with
  | None => mret ()
  | Some c =>
      if negb (Bool.eqb (oPaused c) paused)
      then wrap "failed to update CAPI Cluster" (call (sUpdate (capiKey hc) (set_paused c paused)))
      else mret ()
  end.

(** The propagation of the cleanup annotation at the start of [delete]. *)
Definition propagateCleanupAnnotation : M unit :=
  hc ← theHC;
  if has_annotation hc CleanupCloudResourcesAnnotation "true" then
    hcp ← find "cannot get hosted control plane" (hcpKey hc);
    match hcp with
    | None => mret ()
    | Some o =>
        if negb (str_eqb (mget (oAnnotations o) CleanupCloudResourcesAnnotation) "true")
        then wrap "cannot patch hosted control plane with cleanup annotation"
               (call (sUpdate (hcpKey hc)
                  (set_annotations o (<[CleanupCloudResourcesAnnotation := "true"]> (oAnnotations o)))))
        else mret ()
    end
  else mret ().

(** [func listNodePools(ctx, c, clusterNamespace, clusterName) ([]hyperv1.NodePool, error)] *)
Definition listNodePools (clusterNamespace clusterName : string) : M (list (Key * Obj)) :=
  l ← wrap "failed getting nodePool list" (read (sList KNodePool));
  mret (List.filter (λ p, str_eqb (kNamespace p.1) clusterNamespace && str_eqb (oClusterName p.2) clusterName) l).

(** The loop bodies of the deletions of listed objects: skip what is already
being deleted. *)
Definition delete_listed (msg : string) (p : Key * Obj) : M unit :=
  match oDeletionTimestamp p.2 with
  | Some _ => mret ()
  | None => ignore_missing msg (call (sDelete p.1))
  end.

(** [func (r *HostedClusterReconciler) deleteNodePools(ctx, c, namespace, name) error] *)
Definition deleteNodePools (namespace name : string) : M unit :=
  nodePools ← wrap "failed to get NodePools by cluster name" (listNodePools namespace name);
  st_for nodePools (delete_listed "failed to delete NodePool").

(** [func GetCredentialStatus(hc) CredentialStatus] *)
Inductive CredentialStatus : Type := CredentialStatusValid | CredentialStatusInvalid | CredentialStatusUnknown.
#[export] Instance CredentialStatus_eq_dec : EqDecision CredentialStatus.
Proof. solve_decision. Defined.

Definition condition_status (hc : HostedCluster) (t : string) : ConditionStatus :=
  match Meta.FindStatusCondition (hcConditions hc) t with Some c => cStatus c | None => ConditionUnknown end.

Definition GetCredentialStatus (hc : HostedCluster) : CredentialStatus :=
  let oidcStatus := condition_status hc ValidOIDCConfiguration in
  let awsIdentityStatus := condition_status hc ValidAWSIdentityProvider in
  if bool_decide (oidcStatus = ConditionFalse) || bool_decide (awsIdentityStatus = ConditionFalse)
  then CredentialStatusInvalid
  else if bool_decide (oidcStatus = ConditionTrue) && bool_decide (awsIdentityStatus = ConditionTrue)
  then CredentialStatusValid
  else CredentialStatusUnknown.

Definition in_namespace (ns : string) (l : list (Key * Obj)) : list (Key * Obj) :=
  List.filter (λ p, str_eqb (kNamespace p.1) ns) l.

(** A loop that goes on after errors and collects them. *)
Fixpoint for_collect {A} (l : list A) (body : A → M unit) : M (list api_error) :=
  match l with
  | [] => mret []
  | x :: l => λ w,
      match body x w with
      | (Panic, w') => (Panic, w')
      | (Throw e, w') => (errs ← for_collect l body; mret (e :: errs)) w'
      | (Ret _, w') => for_collect l body w'
      end
  end.

(** [func (AWS) DeleteOrphanedMachines(ctx, c, hc, controlPlaneNamespace) error] *)
Definition DeleteOrphanedMachines (controlPlaneNamespace : string) : M unit :=
  hc ← theHC;
  if bool_decide (GetCredentialStatus hc = CredentialStatusValid) then mret () else
  awsMachineList ← wrap "failed to list AWSMachines" (read (sList KAWSMachine));
  errs ← for_collect (in_namespace controlPlaneNamespace awsMachineList) (λ p,
    match oDeletionTimestamp p.2 with
    | None => mret ()
    | Some _ => wrap "failed to delete machine" (call (sUpdate p.1 (set_finalizers p.2 [])))
    end);
  match errs with [] => mret () | _ => st_throw (OtherError "failed to delete machines") end.

(** [func (r *HostedClusterReconciler) reconcileCAPIFinalizers(ctx, hc, remove) error] *)
Definition reconcileCAPIFinalizers (remove : bool) : M unit :=
  hc ← theHC;
  if mhas (hcAnnotations hc) DisableMachineManagement then mret () else
  st_for CAPIComponents (λ name,
    let k := mkKey KDeployment (cpNamespace hc) name in
    deployment ← find "failed to get CAPI deployment" k;
    match deployment with
    | None => mret ()
    | Some d =>
        let has := bool_decide (ControlPlaneComponentFinalizer ∈ oFinalizers d) in
        if remove then
          if has then wrap "error adding finalizer to CAPI deployment"
            (call (sUpdate k (set_finalizers d (remove_finalizer ControlPlaneComponentFinalizer (oFinalizers d)))))
          else mret ()
        else
          if negb has then wrap "error adding finalizer to CAPI deployment"
            (call (sUpdate k (set_finalizers d (oFinalizers d ++ [ControlPlaneComponentFinalizer]))))
          else mret ()
    end).

(** The deletion of the CAPI cluster in [delete]: whether to wait for it. *)
Definition deleteCAPICluster : M bool :=
  hc ← theHC;
  if negb (str_eqb (hcInfraID hc) "") then
    exists_ ← DeleteIfNeeded (capiKey hc);
    _ ← (if bool_decide (hcPlatform hc = AWSPlatform) then DeleteOrphanedMachines (cpNamespace hc) else mret ());
    if (exists_ : bool) then mret true
    else
      _ ← wrap "failed to remove finalizer from managed deployments" (reconcileCAPIFinalizers true);
      mret false
  else mret false.

(** The deletion of the monitoring dashboard in [delete]. *)
Definition deleteMonitoringDashboard : M unit :=
  hc ← theHC;
  if MonitoringDashboards r then
    let k := mkKey KConfigMap "openshift-config-managed" ("hc-" +:+ hcNamespace hc +:+ "-" +:+ hcName hc) in
    dashboard ← find "failed to get monitoring dashboard" k;
    match dashboard with
    | None => mret ()
    | Some _ => ignore_missing "failed to delete monitoring dashboard" (call (sDelete k))
    end
  else mret ().

(** [p.DeleteCredentials]: only the Agent platform has anything to delete. *)
Definition DeleteCredentials (controlPlaneNamespace : string) : M unit :=
  hc ← theHC;
  if bool_decide (hcPlatform hc = AgentPlatform) then
    match hcAgentNamespace hc with
    | None => st_panic
    | Some ns =>
        _ ← wrap "failed to clean up CAPI provider rolebinding"
              (DeleteIfNeeded (mkKey KRoleBinding ns ("cluster-api-agent-" +:+ controlPlaneNamespace)));
        mret ()
    end
  else mret ().

(** [c.List] whose not-found error is ignored, in a namespace *)
Definition list_in (msg : string) (kind : Kind) (ns : string) : M (list (Key * Obj)) := λ w,
  match sList kind (wStore w) with
  | Ret l => (Ret (in_namespace ns l), w)
  | Throw e => if IsNotFound e then (Ret [], w) else (Throw (Wrapped msg e), w)
  | Panic => (Panic, w)
  end.

(** [func deleteAWSEndpointServices(ctx, c, hc, namespace) (bool, error)] *)
Definition deleteAWSEndpointServices (namespace : string) : M bool :=
  hc ← theHC;
  items ← list_in "error listing awsendpointservices" KAWSEndpointService namespace;
  _ ← st_for items (λ ep,
    match oDeletionTimestamp ep.2 with
    | Some t =>
        if bool_decide (GetCredentialStatus hc = CredentialStatusValid)
           && (time_sub now t <? awsEndpointDeletionGracePeriod)%Z
        then mret ()
        else if bool_decide (cpoFinalizer ∈ oFinalizers ep.2)
        then wrap "failed to remove finalizer from awsendpointservice"
               (call (sUpdate ep.1 (set_finalizers ep.2 (remove_finalizer cpoFinalizer (oFinalizers ep.2)))))
        else mret ()
    | None => ignore_missing "error deleting awsendpointservices" (call (sDelete ep.1))
    end);
  mret (negb (length items =? 0)%nat).

(** [func deleteGCPPrivateServiceConnect(ctx, c, hc, namespace) (bool, error)] *)
Definition deleteGCPPrivateServiceConnect (namespace : string) : M bool :=
  items ← list_in "error listing gcpprivateserviceconnects" KGCPPrivateServiceConnect namespace;
  _ ← st_for items (delete_listed "error deleting gcpprivateserviceconnect");
  mret (negb (length items =? 0)%nat).

(** The platform's endpoints in [delete]: whether to wait for them. *)
Definition deleteEndpoints : M bool :=
  hc ← theHC;
  if bool_decide (hcPlatform hc = AWSPlatform) then deleteAWSEndpointServices (cpNamespace hc)
  else if bool_decide (hcPlatform hc = GCPPlatform) then deleteGCPPrivateServiceConnect (cpNamespace hc)
  else mret false.

(** [func deleteControlPlaneOperatorRBAC(ctx, c, rbacNamespace, controlPlaneNamespace) error] *)
Definition deleteControlPlaneOperatorRBAC (rbacNamespace controlPlaneNamespace : string) : M unit :=
  _ ← DeleteIfNeeded (mkKey KRole rbacNamespace ("control-plane-operator-" +:+ controlPlaneNamespace));
  _ ← DeleteIfNeeded (mkKey KRoleBinding rbacNamespace ("control-plane-operator-" +:+ controlPlaneNamespace));
  mret ().

(** The roles and role bindings deleted in [delete]. *)
Definition deleteRBAC : M unit :=
  hc ← theHC;
  _ ← (if hasCapabilityRoute r then
         _ ← wrap "failed to clean up control plane operator ingress RBAC"
               (deleteControlPlaneOperatorRBAC "openshift-ingress" (cpNamespace hc));
         wrap "failed to clean up control plane operator ingress operator RBAC"
           (deleteControlPlaneOperatorRBAC "openshift-ingress-operator" (cpNamespace hc))
       else mret ());
  _ ← DeleteIfNeeded (mkKey KClusterRoleBinding "" ("hypershift-cluster-api-" +:+ cpNamespace hc));
  mret ().

(** [oidcDocumentGenerators()], its keys *)
Definition oidcDocumentPaths : list string := ["/.well-known/openid-configuration"; "/openid/v1/jwks"].

(** The keys of the documents in the bucket. *)
Definition oidcDocumentKeys (hc : HostedCluster) : list string :=
  (λ path, hcInfraID hc +:+ path) <$> oidcDocumentPaths.

(** [func (r *HostedClusterReconciler) cleanupOIDCBucketData(ctx, log, hcluster) error]:
the finalizer leaves the object in memory before the update; the keys that S3
reports as not deleted are ignored. *)
Definition cleanupOIDCBucketData : M unit :=
  hc ← theHC;
  if negb (bool_decide (oidcDocumentsFinalizer ∈ hcFinalizers hc)) then mret () else
  if str_eqb (OIDCStorageProviderS3BucketName r) "" || negb (hasS3Client r) then
    st_throw (OtherError "hypershift wasn't configured with AWS credentials and a bucket")
  else
    _ ← call (λ s, match DeleteObjects (OIDCStorageProviderS3BucketName r) (oidcDocumentKeys hc) s with
                   | (Ret _, s') | (Throw NoSuchBucket, s') => (Ret (), s')
                   | (Throw (S3Failed m), s') => (Throw (OtherError ("failed to delete OIDC objects: " +:+ m)), s')
                   | (Panic, s') => (Panic, s')
                   end);
    _ ← putHC (hc_with hc (remove_finalizer oidcDocumentsFinalizer (hcFinalizers hc)) (hcConditions hc));
    wrap "failed to update hostedcluster after removing finalizer" updateHC.

(** [r.KubevirtInfraClients.Delete(hc.Spec.InfraID)] *)
Definition deleteInfraClient : M unit := λ w,
  (Ret (), mkWorld (wStore w) (wHC w) (wInfraClients w ∖ {[hcInfraID (wHC w)]})).

(** [func (r *HostedClusterReconciler) delete(ctx, hc) (bool, error)];
[platform.GetPlatform] without a pull secret succeeds on every platform of the
API. *)
Definition delete : M bool :=
  hc ← theHC;
  _ ← pauseCAPICluster false;
  _ ← propagateCleanupAnnotation;
  _ ← deleteNodePools (hcNamespace hc) (hcName hc);
  waiting ← deleteCAPICluster;
  if (waiting : bool) then mret false else
  _ ← deleteMonitoringDashboard;
  _ ← DeleteCredentials (cpNamespace hc);
  waiting ← deleteEndpoints;
  if (waiting : bool) then mret false else
  _ ← deleteRBAC;
  exists_ ← DeleteIfNeeded (hcpKey hc);
  if (exists_ : bool) then mret false else
  _ ← wrap "failed to clean up OIDC bucket data" cleanupOIDCBucketData;
  _ ← deleteInfraClient;
  updated ← theHC;
  if has_annotation updated SkipControlPlaneNamespaceDeletionAnnotation "true" then mret true else
  exists_ ← DeleteIfNeeded (nsKey hc);
  mret (negb exists_).

(** *** The start of [reconcile] *)

(** [meta.SetStatusCondition] on the object in memory: whether it changed *)
Definition setCondition (c : Condition) : M bool := λ w,
  let cs := Meta.SetStatusCondition now (hcConditions (wHC w)) c in
  (Ret (negb (bool_decide (cs = hcConditions (wHC w)))),
   mkWorld (wStore w) (hc_with (wHC w) (hcFinalizers (wHC w)) cs) (wInfraClients w)).

Definition with_generation (g : Z) (c : Condition) : Condition :=
  mkCondition (cType c) (cStatus c) g (cLastTransitionTime c) (cReason c) (cMessage c).
Definition unknown_condition (t : string) (g : Z) : Condition :=
  mkCondition t ConditionUnknown g zero_time StatusUnknownReason "".

(** The condition on the AWS identity provider, carried over from the control
plane. *)
Definition bubbleUpIdentityProvider (hcp : option Obj) : M unit :=
  hc ← theHC;
  if bool_decide (hcPlatform hc = AWSPlatform) then
    updated ← setCondition
      (match hcp ≫= λ o, Meta.FindStatusCondition (oConditions o) ValidAWSIdentityProvider with
       | Some c => with_generation (hcGeneration hc) c
       | None => unknown_condition ValidAWSIdentityProvider (hcGeneration hc)
       end);
    if (updated : bool) then wrap "failed to update status" updateHCStatus else mret ()
  else mret ().

(** A condition of a control plane that is being deleted, carried over when its
message is new. *)
Definition bubbleUpDeletion (hcp : Obj) (t : string) : M unit :=
  hc ← theHC;
  let freshCondition :=
    match Meta.FindStatusCondition (oConditions hcp) t with
    | Some c => c | None => unknown_condition t (hcGeneration hc) end in
  if match Meta.FindStatusCondition (hcConditions hc) t with
     | None => true
     | Some old => negb (str_eqb (cMessage old) (cMessage freshCondition))
     end
  then
    _ ← setCondition (with_generation (hcGeneration hc) freshCondition);
    wrap "failed to update status" updateHCStatus
  else mret ().

(** [deleteReferencedResourceAnnotation], on the secrets and config maps of the
HostedCluster's namespace *)
Definition deleteReferencedResourceAnnotations (kind : Kind) : M unit :=
  hc ← theHC;
  let key := referencedResourceAnnotationPrefix +:+ hcName hc in
  l ← wrap "failed to list" (read (sList kind));
  st_for (in_namespace (hcNamespace hc) l) (λ p,
    if mhas (oAnnotations p.2) key
    then wrap "failed to delete referenced resource annotation"
           (call (sUpdate p.1 (set_annotations p.2 (base.delete key (oAnnotations p.2)))))
    else mret ()).

Record Result : Type := mkResult { RequeueAfter : Duration }.

(** The deletion branch of [reconcile]: [ParseDuration] of the annotation was
successful and gave [hcDestroyGracePeriod]. *)
Definition deleteOwned (kind : Kind) : M unit :=
  hc ← theHC;
  l ← wrap "failed to list" (read (sListOwned kind (hcNamespace hc) (hcName hc)));
  if (0 <? length l)%nat
  then wrap "failed to delete" (call (sDeleteAllOwned kind (hcNamespace hc) (hcName hc)))
  else mret ().

Definition destroyed_condition (hc : HostedCluster) (hcDestroyGracePeriod : Duration) : Condition :=
  mkCondition HostedClusterDestroyed ConditionTrue (hcGeneration hc) now "WaitingForGracePeriod"
    ("Grace period set: " +:+ dur_string hcDestroyGracePeriod).

Definition removeHostedClusterFinalizer : M unit :=
  hc ← theHC;
  if bool_decide (HostedClusterFinalizer ∈ hcFinalizers hc) then
    _ ← putHC (hc_with hc (remove_finalizer HostedClusterFinalizer (hcFinalizers hc)) (hcConditions hc));
    wrap "failed to remove finalizer from hostedcluster" updateHC
  else mret ().

Definition reconcileDeletion (hcDestroyGracePeriod : Duration) : M Result :=
  hc ← theHC;
  let hostedClusterDestroyedCondition := Meta.FindStatusCondition (hcConditions hc) HostedClusterDestroyed in
  completed ←
    (if match hostedClusterDestroyedCondition with
        | None => true
        | Some c => negb (bool_decide (cStatus c = ConditionTrue))
        end
     then wrap "failed to delete hostedcluster" delete
     else mret true);
  if negb (completed : bool) then mret (mkResult clusterDeletionRequeueDuration) else
  _ ← deleteOwned KClusterRole;
  _ ← deleteOwned KClusterRoleBinding;
  if (0 <? hcDestroyGracePeriod)%Z then
    match hostedClusterDestroyedCondition with
    | None =>
        hc ← theHC;
        _ ← setCondition (destroyed_condition hc hcDestroyGracePeriod);
        _ ← wrap "failed to update status" updateHCStatus;
        mret (mkResult hcDestroyGracePeriod)
    | Some c =>
        if (time_sub now (cLastTransitionTime c) <? hcDestroyGracePeriod)%Z
        then mret (mkResult (to_int64 (hcDestroyGracePeriod - time_sub now (cLastTransitionTime c))))
        else _ ← removeHostedClusterFinalizer; mret (mkResult 0)
    end
  else _ ← removeHostedClusterFinalizer; mret (mkResult 0).

(** [func (r *HostedClusterReconciler) reconcile(ctx, req, log, hcluster)] up to
and including its deletion branch; [rest] is what it does for a cluster that is
not being deleted, [ParseDuration] is [time.ParseDuration]. *)
Definition reconcile (ParseDuration : string → go api_error Duration) (rest : M Result) : M Result :=
  hc ← theHC;
  hcp ← find "failed to get hostedcontrolplane" (hcpKey hc);
  _ ← bubbleUpIdentityProvider hcp;
  _ ← (match hcp with
       | Some o =>
           match oDeletionTimestamp o with
           | Some _ =>
               _ ← bubbleUpDeletion o AWSDefaultSecurityGroupDeleted;
               _ ← deleteReferencedResourceAnnotations KSecret;
               _ ← deleteReferencedResourceAnnotations KConfigMap;
               bubbleUpDeletion o CloudResourcesDestroyed
           | None => mret ()
           end
       | None => mret ()
       end);
  hc ← theHC;
  hcDestroyGracePeriod ←
    (if negb (str_eqb (mget (hcAnnotations hc) HCDestroyGracePeriodAnnotation) "")
     then wrap "failed to parse annotation" (read (λ _, ParseDuration (mget (hcAnnotations hc) HCDestroyGracePeriodAnnotation)))
     else mret 0%Z);
  match hcDeletionTimestamp hc with
  | Some _ => reconcileDeletion hcDestroyGracePeriod
  | None => rest
  end.

End Deletion.
Arguments World S : clear implicits.

End HostedClusterDeletion.
