(* ===== verification/HostedClusterDeletionProofs.v ===== *)
(** Properties of the deletion of a HostedCluster: the control plane is asked to
go only after the machines' cluster and the private endpoints are gone, its
namespace only after the control plane is gone, the finalizer only after all of
it, and a call that does not finish waits for an object whose deletion it
requested. *)
From S2P Require Import Prelude Api Upsert HostedCluster HostedClusterDeletion.

Module HostedClusterDeletionProofs.
Import HostedClusters HostedClusterDeletion.

(** *** What the controller relies on *)

(** The object as the server marks it for deletion. *)
Definition requested (o : Obj) (t : Time) : Obj :=
  mkObj (Some t) (oFinalizers o) (oAnnotations o) (oPaused o) (oClusterName o) (oConditions o).

(** The fields of a HostedCluster an update of its metadata or status keeps. *)
Record same_cluster (hc hc' : HostedCluster) : Prop := {
  sc_namespace : hcNamespace hc' = hcNamespace hc;
  sc_name : hcName hc' = hcName hc;
  sc_infra : hcInfraID hc' = hcInfraID hc;
  sc_platform : hcPlatform hc' = hcPlatform hc;
  sc_annotations : hcAnnotations hc' = hcAnnotations hc;
}.

(** [view] is what the API server stores, [hcStored] the HostedCluster being
reconciled, [documents] the keys in a bucket.  A write that fails may have taken
effect all the same. *)
Class CloudLaws (S : Type) `{!Cloud S} : Type := {
  view : S → gmap Key Obj;
  hcStored : S → option HostedCluster;
  sGet_stored k s o : sGet k s = Ret o ↔ view s !! k = Some o;
  sGet_missing k s e : sGet k s = Throw e → IsNotFound e || IsNoMatchError e = true → view s !! k = None;
  sList_stored kind s l : sList kind s = Ret l →
    ∀ k o, (k, o) ∈ l ↔ kKind k = kind ∧ view s !! k = Some o;
  sList_missing kind s e k : sList kind s = Throw e → IsNotFound e = true → kKind k = kind → view s !! k = None;
  sDelete_effect k s r s' : sDelete k s = (r, s') → hcStored s' = hcStored s ∧
    (view s' = view s ∨ view s' = base.delete k (view s) ∨
     ∃ o t, view s !! k = Some o ∧ view s' = <[k := requested o t]> (view s));
  sDelete_requested k s s' o : sDelete k s = (Ret (), s') → view s' !! k = Some o → is_Some (oDeletionTimestamp o);
  sDelete_missing k s e s' : sDelete k s = (Throw e, s') → IsNotFound e = true → view s' !! k = None;
  sUpdate_effect k o s r s' : sUpdate k o s = (r, s') → hcStored s' = hcStored s ∧
    (view s' = view s ∨ view s' = <[k := o]> (view s) ∨
     (view s' = base.delete k (view s) ∧ oFinalizers o = [] ∧ is_Some (oDeletionTimestamp o)));
  sDeleteAllOwned_effect kind ns n s r s' : sDeleteAllOwned kind ns n s = (r, s') →
    hcStored s' = hcStored s ∧ ∀ k, kKind k ≠ kind → view s' !! k = view s !! k;
  hcUpdate_effect hc s r s' : hcUpdate hc s = (r, s') → view s' = view s ∧
    (hcStored s' = hcStored s ∨ hcFinalizers <$> hcStored s' = Some (hcFinalizers hc) ∨
     (hcStored s' = None ∧ hcFinalizers hc = []));
  hcUpdate_returned hc s hc' s' : hcUpdate hc s = (Ret hc', s') →
    same_cluster hc hc' ∧ hcFinalizers hc' = hcFinalizers hc;
  hcStatusUpdate_effect hc s r s' : hcStatusUpdate hc s = (r, s') → view s' = view s ∧
    hcFinalizers <$> hcStored s' = hcFinalizers <$> hcStored s;
  DeleteObjects_effect b l s r s' : DeleteObjects b l s = (r, s') →
    view s' = view s ∧ hcStored s' = hcStored s;
  documents : S → string → gset string;
  DeleteObjects_deleted b l s failed s' : DeleteObjects b l s = (Ret failed, s') →
    ∀ k, k ∈ l → k ∈ documents s' b → k ∈ failed;
  DeleteObjects_no_bucket b l s s' : DeleteObjects b l s = (Throw NoSuchBucket, s') → documents s' b = ∅;
  sDelete_documents k s r s' : sDelete k s = (r, s') → documents s' = documents s;
  hcUpdate_documents hc s r s' : hcUpdate hc s = (r, s') → documents s' = documents s;
}.

Section Proofs.
Context {S : Type} `{!Cloud S} `{!CloudLaws S} (r : Reconciler) (now : Time).

Abbreviation world := (World S).
Abbreviation at_ w k := (view (wStore w) !! k).

(** *** Frames *)

(** [m] touches objects of the kinds [K] only, and not the HostedCluster. *)
Definition frame (K : list Kind) {A} (m : M A) : Prop := ∀ (w : world) res w',
  m w = (res, w') → wHC w' = wHC w ∧ hcStored (wStore w') = hcStored (wStore w) ∧
  ∀ k, kKind k ∉ K → at_ w' k = at_ w k.

Lemma frame_mono K K' {A} (m : M A) : K ⊆ K' → frame K m → frame K' m.
Proof. intros HK Hm w res w' E. destruct (Hm w res w' E) as (? & ? & Hf). split_and!; auto. Qed.

Lemma frame_ret K {A} (a : A) : frame K (mret a).
Proof. intros w res w' E. injection E as <- <-. done. Qed.

Lemma frame_throw K {A} e : frame K (st_throw e : M A).
Proof. intros w res w' E. injection E as <- <-. done. Qed.

Lemma frame_panic K {A} : frame K (st_panic : M A).
Proof. intros w res w' E. injection E as <- <-. done. Qed.

Lemma frame_read K {A} (f : S → go api_error A) : frame K (read f).
Proof. intros w res w' E. injection E as <- <-. done. Qed.

Lemma frame_theHC K : frame K theHC.
Proof. intros w res w' E. injection E as <- <-. done. Qed.

Lemma frame_bind_ret K {A B} (m : M A) (f : A → M B) :
  frame K m → (∀ a w w1, m w = (Ret a, w1) → frame K (f a)) → frame K (m ≫= f).
Proof.
  intros Hm Hf w res w' E. pose proof E as E0. unfold mbind, st_bind in E0.
  destruct (m w) as [[a|e|] w1] eqn:E1; [|by simplify_eq; eapply Hm..].
  destruct (Hm _ _ _ E1) as (H1 & H2 & H3). destruct (Hf a _ _ E1 _ _ _ E0) as (H4 & H5 & H6).
  split_and!; [congruence|congruence|]. intros k Hk. rewrite H6 by done. by apply H3.
Qed.

Lemma frame_bind K {A B} (m : M A) (f : A → M B) :
  frame K m → (∀ a, frame K (f a)) → frame K (m ≫= f).
Proof. intros Hm Hf. apply frame_bind_ret; auto. Qed.

Lemma wrap_returned {A} msg (m : M A) (w : world) a w' : wrap msg m w = (Ret a, w') → m w = (Ret a, w').
Proof. unfold wrap. by destruct (m w) as [[]]. Qed.

Lemma frame_wrap K {A} msg (m : M A) : frame K m → frame K (wrap msg m).
Proof.
  intros Hm w res w' E. unfold wrap in E. destruct (m w) as [[a|e|] w1] eqn:E1;
    simplify_eq; by eapply Hm.
Qed.

Lemma frame_ignore K msg (m : M unit) : frame K m → frame K (ignore_missing msg m).
Proof.
  intros Hm w res w' E. unfold ignore_missing in E.
  destruct (m w) as [[a|e|] w1] eqn:E1; [|destruct (IsNotFound e)|]; simplify_eq; by eapply Hm.
Qed.

Lemma frame_find K msg k : frame K (find msg k).
Proof. intros w res w' E. unfold find in E. repeat case_match; by simplify_eq. Qed.

Lemma frame_list_in K msg kind ns : frame K (list_in msg kind ns).
Proof. intros w res w' E. unfold list_in in E. repeat case_match; by simplify_eq. Qed.

Lemma frame_for K {A} (l : list A) (body : A → M unit) :
  (∀ x, x ∈ l → frame K (body x)) → frame K (st_for l body).
Proof.
  induction l as [|x l IH]; intros Hb; simpl; [apply frame_ret|].
  apply frame_bind; [apply Hb; left|]. intros _. apply IH. intros y Hy. apply Hb. by right.
Qed.

Lemma frame_collect K {A} (l : list A) (body : A → M unit) :
  (∀ x, x ∈ l → frame K (body x)) → frame K (for_collect l body).
Proof.
  induction l as [|x l IH]; intros Hb; simpl; [apply frame_ret|].
  assert (Hl : frame K (for_collect l body)) by (apply IH; intros y Hy; apply Hb; by right).
  intros w res w' E. destruct (body x w) as [o w1] eqn:E1.
  destruct (Hb x (list_elem_of_here _ _) _ _ _ E1) as (H1 & H2 & H3).
  assert (Hrest : frame K (match o with
    | Panic => st_panic | Throw e => errs ← for_collect l body; mret (e :: errs)
    | Ret _ => for_collect l body end)).
  { destruct o; [done|apply frame_bind; [done|intros; apply frame_ret]|apply frame_panic]. }
  assert (E' : (match o with
    | Panic => st_panic | Throw e => errs ← for_collect l body; mret (e :: errs)
    | Ret _ => for_collect l body end) w1 = (res, w')) by (by destruct o).
  destruct (Hrest _ _ _ E') as (H4 & H5 & H6). split_and!; [congruence..|].
  intros k Hk. rewrite H6 by done. by apply H3.
Qed.

Lemma frame_sDelete K k : kKind k ∈ K → frame K (call (sDelete k)).
Proof.
  intros HK w res w' E. unfold call in E. destruct (sDelete k (wStore w)) as [a s'] eqn:Ed. simplify_eq. simpl.
  destruct (sDelete_effect _ _ _ _ Ed) as [Hh Hv]. split_and!; [done..|]. intros k' Hk'.
  assert (k ≠ k') by (intros ->; done).
  destruct Hv as [->|[->|(o & t & _ & ->)]]; by rewrite ?lookup_delete_ne, ?lookup_insert_ne by done.
Qed.

Lemma frame_sUpdate K k o : kKind k ∈ K → frame K (call (sUpdate k o)).
Proof.
  intros HK w res w' E. unfold call in E. destruct (sUpdate k o (wStore w)) as [a s'] eqn:Ed. simplify_eq. simpl.
  destruct (sUpdate_effect _ _ _ _ _ Ed) as [Hh Hv]. split_and!; [done..|]. intros k' Hk'.
  assert (k ≠ k') by (intros ->; done).
  destruct Hv as [->|[->|[-> _]]]; by rewrite ?lookup_delete_ne, ?lookup_insert_ne by done.
Qed.

Lemma frame_sDeleteAllOwned K kind ns n : kind ∈ K → frame K (call (sDeleteAllOwned kind ns n)).
Proof.
  intros HK w res w' E. unfold call in E. destruct (sDeleteAllOwned kind ns n (wStore w)) as [a s'] eqn:Ed.
  simplify_eq. simpl. destruct (sDeleteAllOwned_effect _ _ _ _ _ _ Ed) as [Hh Hv]. split_and!; [done..|].
  intros k' Hk'. apply Hv. intros <-. done.
Qed.

Lemma frame_DeleteIfNeeded K k : kKind k ∈ K → frame K (DeleteIfNeeded k).
Proof.
  intros HK w res w' E. unfold DeleteIfNeeded in E.
  repeat case_match; simplify_eq; try done; by eapply frame_sDelete.
Qed.

(** The kinds a list of objects can have. *)
Lemma wrap_read_inv {A} msg (f : S → go api_error A) (w : world) a w1 :
  wrap msg (read f) w = (Ret a, w1) → f (wStore w) = Ret a ∧ w1 = w.
Proof. unfold wrap, read. destruct (f (wStore w)); intros E; by simplify_eq. Qed.

Lemma sList_kind msg kind (w : world) l w1 :
  wrap msg (read (sList kind)) w = (Ret l, w1) → ∀ p, p ∈ l → kKind p.1 = kind.
Proof.
  intros [E _]%wrap_read_inv [k o] Hp. by apply (sList_stored _ _ _ E) in Hp as [? _].
Qed.

Lemma in_namespace_elem ns l p : p ∈ in_namespace ns l ↔ p ∈ l ∧ kNamespace p.1 = ns.
Proof. unfold in_namespace. rewrite elem_of_filter_bool, str_eqb_eq. done. Qed.

Lemma list_in_spec msg kind ns (w : world) l w1 :
  list_in msg kind ns w = (Ret l, w1) → w1 = w ∧
  (∀ p, p ∈ l → kKind p.1 = kind ∧ kNamespace p.1 = ns) ∧
  (∀ k o, kKind k = kind → kNamespace k = ns → at_ w k = Some o → (k, o) ∈ l).
Proof.
  unfold list_in. destruct (sList kind (wStore w)) as [l0|e|] eqn:E; intros Er; [|destruct (IsNotFound e) eqn:En|];
    simplify_eq; split_and!; try done.
  - intros [k o] [Hp Hn]%in_namespace_elem. apply (sList_stored _ _ _ E) in Hp. naive_solver.
  - intros k o Hk Hn Hv. apply in_namespace_elem. split; [|done]. by apply (sList_stored _ _ _ E).
  - by intros p ?%not_elem_of_nil.
  - intros k o Hk _ Hv. by rewrite (sList_missing _ _ _ _ E En Hk) in Hv.
Qed.

(** A kind is in a list of kinds. *)
Ltac kind := simpl; repeat first [apply list_elem_of_here | apply list_elem_of_further].

(** A computation built from reads, and writes of the kinds of the frame. *)
Ltac framed :=
  repeat match goal with
  | |- frame _ (mret _) => apply frame_ret
  | |- frame _ (st_throw _) => apply frame_throw
  | |- frame _ st_panic => apply frame_panic
  | |- frame _ (read _) => apply frame_read
  | |- frame _ theHC => apply frame_theHC
  | |- frame _ (find _ _) => apply frame_find
  | |- frame _ (list_in _ _ _) => apply frame_list_in
  | |- frame _ (wrap _ _) => apply frame_wrap
  | |- frame _ (ignore_missing _ _) => apply frame_ignore
  | |- frame _ (call (sDelete _)) => apply frame_sDelete; kind; fail
  | |- frame _ (call (sUpdate _ _)) => apply frame_sUpdate; kind; fail
  | |- frame _ (DeleteIfNeeded _) => apply frame_DeleteIfNeeded; kind; fail
  | |- frame _ (st_for _ _) => apply frame_for; intros ? ?
  | |- frame _ (_ ≫= _) => apply frame_bind; [|intros ?]
  | |- frame _ (if ?b then _ else _) => destruct b
  | |- frame _ (match ?x with _ => _ end) => destruct x
  end.

Lemma frame_delete_listed K msg p : kKind p.1 ∈ K → frame K (delete_listed msg p).
Proof. intros HK. unfold delete_listed. framed. by apply frame_sDelete. Qed.

Lemma frame_pause b : frame [KCAPICluster] (pauseCAPICluster b).
Proof. unfold pauseCAPICluster. framed. Qed.

Lemma frame_propagate : frame [KHostedControlPlane] propagateCleanupAnnotation.
Proof. unfold propagateCleanupAnnotation. framed. Qed.

Lemma frame_deleteNodePools ns n : frame [KNodePool] (deleteNodePools ns n).
Proof.
  unfold deleteNodePools, listNodePools. apply frame_bind_ret; [framed|].
  intros l w w1 E. apply frame_for. intros p Hp. apply frame_delete_listed.
  assert (kKind p.1 = KNodePool) as ->; [|left].
  apply wrap_returned in E. apply st_bind_Ret in E as (l0 & w3 & E0 & E2). injection E2 as <- <-.
  apply elem_of_filter_bool in Hp as [Hp _]. by eapply sList_kind.
Qed.

Lemma frame_orphans ns : frame [KAWSMachine] (DeleteOrphanedMachines ns).
Proof.
  unfold DeleteOrphanedMachines. apply frame_bind; [framed|]. intros hc.
  destruct (bool_decide _); [framed|]. apply frame_bind_ret; [framed|]. intros l w w1 E.
  apply frame_bind; [|intros; framed]. apply frame_collect. intros p [Hp _]%in_namespace_elem.
  destruct (oDeletionTimestamp p.2); [|framed]. apply frame_wrap, frame_sUpdate.
  rewrite (sList_kind _ _ _ _ _ E p Hp). left.
Qed.

Lemma frame_capi_finalizers b : frame [KDeployment] (reconcileCAPIFinalizers b).
Proof. unfold reconcileCAPIFinalizers. framed. Qed.

Lemma frame_deleteCAPICluster : frame [KCAPICluster; KAWSMachine; KDeployment] deleteCAPICluster.
Proof.
  unfold deleteCAPICluster. framed.
  - eapply frame_mono; [|apply frame_orphans]. set_solver.
  - eapply frame_mono; [|apply frame_capi_finalizers]. set_solver.
Qed.

Lemma frame_dashboard : frame [KConfigMap] (deleteMonitoringDashboard r).
Proof. unfold deleteMonitoringDashboard. framed. Qed.

Lemma frame_credentials ns : frame [KRoleBinding] (DeleteCredentials ns).
Proof. unfold DeleteCredentials. framed. Qed.

Lemma frame_rbac : frame [KRole; KRoleBinding; KClusterRoleBinding] (deleteRBAC r).
Proof. unfold deleteRBAC, deleteControlPlaneOperatorRBAC. framed. Qed.

Lemma frame_endpoint_services ns : frame [KAWSEndpointService] (deleteAWSEndpointServices now ns).
Proof.
  unfold deleteAWSEndpointServices. apply frame_bind; [framed|]. intros hc.
  apply frame_bind_ret; [framed|]. intros l w w1 (_ & Hl & _)%list_in_spec.
  apply frame_bind; [|intros; framed]. apply frame_for. intros p Hp. destruct (Hl p Hp) as [Hk _].
  destruct (oDeletionTimestamp p.2); framed; first [apply frame_sDelete|apply frame_sUpdate]; rewrite Hk; left.
Qed.

Lemma frame_psc ns : frame [KGCPPrivateServiceConnect] (deleteGCPPrivateServiceConnect ns).
Proof.
  unfold deleteGCPPrivateServiceConnect. apply frame_bind_ret; [framed|].
  intros l w w1 (_ & Hl & _)%list_in_spec. apply frame_bind; [|intros; framed].
  apply frame_for. intros p Hp. destruct (Hl p Hp) as [Hk _]. apply frame_delete_listed. rewrite Hk. left.
Qed.

Lemma frame_endpoints : frame [KAWSEndpointService; KGCPPrivateServiceConnect] (deleteEndpoints now).
Proof.
  unfold deleteEndpoints. framed.
  - eapply frame_mono; [|apply frame_endpoint_services]. set_solver.
  - eapply frame_mono; [|apply frame_psc]. set_solver.
Qed.

(** *** Objects whose deletion is requested *)

Definition marked (w : world) (k : Key) : Prop := ∀ o, at_ w k = Some o → is_Some (oDeletionTimestamp o).

Lemma sDelete_marks k k' (w : world) res w' :
  call (sDelete k) w = (res, w') → marked w k' → marked w' k'.
Proof.
  unfold call. destruct (sDelete k (wStore w)) as [a s'] eqn:E. intros Er Hm o. simplify_eq. simpl.
  destruct (sDelete_effect _ _ _ _ E) as [_ [->|[->|(o' & t & _ & ->)]]]; [apply Hm| |].
  - rewrite lookup_delete_Some. intros [_ ?]. by apply Hm.
  - rewrite lookup_insert_Some. intros [[_ <-]|[_ ?]]; [done|by apply Hm].
Qed.

Lemma sDelete_Ret_marks k (w : world) w' : call (sDelete k) w = (Ret (), w') → marked w' k.
Proof.
  unfold call. destruct (sDelete k (wStore w)) as [a s'] eqn:E. intros Er o Ho. simplify_eq. simpl in Ho.
  by eapply sDelete_requested.
Qed.

Lemma sUpdate_marks k o k' (w : world) res w' :
  is_Some (oDeletionTimestamp o) → call (sUpdate k o) w = (res, w') → marked w k' → marked w' k'.
Proof.
  intros Hd. unfold call. destruct (sUpdate k o (wStore w)) as [a s'] eqn:E. intros Er Hm x. simplify_eq. simpl.
  destruct (sUpdate_effect _ _ _ _ _ E) as [_ [->|[->|[-> _]]]]; [apply Hm| |].
  - rewrite lookup_insert_Some. intros [[_ <-]|[_ ?]]; [done|by apply Hm].
  - rewrite lookup_delete_Some. intros [_ ?]. by apply Hm.
Qed.

Lemma gone_marked w k : at_ w k = None → marked w k.
Proof. intros E o Ho. by rewrite E in Ho. Qed.

Lemma DeleteIfNeeded_gone k (w w' : world) : DeleteIfNeeded k w = (Ret false, w') → at_ w' k = None.
Proof.
  unfold DeleteIfNeeded. destruct (sGet k (wStore w)) as [o|e|] eqn:E; [|destruct (_ || _) eqn:En|]; intros Er;
    simplify_eq; [|by eapply sGet_missing].
  destruct (oDeletionTimestamp o); [by simplify_eq|].
  destruct (call (sDelete k) w) as [[a|e|] w1] eqn:Ec; [by simplify_eq|destruct (IsNotFound e) eqn:En|]; simplify_eq.
  unfold call in Ec. destruct (sDelete k (wStore w)) as [a s'] eqn:Ed. simplify_eq. simpl.
  by eapply sDelete_missing.
Qed.

Lemma DeleteIfNeeded_waits k (w w' : world) :
  DeleteIfNeeded k w = (Ret true, w') → is_Some (at_ w k) ∧ marked w' k.
Proof.
  unfold DeleteIfNeeded. destruct (sGet k (wStore w)) as [o|e|] eqn:E; [|by repeat case_match|done].
  apply sGet_stored in E. destruct (oDeletionTimestamp o) eqn:Ho.
  - intros Er. simplify_eq. rewrite E. split; [done|]. intros o' Ho'. simplify_eq. eauto.
  - destruct (call (sDelete k) w) as [[[]|e|] w1] eqn:Ec; [|by case_match|done]. intros Er. simplify_eq.
    rewrite E. split; [done|]. by eapply sDelete_Ret_marks.
Qed.

(** A loop over listed objects that requests the deletion of those without a
timestamp. *)
Lemma loop_marks (l : list (Key * Obj)) (body : Key * Obj → M unit) (w w' : world) :
  (∀ p w1 res w2 k, p ∈ l → body p w1 = (res, w2) → marked w1 k → marked w2 k) →
  (∀ p w1 w2, p ∈ l → oDeletionTimestamp p.2 = None → body p w1 = (Ret (), w2) → marked w2 p.1) →
  (∀ p, p ∈ l → is_Some (oDeletionTimestamp p.2) → marked w p.1) →
  st_for l body w = (Ret (), w') → (∀ k, marked w k → marked w' k) ∧ ∀ p, p ∈ l → marked w' p.1.
Proof.
  revert w. induction l as [|p l IH]; intros w Hpres Hdo Hini E; simpl in E.
  { injection E as <-. split; [done|]. by intros p ?%not_elem_of_nil. }
  apply st_bind_Ret in E as ([] & w1 & E1 & E2).
  assert (Hp : ∀ k, marked w k → marked w1 k) by (intros k; eapply Hpres; [left|done]).
  destruct (IH w1) as [Hk Hl]; [|  | |done|].
  - intros. eapply (Hpres p0); [by right|done..].
  - intros. eapply (Hdo p0); [by right|done..].
  - intros q Hq Hd. apply Hp, Hini; [by right|done].
  - split; [auto|]. intros q [->|Hq]%elem_of_cons; [|auto]. apply Hk.
    destruct (oDeletionTimestamp p.2) eqn:Hd; [|by eapply Hdo; [left|..]].
    apply Hp, Hini; [left|done].
Qed.

(** *** The order of the deletion *)

(** The objects [delete] waits for. *)
Definition endpoint_of (hc : HostedCluster) (k : Key) : Prop :=
  kNamespace k = cpNamespace hc ∧
  ((hcPlatform hc = AWSPlatform ∧ kKind k = KAWSEndpointService) ∨
   (hcPlatform hc = GCPPlatform ∧ kKind k = KGCPPrivateServiceConnect)).
Definition waited (hc : HostedCluster) (k : Key) : Prop :=
  k = capiKey hc ∨ endpoint_of hc k ∨ k = hcpKey hc ∨ k = nsKey hc.

(** The machines' cluster and the private endpoints are gone. *)
Record infra_gone (hc : HostedCluster) (w : world) : Prop := {
  ig_capi : hcInfraID hc ≠ "" → at_ w (capiKey hc) = None;
  ig_endpoints k : endpoint_of hc k → at_ w k = None;
}.

(** An object that is there and not being deleted. *)
Definition active (w : world) (k : Key) : Prop := ∃ o, at_ w k = Some o ∧ oDeletionTimestamp o = None.

(** The OIDC documents of a cluster are deleted from the bucket, but for those S3
reported as not deleted. *)
Definition documents_deleted (hc : HostedCluster) (s : S) : Prop := ∃ failed,
  (failed = [] ∨ ∃ s1 s2,
     DeleteObjects (OIDCStorageProviderS3BucketName r) (oidcDocumentKeys hc) s1 = (Ret failed, s2)) ∧
  ∀ k, k ∈ oidcDocumentKeys hc → k ∈ documents s (OIDCStorageProviderS3BucketName r) → k ∈ failed.

(** They are when the cluster had some, and they no longer hold it back. *)
Record oidc_cleaned (hc : HostedCluster) (w : world) : Prop := {
  oc_finalizer : oidcDocumentsFinalizer ∉ hcFinalizers (wHC w);
  oc_documents : oidcDocumentsFinalizer ∈ hcFinalizers hc → documents_deleted hc (wStore w);
}.

Lemma oidc_cleaned_frame hc (w w' : world) :
  wHC w' = wHC w → documents (wStore w') = documents (wStore w) → oidc_cleaned hc w → oidc_cleaned hc w'.
Proof.
  intros Hw Hd [Hf Hk]. constructor; [by rewrite Hw|]. unfold documents_deleted in *. by rewrite Hd.
Qed.

(** What a call of [delete] that went from [w] to [w'] and returned [res] did
for the cluster [hc]. *)
Record outcome (hc : HostedCluster) (w w' : world) (res : go api_error bool) : Prop := {
  out_control_plane : active w (hcpKey hc) → ¬ active w' (hcpKey hc) → infra_gone hc w';
  out_namespace : at_ w' (nsKey hc) ≠ at_ w (nsKey hc) → infra_gone hc w' ∧ at_ w' (hcpKey hc) = None;
  out_complete : res = Ret true →
    infra_gone hc w' ∧ at_ w' (hcpKey hc) = None ∧
    (has_annotation hc SkipControlPlaneNamespaceDeletionAnnotation "true" = true ∨ at_ w' (nsKey hc) = None) ∧
    oidc_cleaned hc w';
  out_waiting : res = Ret false → ∃ k, waited hc k ∧ is_Some (at_ w k) ∧ marked w' k;
  out_same : same_cluster hc (wHC w');
}.

(** Until the control plane is asked to go. *)
Record quiet (hc : HostedCluster) (w0 w : world) : Prop := {
  q_hc : wHC w = hc;
  q_hcp : active w0 (hcpKey hc) → active w (hcpKey hc);
  q_new : is_Some (at_ w (hcpKey hc)) → is_Some (at_ w0 (hcpKey hc));
  q_ns : at_ w (nsKey hc) = at_ w0 (nsKey hc);
}.

Lemma same_cluster_refl hc : same_cluster hc hc.
Proof. by constructor. Qed.

Lemma outcome_quiet hc w0 w' res :
  quiet hc w0 w' → (∀ b, res ≠ Ret b) → outcome hc w0 w' res.
Proof.
  intros [<- H1 _ H2] Hres.
  constructor; [by intros ?%H1|done|by intros ?%Hres|by intros ?%Hres|apply same_cluster_refl].
Qed.

Lemma stage_quiet {A} (m : M A) (f : A → M bool) hc w0 (w : world) res w' :
  (∀ r1 w1, m w = (r1, w1) → quiet hc w0 w1) → (m ≫= f) w = (res, w') →
  outcome hc w0 w' res ∨ ∃ a w1, m w = (Ret a, w1) ∧ f a w1 = (res, w') ∧ quiet hc w0 w1.
Proof.
  intros Hq E. unfold mbind, st_bind in E. destruct (m w) as [[a|e|] w1] eqn:E1.
  - right. eauto 10.
  - left. simplify_eq. apply outcome_quiet; [by eapply Hq|done].
  - left. simplify_eq. apply outcome_quiet; [by eapply Hq|done].
Qed.

Lemma quiet_frame {A} K (m : M A) hc w0 (w : world) r1 w1 :
  frame K m → KHostedControlPlane ∉ K → KNamespace ∉ K → quiet hc w0 w → m w = (r1, w1) → quiet hc w0 w1.
Proof.
  intros Hf Hh Hn [? H1 H0 H2] E. destruct (Hf _ _ _ E) as (H3 & _ & H4).
  constructor; [congruence|unfold active in *; by rewrite (H4 (hcpKey hc))|by rewrite H4|by rewrite H4].
Qed.

Lemma stage {A} K (m : M A) (f : A → M bool) hc w0 (w : world) res w' :
  frame K m → KHostedControlPlane ∉ K → KNamespace ∉ K → quiet hc w0 w → (m ≫= f) w = (res, w') →
  outcome hc w0 w' res ∨ ∃ a w1, m w = (Ret a, w1) ∧ f a w1 = (res, w') ∧ quiet hc w0 w1 ∧
    ∀ k, kKind k ∉ K → at_ w1 k = at_ w k.
Proof.
  intros Hf Hh Hn Hq E. destruct (stage_quiet m f hc w0 w res w') as [?|(a & w1 & H1 & H2 & H3)]; [|done|by left|].
  - intros r1 w1. by eapply quiet_frame.
  - right. exists a, w1. destruct (Hf _ _ _ H1) as (_ & _ & ?). auto.
Qed.

Lemma find_spec msg k (w : world) o w1 : find msg k w = (Ret o, w1) → w1 = w ∧ at_ w k = o.
Proof.
  unfold find. destruct (sGet k (wStore w)) as [o'|e|] eqn:E; [|destruct (IsNotFound e) eqn:En|]; intros Er; simplify_eq.
  - split; [done|]. by apply sGet_stored.
  - split; [done|]. eapply sGet_missing; [done|]. by rewrite En.
Qed.

(** A write that does not change the deletion of an object that is not being
deleted leaves it so, and creates no object. *)
Lemma sUpdate_active k o o' (w : world) res w' :
  at_ w k = Some o → oDeletionTimestamp o' = oDeletionTimestamp o → call (sUpdate k o') w = (res, w') →
  active w k → active w' k.
Proof.
  intros Hk Hd E (x & Hx & Hn). rewrite Hk in Hx. injection Hx as <-. unfold call in E.
  destruct (sUpdate k o' (wStore w)) as [a s'] eqn:Eu. simplify_eq. unfold active. simpl.
  destruct (sUpdate_effect _ _ _ _ _ Eu) as [_ [->|[->|(_ & _ & [t Ht])]]].
  - eauto.
  - rewrite lookup_insert_eq. exists o'. split; [done|congruence].
  - congruence.
Qed.

Lemma pause_new b (w : world) r1 w1 :
  pauseCAPICluster b w = (r1, w1) → is_Some (at_ w1 (capiKey (wHC w))) → is_Some (at_ w (capiKey (wHC w))).
Proof.
  unfold pauseCAPICluster. intros E. unfold mbind, st_bind in E. simpl in E.
  destruct (find _ _ w) as [[o|e|] w2] eqn:Ef.
  - apply find_spec in Ef as [-> Ho]. destruct o as [o|]; [by rewrite Ho|]. injection E as _ <-. done.
  - unfold find in Ef. repeat case_match; by simplify_eq.
  - unfold find in Ef. repeat case_match; by simplify_eq.
Qed.

Lemma propagate_quiet hc w0 (w : world) r1 w1 :
  quiet hc w0 w → propagateCleanupAnnotation w = (r1, w1) → quiet hc w0 w1.
Proof.
  intros [Hhc Ha Hn Hns] E. destruct (frame_propagate _ _ _ E) as (H1 & _ & H2).
  assert (Hkeep : (active w (hcpKey hc) → active w1 (hcpKey hc)) ∧
    (is_Some (at_ w1 (hcpKey hc)) → is_Some (at_ w (hcpKey hc)))).
  { unfold propagateCleanupAnnotation, mbind, st_bind in E. simpl in E. rewrite Hhc in E.
    destruct (has_annotation _ _ _); [|by injection E as _ <-].
    destruct (find _ _ w) as [[o|e|] w2] eqn:Ef; [|unfold find in Ef; repeat case_match; by simplify_eq..].
    apply find_spec in Ef as [-> Ho]. destruct o as [o|]; [|by injection E as _ <-].
    destruct (str_eqb _ "true"); simpl in E; [by injection E as _ <-|].
    unfold wrap in E. destruct (call _ w) as [r2 w2] eqn:Ec.
    assert (w2 = w1) as -> by (destruct r2; by simplify_eq).
    split; [|by rewrite Ho]. eapply sUpdate_active; [done| |done]. done. }
  destruct Hkeep. constructor; [congruence|auto|auto|]. rewrite H2; [done|set_solver].
Qed.

Lemma capi_stage (w : world) waiting w1 :
  deleteCAPICluster w = (Ret waiting, w1) →
  if (waiting : bool) then is_Some (at_ w (capiKey (wHC w))) ∧ marked w1 (capiKey (wHC w))
  else hcInfraID (wHC w) ≠ "" → at_ w1 (capiKey (wHC w)) = None.
Proof.
  unfold deleteCAPICluster. intros E. apply st_bind_Ret in E as (hc & w2 & E0 & E). injection E0 as <- <-.
  destruct (str_eqb (hcInfraID (wHC w)) "") eqn:Ei; simpl in E.
  { injection E as <- <-. intros Hne. by apply str_eqb_eq in Ei. }
  apply st_bind_Ret in E as (ex & w2 & E1 & E). apply st_bind_Ret in E as ([] & w3 & E2 & E).
  assert (Hm : ∀ k, kKind k ≠ KAWSMachine → at_ w3 k = at_ w2 k).
  { destruct (bool_decide _).
    - intros k Hk. apply (frame_orphans _ _ _ _ E2). set_solver.
    - injection E2 as ->. done. }
  destruct ex.
  - injection E as <- <-. apply DeleteIfNeeded_waits in E1 as [? Hmark]. split; [done|].
    intros o. rewrite Hm by done. apply Hmark.
  - apply st_bind_Ret in E as ([] & w4 & E3 & E). injection E as <- <-. intros _.
    apply wrap_returned in E3. destruct (frame_capi_finalizers _ _ _ _ E3) as (_ & _ & Hd).
    rewrite Hd by set_solver. rewrite Hm by done. by eapply DeleteIfNeeded_gone.
Qed.

Lemma ignore_Ret msg (m : M unit) (w w' : world) :
  ignore_missing msg m w = (Ret (), w') →
  m w = (Ret (), w') ∨ ∃ e, m w = (Throw e, w') ∧ IsNotFound e = true.
Proof.
  unfold ignore_missing. destruct (m w) as [[[]|e|] w1]; [|destruct (IsNotFound e) eqn:E|]; intros; simplify_eq; eauto.
Qed.

Lemma delete_ignored_marks msg k (w w' : world) :
  ignore_missing msg (call (sDelete k)) w = (Ret (), w') → marked w' k.
Proof.
  intros [E|(e & E & Hn)]%ignore_Ret; [by eapply sDelete_Ret_marks|].
  unfold call in E. destruct (sDelete k (wStore w)) as [a s'] eqn:Ed. simplify_eq.
  apply gone_marked. by eapply sDelete_missing.
Qed.

Lemma ignored_marks msg k k' (w : world) res w' :
  ignore_missing msg (call (sDelete k)) w = (res, w') → marked w k' → marked w' k'.
Proof.
  unfold ignore_missing. destruct (call _ w) as [r1 w1] eqn:E. intros Er.
  assert (w1 = w') as -> by (destruct r1 as [|e|]; [|destruct (IsNotFound e)|]; by simplify_eq).
  by eapply sDelete_marks.
Qed.

Lemma wrapped_marks msg k o k' (w : world) res w' :
  is_Some (oDeletionTimestamp o) →
  wrap msg (call (sUpdate k o)) w = (res, w') → marked w k' → marked w' k'.
Proof.
  intros Hd. unfold wrap. destruct (call _ w) as [r1 w1] eqn:E. intros Er.
  assert (w1 = w') as -> by (destruct r1; by simplify_eq). by eapply sUpdate_marks.
Qed.

(** The end of a stage that lists, loops and reports whether the list was
empty. *)
Lemma list_stage msg kind ns (body : Key * Obj → M unit) (w : world) waiting w1 :
  (∀ p w1 res w2 k, body p w1 = (res, w2) → marked w1 k → marked w2 k) →
  (∀ p w1 w2, oDeletionTimestamp p.2 = None → body p w1 = (Ret (), w2) → marked w2 p.1) →
  (items ← list_in msg kind ns; _ ← st_for items body; mret (negb (length items =? 0)%nat)) w = (Ret waiting, w1) →
  if (waiting : bool) then ∃ k, kKind k = kind ∧ kNamespace k = ns ∧ is_Some (at_ w k) ∧ marked w1 k
  else ∀ k, kKind k = kind → kNamespace k = ns → at_ w1 k = None.
Proof.
  intros Hpres Hdo E. apply st_bind_Ret in E as (items & w2 & E0 & E).
  pose proof (wf := E0). apply list_in_spec in E0 as (-> & Hk & Hall).
  apply st_bind_Ret in E as ([] & w3 & E1 & E). injection E as Ew <-.
  destruct items as [|p items]; simpl in Ew; subst waiting.
  - injection E1 as <-. intros k Hkk Hn. destruct (at_ w k) eqn:Ev; [|done].
    exfalso. eapply not_elem_of_nil, (Hall k); eauto.
  - destruct (Hk p) as [Hpk Hpn]; [left|]. exists p.1. split_and!; [done|done| |].
    + unfold list_in in wf. destruct (sList kind (wStore w)) as [l|e|] eqn:El; [|by case_match|done].
      injection wf as Hl. destruct p as [k o]. assert (Hin : (k, o) ∈ in_namespace ns l) by (rewrite Hl; left).
      apply in_namespace_elem in Hin as [Hin _]. apply (sList_stored _ _ _ El) in Hin as [_ Hv]. simpl. by rewrite Hv.
    + eapply (loop_marks (p :: items) body w w3); [eauto|eauto| |done|left].
      intros q Hq Hd o Ho. unfold list_in in wf.
      destruct (sList kind (wStore w)) as [l|e|] eqn:El; [|by case_match|done].
      injection wf as Hl. rewrite <- Hl in Hq. destruct q as [k o']. apply in_namespace_elem in Hq as [Hq _].
      apply (sList_stored _ _ _ El) in Hq as [_ Hv]. simpl in *. by simplify_eq.
Qed.

Lemma delete_listed_keeps msg p (w : world) res w' k :
  delete_listed msg p w = (res, w') → marked w k → marked w' k.
Proof.
  unfold delete_listed. destruct (oDeletionTimestamp p.2); [|apply ignored_marks].
  intros E. by injection E as _ <-.
Qed.

Lemma delete_listed_marks msg p (w w' : world) :
  oDeletionTimestamp p.2 = None → delete_listed msg p w = (Ret (), w') → marked w' p.1.
Proof. intros Hd. unfold delete_listed. rewrite Hd. apply delete_ignored_marks. Qed.

Lemma endpoints_stage (w : world) waiting w1 :
  deleteEndpoints now w = (Ret waiting, w1) →
  if (waiting : bool) then ∃ k, endpoint_of (wHC w) k ∧ is_Some (at_ w k) ∧ marked w1 k
  else ∀ k, endpoint_of (wHC w) k → at_ w1 k = None.
Proof.
  unfold deleteEndpoints. intros E. apply st_bind_Ret in E as (hc & w2 & E0 & E). injection E0 as <- <-.
  destruct (bool_decide (hcPlatform (wHC w) = AWSPlatform)) eqn:Ea;
    [apply bool_decide_eq_true in Ea|apply bool_decide_eq_false in Ea;
     destruct (bool_decide (hcPlatform (wHC w) = GCPPlatform)) eqn:Eg;
     [apply bool_decide_eq_true in Eg|apply bool_decide_eq_false in Eg]].
  - unfold deleteAWSEndpointServices in E. apply st_bind_Ret in E as (hc & w2 & E0 & E). injection E0 as <- <-.
    apply list_stage in E; cycle 1.
    { intros p w2 res w3 k. destruct (oDeletionTimestamp p.2) eqn:Hd; [|apply ignored_marks].
      destruct (_ && _); [intros Er; by injection Er as _ <-|].
      destruct (bool_decide (cpoFinalizer ∈ _)); [|intros Er; by injection Er as _ <-].
      apply wrapped_marks. simpl. by rewrite Hd. }
    { intros p w2 w3 Hd. rewrite Hd. apply delete_ignored_marks. }
    unfold endpoint_of. destruct waiting; [naive_solver|]. intros k [Hn [[_ Hk]|[Hg _]]]; [by apply E|congruence].
  - unfold deleteGCPPrivateServiceConnect in E.
    apply list_stage in E; [|intros *; apply delete_listed_keeps|intros *; apply delete_listed_marks].
    unfold endpoint_of. destruct waiting; [naive_solver|]. intros k [Hn [[Hg _]|[_ Hk]]]; [congruence|by apply E].
  - injection E as <- <-. unfold endpoint_of. intros k. naive_solver.
Qed.

Lemma remove_finalizer_gone f l : f ∉ remove_finalizer f l.
Proof.
  unfold remove_finalizer. rewrite elem_of_filter_bool. rewrite str_eqb_refl. intros [_ ?]. done.
Qed.

Lemma same_cluster_trans a b c : same_cluster a b → same_cluster b c → same_cluster a c.
Proof. intros [] []. constructor; congruence. Qed.

Lemma updateHC_spec (w : world) res w' :
  updateHC w = (res, w') → view (wStore w') = view (wStore w) ∧ same_cluster (wHC w) (wHC w') ∧
    hcFinalizers (wHC w') = hcFinalizers (wHC w) ∧
    (hcStored (wStore w') = hcStored (wStore w) ∨
     hcFinalizers <$> hcStored (wStore w') = Some (hcFinalizers (wHC w)) ∨
     (hcStored (wStore w') = None ∧ hcFinalizers (wHC w) = [])).
Proof.
  unfold updateHC, mbind, st_bind, call, putHC. simpl. destruct (hcUpdate (wHC w) (wStore w)) as [[hc'|e|] s'] eqn:E;
    intros Er; destruct (hcUpdate_effect _ _ _ _ E) as [Hv Hs]; simplify_eq; simpl.
  - destruct (hcUpdate_returned _ _ _ _ E). done.
  - by split_and!; [|apply same_cluster_refl|..].
  - by split_and!; [|apply same_cluster_refl|..].
Qed.

Lemma updateHC_documents (w : world) res w' :
  updateHC w = (res, w') → documents (wStore w') = documents (wStore w).
Proof.
  unfold updateHC, mbind, st_bind, call, putHC. simpl. destruct (hcUpdate (wHC w) (wStore w)) as [[hc'|e|] s'] eqn:E;
    intros Er; apply hcUpdate_documents in E; by simplify_eq.
Qed.

Lemma DeleteIfNeeded_documents k (w : world) res w' :
  DeleteIfNeeded k w = (res, w') → documents (wStore w') = documents (wStore w).
Proof.
  unfold DeleteIfNeeded, call. destruct (sGet k (wStore w)) as [o|e|]; [|case_match; intros; by simplify_eq|intros; by simplify_eq].
  destruct (oDeletionTimestamp o); [intros; by simplify_eq|].
  destruct (sDelete k (wStore w)) as [[]] eqn:E; apply sDelete_documents in E; repeat case_match; intros; by simplify_eq.
Qed.

Lemma wrap_state {A} msg (m : M A) (w : world) res w' :
  wrap msg m w = (res, w') → ∃ r1, m w = (r1, w') ∧ (∀ a, res = Ret a → r1 = Ret a).
Proof. unfold wrap. destruct (m w) as [[]] eqn:E; intros; simplify_eq; eexists; (split; [done|naive_solver]). Qed.

Lemma DeleteObjects_stage hc (w : world) res w1 :
  call (λ s, match DeleteObjects (OIDCStorageProviderS3BucketName r) (oidcDocumentKeys hc) s with
             | (Ret _, s') | (Throw NoSuchBucket, s') => (Ret (), s')
             | (Throw (S3Failed m), s') => (Throw (OtherError ("failed to delete OIDC objects: " +:+ m)), s')
             | (Panic, s') => (Panic, s')
             end) w = (res, w1) →
  view (wStore w1) = view (wStore w) ∧ hcStored (wStore w1) = hcStored (wStore w) ∧ wHC w1 = wHC w ∧
  (res = Ret () → documents_deleted hc (wStore w1)).
Proof.
  unfold call. destruct (DeleteObjects _ _ _) as [r2 s1] eqn:Ed.
  pose proof (DeleteObjects_effect _ _ _ _ _ Ed) as [Hv Hs].
  destruct r2 as [failed|[]|]; intros; simplify_eq; simpl; split_and!; try done; intros _.
  - exists failed. split; [by eauto|]. by eapply DeleteObjects_deleted.
  - exists []. split; [by left|]. intros k _. by rewrite (DeleteObjects_no_bucket _ _ _ _ Ed).
Qed.

Lemma oidc_stage (w : world) res w1 :
  cleanupOIDCBucketData r w = (res, w1) →
  view (wStore w1) = view (wStore w) ∧ same_cluster (wHC w) (wHC w1) ∧
  (res = Ret () → oidc_cleaned (wHC w) w1).
Proof.
  unfold cleanupOIDCBucketData. intros E. unfold mbind at 1, st_bind in E. simpl in E.
  destruct (bool_decide (oidcDocumentsFinalizer ∈ _)) eqn:Hin; simpl in E.
  2: { injection E as <- <-. apply bool_decide_eq_false in Hin. by split_and!; [|apply same_cluster_refl|]. }
  destruct (_ || _) in E; [injection E as <- <-; by split_and!; [|apply same_cluster_refl|]|].
  unfold mbind at 1, st_bind in E. destruct (call _ w) as [r0 w2] eqn:Ec.
  apply DeleteObjects_stage in Ec as (Hv & _ & Hhc & Hd).
  destruct r0 as [[]|e|]; [|injection E as <- <-; rewrite Hhc; by split_and!; [|apply same_cluster_refl|]..].
  unfold mbind, st_bind, putHC in E. simpl in E.
  apply wrap_state in E as (r1 & E & Hr). pose proof (updateHC_documents _ _ _ E) as Hdoc.
  apply updateHC_spec in E as (Hv' & Hsc & Hf & _). simpl in *.
  split_and!; [congruence| |].
  - eapply same_cluster_trans; [|done]. by constructor.
  - intros _. constructor; [rewrite Hf; apply remove_finalizer_gone|]. intros _.
    unfold documents_deleted in *. rewrite Hdoc. auto.
Qed.

Lemma outcome_wait hc w0 w' k :
  quiet hc w0 w' → waited hc k → is_Some (at_ w0 k) → marked w' k → outcome hc w0 w' (Ret false).
Proof.
  intros [<- H1 _ H2] Hk Hs Hm. constructor; [by intros ?%H1|done|done|eauto|apply same_cluster_refl].
Qed.

(** Once the infrastructure is gone, the first two clauses of an outcome follow
from what is left of the control plane. *)
Lemma outcome_after hc w0 w' res :
  infra_gone hc w' → (at_ w' (nsKey hc) ≠ at_ w0 (nsKey hc) → at_ w' (hcpKey hc) = None) →
  (res = Ret true → at_ w' (hcpKey hc) = None ∧
    (has_annotation hc SkipControlPlaneNamespaceDeletionAnnotation "true" = true ∨ at_ w' (nsKey hc) = None) ∧
    oidc_cleaned hc w') →
  (res = Ret false → ∃ k, waited hc k ∧ is_Some (at_ w0 k) ∧ marked w' k) →
  same_cluster hc (wHC w') → outcome hc w0 w' res.
Proof. intros. constructor; naive_solver. Qed.

Lemma infra_gone_view hc (w w' : world) :
  (∀ k, kKind k ∉ [KHostedControlPlane; KNamespace] → at_ w' k = at_ w k) → infra_gone hc w → infra_gone hc w'.
Proof.
  intros Hf [Hc He]. constructor.
  - intros ?. rewrite Hf by set_solver. auto.
  - intros k Hk. rewrite Hf; [auto|]. destruct Hk as [_ [[_ ->]|[_ ->]]]; set_solver.
Qed.

(** The last part of [delete]: the namespace. *)
Lemma namespace_outcome hc w0 (w : world) res w' :
  infra_gone hc w → at_ w (hcpKey hc) = None → at_ w (nsKey hc) = at_ w0 (nsKey hc) →
  oidc_cleaned hc w → same_cluster hc (wHC w) →
  (updated ← theHC;
   if has_annotation updated SkipControlPlaneNamespaceDeletionAnnotation "true" then mret true else
   exists_ ← DeleteIfNeeded (nsKey hc); mret (negb exists_)) w = (res, w') →
  outcome hc w0 w' res.
Proof.
  intros Hi Hh Hn Ho Hs E. unfold mbind at 1, st_bind in E. simpl in E.
  assert (Han : has_annotation (wHC w) SkipControlPlaneNamespaceDeletionAnnotation "true" =
                has_annotation hc SkipControlPlaneNamespaceDeletionAnnotation "true").
  { unfold has_annotation. by rewrite (sc_annotations _ _ Hs). }
  rewrite Han in E. clear Han.
  destruct (has_annotation hc _ "true") eqn:Hskip; [injection E as <- <-; by apply outcome_after; auto|].
  destruct (frame_DeleteIfNeeded [KNamespace] (nsKey hc)) with (w := w)
    (res := (DeleteIfNeeded (nsKey hc) w).1) (w' := (DeleteIfNeeded (nsKey hc) w).2) as (Hhc & _ & Hf);
    [kind|apply surjective_pairing|].
  unfold mbind, st_bind, mret, st_ret in E. destruct (DeleteIfNeeded (nsKey hc) w) as [r1 w1] eqn:Ed. simpl in *.
  assert (w1 = w') as -> by (by destruct r1; simplify_eq).
  assert (Hh' : at_ w' (hcpKey hc) = None) by (rewrite Hf; [done|set_solver]).
  apply outcome_after; [|done| | |congruence].
  - eapply infra_gone_view; [|done]. intros k Hk. apply Hf. set_solver.
  - intros ->. destruct r1 as [[]|e|]; simplify_eq/=. split_and!; [done| |].
    { right. by eapply DeleteIfNeeded_gone. }
    eapply oidc_cleaned_frame; [done|by eapply DeleteIfNeeded_documents|done].
  - intros ->. destruct r1 as [[]|e|]; simplify_eq/=. exists (nsKey hc).
    apply DeleteIfNeeded_waits in Ed as [? ?]. split_and!; [unfold waited; auto|congruence|done].
Qed.

(** From the control plane on. *)
Lemma control_plane_outcome hc w0 (w : world) res w' :
  quiet hc w0 w → infra_gone hc w →
  (exists_ ← DeleteIfNeeded (hcpKey hc);
   if (exists_ : bool) then mret false else
   _ ← wrap "failed to clean up OIDC bucket data" (cleanupOIDCBucketData r);
   _ ← deleteInfraClient;
   updated ← theHC;
   if has_annotation updated SkipControlPlaneNamespaceDeletionAnnotation "true" then mret true else
   exists_ ← DeleteIfNeeded (nsKey hc); mret (negb exists_)) w = (res, w') →
  outcome hc w0 w' res.
Proof.
  intros [Hhc _ Hnew Hn] Hi E.
  destruct (frame_DeleteIfNeeded [KHostedControlPlane] (hcpKey hc)) with (w := w)
    (res := (DeleteIfNeeded (hcpKey hc) w).1) (w' := (DeleteIfNeeded (hcpKey hc) w).2) as (Hhc1 & _ & Hf);
    [kind|apply surjective_pairing|].
  unfold mbind at 1, st_bind in E. destruct (DeleteIfNeeded (hcpKey hc) w) as [r1 w1] eqn:Ed. simpl in *.
  assert (Hn1 : at_ w1 (nsKey hc) = at_ w0 (nsKey hc)) by (rewrite Hf; [done|set_solver]).
  assert (Hi1 : infra_gone hc w1) by (eapply infra_gone_view; [|done]; intros k Hk; apply Hf; set_solver).
  assert (Hsc : same_cluster hc (wHC w1)) by (rewrite Hhc1, Hhc; apply same_cluster_refl).
  destruct r1 as [[]|e|].
  - injection E as <- <-. apply DeleteIfNeeded_waits in Ed as [Hs Hm]. apply outcome_after; [done..| |done].
    intros _. exists (hcpKey hc). unfold waited. auto.
  - apply DeleteIfNeeded_gone in Ed. unfold mbind at 1, st_bind in E.
    destruct (wrap _ _ w1) as [r2 w2] eqn:Eo. apply wrap_state in Eo as (r3 & Eo & Hr).
    apply oidc_stage in Eo as (Hv & Hsc2 & Ho).
    assert (Hf2 : ∀ k, at_ w2 k = at_ w1 k) by (intros; by rewrite Hv).
    assert (Hi2 : infra_gone hc w2) by (eapply infra_gone_view; [|done]; auto).
    assert (Hsc' : same_cluster hc (wHC w2)) by (by eapply same_cluster_trans).
    destruct r2 as [[]|e|].
    + specialize (Ho (Hr () eq_refl)). unfold mbind at 1, st_bind, deleteInfraClient in E. simpl in E.
      rewrite Hhc1, Hhc in Ho.
      eapply namespace_outcome in E; simpl; [done|by destruct Hi2; constructor|by rewrite Hf2| | |];
        simpl; [by rewrite Hf2|by destruct Ho; constructor|done].
    + injection E as <- <-. apply outcome_after; [done|by rewrite Hf2|done|done|done].
    + injection E as <- <-. apply outcome_after; [done|by rewrite Hf2|done|done|done].
  - injection E as <- <-. apply outcome_after; [done|by intros []|done|done|done].
  - injection E as <- <-. apply outcome_after; [done|by intros []|done|done|done].
Qed.

(** A kind is not in a list of kinds. *)
Ltac not_in := simpl; rewrite ?not_elem_of_cons; split_and?; try discriminate; apply not_elem_of_nil.

Lemma delete_outcome (w : world) res w' : delete r now w = (res, w') → outcome (wHC w) w w' res.
Proof.
  intros E. unfold delete in E. unfold mbind at 1, st_bind in E. simpl in E.
  set (hc := wHC w) in *. assert (Q : quiet hc w w) by done.
  destruct (stage _ _ _ hc w w _ _ (frame_pause false) ltac:(not_in) ltac:(not_in) Q E)
    as [?|([] & w1 & E1 & Ea & Q1 & F1)]; [done|]. clear E.
  destruct (stage_quiet _ _ hc w w1 _ _ (λ r1 w2, propagate_quiet hc w w1 r1 w2 Q1) Ea)
    as [?|([] & w2 & E2 & Eb & Q2)]; [done|]. clear Ea.
  destruct (frame_propagate _ _ _ E2) as (_ & _ & F2).
  destruct (stage _ _ _ hc w w2 _ _ (frame_deleteNodePools _ _) ltac:(not_in) ltac:(not_in) Q2 Eb)
    as [?|([] & w3 & _ & Ec & Q3 & F3)]; [done|]. clear Eb.
  destruct (stage _ _ _ hc w w3 _ _ frame_deleteCAPICluster ltac:(not_in) ltac:(not_in) Q3 Ec)
    as [?|(waiting & w4 & E4 & Ed & Q4 & F4)]; [done|]. clear Ec.
  apply capi_stage in E4. rewrite (q_hc _ _ _ Q3) in E4. destruct waiting.
  { injection Ed as <- <-. destruct E4 as [Hs Hm].
    eapply (outcome_wait _ _ _ (capiKey hc)); [done|by left| |done].
    apply (pause_new _ _ _ _ E1). rewrite F3, F2 in Hs by not_in. done. }
  destruct (stage _ _ _ hc w w4 _ _ frame_dashboard ltac:(not_in) ltac:(not_in) Q4 Ed)
    as [?|([] & w5 & _ & Ee & Q5 & F5)]; [done|]. clear Ed.
  destruct (stage _ _ _ hc w w5 _ _ (frame_credentials _) ltac:(not_in) ltac:(not_in) Q5 Ee)
    as [?|([] & w6 & _ & Ef & Q6 & F6)]; [done|]. clear Ee.
  destruct (stage _ _ _ hc w w6 _ _ frame_endpoints ltac:(not_in) ltac:(not_in) Q6 Ef)
    as [?|(waiting & w7 & E7 & Eg & Q7 & F7)]; [done|]. clear Ef.
  apply endpoints_stage in E7. rewrite (q_hc _ _ _ Q6) in E7. destruct waiting.
  { injection Eg as <- <-. destruct E7 as (k & Hk & Hs & Hm).
    eapply (outcome_wait _ _ _ k); [done|by right; left| |done].
    destruct Hk as [_ [[_ Hk]|[_ Hk]]]; rewrite F6, F5, F4, F3, F2, F1 in Hs by (rewrite Hk; not_in); done. }
  destruct (stage _ _ _ hc w w7 _ _ frame_rbac ltac:(not_in) ltac:(not_in) Q7 Eg)
    as [?|([] & w8 & _ & Eh & Q8 & F8)]; [done|]. clear Eg.
  eapply control_plane_outcome; [done| |done]. constructor.
  - intros Hne. rewrite F8, F7, F6, F5 by not_in. by apply E4.
  - intros k Hk. rewrite F8; [by apply E7|]. destruct Hk as [_ [[_ ->]|[_ ->]]]; not_in.
Qed.

(** C9: The parts of a hosted cluster are deleted in order.  A call of [delete]
asks the control plane to go only when the cluster of its machines and its
private endpoints are gone, touches the namespace only when the control plane
is gone too, and reports completion only when all of them are gone, the
namespace too unless an annotation asks to keep it, and, for a cluster with OIDC
documents, S3 was asked to delete them and none is left in the bucket but those
it reported as not deleted. *)
Theorem deletion_order (w : world) res w' :
  delete r now w = (res, w') →
  let hc := wHC w in
  (active w (hcpKey hc) → ¬ active w' (hcpKey hc) → infra_gone hc w') ∧
  (at_ w' (nsKey hc) ≠ at_ w (nsKey hc) → infra_gone hc w' ∧ at_ w' (hcpKey hc) = None) ∧
  (res = Ret true →
    infra_gone hc w' ∧ at_ w' (hcpKey hc) = None ∧
    (has_annotation hc SkipControlPlaneNamespaceDeletionAnnotation "true" = true ∨ at_ w' (nsKey hc) = None) ∧
    oidc_cleaned hc w').
Proof. intros E. destruct (delete_outcome _ _ _ E). auto. Qed.

(** C11: Deletion does not stall silently.  A call of [delete] that returns
neither an error nor completion waits for an object of the cluster that was
there when it was called, and whose deletion has been requested. *)
Theorem deletion_progress (w w' : world) :
  delete r now w = (Ret false, w') →
  ∃ k, waited (wHC w) k ∧ is_Some (at_ w k) ∧ marked w' k.
Proof. intros E. by apply (out_waiting _ _ _ _ (delete_outcome _ _ _ E)). Qed.

(** *** The finalizer *)

(** The stored HostedCluster has the finalizer, and so has the one in memory. *)
Definition stored_finalizer (w : world) : Prop :=
  ∃ h, hcStored (wStore w) = Some h ∧ HostedClusterFinalizer ∈ hcFinalizers h.
Definition held (w : world) : Prop :=
  HostedClusterFinalizer ∈ hcFinalizers (wHC w) ∧ stored_finalizer w.

Definition keeps {A} (m : M A) : Prop := ∀ (w : world) res w', held w → m w = (res, w') → held w'.

Lemma keeps_frame K {A} (m : M A) : frame K m → keeps m.
Proof.
  intros Hf w res w' [Hm (h & Hs & Hh)] E. destruct (Hf _ _ _ E) as (H1 & H2 & _).
  split; [by rewrite H1|]. exists h. split; [congruence|done].
Qed.

Lemma held_bind {A B} (m : M A) (f : A → M B) : keeps m → (∀ a, keeps (f a)) → keeps (m ≫= f).
Proof.
  intros Hm Hf w res w' Hh E. unfold mbind, st_bind in E.
  destruct (m w) as [[a|e|] w1] eqn:E1; pose proof (Hm _ _ _ Hh E1); [by eapply Hf|by simplify_eq..].
Qed.

Lemma held_wrap {A} msg (m : M A) : keeps m → keeps (wrap msg m).
Proof. intros Hm w res w' Hh (r1 & E & _)%wrap_state. by eapply Hm. Qed.

Lemma elem_of_remove_finalizer f g l : f ∈ remove_finalizer g l ↔ f ∈ l ∧ f ≠ g.
Proof. unfold remove_finalizer. by rewrite elem_of_filter_bool, negb_true_iff, str_eqb_neq. Qed.

Lemma keeps_oidc : keeps (cleanupOIDCBucketData r).
Proof.
  intros w res w' [Hm (h & Hs & Hh)] E. unfold cleanupOIDCBucketData in E. unfold mbind at 1, st_bind in E. simpl in E.
  destruct (bool_decide (oidcDocumentsFinalizer ∈ _)); simpl in E;
    [|injection E as <- <-; split; [done|by exists h]].
  destruct (_ || _) in E; [injection E as <- <-; split; [done|by exists h]|].
  unfold mbind at 1, st_bind in E. destruct (call _ w) as [r0 w2] eqn:Ec.
  assert (Hc : hcStored (wStore w2) = hcStored (wStore w) ∧ wHC w2 = wHC w).
  { by apply DeleteObjects_stage in Ec as (_ & ? & ? & _). }
  destruct Hc as [Hst Hhc].
  assert (Hw2 : held w2) by (split; [by rewrite Hhc|exists h; by rewrite Hst]).
  destruct r0 as [[]|e|]; [|by injection E as <- <-..].
  unfold mbind, st_bind, putHC in E. simpl in E.
  apply wrap_state in E as (r1 & E & _). apply updateHC_spec in E as (_ & _ & Hf & Hcase). simpl in *.
  assert (Hin : HostedClusterFinalizer ∈ remove_finalizer oidcDocumentsFinalizer (hcFinalizers (wHC w)))
    by (by apply elem_of_remove_finalizer).
  split; [by rewrite Hf|]. destruct Hcase as [Hc|[Hc|[_ Hc]]].
  - exists h. split; [congruence|done].
  - destruct (hcStored (wStore w')) as [h'|] eqn:Eh; [|done]. injection Hc as Hc. exists h'.
    split; [done|]. by rewrite Hc.
  - rewrite Hc in Hin. by apply not_elem_of_nil in Hin.
Qed.

Lemma keeps_delete : keeps (delete r now).
Proof.
  unfold delete. apply held_bind; [apply (keeps_frame []), frame_theHC|]. intros hc.
  apply held_bind; [eapply keeps_frame, frame_pause|]. intros _.
  apply held_bind; [eapply keeps_frame, frame_propagate|]. intros _.
  apply held_bind; [eapply keeps_frame, frame_deleteNodePools|]. intros _.
  apply held_bind; [eapply keeps_frame, frame_deleteCAPICluster|]. intros [].
  { apply (keeps_frame []), frame_ret. }
  apply held_bind; [eapply keeps_frame, frame_dashboard|]. intros _.
  apply held_bind; [eapply keeps_frame, frame_credentials|]. intros _.
  apply held_bind; [eapply keeps_frame, frame_endpoints|]. intros [].
  { apply (keeps_frame []), frame_ret. }
  apply held_bind; [eapply keeps_frame, frame_rbac|]. intros _.
  apply held_bind; [eapply (keeps_frame [KHostedControlPlane]), frame_DeleteIfNeeded; kind|]. intros [].
  { apply (keeps_frame []), frame_ret. }
  apply held_bind; [apply held_wrap, keeps_oidc|]. intros _.
  apply held_bind; [intros w res w' Hh E; by injection E as <- <-|]. intros _.
  apply held_bind; [apply (keeps_frame []), frame_theHC|]. intros updated.
  destruct (has_annotation _ _ _); [apply (keeps_frame []), frame_ret|].
  apply held_bind; [eapply (keeps_frame [KNamespace]), frame_DeleteIfNeeded; kind|]. intros b.
  apply (keeps_frame []), frame_ret.
Qed.

Lemma frame_deleteOwned kind : frame [kind] (deleteOwned kind).
Proof. unfold deleteOwned. framed. apply frame_sDeleteAllOwned. left. Qed.

Lemma updateHCStatus_spec (w : world) res w' :
  updateHCStatus w = (res, w') →
  hcFinalizers <$> hcStored (wStore w') = hcFinalizers <$> hcStored (wStore w).
Proof.
  unfold updateHCStatus, mbind, st_bind, call, putHC. simpl.
  destruct (hcStatusUpdate (wHC w) (wStore w)) as [[hc'|e|] s'] eqn:E; intros Er;
    destruct (hcStatusUpdate_effect _ _ _ _ E) as [_ Hs]; by simplify_eq.
Qed.

Lemma removeFinalizer_view (w : world) res w' :
  removeHostedClusterFinalizer w = (res, w') → view (wStore w') = view (wStore w).
Proof.
  unfold removeHostedClusterFinalizer, mbind at 1, st_bind. simpl.
  destruct (bool_decide _); [|intros E; by injection E as _ <-].
  unfold mbind, st_bind, putHC. simpl. intros (r1 & E & _)%wrap_state.
  by apply updateHC_spec in E as (? & _).
Qed.

(** After the deletion: the cluster roles, then the grace period. *)
Lemma finish_keeps (w : world) res w' (grace : Duration) c :
  held w →
  (_ ← deleteOwned KClusterRole; _ ← deleteOwned KClusterRoleBinding;
   if (0 <? grace)%Z then
     match c with
     | None => hc ← theHC; _ ← setCondition now (destroyed_condition now hc grace);
               _ ← wrap "failed to update status" updateHCStatus; mret (mkResult grace)
     | Some c =>
         if (time_sub now (cLastTransitionTime c) <? grace)%Z
         then mret (mkResult (to_int64 (grace - time_sub now (cLastTransitionTime c))))
         else _ ← removeHostedClusterFinalizer; mret (mkResult 0)
     end
   else _ ← removeHostedClusterFinalizer; mret (mkResult 0)) w = (res, w') →
  stored_finalizer w' ∨
  ((∀ k, kKind k ∉ [KClusterRole; KClusterRoleBinding] → at_ w' k = at_ w k) ∧
   ((0 < grace)%Z → ∃ d, c = Some d ∧ (grace ≤ time_sub now (cLastTransitionTime d))%Z)).
Proof.
  intros Hh E. unfold mbind at 1, st_bind in E.
  destruct (deleteOwned KClusterRole w) as [r1 w1] eqn:E1.
  pose proof (frame_deleteOwned _ _ _ _ E1) as (_ & _ & F1).
  pose proof (keeps_frame _ _ (frame_deleteOwned _) _ _ _ Hh E1) as Hh1.
  destruct r1 as [[]|e|]; [|left; by injection E as _ <-; apply Hh1..].
  unfold mbind at 1, st_bind in E. destruct (deleteOwned KClusterRoleBinding w1) as [r2 w2] eqn:E2.
  pose proof (frame_deleteOwned _ _ _ _ E2) as (_ & _ & F2).
  pose proof (keeps_frame _ _ (frame_deleteOwned _) _ _ _ Hh1 E2) as Hh2.
  destruct r2 as [[]|e|]; [|left; by injection E as _ <-; apply Hh2..].
  assert (F : ∀ k, kKind k ∉ [KClusterRole; KClusterRoleBinding] → at_ w2 k = at_ w k).
  { intros k Hk. rewrite !not_elem_of_cons in Hk. destruct Hk as (? & ? & _).
    rewrite F2, F1; [done|by rewrite list_elem_of_singleton..]. }
  assert (Hlast : ∀ (m : M unit) (f : () → M Result), m = removeHostedClusterFinalizer → f = (λ _, mret (mkResult 0)) →
    (m ≫= f) w2 = (res, w') → ∀ k, kKind k ∉ [KClusterRole; KClusterRoleBinding] → at_ w' k = at_ w k).
  { intros m f -> -> E3 k Hk. unfold mbind, st_bind in E3.
    destruct (removeHostedClusterFinalizer w2) as [r3 w3] eqn:E4. apply removeFinalizer_view in E4.
    assert (w3 = w') as -> by (by destruct r3; simplify_eq; [injection E3|..]). rewrite E4. by apply F. }
  destruct (Z.ltb_spec 0 grace) as [Hg|Hg].
  - destruct c as [d|].
    + destruct (Z.ltb_spec (time_sub now (cLastTransitionTime d)) grace).
      * left. injection E as _ <-. apply Hh2.
      * right. split; [by eapply Hlast|eauto].
    + left. unfold mbind at 1, st_bind in E. simpl in E. unfold mbind at 1, st_bind in E.
      unfold setCondition in E. simpl in E. unfold mbind at 1, st_bind in E.
      destruct (wrap _ _ _) as [r3 w3] eqn:E3. apply wrap_state in E3 as (r4 & E4 & _).
      apply updateHCStatus_spec in E4. simpl in E4.
      assert (w3 = w') as -> by (by destruct r3; [injection E|simplify_eq..]).
      destruct Hh2 as [_ (h & Hs & Hf)]. rewrite Hs in E4. simpl in E4.
      destruct (hcStored (wStore w')) as [h'|] eqn:Eh; [|done]. injection E4 as E4.
      exists h'. split; [done|by rewrite E4].
  - right. split; [by eapply Hlast|lia].
Qed.

(** C10: The finalizer of a HostedCluster goes last.  When a reconciliation of a
deleted cluster takes the finalizer off, then either an earlier one recorded
that everything was destroyed or in this one the machines' cluster, the
endpoints and the control plane are gone, and the namespace too unless it is to
be kept; and a grace period that was asked for has passed since the
destruction was recorded. *)
Theorem finalizer_last grace (w : world) res w' :
  held w → reconcileDeletion r now grace w = (res, w') → ¬ stored_finalizer w' →
  let hc := wHC w in
  let destroyed := Meta.FindStatusCondition (hcConditions hc) HostedClusterDestroyed in
  ((∃ c, destroyed = Some c ∧ cStatus c = ConditionTrue) ∨
   (infra_gone hc w' ∧ at_ w' (hcpKey hc) = None ∧
    (has_annotation hc SkipControlPlaneNamespaceDeletionAnnotation "true" = true ∨ at_ w' (nsKey hc) = None))) ∧
  ((0 < grace)%Z → ∃ c, destroyed = Some c ∧ (grace ≤ time_sub now (cLastTransitionTime c))%Z).
Proof.
  intros Hh E Hno hc destroyed. unfold reconcileDeletion in E. unfold mbind at 1, st_bind in E. simpl in E.
  fold hc in E. fold destroyed in E. unfold mbind at 1, st_bind in E.
  destruct ((if match destroyed with None => true | Some c => negb (bool_decide (cStatus c = ConditionTrue)) end
    then wrap "failed to delete hostedcluster" (delete r now) else mret true) w) as [r1 w1] eqn:E1.
  assert (Hh1 : held w1 ∧ (r1 = Ret true → (∃ c, destroyed = Some c ∧ cStatus c = ConditionTrue) ∨
    (infra_gone hc w1 ∧ at_ w1 (hcpKey hc) = None ∧
     (has_annotation hc SkipControlPlaneNamespaceDeletionAnnotation "true" = true ∨ at_ w1 (nsKey hc) = None)))).
  { destruct (match destroyed with None => true | _ => _ end) eqn:Hd in E1.
    - split; [by eapply held_wrap, E1; [apply keeps_delete|]|]. intros ->. apply wrap_returned in E1.
      right. destruct (out_complete _ _ _ _ (delete_outcome _ _ _ E1)) as (? & ? & ? & _); done.
    - injection E1 as <- <-. split; [done|]. intros _. left. destruct destroyed as [c|]; [|done].
      exists c. split; [done|]. apply negb_false_iff in Hd. by apply bool_decide_eq_true in Hd. }
  destruct Hh1 as [Hh1 Hd].
  destruct r1 as [[]|e|]; simpl in E;
    [|exfalso; apply Hno; injection E as _ <-; apply Hh1..].
  destruct (finish_keeps w1 res w' grace destroyed Hh1 E) as [?|[Hf Hg]]; [done|]. split; [|done].
  destruct (Hd eq_refl) as [?|([Hc He] & Hp & Hn)]; [by left|right]. split_and!.
  - constructor; [intros ?; rewrite Hf by not_in; auto|].
    intros k Hk. rewrite Hf; [auto|]. destruct Hk as [_ [[_ ->]|[_ ->]]]; not_in.
  - rewrite Hf; [done|not_in].
  - rewrite Hf; [done|not_in].
Qed.

End Proofs.

(** *** A cluster in memory *)

Module Samples.

Record Mem : Type := mkMem { objects : gmap Key Obj; cluster : option HostedCluster;
  bucket : gset string; locked : gset string }.

Definition of_kind (kind : Kind) (m : gmap Key Obj) : list (Key * Obj) :=
  List.filter (λ p, bool_decide (kKind p.1 = kind)) (map_to_list m).

Definition mem_delete (k : Key) (s : Mem) : go api_error unit * Mem :=
  match objects s !! k with
  | None => (Throw NotFound, s)
  | Some o =>
      (Ret (), mkMem (match oFinalizers o with
                      | [] => base.delete k (objects s)
                      | _ => <[k := requested o 1]> (objects s)
                      end) (cluster s) (bucket s) (locked s))
  end.
Definition mem_update (k : Key) (o : Obj) (s : Mem) : go api_error unit * Mem :=
  match objects s !! k with
  | None => (Throw NotFound, s)
  | Some _ =>
      (Ret (), mkMem (match oFinalizers o, oDeletionTimestamp o with
                      | [], Some _ => base.delete k (objects s)
                      | _, _ => <[k := o]> (objects s)
                      end) (cluster s) (bucket s) (locked s))
  end.

#[local] Instance Mem_cloud : Cloud Mem := {|
  sGet k s := match objects s !! k with Some o => Ret o | None => Throw NotFound end;
  sList kind s := Ret (of_kind kind (objects s));
  sListOwned _ _ _ s := Ret [];
  sDelete := mem_delete;
  sUpdate := mem_update;
  sDeleteAllOwned _ _ _ s := (Ret (), s);
  hcUpdate hc s := (Ret hc, mkMem (objects s) (match hcFinalizers hc with [] => None | _ => Some hc end) (bucket s) (locked s));
  hcStatusUpdate hc s := (Ret hc, s);
  DeleteObjects _ l s := (Ret (List.filter (λ k, bool_decide (k ∈ locked s)) l),
    mkMem (objects s) (cluster s) (bucket s ∖ (list_to_set l ∖ locked s)) (locked s));
|}.

#[local] Instance Mem_laws : CloudLaws Mem.
Proof.
  refine {| view := objects; hcStored := cluster; documents s _ := bucket s |}.
  - intros k s o. simpl. destruct (objects s !! k); naive_solver.
  - intros k s e. simpl. destruct (objects s !! k); naive_solver.
  - intros kind s l. simpl. intros E k o. injection E as <-. unfold of_kind.
    rewrite elem_of_filter_bool, elem_of_map_to_list, bool_decide_eq_true. simpl. naive_solver.
  - intros kind s e k. simpl. done.
  - intros k s r s'. simpl. unfold mem_delete. destruct (objects s !! k) as [o|] eqn:E; intros Er; simplify_eq; simpl;
      [|by auto]. split; [done|]. destruct (oFinalizers o); eauto 10.
  - intros k s s' o. simpl. unfold mem_delete. destruct (objects s !! k) as [x|] eqn:E; intros Er; simplify_eq; simpl.
    destruct (oFinalizers x); [by rewrite lookup_delete_eq|]. rewrite lookup_insert_eq. intros; simplify_eq. simpl. eauto.
  - intros k s e s'. simpl. unfold mem_delete. destruct (objects s !! k) as [x|] eqn:E; intros Er; by simplify_eq.
  - intros k o s r s'. simpl. unfold mem_update. destruct (objects s !! k) eqn:E; intros Er; simplify_eq; simpl; [|by auto].
    split; [done|]. destruct (oFinalizers o) eqn:Ef, (oDeletionTimestamp o) eqn:Ed; eauto 10.
  - intros kind ns n s r s'. simpl. intros; by simplify_eq.
  - intros hc s r s'. simpl. intros; simplify_eq; simpl. split; [done|].
    destruct (hcFinalizers hc) as [|f l] eqn:Ef; [by auto|]. right; left. simpl. by rewrite Ef.
  - intros hc s hc' s'. simpl. intros; simplify_eq. split; [by constructor|done].
  - intros hc s r s'. simpl. intros; by simplify_eq.
  - intros b l s r s'. simpl. intros; by simplify_eq.
  - intros b l s failed s'. simpl. intros E k Hk Hd. simplify_eq/=.
    apply elem_of_filter_bool. rewrite bool_decide_eq_true. split; [done|].
    apply elem_of_difference in Hd as [_ Hd]. destruct (decide (k ∈ locked s)) as [|Hn]; [done|].
    destruct Hd. by apply elem_of_difference; rewrite elem_of_list_to_set.
  - intros b l s s'. simpl. done.
  - intros k s r s'. simpl. unfold mem_delete. destruct (objects s !! k); intros; by simplify_eq.
  - intros hc s r s'. simpl. intros; by simplify_eq.
Defined.

Definition r0 : Reconciler := mkReconciler false true "" false.
Definition hc0 : HostedCluster :=
  mkHC "clusters" "a" 3 ∅ [HostedClusterFinalizer] (Some 5%Z) "a-infra" AWSPlatform None false None "img" None
    (mkNetworking OVNKubernetes [] [] [] None) [] None None None None [].
Definition plain (finalizers : list string) : Obj := mkObj None finalizers ∅ false "" [].

(** The control plane, with a finalizer, and the namespace are left. *)
Definition w0 : World Mem :=
  mkWorld (mkMem {[hcpKey hc0 := plain ["cpo"]; nsKey hc0 := plain []]} (Some hc0) ∅ ∅) hc0 ∅.
Definition w1 : World Mem := (delete r0 100 w0).2.

(** Only the OIDC documents are left. *)
Definition r1 : Reconciler := mkReconciler false true "oidc" true.
Definition hc1 : HostedCluster :=
  hc_with hc0 [HostedClusterFinalizer; oidcDocumentsFinalizer] (hcConditions hc0).
Definition with_documents (locked : gset string) : World Mem :=
  mkWorld (mkMem ∅ (Some hc1) (list_to_set (oidcDocumentKeys hc1)) locked) hc1 ∅.

Lemma deletion_order_witness :
  infra_gone hc0 w1 ∧ oidc_cleaned r1 hc1 (delete r1 100 (with_documents ∅)).2.
Proof.
  split.
  - destruct (deletion_order r0 100 w0 (delete r0 100 w0).1 w1) as (Ho & _ & _); [apply surjective_pairing|].
    apply Ho.
    + exists (plain ["cpo"]). split; vm_compute; reflexivity.
    + intros (o & Hl & Hd). vm_compute in Hl. injection Hl as <-. discriminate Hd.
  - destruct (deletion_order r1 100 (with_documents ∅) (delete r1 100 (with_documents ∅)).1
      (delete r1 100 (with_documents ∅)).2) as (_ & _ & Hc); [apply surjective_pairing|].
    apply Hc. vm_compute. reflexivity.
Defined.

(** Completion is reported, and nothing holds the cluster back any more, although
S3 reported a document as not deleted. *)
Lemma undeleted_document_ignored :
  let w' := (delete r1 100 (with_documents {["a-infra/openid/v1/jwks"]})).2 in
  (delete r1 100 (with_documents {["a-infra/openid/v1/jwks"]})).1 = Ret true ∧
  bool_decide (oidcDocumentsFinalizer ∈ hcFinalizers (wHC w')) = false ∧
  bool_decide ("a-infra/openid/v1/jwks" ∈ bucket (wStore w')) = true.
Proof. vm_compute. done. Qed.

Lemma deletion_progress_witness : ∃ k, waited hc0 k ∧ is_Some (view (wStore w0) !! k) ∧ marked w1 k.
Proof.
  refine (deletion_progress r0 100 w0 w1 _).
  rewrite (surjective_pairing (delete r0 100 w0)). vm_compute. reflexivity.
Defined.

(** Nothing is left. *)
Definition w2 : World Mem := mkWorld (mkMem ∅ (Some hc0) ∅ ∅) hc0 ∅.
Definition w3 : World Mem := (reconcileDeletion r0 100 0 w2).2.

Lemma finalizer_last_witness : view (wStore w3) !! hcpKey hc0 = None.
Proof.
  destruct (finalizer_last r0 100 0 w2 (reconcileDeletion r0 100 0 w2).1 w3) as [[(c & Hc & _)|(_ & Hp & _)] _].
  - split; [|exists hc0; split; [reflexivity|]]; apply (bool_decide_unpack _); vm_compute; exact I.
  - apply surjective_pairing.
  - intros (h & Hs & _). vm_compute in Hs. discriminate Hs.
  - vm_compute in Hc. discriminate Hc.
  - exact Hp.
Defined.

End Samples.
End HostedClusterDeletionProofs.
