(* ===== verification/NodePool.v ===== *)
(** The NodePool controller, data and decisions:
[hypershift-operator/controllers/nodepool/], the helpers of
[nodepool_controller.go] and the conditions of [conditions.go].  A NodePool is
rolled out through a MachineDeployment (upgrade type Replace) or a MachineSet
(upgrade type InPlace), in [Capi]; here are the validation of its spec, the check of
its release image against the HostedCluster, and what it reports. *)
From S2P Require Import Prelude GoSort Semver Api SupportedVersion Upsert.
From Stdlib Require Import Ascii.

Module NodePool.
Import Semver SupportedVersion Upsert.
#[local] Open Scope go_scope.

(** *** Constants *)

Definition autoscalerMaxAnnotation : string := "cluster.x-k8s.io/cluster-api-autoscaler-node-group-max-size".
Definition autoscalerMinAnnotation : string := "cluster.x-k8s.io/cluster-api-autoscaler-node-group-min-size".
Definition nodePoolAnnotation : string := "hypershift.openshift.io/nodePool".
Definition nodePoolAnnotationCurrentConfig : string := "hypershift.openshift.io/nodePoolCurrentConfig".
Definition nodePoolAnnotationCurrentConfigVersion : string := "hypershift.openshift.io/nodePoolCurrentConfigVersion".
Definition nodePoolAnnotationTargetConfigVersion : string := "hypershift.openshift.io/nodePoolTargetConfigVersion".
Definition nodePoolAnnotationUpgradeInProgressTrue : string := "hypershift.openshift.io/nodePoolUpgradeInProgressTrue".
Definition nodePoolAnnotationUpgradeInProgressFalse : string := "hypershift.openshift.io/nodePoolUpgradeInProgressFalse".
Definition nodePoolAnnotationMaxUnavailable : string := "hypershift.openshift.io/nodePoolMaxUnavailable".
Definition nodePoolAnnotationPlatformMachineTemplate : string := "hypershift.openshift.io/nodePoolPlatformMachineTemplate".
Definition nodePoolAnnotationTaints : string := "hypershift.openshift.io/nodePoolTaints".
Definition labelManagedPrefix : string := "managed.hypershift.openshift.io".
Definition interruptibleInstanceLabel : string := "hypershift.openshift.io/interruptible-instance".
Definition AnnotationEnableSpot : string := "hypershift.openshift.io/enable-spot".
(** [capiv1.ClusterNameLabel], [capiv1.PausedAnnotation], [capiv1.ReadyCondition] *)
Definition ClusterNameLabel : string := "cluster.x-k8s.io/cluster-name".
Definition PausedAnnotation : string := "cluster.x-k8s.io/paused".
Definition ReadyCondition : string := "Ready".
Definition InfrastructureReadyCondition : string := "InfrastructureReady".
Definition MachineNodeHealthyCondition : string := "NodeHealthy".

(** [hyperv1.UpgradeType], [hyperv1.UpgradeStrategy] *)
Definition UpgradeTypeReplace : string := "Replace".
Definition UpgradeTypeInPlace : string := "InPlace".
Definition UpgradeStrategyRollingUpdate : string := "RollingUpdate".
Definition UpgradeStrategyOnDelete : string := "OnDelete".

(** [corev1.ConditionStatus]: a string type whose zero value is the empty string. *)
Definition cTrue : string := "True".
Definition cFalse : string := "False".
Definition cUnknown : string := "Unknown".

(** *** Data *)

(** [type NodePoolCondition struct]; a zero [LastTransitionTime] is [zero_time]. *)
Record NodePoolCondition : Type := mkNPC {
  npcType : string;
  npcStatus : string;
  npcReason : string;
  npcMessage : string;
  npcObservedGeneration : Z;
  npcLastTransitionTime : Time;
}.

(** A condition as the controller builds it, its transition time unset. *)
Definition condition (type status reason message : string) (generation : Z) : NodePoolCondition :=
  mkNPC type status reason message generation zero_time.

(** [type NodePoolAutoScaling struct] *)
Record NodePoolAutoScaling : Type := mkAutoScaling { asMin : option Z; asMax : Z }.

(** [type RollingUpdate struct], [type ReplaceUpgrade struct] *)
Record RollingUpdate : Type := mkRolling { ruMaxUnavailable : option IntOrString; ruMaxSurge : option IntOrString }.
Record ReplaceUpgrade : Type := mkReplace { ruStrategy : string; ruRolling : option RollingUpdate }.

(** [type NodePoolManagement struct]; [inPlace] is the [MaxUnavailable] of
[InPlaceUpgrade], behind two pointers. *)
Record NodePoolManagement : Type := mkNPManagement {
  upgradeType : string;
  replace : option ReplaceUpgrade;
  inPlace : option (option IntOrString);
  autoRepair : bool;
}.

(** [type Taint struct] *)
Record Taint : Type := mkTaint { tKey : string; tValue : string; tEffect : string }.

(** [type NodePoolPlatform struct]: the type and the fields the controller reads
of the platforms, each behind a pointer. *)
Record NodePoolPlatform : Type := mkPlatform {
  pType : PlatformType;
  pOpenStackZone : option string;
  pGCPZone : option string;
  pIBMCloudProviderType : option string;
}.

(** [type NodePoolSpec struct], the fields the controller reads; [nodeConfig] has the
names of the config maps of [spec.config]. *)
Record NodePoolSpec : Type := mkNPSpec {
  clusterName : string;
  releaseImage : string;
  platform : NodePoolPlatform;
  replicas : option Z;
  management : NodePoolManagement;
  autoScaling : option NodePoolAutoScaling;
  nodeLabels : StringMap;
  taints : list Taint;
  nodeDrainTimeout : option Duration;
  nodeVolumeDetachTimeout : option Duration;
  arch : string;
  pausedUntil : option string;
  nodeConfig : list string;
}.

(** [type NodePool struct], with its status. *)
Record NodePool : Type := mkNodePool {
  npNamespace : string;
  npName : string;
  npGeneration : Z;
  npLabels : option StringMap;
  npAnnotations : option StringMap;
  npSpec : NodePoolSpec;
  npVersion : string;
  npReplicas : Z;
  npConditions : list NodePoolCondition;
}.

Definition set_conditions (cs : list NodePoolCondition) (np : NodePool) : NodePool :=
  mkNodePool (npNamespace np) (npName np) (npGeneration np) (npLabels np) (npAnnotations np)
    (npSpec np) (npVersion np) (npReplicas np) cs.
Definition set_np_annotations (an : option StringMap) (np : NodePool) : NodePool :=
  mkNodePool (npNamespace np) (npName np) (npGeneration np) (npLabels np) an
    (npSpec np) (npVersion np) (npReplicas np) (npConditions np).
Definition set_version (v : string) (np : NodePool) : NodePool :=
  mkNodePool (npNamespace np) (npName np) (npGeneration np) (npLabels np) (npAnnotations np)
    (npSpec np) v (npReplicas np) (npConditions np).
Definition set_np_replicas (n : Z) (np : NodePool) : NodePool :=
  mkNodePool (npNamespace np) (npName np) (npGeneration np) (npLabels np) (npAnnotations np)
    (npSpec np) (npVersion np) n (npConditions np).

(** [client.ObjectKeyFromObject(nodePool).String()] *)
Definition nodePoolKey (np : NodePool) : string := npNamespace np +:+ "/" +:+ npName np.
(** [nodePool.Annotations[k]]; reading a nil map is fine. *)
Definition npAnnotation (np : NodePool) (k : string) : string := mget (default ∅ (npAnnotations np)) k.

(** *** Conditions of a NodePool *)

(** [func FindStatusCondition(conditions []hyperv1.NodePoolCondition, conditionType string)] *)
Definition FindStatusCondition (cs : list NodePoolCondition) (t : string) : option NodePoolCondition :=
  List.find (λ c, npcType c == t) cs.

(** What [SetStatusCondition] writes through the pointer to the existing condition. *)
Definition update_existing (now : Time) (old new : NodePoolCondition) : NodePoolCondition :=
  mkNPC (npcType old) (npcStatus new) (npcReason new) (npcMessage new) (npcObservedGeneration new)
    (if npcStatus old != npcStatus new
     then if (npcLastTransitionTime new =? zero_time)%Z then now else npcLastTransitionTime new
     else npcLastTransitionTime old).

(** The first condition of the type is updated in place. *)
Fixpoint update_first (now : Time) (cs : list NodePoolCondition) (new : NodePoolCondition)
    : list NodePoolCondition :=
  match cs with
  | [] => []
  | c :: cs =>
      if npcType c == npcType new then update_existing now c new :: cs
      else c :: update_first now cs new
  end.

(** [func SetStatusCondition(conditions *[]hyperv1.NodePoolCondition, newCondition)] *)
Definition SetStatusCondition (now : Time) (cs : list NodePoolCondition) (new : NodePoolCondition)
    : list NodePoolCondition :=
  match FindStatusCondition cs (npcType new) with
  | None => cs ++ [mkNPC (npcType new) (npcStatus new) (npcReason new) (npcMessage new)
                     (npcObservedGeneration new)
                     (if (npcLastTransitionTime new =? zero_time)%Z then now else npcLastTransitionTime new)]
  | Some _ => update_first now cs new
  end.

(** [func removeStatusCondition(conditions *[]hyperv1.NodePoolCondition, conditionType string)] *)
Definition removeStatusCondition (cs : list NodePoolCondition) (t : string) : list NodePoolCondition :=
  List.filter (λ c, npcType c != t) cs.

Definition set_condition (now : Time) (c : NodePoolCondition) (np : NodePool) : NodePool :=
  set_conditions (SetStatusCondition now (npConditions np) c) np.
Definition remove_condition (t : string) (np : NodePool) : NodePool :=
  set_conditions (removeStatusCondition (npConditions np) t) np.

(** *** Validation of a NodePool *)

Inductive np_error : Type :=
  | ErrApi (e : api_error)
  | ErrVersion (e : version_error)
  | ErrSemver (e : parse_error)
  | ErrText (msg : string)
  | ErrMissingCoreConfig (expected got : Z)
  | ErrWrapped (msg : string) (e : np_error).

Definition lift_error {E A} (f : E → np_error) (m : go E A) : go np_error A :=
  match m with Ret a => Ret a | Throw e => Throw (f e) | Panic => Panic end.

(** [func validateManagement(nodePool *hyperv1.NodePool) error] *)
Definition validateManagement (np : NodePool) : go np_error unit :=
  let m := management (npSpec np) in
  if upgradeType m == UpgradeTypeInPlace then Ret () else
  match replace m with
  | None => Throw (ErrText "a Replace upgrade type and a strategy are required")
  | Some r =>
      if upgradeType m != UpgradeTypeReplace
      then Throw (ErrText "a Replace upgrade type and a strategy are required")
      else if (ruStrategy r != UpgradeStrategyRollingUpdate) && (ruStrategy r != UpgradeStrategyOnDelete)
      then Throw (ErrText "only the strategies OnDelete and RollingUpdate are supported")
      else if (ruStrategy r == UpgradeStrategyRollingUpdate) && bool_decide (ruRolling r = None)
      then Throw (ErrText "RollingUpdate requires a MaxUnavailable and MaxSurge")
      else Ret ()
  end.

(** [func isAutoscalingEnabled(nodePool *hyperv1.NodePool) bool] *)
Definition isAutoscalingEnabled (np : NodePool) : bool := bool_decide (is_Some (autoScaling (npSpec np))).
(** [func isUpdatingVersion(nodePool *hyperv1.NodePool, targetVersion string) bool] *)
Definition isUpdatingVersion (np : NodePool) (targetVersion : string) : bool := targetVersion != npVersion np.
(** [func isUpdatingConfig(nodePool *hyperv1.NodePool, targetConfigHash string) bool] *)
Definition isUpdatingConfig (np : NodePool) (targetConfigHash : string) : bool :=
  targetConfigHash != npAnnotation np nodePoolAnnotationCurrentConfig.
(** [func isUpdatingMachineTemplate(nodePool *hyperv1.NodePool, targetMachineTemplate string) bool] *)
Definition isUpdatingMachineTemplate (np : NodePool) (targetMachineTemplate : string) : bool :=
  targetMachineTemplate != npAnnotation np nodePoolAnnotationPlatformMachineTemplate.

(** [func isSpotEnabled(nodePool *hyperv1.NodePool) bool] *)
Definition isSpotEnabled (np : NodePool) : bool := mhas (default ∅ (npAnnotations np)) AnnotationEnableSpot.
(** [func isIBMUPI(nodePool *hyperv1.NodePool) bool] *)
Definition isIBMUPI (np : NodePool) : bool :=
  match pIBMCloudProviderType (platform (npSpec np)) with Some t => t == "UPI" | None => false end.
(** [func isPlatformNone(nodePool *hyperv1.NodePool) bool] *)
Definition isPlatformNone (np : NodePool) : bool := bool_decide (pType (platform (npSpec np)) = NonePlatform).
(** [func isAutomatedMachineManagement(nodePool *hyperv1.NodePool) bool] *)
Definition isAutomatedMachineManagement (np : NodePool) : bool := negb (isIBMUPI np || isPlatformNone np).
(** [func validateInfraID(infraID string) error] *)
Definition validateInfraID (infraID : string) : go np_error unit :=
  if infraID == "" then Throw (ErrText "infraID can't be empty") else Ret ().

Definition ArchitectureAMD64 : string := "amd64".
Definition ArchitectureS390X : string := "s390x".
Definition ArchitecturePPC64LE : string := "ppc64le".
Definition ArchitectureARM64 : string := "arm64".

(** [func isArchAndPlatformSupported(nodePool *hyperv1.NodePool) bool] *)
Definition isArchAndPlatformSupported (np : NodePool) : bool :=
  let a := arch (npSpec np) in
  match pType (platform (npSpec np)) with
  | AWSPlatform => (a == ArchitectureAMD64) || (a == ArchitectureARM64)
  | AzurePlatform => (a == ArchitectureAMD64) || (a == ArchitectureARM64)
  | KubevirtPlatform => (a == ArchitectureAMD64) || (a == ArchitectureS390X)
  | OpenStackPlatform => a == ArchitectureAMD64
  | AgentPlatform => (a == ArchitectureAMD64) || (a == ArchitecturePPC64LE) || (a == ArchitectureARM64)
  | PowerVSPlatform => a == ArchitecturePPC64LE
  | NonePlatform => (a == ArchitectureAMD64) || (a == ArchitectureARM64)
  | GCPPlatform => (a == ArchitectureAMD64) || (a == ArchitectureARM64)
  | IBMCloudPlatform => false
  end.

(** [func ToPayloadArch(arch string) PayloadArchType] *)
Definition ToPayloadArch (a : string) : string :=
  if (a == "amd64") || (a == "AMD64") then "AMD64"
  else if (a == "arm64") || (a == "ARM64") then "ARM64"
  else if (a == "ppc64le") || (a == "PPC64LE") then "PPC64LE"
  else if (a == "s390x") || (a == "S390X") then "S390X"
  else if (a == "multi") || (a == "Multi") then "Multi"
  else "".

(** *** The HostedCluster *)

(** An entry of [status.version.history], the latest first. *)
Record UpdateHistory : Type := mkHistory {
  uhState : string; uhVersion : string; uhImage : string; uhCompletionTime : option Time }.
Record VersionStatus : Type := mkVersionStatus { vsDesired : string; vsHistory : list UpdateHistory }.

(** The fields of [HostedCluster] the NodePool controller reads. *)
Record HostedCluster : Type := mkHostedCluster {
  hcNamespace : string;
  hcName : string;
  hcInfraID : string;
  hcAnnotations : option StringMap;
  hcPullSecret : string;
  hcReleaseImage : string;
  hcNetworkType : NetworkType;
  hcPlatformType : PlatformType;
  hcClusterNetwork : list string;
  hcIgnitionEndpoint : string;
  hcHasKubeConfig : bool;
  hcPayloadArch : string;
  hcVersion : option VersionStatus;
}.

Definition hcHas (hc : HostedCluster) (k : string) : bool := mhas (default ∅ (hcAnnotations hc)) k.
Definition SkipReleaseImageValidation : string := "hypershift.openshift.io/skip-release-image-validation".

(** [func validateHCPayloadSupportsNodePoolCPUArch(hc *hyperv1.HostedCluster, np *hyperv1.NodePool) error] *)
Definition validateHCPayloadSupportsNodePoolCPUArch (hc : HostedCluster) (np : NodePool) : go np_error unit :=
  if hcPayloadArch hc == "Multi" then Ret ()
  else if hcPayloadArch hc == ToPayloadArch (arch (npSpec np)) then Ret ()
  else Throw (ErrText ("NodePool CPU arch, " +:+ arch (npSpec np) +:+
                       ", is not supported by the HostedCluster payload type, " +:+ hcPayloadArch hc)).

(** What the controller reads: the data of a Secret, the version of a release
image looked up with a pull secret, the machines of a namespace. *)
Record MachineAddress : Type := mkAddress { addrType : string; addrAddress : string }.
Record CAPICondition : Type := mkCAPICondition {
  ccType : string; ccStatus : string; ccReason : string; ccMessage : string }.
Record Machine : Type := mkMachine {
  mName : string;
  mCreationTimestamp : Time;
  mAnnotations : option StringMap;
  mConditions : list CAPICondition;
  mAddresses : list MachineAddress;
}.

(** A machine of the KubeVirt provider and the condition it reports. *)
Record KubevirtMachine : Type := mkKubevirtMachine {
  kvmName : string; kvmConditions : list CAPICondition }.
Definition VMLiveMigratableCondition : string := "VMLiveMigratable".

Record Reads : Type := mkReads {
  getSecret : string → string → go api_error (option StringMap * option StringMap);
  lookupRelease : string → string → go api_error string;
  listMachines : string → go api_error (list Machine);
}.

Definition DockerConfigJsonKey : string := ".dockerconfigjson".

Section Reconciler.
Context (r : Reads).

(** [func (r *NodePoolReconciler) getPullSecretBytes(ctx, hostedCluster) ([]byte, error)] *)
Definition getPullSecretBytes (hc : HostedCluster) : go np_error string :=
  match getSecret r (hcNamespace hc) (hcPullSecret hc) with
  | Panic => Panic
  | Throw err => Throw (ErrWrapped ("cannot get pull secret " +:+ hcNamespace hc +:+ "/" +:+ hcPullSecret hc) (ErrApi err))
  | Ret (_, data) =>
      match default ∅ data !! DockerConfigJsonKey with
      | None => Throw (ErrText ("pull secret " +:+ hcNamespace hc +:+ "/" +:+ hcPullSecret hc +:+
                                " missing " +:+ DockerConfigJsonKey +:+ " key"))
      | Some bytes => Ret bytes
      end
  end.

(** [func (r *NodePoolReconciler) getHostedClusterVersion(ctx, hostedCluster, pullSecretBytes)
( *semver.Version, error)] *)
Definition getHostedClusterVersion (hc : HostedCluster) (pullSecretBytes : string) : go np_error Version :=
  let history := match hcVersion hc with Some v => vsHistory v | None => [] end in
  match List.find (λ h, bool_decide (is_Some (uhCompletionTime h))) history with
  | Some h => lift_error ErrSemver (Parse (uhVersion h))
  | None =>
      version ← lift_error (λ e, ErrWrapped "failed to lookup release image" (ErrApi e))
                  (lookupRelease r (hcReleaseImage hc) pullSecretBytes);
      lift_error ErrSemver (Parse version)
  end.

(** [func (r *NodePoolReconciler) getReleaseImage(ctx, hostedCluster, currentVersion, releaseImage)
( *releaseinfo.ReleaseImage, error)], the version of the image. An empty current
version is parsed to the zero version and passed by address. *)
Definition getReleaseImage (hc : HostedCluster) (currentVersion releaseImage : string) : go np_error string :=
  pullSecretBytes ← getPullSecretBytes hc;
  version ← lift_error (λ e, ErrWrapped "failed to look up release image metadata" (ErrApi e))
              (lookupRelease r releaseImage pullSecretBytes);
  if hcHas hc SkipReleaseImageValidation then Ret version else
  wantedVersion ← lift_error ErrSemver (Parse version);
  currentVersionParsed ← (if currentVersion != "" then lift_error ErrSemver (Parse currentVersion)
                          else Ret (release 0 0 0));
  let minSupportedVersion := GetMinSupportedVersion (hcHas hc SkipReleaseImageValidation) (hcPlatformType hc) in
  hostedClusterVersion ← getHostedClusterVersion hc pullSecretBytes;
  _ ← lift_error ErrVersion
        (IsValidReleaseVersion wantedVersion (Some currentVersionParsed) hostedClusterVersion
           minSupportedVersion (hcNetworkType hc) (hcPlatformType hc));
  Ret version.

End Reconciler.

(** *** The conditions the controller signals *)

(** What a condition function returns: [nil, nil] lets the reconcile go on, a
result or an error ends it. *)
Inductive outcome : Type := Continue | Return | Fail (e : np_error).

Definition PlatformType_String (t : PlatformType) : string :=
  match t with
  | AWSPlatform => "AWS" | NonePlatform => "None" | IBMCloudPlatform => "IBMCloud"
  | AgentPlatform => "Agent" | KubevirtPlatform => "KubeVirt" | AzurePlatform => "Azure"
  | PowerVSPlatform => "PowerVS" | OpenStackPlatform => "OpenStack" | GCPPlatform => "GCP"
  end.

Definition NodePoolValidationFailedReason : string := "ValidationFailed".
Definition NodePoolInplaceUpgradeFailedReason : string := "InplaceUpgradeFailed".
Definition NodePoolNotFoundReason : string := "NotFound".
Definition NodePoolFailedToGetReason : string := "FailedToGet".
Definition NodePoolAutoscalingEnabledConditionType : string := "AutoscalingEnabled".
Definition NodePoolUpdateManagementEnabledConditionType : string := "UpdateManagementEnabled".
Definition NodePoolValidReleaseImageConditionType : string := "ValidReleaseImage".
Definition IgnitionEndpointAvailable : string := "IgnitionEndpointAvailable".
Definition NodePoolValidArchPlatform : string := "ValidArchPlatform".
Definition NodePoolInvalidArchPlatform : string := "InvalidArchPlatform".
Definition NodePoolReconciliationActiveConditionType : string := "ReconciliationActive".
Definition NodePoolSupportedVersionSkewConditionType : string := "SupportedVersionSkew".
Definition NodePoolUnsupportedSkewReason : string := "UnsupportedSkew".
Definition NodePoolUpdatingConfigConditionType : string := "UpdatingConfig".
Definition NodePoolUpdatingVersionConditionType : string := "UpdatingVersion".
Definition NodePoolUpdatingPlatformMachineTemplateConditionType : string := "UpdatingPlatformMachineTemplate".
Definition NodePoolReadyConditionType : string := "Ready".
Definition NodePoolAllMachinesReadyConditionType : string := "AllMachinesReady".
Definition NodePoolAllNodesHealthyConditionType : string := "AllNodesHealthy".
Definition NodePoolKubeVirtLiveMigratableType : string := "KubeVirtNodesLiveMigratable".
Definition NodePoolReachedIgnitionEndpoint : string := "ReachedIgnitionEndpoint".
Definition NodePoolValidGeneratedPayloadConditionType : string := "ValidGeneratedPayload".
Definition NodePoolClusterNetworkCIDRConflictType : string := "ClusterNetworkCIDRConflict".
Definition InvalidConfigurationReason : string := "InvalidConfiguration".
Definition IgnitionNotReached : string := "ignitionNotReached".
Definition AllIsWellMessage : string := "All is well".
Definition TokenSecretIgnitionReachedAnnotation : string := "hypershift.openshift.io/ignition-reached".
Definition TokenSecretReasonKey : string := "reason".
Definition TokenSecretMessageKey : string := "message".

(** What a token promises the rollout: the names of its secrets, the target
version and the hashes of the configuration without and with the version
([Token.UserDataSecret], [Token.TokenSecret], [ConfigGenerator.Version],
[HashWithoutVersion] and [Hash]). *)
Record Target : Type := mkTarget {
  tUserDataSecret : string;
  tTokenSecret : string;
  tVersion : string;
  tConfigHash : string;
  tConfigVersionHash : string;
}.

(** [net/netip]: prefixes, addresses and membership. *)
Class Netip : Type := {
  Prefix : Type;
  Addr : Type;
  ParsePrefix : string → option Prefix;
  ParseAddr : string → option Addr;
  Contains : Prefix → Addr → bool;
}.

(** The regular expression [\d+ of \d+ completed], unanchored. *)
Fixpoint skip_digits (s : string) : string :=
  match s with
  | String c s' => if is_digit c then skip_digits s' else s
  | EmptyString => EmptyString
  end.
(** The rest after one or more digits and the literal. *)
Definition after_number (s lit : string) : option string :=
  match s with
  | String c s' => if is_digit c && has_prefix (skip_digits s') lit
                   then Some (trim_prefix (skip_digits s') lit) else None
  | EmptyString => None
  end.
Fixpoint isSetupCounterCondMessage (s : string) : bool :=
  (match after_number s " of " with
   | Some s' => bool_decide (is_Some (after_number s' " completed"))
   | None => false
   end) ||
  match s with
  | String _ s' => isSetupCounterCondMessage s'
  | EmptyString => false
  end.

(** [func findCAPIStatusCondition(conditions []capiv1.Condition, conditionType)] *)
Definition findCAPIStatusCondition (cs : list CAPICondition) (t : string) : option CAPICondition :=
  List.find (λ c, ccType c == t) cs.

Definition endOfMessage : string := "... too many similar errors" +:+ String (ascii_of_nat 10) "".
Definition maxMessageLength : nat := 1000.
Definition newline : string := String (ascii_of_nat 10) "".

(** [func aggregateMachineMessages(msgs []string) string]; [acc] is the builder. *)
Fixpoint aggregateMachineMessages (acc : string) (msgs : list string) : string :=
  match msgs with
  | [] => acc
  | msg :: msgs =>
      if (maxMessageLength <? String.length acc + String.length msg)%nat then acc +:+ endOfMessage
      else aggregateMachineMessages (acc +:+ msg) msgs
  end.

Definition concat_strings (l : list string) : string := foldr String.append "" l.

(** [func aggregateMachineReasonsAndMessages(messageMap, numMachines, numNotReady int, state string)
(string, string)] *)
Definition aggregateMachineReasonsAndMessages (messageMap : gmap string (list string))
    (numMachines numNotReady : nat) (state : string) : string * string :=
  let reasons := sets_List (dom messageMap) in
  (String.concat "," reasons,
   itoa (Z.of_nat numNotReady) +:+ " of " +:+ itoa (Z.of_nat numMachines) +:+ " machines are not " +:+
   state +:+ newline +:+
   concat_strings ((λ reason, aggregateMachineMessages "" (default [] (messageMap !! reason))) <$> reasons)).

(** [func (o machinesByCreationTimestamp) Less(i, j int) bool] *)
Definition machine_less (a b : Machine) : bool :=
  if (mCreationTimestamp a =? mCreationTimestamp b)%Z then str_lt (mName a) (mName b)
  else time_before (mCreationTimestamp a) (mCreationTimestamp b).

Section Conditions.
Context `{!SliceSort} `{!Netip}.
(** The text of an error, and [time.Parse(time.RFC3339, _)]. *)
Context (Error : np_error → string) (parse_rfc3339 : string → option Time).
Context (r : Reads) (now : Time).
Implicit Types (np : NodePool) (hc : HostedCluster).

(** Sets a condition with the generation of the NodePool. *)
Definition signal np (type status reason message : string) : NodePool :=
  set_condition now (condition type status reason message (npGeneration np)) np.

(** [func (r *NodePoolReconciler) autoscalerEnabledCondition] *)
Definition autoscalerEnabledCondition np : NodePool * outcome :=
  match autoScaling (npSpec np) with
  | Some scaling =>
      if bool_decide (asMin scaling = Some 0%Z) &&
         negb (bool_decide (pType (platform (npSpec np)) = AWSPlatform))
      then (signal np NodePoolAutoscalingEnabledConditionType cFalse NodePoolValidationFailedReason
              ("Autoscaling from zero (min=0) is not supported for " +:+
               PlatformType_String (pType (platform (npSpec np))) +:+ " platform"), Continue)
      else (signal np NodePoolAutoscalingEnabledConditionType cTrue AsExpectedReason
              ("Maximum nodes: " +:+ itoa (asMax scaling) +:+ ", Minimum nodes: " +:+
               itoa (default 0%Z (asMin scaling))), Continue)
  | None => (signal np NodePoolAutoscalingEnabledConditionType cFalse AsExpectedReason "", Continue)
  end.

(** [func (r *NodePoolReconciler) updateManagementEnabledCondition] *)
Definition updateManagementEnabledCondition np : NodePool * outcome :=
  match validateManagement np with
  | Ret _ => (signal np NodePoolUpdateManagementEnabledConditionType cTrue AsExpectedReason "", Continue)
  | Throw err => (signal np NodePoolUpdateManagementEnabledConditionType cFalse
                    NodePoolValidationFailedReason (Error err), Return)
  | Panic => (np, Return)
  end.

(** [func (r *NodePoolReconciler) releaseImageCondition] *)
Definition releaseImageCondition hc np : go np_error (NodePool * outcome) :=
  match getReleaseImage r hc (npVersion np) (releaseImage (npSpec np)) with
  | Panic => Panic
  | Throw err => Ret (signal np NodePoolValidReleaseImageConditionType cFalse NodePoolValidationFailedReason
                        ("Failed to get release image: " +:+ Error err),
                      Fail (ErrWrapped "failed to look up release image metadata" err))
  | Ret _ => Ret (signal np NodePoolValidReleaseImageConditionType cTrue AsExpectedReason
                    ("Using release image: " +:+ releaseImage (npSpec np)), Continue)
  end.

(** [func (r *NodePoolReconciler) ignitionEndpointAvailableCondition] *)
Definition ignitionEndpointAvailableCondition hc np : go np_error (NodePool * outcome) :=
  let missing np reason message :=
    Ret (signal np IgnitionEndpointAvailable cFalse reason message, Return) in
  if hcIgnitionEndpoint hc == "" then
    missing np "IgnitionEndpointMissing" "Ignition endpoint not available, waiting" else
  let np := remove_condition IgnitionEndpointAvailable np in
  match getSecret r (HostedControlPlaneNamespace (hcNamespace hc) (hcName hc)) "ignition-server-ca-cert" with
  | Panic => Panic
  | Throw err =>
      if IsNotFound err
      then missing np "IgnitionCACertMissing" "still waiting for ignition CA cert Secret to exist"
      else Ret (np, Fail (ErrWrapped "failed to get ignition CA Secret" (ErrApi err)))
  | Ret (_, data) =>
      let np := remove_condition IgnitionEndpointAvailable np in
      if negb (mhas (default ∅ data) "tls.crt")
      then missing np "IgnitionCACertMissing" "CA Secret is missing tls.crt key"
      else Ret (remove_condition IgnitionEndpointAvailable np, Continue)
  end.

(** [func (r *NodePoolReconciler) validArchPlatformCondition] *)
Definition validArchPlatformCondition hc np : NodePool * outcome :=
  if negb (isArchAndPlatformSupported np) then
    (signal np NodePoolValidArchPlatform cFalse NodePoolInvalidArchPlatform
       ("CPU arch " +:+ arch (npSpec np) +:+ " is not supported for platform: " +:+
        PlatformType_String (pType (platform (npSpec np))) +:+ ", use 'amd64' instead"), Continue)
  else
    match validateHCPayloadSupportsNodePoolCPUArch hc np with
    | Throw err => (signal np NodePoolValidArchPlatform cFalse NodePoolInvalidArchPlatform (Error err), Fail err)
    | _ => (signal np NodePoolValidArchPlatform cTrue AsExpectedReason "", Continue)
    end.

(** [func generateReconciliationActiveCondition(pausedUntilField *string, objectGeneration int64)] *)
Definition generateReconciliationActiveCondition (field : option string) (generation : Z) : NodePoolCondition :=
  match ProcessPausedUntilField parse_rfc3339 field now with
  | Ret (true, _) =>
      let v := default "" field in
      condition NodePoolReconciliationActiveConditionType cFalse "ReconciliationPaused"
        (match parse_bool v with
         | Some _ => "Reconciliation paused until field removed"
         | None => "Reconciliation paused until: " +:+ v
         end) generation
  | Ret (false, _) =>
      condition NodePoolReconciliationActiveConditionType cTrue "ReconciliationActive"
        "Reconciliation active on resource" generation
  | _ =>
      condition NodePoolReconciliationActiveConditionType cTrue "InvalidPausedUntilValue"
        "Invalid value provided for PausedUntil field" generation
  end.

(** [func (r NodePoolReconciler) reconciliationActiveCondition] *)
Definition reconciliationActiveCondition np : NodePool * outcome :=
  (set_condition now (generateReconciliationActiveCondition (pausedUntil (npSpec np)) (npGeneration np)) np,
   Continue).

(** The control plane version the skew is measured against: the most recent
completed one, else the most recent one, else the desired one. *)
Definition controlPlaneVersionStr (v : VersionStatus) : string :=
  match vsHistory v with
  | [] => vsDesired v
  | h :: _ =>
      match List.find (λ h, uhState h == "Completed") (vsHistory v) with
      | Some c => uhVersion c
      | None => uhVersion h
      end
  end.

(** [func (r *NodePoolReconciler) supportedVersionSkewCondition] *)
Definition supportedVersionSkewCondition hc np : go np_error (NodePool * outcome) :=
  let say status reason message :=
    Ret (signal np NodePoolSupportedVersionSkewConditionType status reason message, Continue) in
  match hcVersion hc with
  | None => say cUnknown NodePoolValidationFailedReason
              "HostedCluster version is not available yet, waiting for version information"
  | Some v =>
      match Parse (controlPlaneVersionStr v) with
      | Panic => Panic
      | Throw err => say cUnknown NodePoolValidationFailedReason
          ("Failed to parse control plane version (" +:+ controlPlaneVersionStr v +:+ "): " +:+ Error (ErrSemver err))
      | Ret controlPlaneVersion =>
          match getReleaseImage r hc (npVersion np) (releaseImage (npSpec np)) with
          | Panic => Panic
          | Throw err => say cUnknown NodePoolValidationFailedReason
                           ("Failed to get release image: " +:+ Error err)
          | Ret version =>
              match Parse version with
              | Panic => Panic
              | Throw err => say cUnknown NodePoolValidationFailedReason
                  ("Failed to parse NodePool version (" +:+ version +:+ "): " +:+ Error (ErrSemver err))
              | Ret nodePoolVersion =>
                  match ValidateVersionSkew controlPlaneVersion nodePoolVersion with
                  | Panic => Panic
                  | Throw err => say cFalse NodePoolUnsupportedSkewReason (Error (ErrVersion err))
                  | Ret _ => say cTrue AsExpectedReason "Release image version is valid"
                  end
              end
          end
      end
  end.

(** The status, reason and message of an update in progress: for an in-place
upgrade what the annotations of the MachineSet say, the failure last. *)
Definition updating_condition np (message : string) (machineSet : option StringMap) : string * string * string :=
  let start := (cTrue, AsExpectedReason, message) in
  if upgradeType (management (npSpec np)) == UpgradeTypeInPlace then
    match machineSet with
    | None => start
    | Some annotations =>
        match annotations !! nodePoolAnnotationUpgradeInProgressFalse with
        | Some m => (cFalse, NodePoolInplaceUpgradeFailedReason, m)
        | None =>
            match annotations !! nodePoolAnnotationUpgradeInProgressTrue with
            | Some m => (cTrue, AsExpectedReason, m)
            | None => start
            end
        end
    end
  else start.

(** The read of the MachineSet for an in-place upgrade; [None] when not found. *)
Definition read_machineset hc np (getMachineSet : go api_error StringMap) : go np_error (option StringMap) :=
  if upgradeType (management (npSpec np)) != UpgradeTypeInPlace then Ret None else
  if hcInfraID hc == "" then Throw (ErrWrapped "error getting capi client" (ErrText "capiClusterName can not be empty"))
  else match getMachineSet with
       | Panic => Panic
       | Throw err => if IsNotFound err then Ret None
                      else Throw (ErrWrapped "failed to get MachineSet" (ErrApi err))
       | Ret annotations => Ret (Some annotations)
       end.

(** [func (r *NodePoolReconciler) updatingConfigCondition]; [token] is what
[r.token] gives, [getMachineSet] the annotations read for the MachineSet. *)
Definition updatingConfigCondition hc (token : go np_error Target) (getMachineSet : go api_error StringMap) np
    : go np_error (NodePool * outcome) :=
  match token with
  | Panic => Panic
  | Throw err => Ret (np, Fail (ErrWrapped "error getting token" err))
  | Ret t =>
      if isUpdatingConfig np (tConfigHash t) then
        match read_machineset hc np getMachineSet with
        | Panic => Panic
        | Throw err => Ret (np, Fail err)
        | Ret ms =>
            let '(status, reason, message) :=
              updating_condition np ("Updating config in progress. Target config: " +:+ tConfigHash t) ms in
            Ret (signal np NodePoolUpdatingConfigConditionType status reason message, Continue)
        end
      else Ret (signal np NodePoolUpdatingConfigConditionType cFalse AsExpectedReason "", Continue)
  end.

(** [func (r *NodePoolReconciler) updatingVersionCondition] *)
Definition updatingVersionCondition hc (token : go np_error Target) (getMachineSet : go api_error StringMap) np
    : go np_error (NodePool * outcome) :=
  match getReleaseImage r hc (npVersion np) (releaseImage (npSpec np)) with
  | Panic => Panic
  | Throw err => Ret (np, Fail (ErrWrapped "failed to look up release image metadata" err))
  | Ret targetVersion =>
      if isUpdatingVersion np targetVersion then
        match (if upgradeType (management (npSpec np)) == UpgradeTypeInPlace
               then _ ← lift_error (ErrWrapped "error getting token") token;
                    read_machineset hc np getMachineSet
               else Ret None) with
        | Panic => Panic
        | Throw err => Ret (np, Fail err)
        | Ret ms =>
            let '(status, reason, message) :=
              updating_condition np ("Updating version in progress. Target version: " +:+ targetVersion) ms in
            Ret (signal np NodePoolUpdatingVersionConditionType status reason message, Continue)
        end
      else Ret (signal np NodePoolUpdatingVersionConditionType cFalse AsExpectedReason "", Continue)
  end.

(** [func (r NodePoolReconciler) createReachedIgnitionEndpointCondition(ctx, tokenSecret, generation)];
[secret] is what reading the token secret gives, its annotations and data. *)
Definition createReachedIgnitionEndpointCondition
    (secret : go api_error (option StringMap * option StringMap)) (generation : Z) : NodePoolCondition :=
  let make status reason message := condition NodePoolReachedIgnitionEndpoint status reason message generation in
  match secret with
  | Ret (annotations, _) =>
      if negb (mhas (default ∅ annotations) TokenSecretIgnitionReachedAnnotation)
      then make cFalse IgnitionNotReached "" else make cTrue AsExpectedReason ""
  | Throw err => make cFalse (if negb (IsNotFound err) then NodePoolFailedToGetReason
                              else NodePoolNotFoundReason) (Error (ErrApi err))
  | Panic => make cFalse "" ""
  end.

(** [func (r NodePoolReconciler) createValidGeneratedPayloadCondition(ctx, tokenSecret, generation)]:
a payload that failed leaves the status at its zero value. *)
Definition createValidGeneratedPayloadCondition
    (secret : go api_error (option StringMap * option StringMap)) (generation : Z) : NodePoolCondition :=
  let make status reason message :=
    condition NodePoolValidGeneratedPayloadConditionType status reason message generation in
  match secret with
  | Ret (_, data) =>
      let data := default ∅ data in
      if negb (mhas data TokenSecretReasonKey)
      then make cUnknown (mget data TokenSecretReasonKey) "Unable to get status data from token secret"
      else make (if mget data TokenSecretReasonKey == AsExpectedReason then cTrue else "")
             (mget data TokenSecretReasonKey) (mget data TokenSecretMessageKey)
  | Throw err => make cFalse (if negb (IsNotFound err) then NodePoolFailedToGetReason
                              else NodePoolNotFoundReason) (Error (ErrApi err))
  | Panic => make cFalse "" ""
  end.

(** [func (r NodePoolReconciler) validGeneratedPayloadCondition] *)
Definition validGeneratedPayloadCondition hc (token : go np_error Target) np : go np_error (NodePool * outcome) :=
  match token with
  | Panic => Panic
  | Throw err => Ret (np, Fail (ErrWrapped "error getting token" err))
  | Ret t =>
      match getSecret r (HostedControlPlaneNamespace (hcNamespace hc) (hcName hc)) (tTokenSecret t) with
      | Panic => Panic
      | secret => Ret (set_condition now (createValidGeneratedPayloadCondition secret (npGeneration np)) np, Continue)
      end
  end.

(** [func (r NodePoolReconciler) reachedIgnitionEndpointCondition]: once reached,
an in-place upgrade does not reset it. *)
Definition reachedIgnitionEndpointCondition hc (token : go np_error Target) np : go np_error (NodePool * outcome) :=
  match token with
  | Panic => Panic
  | Throw err => Ret (np, Fail (ErrWrapped "error getting token" err))
  | Ret t =>
      let reached := match FindStatusCondition (npConditions np) NodePoolReachedIgnitionEndpoint with
                     | Some c => npcStatus c == cTrue
                     | None => false
                     end in
      if negb reached || (upgradeType (management (npSpec np)) != UpgradeTypeInPlace) then
        match getSecret r (HostedControlPlaneNamespace (hcNamespace hc) (hcName hc)) (tTokenSecret t) with
        | Panic => Panic
        | secret => Ret (set_condition now (createReachedIgnitionEndpointCondition secret (npGeneration np)) np, Continue)
        end
      else Ret (np, Continue)
  end.

(** [func (r *NodePoolReconciler) getMachinesForNodePool(ctx, nodePool) ([]*capiv1.Machine, error)],
with [sortedByCreationTimestamp]. *)
Definition getMachinesForNodePool np : go np_error (list Machine) :=
  machines ← lift_error (λ e, ErrWrapped "failed to list Machines" (ErrApi e))
    (listMachines r (npNamespace np +:+ "-" +:+ dots_to_dashes (clusterName (npSpec np))));
  Ret (sort_slice machine_less
    (List.filter (λ m, mget (default ∅ (mAnnotations m)) nodePoolAnnotation == nodePoolKey np) machines)).

(** Reason and message when there is no machine. *)
Definition no_machines np : string * string :=
  if bool_decide (replicas (npSpec np) = Some 0%Z) then (AsExpectedReason, "NodePool set to no replicas")
  else (NodePoolNotFoundReason, "No Machines are created").

(** One turn of the loop of [setAllNodesHealthyCondition]. *)
Definition node_healthy_step (acc : string * string * string) (m : Machine) : string * string * string :=
  let '(status, reason, message) := acc in
  match findCAPIStatusCondition (mConditions m) MachineNodeHealthyCondition with
  | Some c => if ccStatus c != cTrue
              then (cFalse, ccReason c, message +:+ "Machine " +:+ mName m +:+ ": " +:+ ccReason c +:+ newline)
              else acc
  | None => acc
  end.

(** [func (r *NodePoolReconciler) setAllNodesHealthyCondition(nodePool, machines)] *)
Definition setAllNodesHealthyCondition np (machines : list Machine) : NodePool :=
  let start := match machines with
               | [] => let '(reason, message) := no_machines np in (cFalse, reason, message)
               | _ => (cTrue, AsExpectedReason, "")
               end in
  let '(status, reason, message) := foldl node_healthy_step start machines in
  signal np NodePoolAllNodesHealthyConditionType status reason
    (if status == cTrue then AllIsWellMessage else message).

(** The reason and message a machine adds when it is not ready. *)
Definition machine_not_ready (m : Machine) : option (string * string) :=
  match findCAPIStatusCondition (mConditions m) ReadyCondition with
  | Some ready =>
      if ccStatus ready != cTrue then
        let plain := (ccReason ready, "Machine " +:+ mName m +:+ ": " +:+ ccReason ready +:+ newline) in
        match findCAPIStatusCondition (mConditions m) InfrastructureReadyCondition with
        | Some infra =>
            if (ccStatus infra != cTrue) && negb (isSetupCounterCondMessage (ccMessage infra))
            then Some (ccReason infra, "Machine " +:+ mName m +:+ ": " +:+ ccReason infra +:+ ": " +:+
                                       ccMessage infra +:+ newline)
            else Some plain
        | None => Some plain
        end
      else None
  | None => None
  end.

(** [messageMap[mapReason] = append(messageMap[mapReason], mapMessage)] *)
Definition add_message (m : gmap string (list string)) (rm : string * string) : gmap string (list string) :=
  <[rm.1 := default [] (m !! rm.1) ++ [rm.2]]> m.

(** [func (r *NodePoolReconciler) setAllMachinesReadyCondition(nodePool, machines)] *)
Definition setAllMachinesReadyCondition np (machines : list Machine) : NodePool :=
  match machines with
  | [] => let '(reason, message) := no_machines np in
          signal np NodePoolAllMachinesReadyConditionType cFalse reason message
  | _ =>
      match omap machine_not_ready machines with
      | [] => signal np NodePoolAllMachinesReadyConditionType cTrue AsExpectedReason AllIsWellMessage
      | notReady =>
          let '(reason, message) := aggregateMachineReasonsAndMessages (foldl add_message ∅ notReady)
                                      (length machines) (length notReady) "ready" in
          signal np NodePoolAllMachinesReadyConditionType cFalse reason message
      end
  end.

(** The inner loop of [setCIDRConflictCondition] over the addresses of a machine. *)
Fixpoint address_conflicts (network : Prefix) (networkStr : string) (m : Machine) (addrs : list MachineAddress)
    : go np_error (list string) :=
  match addrs with
  | [] => Ret []
  | a :: addrs =>
      if (addrType a != "ExternalIP") && (addrType a != "InternalIP")
      then address_conflicts network networkStr m addrs else
      match ParseAddr (addrAddress a) with
      | None => Throw (ErrText (addrAddress a))
      | Some ip =>
          rest ← address_conflicts network networkStr m addrs;
          Ret (if Contains network ip
               then ("machine [" +:+ mName m +:+ "] with ip [" +:+ addrAddress a +:+
                     "] collides with cluster-network cidr [" +:+ networkStr +:+ "]") :: rest
               else rest)
      end
  end.
Fixpoint machine_conflicts (network : Prefix) (networkStr : string) (machines : list Machine)
    : go np_error (list string) :=
  match machines with
  | [] => Ret []
  | m :: machines =>
      mine ← address_conflicts network networkStr m (mAddresses m);
      rest ← machine_conflicts network networkStr machines;
      Ret (mine ++ rest)
  end.

(** One turn of the loop that joins the messages; it never stops. *)
Definition join_conflict (message entry : string) : string :=
  if (String.length message =? 0)%nat then entry
  else if (String.length entry + String.length message <? 256)%nat then message +:+ ", " +:+ entry
  else message +:+ ", too many similar errors...".

(** [func (r *NodePoolReconciler) setCIDRConflictCondition(nodePool, machines, hc) error] *)
Definition setCIDRConflictCondition hc np (machines : list Machine) : go np_error NodePool :=
  match machines, hcClusterNetwork hc with
  | [], _ | _, [] => Ret (remove_condition NodePoolClusterNetworkCIDRConflictType np)
  | _, networkStr :: _ =>
      match ParsePrefix networkStr with
      | None => Throw (ErrText networkStr)
      | Some network =>
          messages ← machine_conflicts network networkStr machines;
          match messages with
          | [] => Ret np
          | _ => Ret (signal np NodePoolClusterNetworkCIDRConflictType cTrue InvalidConfigurationReason
                        (foldl join_conflict "" messages))
          end
      end
  end.

(** The reason and message of a condition that keeps a KubeVirt machine from
being live migrated. *)
Definition not_live_migratable (m : KubevirtMachine) (c : CAPICondition) : option (string * string) :=
  if (ccType c == VMLiveMigratableCondition) && (ccStatus c == cFalse)
  then Some (ccReason c, "Machine " +:+ kvmName m +:+ ": " +:+ ccReason c +:+ ": " +:+ ccMessage c +:+ newline)
  else None.

(** [func (r *NodePoolReconciler) setAllMachinesLMCondition(ctx, nodePool, hcluster) error] *)
Definition setAllMachinesLMCondition hc
    (listKubevirtMachines : string → go api_error (list KubevirtMachine)) np : go np_error NodePool :=
  kubevirtMachines ← lift_error (λ e, ErrWrapped "failed to list KubeVirt Machines" (ErrApi e))
    (listKubevirtMachines (HostedControlPlaneNamespace (hcNamespace hc) (hcName hc)));
  match kubevirtMachines with
  | [] => Ret np
  | _ =>
      match mjoin ((λ m, omap (not_live_migratable m) (kvmConditions m)) <$> kubevirtMachines) with
      | [] => Ret (signal np NodePoolKubeVirtLiveMigratableType cTrue AsExpectedReason AllIsWellMessage)
      | notMigratable =>
          let '(reason, message) := aggregateMachineReasonsAndMessages (foldl add_message ∅ notMigratable)
                                      (length kubevirtMachines) (length notMigratable) "live migratable" in
          Ret (signal np NodePoolKubeVirtLiveMigratableType cFalse reason message)
      end
  end.

(** [func (r NodePoolReconciler) machineAndNodeConditions] with
[setMachineAndNodeConditions]. *)
Definition machineAndNodeConditions hc
    (listKubevirtMachines : string → go api_error (list KubevirtMachine)) np
    : go np_error (NodePool * outcome) :=
  match getMachinesForNodePool np with
  | Panic => Panic
  | Throw err => Ret (signal np NodePoolAllMachinesReadyConditionType cUnknown NodePoolFailedToGetReason (Error err),
                      Fail (ErrWrapped "failed to get Machines" err))
  | Ret machines =>
      let np := setAllMachinesReadyCondition np machines in
      let np := setAllNodesHealthyCondition np machines in
      match setCIDRConflictCondition hc np machines with
      | Panic => Panic
      | Throw err => Ret (np, Fail err)
      | Ret np =>
          if bool_decide (pType (platform (npSpec np)) = KubevirtPlatform) then
            match setAllMachinesLMCondition hc listKubevirtMachines np with
            | Panic => Panic
            | Throw err => Ret (np, Fail err)
            | Ret np => Ret (np, Continue)
            end
          else Ret (np, Continue)
      end
  end.

End Conditions.

End NodePool.
