(* ===== verification/NodePoolProofs.v ===== *)
(** The conditions of a NodePool: one per type, read back as set, and what the
checks of the release image and of the machine addresses really do. *)
From S2P Require Import Prelude GoSort Semver Api SupportedVersion Upsert NodePool.

Module NodePoolProofs.
Import Semver SupportedVersion Upsert NodePool.

(** *** Conditions *)

Definition types_of (cs : list NodePoolCondition) : list string := npcType <$> cs.

Lemma Find_None cs t : FindStatusCondition cs t = None ↔ t ∉ types_of cs.
Proof.
  unfold FindStatusCondition, types_of. rewrite find_None_elem. split.
  - intros Hn (c & -> & Hc)%list_elem_of_fmap. specialize (Hn c Hc). by rewrite str_eqb_refl in Hn.
  - intros Hn c Hc. apply str_eqb_neq. intros <-. apply Hn. by apply list_elem_of_fmap_2.
Qed.

Lemma Find_update_first now cs new t :
  FindStatusCondition (update_first now cs new) t =
  if str_eqb t (npcType new) then (λ c, update_existing now c new) <$> FindStatusCondition cs t
  else FindStatusCondition cs t.
Proof.
  unfold FindStatusCondition. induction cs as [|c cs IH]; simpl; [by destruct (str_eqb t _)|].
  destruct (str_eqb (npcType c) (npcType new)) eqn:E; simpl.
  - apply str_eqb_eq in E. rewrite E. destruct (str_eqb (npcType new) t) eqn:E2.
    + apply str_eqb_eq in E2. subst t. by rewrite str_eqb_refl.
    + destruct (str_eqb t (npcType new)) eqn:E3; [|done].
      apply str_eqb_eq in E3. subst t. by rewrite str_eqb_refl in E2.
  - destruct (str_eqb (npcType c) t) eqn:E2; [|exact IH].
    apply str_eqb_eq in E2. subst t. by rewrite E.
Qed.

(** Setting a condition of another type leaves a condition alone. *)
Lemma Find_set_other now cs new t :
  t ≠ npcType new → FindStatusCondition (SetStatusCondition now cs new) t = FindStatusCondition cs t.
Proof.
  intros Ht. unfold SetStatusCondition. destruct (FindStatusCondition cs (npcType new)) as [c|].
  - rewrite Find_update_first. by rewrite (proj2 (str_eqb_neq t (npcType new)) Ht).
  - unfold FindStatusCondition. induction cs as [|c cs IH]; simpl.
    + by rewrite (proj2 (str_eqb_neq (npcType new) t)) by congruence.
    + by destruct (str_eqb (npcType c) t).
Qed.

(** Reading back a condition that was set. *)
Lemma Find_set now cs new :
  ∃ c, FindStatusCondition (SetStatusCondition now cs new) (npcType new) = Some c ∧
    npcStatus c = npcStatus new ∧ npcReason c = npcReason new ∧ npcMessage c = npcMessage new ∧
    npcObservedGeneration c = npcObservedGeneration new ∧
    ∀ old, FindStatusCondition cs (npcType new) = Some old → npcStatus old = npcStatus new →
           npcLastTransitionTime c = npcLastTransitionTime old.
Proof.
  unfold SetStatusCondition. destruct (FindStatusCondition cs (npcType new)) as [old|] eqn:E.
  - rewrite Find_update_first, str_eqb_refl, E. simpl. eexists. split_and!; try reflexivity.
    intros ? [= <-] Hs. simpl. by rewrite Hs, str_eqb_refl.
  - set (c := mkNPC _ _ _ _ _ _). exists c. split_and!; try reflexivity; [|done].
    unfold FindStatusCondition in *. induction cs as [|d cs IH]; simpl in *.
    + change (npcType c) with (npcType new). by rewrite str_eqb_refl.
    + destruct (str_eqb (npcType d) (npcType new)); [done|]. by apply IH.
Qed.

(** *** Machines and nodes *)

(** A condition of a machine that does not say otherwise. *)
Definition holds_or_unset (t : string) (m : Machine) : Prop :=
  match findCAPIStatusCondition (mConditions m) t with
  | Some c => ccStatus c = cTrue
  | None => True
  end.

Lemma machine_not_ready_None m : machine_not_ready m = None ↔ holds_or_unset ReadyCondition m.
Proof.
  unfold machine_not_ready, holds_or_unset.
  destruct (findCAPIStatusCondition (mConditions m) ReadyCondition) as [c|]; [|done].
  destruct (str_eqb (ccStatus c) cTrue) eqn:E; simpl.
  - apply str_eqb_eq in E. done.
  - apply str_eqb_neq in E. split; [|done].
    destruct (findCAPIStatusCondition _ InfrastructureReadyCondition) as [i|]; [|done].
    by destruct (_ && _).
Qed.

Lemma omap_nil {A B} (f : A → option B) l : omap f l = [] ↔ Forall (λ x, f x = None) l.
Proof.
  induction l as [|x l IH]; simpl; [split; [by constructor | done]|].
  rewrite Forall_cons, <- IH. destruct (f x); split; naive_solver.
Qed.

Lemma nodes_healthy_False reason message ms :
  (foldl node_healthy_step (cFalse, reason, message) ms).1.1 = cFalse.
Proof.
  revert reason message. induction ms as [|m ms IH]; intros reason message; simpl; [done|].
  destruct (findCAPIStatusCondition (mConditions m) MachineNodeHealthyCondition) as [c|]; [|apply IH].
  destruct (str_eqb (ccStatus c) cTrue); simpl; apply IH.
Qed.

Lemma nodes_healthy_True reason message ms :
  (foldl node_healthy_step (cTrue, reason, message) ms).1.1 = cTrue ↔
  Forall (holds_or_unset MachineNodeHealthyCondition) ms.
Proof.
  revert reason message. induction ms as [|m ms IH]; intros reason message; simpl; [done|].
  rewrite Forall_cons. unfold holds_or_unset at 1.
  destruct (findCAPIStatusCondition (mConditions m) MachineNodeHealthyCondition) as [c|].
  - destruct (str_eqb (ccStatus c) cTrue) eqn:E; simpl.
    + apply str_eqb_eq in E. rewrite IH. naive_solver.
    + apply str_eqb_neq in E. rewrite nodes_healthy_False. naive_solver.
  - rewrite IH. naive_solver.
Qed.

Section Machines.
Context `{!SliceSort} `{!Netip}.
Context (Error : np_error → string) (r : Reads) (now : Time).
Implicit Types (np : NodePool) (hc : HostedCluster).

Lemma Find_signal_other np t status reason message t' :
  t' ≠ t → FindStatusCondition (npConditions (signal now np t status reason message)) t' =
           FindStatusCondition (npConditions np) t'.
Proof. intros Ht. by apply (Find_set_other now (npConditions np) (condition t status reason message _)). Qed.

Lemma Find_signal np t status reason message :
  npcStatus <$> FindStatusCondition (npConditions (signal now np t status reason message)) t = Some status.
Proof.
  destruct (Find_set now (npConditions np) (condition t status reason message (npGeneration np)))
    as (c & Hc & Hs & _).
  change (npcStatus <$> FindStatusCondition (SetStatusCondition now (npConditions np)
            (condition t status reason message (npGeneration np))) t = Some status).
  change (npcType _) with t in Hc. rewrite Hc. exact (f_equal Some Hs).
Qed.

(** What each step says, and that it leaves the other conditions alone. *)
Lemma all_ready_status np ms :
  npcStatus <$> FindStatusCondition (npConditions (setAllMachinesReadyCondition now np ms))
    NodePoolAllMachinesReadyConditionType = Some cTrue ↔
  ms ≠ [] ∧ Forall (holds_or_unset ReadyCondition) ms.
Proof.
  assert (Hr : Forall (holds_or_unset ReadyCondition) ms ↔ omap machine_not_ready ms = []).
  { rewrite omap_nil. apply Forall_proper; [|done]. intros m. symmetry. apply machine_not_ready_None. }
  rewrite Hr. unfold setAllMachinesReadyCondition. destruct ms as [|m ms].
  - destruct (no_machines np) as [reason message]. rewrite Find_signal. naive_solver.
  - destruct (omap machine_not_ready (m :: ms)) as [|n ns].
    + rewrite Find_signal. naive_solver.
    + destruct (aggregateMachineReasonsAndMessages _ _ _ _) as [reason message].
      rewrite Find_signal. naive_solver.
Qed.

Lemma all_ready_other np ms t :
  t ≠ NodePoolAllMachinesReadyConditionType →
  FindStatusCondition (npConditions (setAllMachinesReadyCondition now np ms)) t =
  FindStatusCondition (npConditions np) t.
Proof.
  intros Ht. unfold setAllMachinesReadyCondition. destruct ms as [|m ms].
  - destruct (no_machines np). by apply Find_signal_other.
  - destruct (omap machine_not_ready (m :: ms)); [by apply Find_signal_other|].
    destruct (aggregateMachineReasonsAndMessages _ _ _ _). by apply Find_signal_other.
Qed.

Lemma all_healthy_status np ms :
  npcStatus <$> FindStatusCondition (npConditions (setAllNodesHealthyCondition now np ms))
    NodePoolAllNodesHealthyConditionType = Some cTrue ↔
  ms ≠ [] ∧ Forall (holds_or_unset MachineNodeHealthyCondition) ms.
Proof.
  unfold setAllNodesHealthyCondition. destruct ms as [|m ms].
  - destruct (no_machines np) as [reason message]. cbn -[FindStatusCondition signal fmap].
    rewrite Find_signal. naive_solver.
  - destruct (foldl node_healthy_step _ (m :: ms)) as [[status reason] message] eqn:E.
    rewrite Find_signal, <- (nodes_healthy_True AsExpectedReason ""), E. naive_solver.
Qed.

Lemma all_healthy_other np ms t :
  t ≠ NodePoolAllNodesHealthyConditionType →
  FindStatusCondition (npConditions (setAllNodesHealthyCondition now np ms)) t =
  FindStatusCondition (npConditions np) t.
Proof.
  intros Ht. unfold setAllNodesHealthyCondition. destruct (match ms with [] => _ | _ => _ end) as [[s0 r0] m0].
  destruct (foldl node_healthy_step _ ms) as [[status reason] message]. by apply Find_signal_other.
Qed.

Lemma Find_remove_other cs t t' :
  t' ≠ t → FindStatusCondition (removeStatusCondition cs t) t' = FindStatusCondition cs t'.
Proof.
  intros Ht. unfold FindStatusCondition, removeStatusCondition. induction cs as [|c cs IH]; simpl; [done|].
  destruct (str_eqb (npcType c) t) eqn:E; simpl.
  - apply str_eqb_eq in E. rewrite E, (proj2 (str_eqb_neq t t')) by congruence. exact IH.
  - by destruct (str_eqb (npcType c) t').
Qed.

Lemma cidr_other hc np ms np' t :
  setCIDRConflictCondition now hc np ms = Ret np' → t ≠ NodePoolClusterNetworkCIDRConflictType →
  FindStatusCondition (npConditions np') t = FindStatusCondition (npConditions np) t.
Proof.
  unfold setCIDRConflictCondition. intros Hset Ht. destruct ms as [|m ms]; [|destruct (hcClusterNetwork hc) as [|n ns]].
  1,2: injection Hset as <-; by apply Find_remove_other.
  destruct (ParsePrefix n) as [p|]; [|done].
  destruct (machine_conflicts p n (m :: ms)) as [msgs| |]; [|done..]. simpl in Hset.
  destruct msgs; injection Hset as <-; [done|]. by apply Find_signal_other.
Qed.

(** The steps only write conditions. *)
Lemma cidr_spec hc np ms np' : setCIDRConflictCondition now hc np ms = Ret np' → npSpec np' = npSpec np.
Proof.
  unfold setCIDRConflictCondition. intros Hset. destruct ms as [|m ms]; [|destruct (hcClusterNetwork hc) as [|n ns]].
  1,2: by injection Hset as <-.
  destruct (ParsePrefix n) as [p|]; [|done].
  destruct (machine_conflicts p n (m :: ms)) as [[|msg msgs]| |]; [|..|done|done]; by injection Hset as <-.
Qed.
Lemma all_ready_spec np ms : npSpec (setAllMachinesReadyCondition now np ms) = npSpec np.
Proof.
  unfold setAllMachinesReadyCondition. destruct ms as [|m ms]; [by destruct (no_machines np)|].
  destruct (omap machine_not_ready (m :: ms)); [done|]. by destruct (aggregateMachineReasonsAndMessages _ _ _ _).
Qed.
Lemma all_healthy_spec np ms : npSpec (setAllNodesHealthyCondition now np ms) = npSpec np.
Proof.
  unfold setAllNodesHealthyCondition. destruct (match ms with [] => _ | _ => _ end) as [[s0 r0] m0].
  by destruct (foldl node_healthy_step _ ms) as [[status reason] message].
Qed.

(** The NodePool the CIDR check starts from, and the whole step outside KubeVirt. *)
Definition checked np ms : NodePool := setAllNodesHealthyCondition now (setAllMachinesReadyCondition now np ms) ms.

Lemma lm_other hc lk np np' t :
  setAllMachinesLMCondition now hc lk np = Ret np' → t ≠ NodePoolKubeVirtLiveMigratableType →
  FindStatusCondition (npConditions np') t = FindStatusCondition (npConditions np) t.
Proof.
  unfold setAllMachinesLMCondition. intros Hset Ht. destruct (lk _) as [[|m ms]| |]; [|..|done|done].
  { by injection Hset as <-. }
  simpl in Hset. destruct (_ ++ _); injection Hset as <-; by apply Find_signal_other.
Qed.

Lemma machineAndNode_steps hc lk np ms :
  getMachinesForNodePool r np = Ret ms → pType (platform (npSpec np)) ≠ KubevirtPlatform →
  machineAndNodeConditions Error r now hc lk np =
  match setCIDRConflictCondition now hc (checked np ms) ms with
  | Ret np' => Ret (np', Continue) | Throw err => Ret (checked np ms, Fail err) | Panic => Panic
  end.
Proof.
  intros Hms Hplat. unfold machineAndNodeConditions. rewrite Hms. fold (checked np ms).
  destruct (setCIDRConflictCondition now hc (checked np ms) ms) as [np'| |] eqn:E; [|done..].
  apply cidr_spec in E. unfold checked in E. rewrite all_healthy_spec, all_ready_spec in E.
  rewrite E. by rewrite bool_decide_eq_false_2.
Qed.

(** The two conditions after a listing that succeeded, whatever comes after. *)
Lemma machineAndNode_conditions hc lk np ms np' o t :
  getMachinesForNodePool r np = Ret ms → machineAndNodeConditions Error r now hc lk np = Ret (np', o) →
  t ≠ NodePoolClusterNetworkCIDRConflictType → t ≠ NodePoolKubeVirtLiveMigratableType →
  FindStatusCondition (npConditions np') t = FindStatusCondition (npConditions (checked np ms)) t.
Proof.
  intros Hms Hrun Ht Hl. unfold machineAndNodeConditions in Hrun. rewrite Hms in Hrun. fold (checked np ms) in Hrun.
  destruct (setCIDRConflictCondition now hc (checked np ms) ms) as [np1| |] eqn:E; [|by injection Hrun as <- <-|done].
  rewrite <- (cidr_other _ _ _ _ _ E Ht). case_bool_decide; [|by injection Hrun as <- <-].
  destruct (setAllMachinesLMCondition now hc lk np1) as [np2| |] eqn:L; [|by injection Hrun as <- <-|done].
  injection Hrun as <- <-. by apply (lm_other _ _ _ _ _ L).
Qed.

(** The machine carries the annotation with the NodePool's key. *)
Definition belongs np (m : Machine) : Prop :=
  mget (default ∅ (mAnnotations m)) nodePoolAnnotation = nodePoolKey np.
(** There is a machine of the NodePool, and the condition is true or unset on
every one. *)
Definition all_machines np (t : string) (listed : list Machine) : Prop :=
  (∃ m, m ∈ listed ∧ belongs np m) ∧ ∀ m, m ∈ listed → belongs np m → holds_or_unset t m.

Lemma all_machines_own np t listed :
  let ms := sort_slice machine_less
    (List.filter (λ m, str_eqb (mget (default ∅ (mAnnotations m)) nodePoolAnnotation) (nodePoolKey np)) listed) in
  ms ≠ [] ∧ Forall (holds_or_unset t) ms ↔ all_machines np t listed.
Proof.
  intros ms. assert (Hin : ∀ m, m ∈ ms ↔ m ∈ listed ∧ belongs np m).
  { intros m. unfold ms. rewrite sort_slice_perm, elem_of_filter_bool, str_eqb_eq. by unfold belongs. }
  clearbody ms. unfold all_machines. rewrite Forall_forall. split; intros [Hn Hall].
  - split; [|naive_solver]. destruct ms as [|m l]; [done|]. exists m. apply Hin. left.
  - split; [|naive_solver]. destruct Hn as [m Hm%Hin]. intros ->. by apply not_elem_of_nil in Hm.
Qed.

(** C35: after every reconciliation of the machine conditions that does not
panic, with or without an error and on every platform: when the Machines of the
control plane namespace can be listed, [AllMachinesReady] is true exactly when
there is a Machine annotated with the NodePool's key and none of these has a
[Ready] condition that is not true, and [AllNodesHealthy] likewise for the
[NodeHealthy] condition.  When the listing fails, the reconciliation fails,
[AllMachinesReady] is unknown and [AllNodesHealthy] keeps its previous value. *)
Theorem machine_conditions_truth hc lk np np' o :
  machineAndNodeConditions Error r now hc lk np = Ret (np', o) →
  match listMachines r (npNamespace np +:+ "-" +:+ dots_to_dashes (clusterName (npSpec np))) with
  | Ret listed =>
      (npcStatus <$> FindStatusCondition (npConditions np') NodePoolAllMachinesReadyConditionType = Some cTrue ↔
         all_machines np ReadyCondition listed) ∧
      (npcStatus <$> FindStatusCondition (npConditions np') NodePoolAllNodesHealthyConditionType = Some cTrue ↔
         all_machines np MachineNodeHealthyCondition listed)
  | Throw _ =>
      (∃ err, o = Fail err) ∧
      npcStatus <$> FindStatusCondition (npConditions np') NodePoolAllMachinesReadyConditionType = Some cUnknown ∧
      FindStatusCondition (npConditions np') NodePoolAllNodesHealthyConditionType =
      FindStatusCondition (npConditions np) NodePoolAllNodesHealthyConditionType
  | Panic => False
  end.
Proof.
  intros Hrun. destruct (listMachines _ _) as [listed|e|] eqn:Hl.
  - rewrite <- !all_machines_own. set (ms := sort_slice _ _).
    assert (Hms : getMachinesForNodePool r np = Ret ms) by (unfold getMachinesForNodePool; by rewrite Hl).
    rewrite !(machineAndNode_conditions _ _ _ _ _ _ _ Hms Hrun) by done. unfold checked. split.
    + rewrite all_healthy_other by done. apply all_ready_status.
    + apply all_healthy_status.
  - unfold machineAndNodeConditions, getMachinesForNodePool in Hrun. rewrite Hl in Hrun. simpl in Hrun.
    injection Hrun as <- <-. rewrite Find_signal, Find_signal_other by done. by eauto.
  - unfold machineAndNodeConditions, getMachinesForNodePool in Hrun. by rewrite Hl in Hrun.
Qed.

(** Once set, the condition that a machine address collides with the
cluster network stays set after the machines have moved out of it: with
machines left and none of them in conflict, the reconcile keeps the old
condition instead of removing it. *)
Theorem cidr_conflict_sticks hc lk np ms network networkStr nets c :
  getMachinesForNodePool r np = Ret ms → ms ≠ [] →
  pType (platform (npSpec np)) ≠ KubevirtPlatform →
  hcClusterNetwork hc = networkStr :: nets → ParsePrefix networkStr = Some network →
  machine_conflicts network networkStr ms = Ret [] →
  FindStatusCondition (npConditions np) NodePoolClusterNetworkCIDRConflictType = Some c →
  ∃ np', machineAndNodeConditions Error r now hc lk np = Ret (np', Continue) ∧
         FindStatusCondition (npConditions np') NodePoolClusterNetworkCIDRConflictType = Some c.
Proof.
  intros Hms Hne Hplat Hnet Hprefix Hnone Hc. exists (checked np ms).
  rewrite (machineAndNode_steps _ _ _ _ Hms Hplat). split.
  - unfold setCIDRConflictCondition. destruct ms as [|m ms]; [done|]. by rewrite Hnet, Hprefix, Hnone.
  - unfold checked. by rewrite all_healthy_other, all_ready_other.
Qed.

End Machines.

(** *** The release image of a NodePool *)

Lemma getReleaseImage_Ret r hc currentVersion image version :
  getReleaseImage r hc currentVersion image = Ret version → hcHas hc SkipReleaseImageValidation = false →
  ∃ pullSecret wanted current maxV,
    getPullSecretBytes r hc = Ret pullSecret ∧ lookupRelease r image pullSecret = Ret version ∧
    getHostedClusterVersion r hc pullSecret = Ret maxV ∧ Parse version = Ret wanted ∧
    (if str_eqb currentVersion "" then current = release 0 0 0 else Parse currentVersion = Ret current) ∧
    accepted wanted (Some current) maxV (GetMinSupportedVersion false (hcPlatformType hc))
      (hcNetworkType hc) (hcPlatformType hc).
Proof.
  unfold getReleaseImage. intros Hget Hskip. rewrite Hskip in Hget.
  destruct (getPullSecretBytes r hc) as [ps| |]; [|done..]. simpl in Hget.
  destruct (lookupRelease r image ps) as [v| |] eqn:Hlook; [|done..]. simpl in Hget.
  destruct (Parse v) as [wanted| |] eqn:Hw; [|done..]. simpl in Hget.
  assert (∃ current, (if str_eqb currentVersion "" then current = release 0 0 0 else Parse currentVersion = Ret current) ∧
    (if negb (str_eqb currentVersion "") then lift_error ErrSemver (Parse currentVersion) else Ret (release 0 0 0))
    = Ret current) as (current & Hcur & Hcur').
  { destruct (str_eqb currentVersion ""); simpl in *; [by eexists|].
    destruct (Parse currentVersion); [by eexists|done..]. }
  rewrite Hcur' in Hget. simpl in Hget.
  destruct (getHostedClusterVersion r hc ps) as [maxV| |] eqn:Hmax; [|done..]. simpl in Hget.
  destruct (IsValidReleaseVersion _ _ _ _ _ _) as [[]| |] eqn:Hv; [|done..]. injection Hget as ->.
  exists ps, wanted, current, maxV. split_and!; [done..|]. by apply IsValid_accepted.
Qed.

(** A version that is not before 4.8 and not above the latest one has minor 8 or more. *)
Lemma supported_minor v m : LT v (release 4 8 0) = false → minor_le v (effective_max m) → (8 ≤ Minor v)%Z.
Proof.
  intros H48 Hmax. assert (Hc : (0 ≤ Compare v (release 4 8 0))%Z).
  { unfold LT in H48. Z_bool. pose proof (Compare_range v (release 4 8 0)). lia. }
  rewrite Compare_antisym in Hc. assert (Hc' : (Compare (release 4 8 0) v ≤ 0)%Z) by lia.
  apply Compare_le in Hc'. pose proof (effective_max_le m) as Hl. unfold minor_le in *. simpl in *. lia.
Qed.

(** C36: the release image of a NodePool is checked by minor version.  Without
the annotation that skips the validation, the version the controller accepts is
the one of the image looked up with the cluster's pull secret; its minor version
is not above that of the HostedCluster nor that of the latest supported release,
not below the minimum of the platform and not below the minor version of the
version the NodePool runs.  Patch versions are not compared: a patch release
newer than the HostedCluster or older than the NodePool's version is accepted. *)
Theorem release_image_in_window r hc currentVersion image version :
  getReleaseImage r hc currentVersion image = Ret version → hcHas hc SkipReleaseImageValidation = false →
  ∃ pullSecret wanted maxV,
    getPullSecretBytes r hc = Ret pullSecret ∧ lookupRelease r image pullSecret = Ret version ∧
    getHostedClusterVersion r hc pullSecret = Ret maxV ∧ Parse version = Ret wanted ∧
    minor_le wanted maxV ∧ minor_le wanted LatestSupportedVersion ∧
    minor_le (GetMinSupportedVersion false (hcPlatformType hc)) wanted ∧
    (currentVersion ≠ "" → ∃ current, Parse currentVersion = Ret current ∧ (Minor current ≤ Minor wanted)%Z).
Proof.
  intros Hget Hskip. destruct (getReleaseImage_Ret _ _ _ _ _ Hget Hskip)
    as (ps & wanted & current & maxV & Hps & Hl & Hmax & Hw & Hcur & Hacc).
  exists ps, wanted, maxV. destruct Hacc as [_ Hdown _ _ _ Hle Hmin]. split_and!; [done..| | |done|].
  - by apply minor_le_effective.
  - pose proof (effective_max_le maxV). unfold minor_le in *. lia.
  - intros Hne. rewrite (proj2 (str_eqb_neq currentVersion "")) in Hcur by done. eauto.
Qed.

(** a NodePool that has no version yet, of a HostedCluster on OpenShiftSDN,
never gets its release image accepted: the zero version is passed as the
current one, so that every release is refused as a y-stream upgrade. *)
Theorem sdn_new_nodepool_rejected r hc image version :
  hcNetworkType hc = OpenShiftSDN → hcHas hc SkipReleaseImageValidation = false →
  getReleaseImage r hc "" image ≠ Ret version.
Proof.
  intros Hsdn Hskip Hget.
  destruct (getReleaseImage_Ret _ _ _ _ _ Hget Hskip) as (ps & wanted & current & maxV & _ & _ & _ & _ & -> & Hacc).
  pose proof (acc_sdn_pinned _ _ _ _ _ _ Hacc _ Hsdn eq_refl) as Hpin.
  pose proof (supported_minor _ _ (acc_48 _ _ _ _ _ _ Hacc) (acc_max _ _ _ _ _ _ Hacc)). simpl in *. lia.
Qed.

(** A payload the ignition server failed to generate leaves the condition with
an empty status, neither false nor unknown. *)
Lemma failed_payload_has_no_status Error annotations data reason generation :
  data !! TokenSecretReasonKey = Some reason → reason ≠ AsExpectedReason →
  npcStatus (createValidGeneratedPayloadCondition Error (Ret (annotations, Some data)) generation) = "".
Proof.
  intros Hd Hr. unfold createValidGeneratedPayloadCondition, mhas, mget, default. simpl.
  rewrite Hd. simpl. by rewrite (proj2 (str_eqb_neq reason AsExpectedReason) Hr).
Qed.

(** *** A NodePool and its machines *)
Module SampleNodePool.

(** Prefixes and addresses told apart by their text. *)
#[export] Instance textual_Netip : Netip := {
  Prefix := string;
  Addr := string;
  ParsePrefix s := if has_suffix s "/16" then Some (trim_suffix s "0.0/16") else None;
  ParseAddr s := Some s;
  Contains p a := has_prefix a p;
}.

Definition np_spec (rollout : NodePoolManagement) (scaling : option NodePoolAutoScaling) : NodePoolSpec :=
  mkNPSpec "prod" "quay.io/release:4.20.3" (mkPlatform AWSPlatform None None None) (Some 3%Z) rollout
    scaling ∅ [] None None "amd64" None [].
Definition in_place_management : NodePoolManagement :=
  mkNPManagement UpgradeTypeInPlace None (Some (Some (FromString "50%"))) true.
Definition replace_management : NodePoolManagement :=
  mkNPManagement UpgradeTypeReplace
    (Some (mkReplace UpgradeStrategyRollingUpdate (Some (mkRolling None None)))) None true.

Definition conflict : NodePoolCondition :=
  mkNPC NodePoolClusterNetworkCIDRConflictType cTrue InvalidConfigurationReason "collides" 1 5.
Definition np (rollout : NodePoolManagement) : NodePool :=
  mkNodePool "clusters" "workers" 2 None None (np_spec rollout None) "" 0 [conflict].

Definition hc (net : NetworkType) : HostedCluster :=
  mkHostedCluster "clusters" "prod" "prod-x7k" None "pull-secret" "quay.io/release:4.20.3" net
    AWSPlatform ["10.132.0.0/16"] "ignition.example.com" true "AMD64"
    (Some (mkVersionStatus "4.20.3" [mkHistory "Completed" "4.20.3" "quay.io/release:4.20.3" (Some 7%Z)])).

Definition machine (name ip ready : string) : Machine :=
  mkMachine name 1 (Some {[nodePoolAnnotation := "clusters/workers"]})
    [mkCAPICondition ReadyCondition ready "" ""] [mkAddress "InternalIP" ip].

Definition reads : Reads := {|
  getSecret _ _ := Ret (None, Some {[DockerConfigJsonKey := "{}"]});
  lookupRelease _ _ := Ret "4.20.3";
  listMachines _ := Ret [machine "a" "10.0.0.4" "True"; machine "b" "10.0.0.5" "False"];
|}.
Definition text (e : np_error) : string := "error".

End SampleNodePool.
Import SampleNodePool.

Definition sample_machines : list Machine :=
  [machine "a" "10.0.0.4" "True"; machine "b" "10.0.0.5" "False"].

(** No KubeVirt machines. *)
Definition no_kubevirt (ns : string) : go api_error (list KubevirtMachine) := Ret [].

Lemma machine_conditions_truth_witness :
  ∃ np', machineAndNodeConditions text reads 9 (hc OVNKubernetes) no_kubevirt (np replace_management) = Ret (np', Continue) ∧
  (npcStatus <$> FindStatusCondition (npConditions np') NodePoolAllMachinesReadyConditionType = Some cTrue ↔
     all_machines (np replace_management) ReadyCondition sample_machines) ∧
  (npcStatus <$> FindStatusCondition (npConditions np') NodePoolAllNodesHealthyConditionType = Some cTrue ↔
     all_machines (np replace_management) MachineNodeHealthyCondition sample_machines).
Proof.
  eexists. split; [vm_compute; reflexivity|].
  eapply (machine_conditions_truth text reads 9 (hc OVNKubernetes) no_kubevirt (np replace_management)).
  vm_compute. reflexivity.
Defined.

Lemma cidr_conflict_sticks_witness :
  ∃ np', machineAndNodeConditions text reads 9 (hc OVNKubernetes) no_kubevirt (np replace_management) = Ret (np', Continue) ∧
    FindStatusCondition (npConditions np') NodePoolClusterNetworkCIDRConflictType = Some conflict.
Proof.
  apply (@cidr_conflict_sticks _ textual_Netip text reads 9 (hc OVNKubernetes) no_kubevirt (np replace_management) sample_machines
           "10.132." "10.132.0.0/16" [] conflict); try (vm_compute; reflexivity); done.
Defined.

Lemma release_image_in_window_witness :
  ∃ pullSecret wanted maxV,
    getPullSecretBytes reads (hc OVNKubernetes) = Ret pullSecret ∧ lookupRelease reads "image" pullSecret = Ret "4.20.3" ∧
    getHostedClusterVersion reads (hc OVNKubernetes) pullSecret = Ret maxV ∧ Parse "4.20.3" = Ret wanted ∧
    minor_le wanted maxV ∧ minor_le wanted LatestSupportedVersion ∧
    minor_le (GetMinSupportedVersion false (hcPlatformType (hc OVNKubernetes))) wanted ∧
    ("4.19.1" ≠ "" → ∃ current, Parse "4.19.1" = Ret current ∧ (Minor current ≤ Minor wanted)%Z).
Proof.
  apply (release_image_in_window reads (hc OVNKubernetes) "4.19.1" "image"); vm_compute; reflexivity.
Defined.

(** The same reads, with a newer patch release for the image of the NodePool. *)
Definition newer_patch : Reads := {|
  getSecret := getSecret reads;
  lookupRelease image _ := if str_eqb image "newer" then Ret "4.20.9" else Ret "4.20.3";
  listMachines := listMachines reads;
|}.

(** A NodePool may run a newer patch release than its HostedCluster. *)
Lemma newer_patch_accepted :
  getHostedClusterVersion newer_patch (hc OVNKubernetes) "{}" = Ret (release 4 20 3) ∧
  getReleaseImage newer_patch (hc OVNKubernetes) "4.20.3" "newer" = Ret "4.20.9".
Proof. split; vm_compute; reflexivity. Qed.

Lemma sdn_new_nodepool_rejected_witness :
  getReleaseImage reads (hc OpenShiftSDN) "" "image" ≠ Ret "4.20.3".
Proof. apply (sdn_new_nodepool_rejected reads (hc OpenShiftSDN) "image" "4.20.3"); vm_compute; reflexivity. Defined.

End NodePoolProofs.
