(* ===== verification/Capi.v ===== *)
(** The Cluster API objects of a NodePool:
[hypershift-operator/controllers/nodepool/capi.go].  [reconcileMachineDeployment]
and [reconcileMachineSet] propagate the target of a rollout to the object that
carries it out, wait, and record the result in the NodePool; the replicas
follow the spec or the limits of the autoscaler. *)
From S2P Require Import Prelude Semver Api Upsert NodePool.
From Stdlib Require Import Ascii.

Module Capi.
Import Semver Upsert NodePool.
#[local] Open Scope go_scope.

(** *** Names *)

(** [fnv.New32a] fed with the bytes of a string. *)
Fixpoint fnv32a (h : Z) (s : string) : Z :=
  match s with
  | EmptyString => h
  | String c s => fnv32a (to_uint32 (Z.lxor h (Z.of_nat (nat_of_ascii c)) * 16777619)) s
  end.
Definition hex_digit (d : Z) : ascii :=
  ascii_of_nat (Z.to_nat (if (d <? 10)%Z then d + 48 else d + 87)).
Fixpoint hex_digits (n : nat) (z : Z) (acc : string) : string :=
  match n with
  | 0 => acc
  | S n => hex_digits n (z / 16) (String (hex_digit (z mod 16)) acc)
  end.

(** [func HashSimple(o interface{}) string] of [support/util/util.go], on a string:
a 32-bit sum printed with [%08x]. *)
Definition HashSimple (o : string) : string := hex_digits 8 (fnv32a 2166136261 o) "".

(** [s[0:n]] and [s[:n]] on a string: out of range panics. *)
Definition slice_string (s : string) (n : Z) : go api_error string :=
  if ((n <? 0) || (Z.of_nat (String.length s) <? n))%Z then Panic
  else Ret (String.substring 0 (Z.to_nat n) s).

(** [func max(a, b int) int] and [func min(a, b int) int] *)
Definition go_max (a b : Z) : Z := if (a <? b)%Z then b else a.
Definition go_min (a b : Z) : Z := if (b <? a)%Z then b else a.

(** [func getName(base, suffix string, maxLength int) string] *)
Definition getName (base suffix : string) (maxLength : Z) : go api_error string :=
  if (maxLength <=? 0)%Z then Ret "" else
  let name := base +:+ "-" +:+ suffix in
  if (Z.of_nat (String.length name) <=? maxLength)%Z then Ret name else
  let baseLength := (maxLength - 10 - Z.of_nat (String.length suffix))%Z in
  if (baseLength <? 1)%Z then
    prefix ← slice_string base (go_min (Z.of_nat (String.length base)) (go_max 0 (maxLength - 9)));
    let shortName := prefix +:+ "-" +:+ HashSimple name in
    slice_string shortName (go_min maxLength (Z.of_nat (String.length shortName)))
  else
    prefix ← slice_string base baseLength;
    Ret (prefix +:+ "-" +:+ HashSimple base +:+ "-" +:+ suffix).

(** [func generateName(infraName, clusterName, suffix string) string] *)
Definition generateName (infraName clusterName suffix : string) : go api_error string :=
  getName (infraName +:+ "-" +:+ clusterName) suffix 43.

(** *** MachineDeployments and MachineSets *)

(** [capiv1.MachineTemplateSpec], its metadata and the [MachineSpec]. *)
Record MachineTemplateSpec : Type := mkTemplate {
  mtLabels : StringMap;
  mtAnnotations : StringMap;
  mtClusterName : string;
  mtDataSecretName : option string;
  mtInfraKind : string;
  mtInfraAPIVersion : string;
  mtInfraNamespace : string;
  mtInfraName : string;
  mtVersion : option string;
  mtNodeDrainTimeout : option Duration;
  mtNodeVolumeDetachTimeout : option Duration;
  mtFailureDomain : option string;
}.

(** [capiv1.MachineDeploymentStrategy] *)
Record Strategy : Type := mkStrategy { stType : string; stRolling : option RollingUpdate }.

(** [capiv1.MachineDeployment]; [mdRest] stands for the fields of the spec the
controller does not touch. *)
Record MachineDeployment : Type := mkMD {
  mdNamespace : string;
  mdName : string;
  mdGeneration : Z;
  mdLabels : option StringMap;
  mdAnnotations : option StringMap;
  mdClusterName : string;
  mdReplicas : option Z;
  mdMatchLabels : option StringMap;
  mdTemplate : MachineTemplateSpec;
  mdMinReadySeconds : option Z;
  mdStrategy : option Strategy;
  mdRest : string;
  mdObservedGeneration : Z;
  mdStatusReplicas : Z;
  mdUpdatedReplicas : Z;
  mdAvailableReplicas : Z;
  mdConditions : list CAPICondition;
}.

(** [capiv1.MachineSet] *)
Record MachineSet : Type := mkMS {
  msNamespace : string;
  msName : string;
  msLabels : option StringMap;
  msAnnotations : option StringMap;
  msClusterName : string;
  msReplicas : option Z;
  msMatchLabels : option StringMap;
  msTemplate : MachineTemplateSpec;
  msMinReadySeconds : Z;
  msRest : string;
  msAvailableReplicas : Z;
  msConditions : list CAPICondition;
}.

(** [func MachineDeploymentComplete(deployment *capiv1.MachineDeployment) bool] of
[nodepool_controller.go]; the replicas are dereferenced. *)
Definition MachineDeploymentComplete (md : MachineDeployment) : go api_error bool :=
  match mdReplicas md with
  | None => Panic
  | Some n => Ret ((mdUpdatedReplicas md =? n) && (mdStatusReplicas md =? n) &&
                   (mdAvailableReplicas md =? n) && (mdGeneration md <=? mdObservedGeneration md))%Z
  end.

(** [func machineSetInPlaceRolloutIsComplete(machineSet *capiv1.MachineSet) bool] *)
Definition machineSetInPlaceRolloutIsComplete (ms : MachineSet) : bool :=
  mget (default ∅ (msAnnotations ms)) nodePoolAnnotationCurrentConfigVersion ==
  mget (default ∅ (msAnnotations ms)) nodePoolAnnotationTargetConfigVersion.

(** *** Replicas *)

(** The lower limit of the autoscaler: at least one node off AWS. *)
Definition effectiveMin (np : NodePool) (scaling : NodePoolAutoScaling) : Z :=
  let min := default 0%Z (asMin scaling) in
  if (min =? 0)%Z && negb (bool_decide (pType (platform (npSpec np)) = AWSPlatform)) then 1%Z else min.

(** The common body of [setMachineDeploymentReplicas] and [setMachineSetReplicas]:
the new annotations and replicas. *)
Definition set_replicas (np : NodePool) (annotations : option StringMap) (current : option Z)
    : StringMap * option Z :=
  let annotations := default ∅ annotations in
  match autoScaling (npSpec np) with
  | Some scaling =>
      let min := effectiveMin np scaling in
      let n := default 0%Z current in
      (<[autoscalerMinAnnotation := itoa min]> (<[autoscalerMaxAnnotation := itoa (asMax scaling)]> annotations),
       if (n <=? min)%Z then Some min
       else if (asMax scaling <? n)%Z then Some (asMax scaling) else current)
  | None =>
      (<[autoscalerMinAnnotation := "0"]> (<[autoscalerMaxAnnotation := "0"]> annotations),
       Some (default 0%Z (replicas (npSpec np))))
  end.

(** [func setMachineDeploymentReplicas(nodePool *hyperv1.NodePool, machineDeployment *capiv1.MachineDeployment)] *)
Definition setMachineDeploymentReplicas (np : NodePool) (md : MachineDeployment) : MachineDeployment :=
  let '(annotations, n) := set_replicas np (mdAnnotations md) (mdReplicas md) in
  mkMD (mdNamespace md) (mdName md) (mdGeneration md) (mdLabels md) (Some annotations)
    (mdClusterName md) n (mdMatchLabels md) (mdTemplate md) (mdMinReadySeconds md)
    (mdStrategy md) (mdRest md) (mdObservedGeneration md) (mdStatusReplicas md)
    (mdUpdatedReplicas md) (mdAvailableReplicas md) (mdConditions md).

(** [func setMachineSetReplicas(nodePool *hyperv1.NodePool, machineSet *capiv1.MachineSet)] *)
Definition setMachineSetReplicas (np : NodePool) (ms : MachineSet) : MachineSet :=
  let '(annotations, n) := set_replicas np (msAnnotations ms) (msReplicas ms) in
  mkMS (msNamespace ms) (msName ms) (msLabels ms) (Some annotations) (msClusterName ms) n
    (msMatchLabels ms) (msTemplate ms) (msMinReadySeconds ms) (msRest ms)
    (msAvailableReplicas ms) (msConditions ms).

(** *** How many nodes may be down *)

(** [func GetScaledValueFromIntOrPercent(intOrPercent *IntOrString, total int, roundUp bool) (int, error)]
of apimachinery, on a value that is set. The product is computed in [float64]: it
is exact, and the rounded quotient has the right integer part, while
[|value * total| < 2^45]. *)
Definition GetScaledValueFromIntOrPercent (v : IntOrString) (total : Z) (roundUp : bool) : go api_error Z :=
  match v with
  | FromInt i => Ret i
  | FromString s =>
      if negb (has_suffix s "%")
      then Throw (OtherError "invalid value for IntOrString: invalid type: string is not a percentage")
      else match ParseInt (trim_suffix s "%") with
           | None => Throw (OtherError ("invalid value for IntOrString: " +:+ s))
           | Some p => Ret (if roundUp then - (- (p * total) / 100) else p * total / 100)%Z
           end
  end.

(** [func getInPlaceMaxUnavailable(nodePool *hyperv1.NodePool) (int, error)] *)
Definition getInPlaceMaxUnavailable (np : NodePool) : go api_error Z :=
  let intOrPercent := match inPlace (management (npSpec np)) with
                      | Some (Some v) => v
                      | _ => FromInt 1
                      end in
  maxUnavailable ← GetScaledValueFromIntOrPercent intOrPercent (default 0%Z (replicas (npSpec np))) false;
  Ret (if (maxUnavailable =? 0)%Z then 1%Z else maxUnavailable).

(** *** The rollout *)

(** The struct [CAPI]: the NodePool's token and the name of the CAPI cluster. *)
Record CAPI : Type := mkCAPI { target : Target; capiClusterName : string }.

(** [func newCAPI(token *Token, capiClusterName string) ( *CAPI, error)] *)
Definition newCAPI (token : option Target) (capiClusterName : string) : go api_error CAPI :=
  match token with
  | None => Throw (OtherError "token can not be nil")
  | Some t => if capiClusterName == "" then Throw (OtherError "capiClusterName can not be empty")
              else Ret (mkCAPI t capiClusterName)
  end.

(** The platform's machine template: its name, its namespace, and the kind and
version its type is registered with in the scheme. *)
Record MachineTemplate : Type := mkMachineTemplate {
  tmplName : string; tmplNamespace : string; tmplKind : string; tmplAPIVersion : string }.

(** The template both functions build from the one in place: the current user
data, template name and version are kept for the later checks. *)
Definition next_template (c : CAPI) (np : NodePool) (resourcesName : string) (tmpl : MachineTemplate)
    (old : MachineTemplateSpec) : MachineTemplateSpec :=
  mkTemplate
    ((if isSpotEnabled np then <[interruptibleInstanceLabel := ""]> else id)
       (<[ClusterNameLabel := capiClusterName c]> {[resourcesName := resourcesName]}))
    {[nodePoolAnnotation := nodePoolKey np]}
    (capiClusterName c) (mtDataSecretName old) (tmplKind tmpl) (tmplAPIVersion tmpl) (tmplNamespace tmpl)
    (mtInfraName old) (mtVersion old) (nodeDrainTimeout (npSpec np)) (nodeVolumeDetachTimeout (npSpec np)) None.

Definition set_failure_domain (d : option string) (t : MachineTemplateSpec) : MachineTemplateSpec :=
  mkTemplate (mtLabels t) (mtAnnotations t) (mtClusterName t) (mtDataSecretName t) (mtInfraKind t)
    (mtInfraAPIVersion t) (mtInfraNamespace t) (mtInfraName t) (mtVersion t) (mtNodeDrainTimeout t)
    (mtNodeVolumeDetachTimeout t) d.
Definition set_template_meta (labels annotations : StringMap) (t : MachineTemplateSpec) : MachineTemplateSpec :=
  mkTemplate labels annotations (mtClusterName t) (mtDataSecretName t) (mtInfraKind t)
    (mtInfraAPIVersion t) (mtInfraNamespace t) (mtInfraName t) (mtVersion t) (mtNodeDrainTimeout t)
    (mtNodeVolumeDetachTimeout t) (mtFailureDomain t).

(** The zone of the OpenStack and GCP platforms. *)
Definition failure_domain (np : NodePool) : option string :=
  let p := platform (npSpec np) in
  let zone := match pType p with
              | OpenStackPlatform => pOpenStackZone p
              | GCPPlatform => pGCPZone p
              | _ => None
              end in
  match zone with Some z => if z == "" then None else Some z | None => None end.

(** [managed.hypershift.openshift.io.<label>] for each label of the NodePool. *)
Definition managed_labels (np : NodePool) : StringMap :=
  list_to_map ((λ kv, (labelManagedPrefix +:+ "." +:+ kv.1, kv.2)) <$> map_to_list (nodeLabels (npSpec np))).

(** A new user data secret is propagated with the version. *)
Definition userDataChanged (c : CAPI) (t : MachineTemplateSpec) : bool :=
  tUserDataSecret (target c) != default "" (mtDataSecretName t).
Definition templateChanged (tmpl : MachineTemplate) (t : MachineTemplateSpec) : bool :=
  tmplName tmpl != mtInfraName t.

Definition propagate (c : CAPI) (tmpl : MachineTemplate) (t : MachineTemplateSpec) : MachineTemplateSpec :=
  let changed := userDataChanged c t in
  mkTemplate (mtLabels t) (mtAnnotations t) (mtClusterName t)
    (if changed then Some (tUserDataSecret (target c)) else mtDataSecretName t)
    (mtInfraKind t) (mtInfraAPIVersion t) (mtInfraNamespace t)
    (if templateChanged tmpl t then tmplName tmpl else mtInfraName t)
    (if changed then Some (tVersion (target c)) else mtVersion t)
    (mtNodeDrainTimeout t) (mtNodeVolumeDetachTimeout t) (mtFailureDomain t).

(** What is recorded in the NodePool when the rollout is complete. *)
Definition record_rollout (c : CAPI) (tmpl : MachineTemplate) (np : NodePool) : NodePool :=
  let t := target c in
  let an := default ∅ (npAnnotations np) in
  let set_if_changed k v an := if mget an k != v then <[k := v]> an else an in
  let an := set_if_changed nodePoolAnnotationCurrentConfig (tConfigHash t) an in
  let an := <[nodePoolAnnotationCurrentConfigVersion := tConfigVersionHash t]> an in
  let an := set_if_changed nodePoolAnnotationPlatformMachineTemplate (tmplName tmpl) an in
  set_np_annotations (Some an) (if npVersion np != tVersion t then set_version (tVersion t) np else np).

(** Available replicas and the Ready condition are bubbled up. *)
Definition bubble_up (now : Time) (available : Z) (conditions : list CAPICondition) (np : NodePool) : NodePool :=
  let np := set_np_replicas available np in
  match findCAPIStatusCondition conditions ReadyCondition with
  | Some c => set_condition now
                (condition NodePoolReadyConditionType (ccStatus c)
                   (if ccReason c != "" then ccReason c else AsExpectedReason) (ccMessage c) (npGeneration np)) np
  | None => np
  end.

(** *** [controllerutil.CreateOrPatch] *)

(** Patches on top of a client: from the object that was read to the one wanted,
of the object or of its status. *)
Class Patcher (S K O : Type) : Type := {
  c_patch : K → O → O → S → go api_error O * S;
  c_status_patch : K → O → O → S → go api_error O * S;
}.

Definition with_status (status : list (string * string)) (o : Object) : Object :=
  mkObject (oNamespace o) (oName o) (oUID o) (oLabels o) (oAnnotations o) (oFinalizers o)
    (oResourceVersion o) (oDeletionTimestamp o) (oBody o) status.

Section CreateOrPatch.
Context {S : Type} `{!Client S ObjectRef Object} `{!Patcher S ObjectRef Object}.

(** [func CreateOrPatch(ctx, c client.Client, obj client.Object, f MutateFn) (OperationResult, error)]
of controller-runtime; the conversions to unstructured data do not fail on API
types. The object is patched when it changed apart from its status, and the
status when that changed. *)
Definition CreateOrPatch (obj : Object) (f : Object → go api_error Object) : st S api_error Object := λ s,
  let key := ObjectKeyFromObject obj in
  match c_get (ref_of obj) s with
  | Panic => (Panic, s)
  | Throw err =>
      if negb (IsNotFound err) then (Throw err, s) else
      (obj ← st_lift (mutate f key obj); c_create (ref_of obj) obj) s
  | Ret before =>
      (after ← st_lift (mutate f key before);
       patched ← (if bool_decide (with_status [] before = with_status [] after) then mret after
                  else c_patch (ref_of after) before after);
       if bool_decide (oStatus before = oStatus after) then mret patched
       else c_status_patch (ref_of after) before (with_status (oStatus after) patched)) s
  end.

End CreateOrPatch.

Section Rollout.
(** [json.Marshal] of the taints. *)
Context (taintsToJSON : list Taint → go api_error string) (now : Time).

(** [func (c *CAPI) reconcileMachineSet(ctx, machineSet, machineTemplateCR) error] *)
Definition reconcileMachineSet (c : CAPI) (tmpl : MachineTemplate) (np : NodePool) (ms : MachineSet)
    : go api_error (NodePool * MachineSet) :=
  let t := target c in
  resourcesName ← generateName (capiClusterName c) (clusterName (npSpec np)) (npName np);
  maxUnavailable ← getInPlaceMaxUnavailable np;
  taintsInJSON ← taintsToJSON (taints (npSpec np));
  let annotations := <[nodePoolAnnotationMaxUnavailable := itoa maxUnavailable]>
    (delete PausedAnnotation (<[nodePoolAnnotation := nodePoolKey np]> (default ∅ (msAnnotations ms)))) in
  let template := next_template c np resourcesName tmpl (msTemplate ms) in
  let template := set_template_meta (managed_labels np ∪ mtLabels template)
                    (<[nodePoolAnnotationTaints := taintsInJSON]> (mtAnnotations template)) template in
  let '(annotations, n) := set_replicas np (Some annotations) (msReplicas ms) in
  let annotations :=
    if userDataChanged c template then
      let annotations := <[nodePoolAnnotationTargetConfigVersion := tConfigVersionHash t]> annotations in
      if mhas annotations nodePoolAnnotationCurrentConfigVersion then annotations
      else <[nodePoolAnnotationCurrentConfigVersion := tConfigVersionHash t]> annotations
    else annotations in
  let ms' := mkMS (msNamespace ms) (msName ms)
    (Some (<[ClusterNameLabel := capiClusterName c]> (default ∅ (msLabels ms)))) (Some annotations)
    (capiClusterName c) n (Some (<[resourcesName := resourcesName]> (default ∅ (msMatchLabels ms))))
    (propagate c tmpl template) 0 (msRest ms) (msAvailableReplicas ms) (msConditions ms) in
  if userDataChanged c template || templateChanged tmpl template then Ret (np, ms') else
  let np := if machineSetInPlaceRolloutIsComplete ms' then record_rollout c tmpl np else np in
  Ret (bubble_up now (msAvailableReplicas ms) (msConditions ms) np, ms').

Context {S : Type} `{!Client S ObjectRef Object} `{!Patcher S ObjectRef Object}.
(** [c.List] of the Machines in a namespace. *)
Context (list_machines : string → S → go api_error (list Object)).

(** The mutate function of the loop over the Machines: labels and taints of the
NodePool are propagated; writing to a nil map panics. *)
Definition propagate_to_machine (np : NodePool) (machine : Object) : go api_error Object :=
  labels ← match oLabels machine with
           | Some l => Ret (Some (managed_labels np ∪ l))
           | None => if bool_decide (nodeLabels (npSpec np) = ∅) then Ret None else Panic
           end;
  taintsInJSON ← taintsToJSON (taints (npSpec np));
  match oAnnotations machine with
  | None => Panic
  | Some an => Ret (mkObject (oNamespace machine) (oName machine) (oUID machine) labels
                     (Some (<[nodePoolAnnotationTaints := taintsInJSON]> an)) (oFinalizers machine)
                     (oResourceVersion machine) (oDeletionTimestamp machine) (oBody machine) (oStatus machine))
  end.

(** Before the patch nil maps of the listed Machine are made; what the patch reads
replaces the Machine. *)
Definition made_maps (machine : Object) : Object :=
  mkObject (oNamespace machine) (oName machine) (oUID machine) (Some (default ∅ (oLabels machine)))
    (Some (default ∅ (oAnnotations machine))) (oFinalizers machine) (oResourceVersion machine)
    (oDeletionTimestamp machine) (oBody machine) (oStatus machine).

Definition owned_by (np : NodePool) (machine : Object) : bool :=
  mget (default ∅ (oAnnotations machine)) nodePoolAnnotation == nodePoolKey np.

(** [func (c *CAPI) reconcileMachineDeployment(ctx, log, machineDeployment, machineTemplateCR) error] *)
Definition reconcileMachineDeployment (c : CAPI) (tmpl : MachineTemplate) (np : NodePool)
    (md : MachineDeployment) : st S api_error (NodePool * MachineDeployment) :=
  resourcesName ← st_lift (generateName (capiClusterName c) (clusterName (npSpec np)) (npName np));
  let annotations := delete PausedAnnotation
    (<[nodePoolAnnotation := nodePoolKey np]> (default ∅ (mdAnnotations md))) in
  let template := set_failure_domain (failure_domain np)
                    (next_template c np resourcesName tmpl (mdTemplate md)) in
  machines ← (λ s, (list_machines (mdNamespace md) s, s));
  _ ← st_for (List.filter (owned_by np) machines) (λ machine,
        _ ← CreateOrPatch (made_maps machine) (propagate_to_machine np); mret ());
  strategy ← st_lift (match replace (management (npSpec np)) with
                      | None => Panic
                      | Some r => Ret (mkStrategy (ruStrategy r) (ruRolling r))
                      end);
  let '(annotations, n) := set_replicas np (Some annotations) (mdReplicas md) in
  let md' := mkMD (mdNamespace md) (mdName md) (mdGeneration md)
    (Some (<[ClusterNameLabel := capiClusterName c]> (default ∅ (mdLabels md)))) (Some annotations)
    (capiClusterName c) n
    (Some (<[resourcesName := resourcesName]>
             (<[ClusterNameLabel := capiClusterName c]> (default ∅ (mdMatchLabels md)))))
    (propagate c tmpl template) (Some 0%Z) (Some strategy) (mdRest md) (mdObservedGeneration md)
    (mdStatusReplicas md) (mdUpdatedReplicas md) (mdAvailableReplicas md) (mdConditions md) in
  if userDataChanged c template || templateChanged tmpl template then mret (np, md') else
  complete ← st_lift (MachineDeploymentComplete md');
  let np := if (complete : bool) then record_rollout c tmpl np else np in
  mret (bubble_up now (mdAvailableReplicas md) (mdConditions md) np, md').

End Rollout.

End Capi.
