(* ===== verification/CapiProofs.v ===== *)
(** What the rollout of a NodePool guarantees: when the NodePool says that a
version or a configuration has been reached, that one pass is enough to
propagate a target, the replicas under the autoscaler, and the names. *)
From S2P Require Import Prelude GoSort Semver Api Upsert UpsertProofs NodePool NodePoolProofs Capi.

Module CapiProofs.
Import Semver Upsert NodePool Capi.

(** *** Names *)

Lemma str_length_app s t : String.length (s +:+ t) = (String.length s + String.length t)%nat.
Proof. induction s as [|c s IH]; simpl; [done|]. by rewrite IH. Qed.

Lemma str_length_substring n s :
  (n ≤ String.length s)%nat → String.length (String.substring 0 n s) = n.
Proof.
  revert s. induction n as [|n IH]; intros [|c s] Hn; simpl in *; try lia. rewrite IH; lia.
Qed.

Lemma hex_digits_length n z acc : String.length (hex_digits n z acc) = (n + String.length acc)%nat.
Proof. revert z acc. induction n as [|n IH]; intros z acc; simpl; [done|]. rewrite IH. simpl. lia. Qed.

Lemma HashSimple_length s : String.length (HashSimple s) = 8%nat.
Proof. unfold HashSimple. by rewrite hex_digits_length. Qed.

Lemma slice_string_Ret s n :
  (0 ≤ n ≤ Z.of_nat (String.length s))%Z →
  ∃ t, slice_string s n = Ret t ∧ Z.of_nat (String.length t) = n.
Proof.
  intros Hn. unfold slice_string. destruct (_ || _)%bool eqn:E.
  { apply orb_true_iff in E as [?%Z.ltb_lt|?%Z.ltb_lt]; lia. }
  eexists. split; [done|]. rewrite str_length_substring; lia.
Qed.

Lemma go_min_eq a b : go_min a b = Z.min a b.
Proof. unfold go_min. destruct (Z.ltb_spec b a); lia. Qed.
Lemma go_max_eq a b : go_max a b = Z.max a b.
Proof. unfold go_max. destruct (Z.ltb_spec a b); lia. Qed.

(** [getName] never slices out of range, its result always fits the
maximum, and as long as the suffix leaves room for the hash (and any base) the
name still ends in the suffix. *)
Theorem getName_fits base suffix maxLength :
  ∃ name, getName base suffix maxLength = Ret name ∧
    (Z.of_nat (String.length name) ≤ Z.max 0 maxLength)%Z ∧
    ((Z.of_nat (String.length suffix) + 11 ≤ maxLength)%Z → ∃ prefix, name = prefix +:+ "-" +:+ suffix).
Proof.
  unfold getName. destruct (maxLength <=? 0)%Z eqn:E0; [|apply Z.leb_gt in E0].
  { exists "". apply Z.leb_le in E0. simpl. split_and!; [done|lia|lia]. }
  destruct (_ <=? maxLength)%Z eqn:E1.
  { exists (base +:+ "-" +:+ suffix). apply Z.leb_le in E1. split_and!; [done|lia|eauto]. }
  apply Z.leb_gt in E1. rewrite !str_length_app in E1. change (String.length "-") with 1%nat in E1.
  destruct (_ <? 1)%Z eqn:E2; [apply Z.ltb_lt in E2|apply Z.ltb_ge in E2].
  - rewrite go_min_eq, go_max_eq.
    destruct (slice_string_Ret base (Z.min (Z.of_nat (String.length base)) (Z.max 0 (maxLength - 9))))
      as (p & Hp & _); [lia|].
    rewrite Hp. cbn [mbind go_bind]. rewrite go_min_eq.
    set (short := p +:+ "-" +:+ HashSimple (base +:+ "-" +:+ suffix)).
    destruct (slice_string_Ret short (Z.min maxLength (Z.of_nat (String.length short)))) as (t & Ht & Hl); [lia|].
    exists t. split_and!; [exact Ht|lia|lia].
  - destruct (slice_string_Ret base (maxLength - 10 - Z.of_nat (String.length suffix))) as (p & Hp & Hl); [lia|].
    rewrite Hp. simpl. eexists. split_and!; [done| |].
    + rewrite !str_length_app, HashSimple_length. change (String.length "-") with 1%nat. lia.
    + intros _. exists (p +:+ "-" +:+ HashSimple base).
      by rewrite !str_app_assoc.
Qed.

(** *** Replicas *)

Definition scaling_valid (scaling : NodePoolAutoScaling) : Prop :=
  (0 ≤ default 0 (asMin scaling) ≤ asMax scaling)%Z ∧ (1 ≤ asMax scaling)%Z.

Lemma effectiveMin_range np scaling :
  scaling_valid scaling → (0 ≤ effectiveMin np scaling ≤ asMax scaling)%Z.
Proof.
  intros [??]. unfold effectiveMin. destruct (_ && _)%bool; lia.
Qed.

(** The limits of the autoscaler, when there is one, are as the API demands. *)
Definition replicas_valid (np : NodePool) : Prop :=
  match autoScaling (npSpec np) with Some scaling => scaling_valid scaling | None => True end.

Lemma set_replicas_idemp np an n :
  replicas_valid np →
  set_replicas np (Some (set_replicas np an n).1) (set_replicas np an n).2 = set_replicas np an n.
Proof.
  unfold set_replicas, replicas_valid. destruct (autoScaling (npSpec np)) as [scaling|]; simpl; intros Hv.
  - pose proof (effectiveMin_range np scaling Hv). f_equal.
    + by rewrite (insert_insert_ne _ autoscalerMaxAnnotation autoscalerMinAnnotation),
        !insert_insert_eq by done.
    + set (m := effectiveMin np scaling) in *.
      repeat (match goal with
              | |- context [(?a <=? ?b)%Z] => destruct (Z.leb_spec a b)
              | |- context [(?a <? ?b)%Z] => destruct (Z.ltb_spec a b)
              end; simpl in *); try done; try lia; f_equal; lia.
  - f_equal. by rewrite (insert_insert_ne _ autoscalerMaxAnnotation autoscalerMinAnnotation),
      !insert_insert_eq by done.
Qed.

(** The replicas of a MachineDeployment follow the NodePool. Without
autoscaling they are the wanted number; with valid limits the autoscaler keeps
what it chose as long as it lies within the limits, is brought back to the
nearest limit otherwise, never to zero off AWS, and its limits are announced in
the annotations. Setting the replicas again changes nothing, and a MachineSet is
treated alike. *)
Theorem replicas_follow_spec np md ms
    (Hvalid : replicas_valid np)
    (Hsame : mdAnnotations md = msAnnotations ms ∧ mdReplicas md = msReplicas ms) :
  let md' := setMachineDeploymentReplicas np md in
  let ms' := setMachineSetReplicas np ms in
  let an := default ∅ (mdAnnotations md') in
  let old := default 0%Z (mdReplicas md) in
  match autoScaling (npSpec np) with
  | None => mdReplicas md' = Some (default 0%Z (replicas (npSpec np))) ∧
            mget an autoscalerMinAnnotation = "0" ∧ mget an autoscalerMaxAnnotation = "0"
  | Some scaling => ∃ n,
      mdReplicas md' = Some n ∧
      n = Z.max (effectiveMin np scaling) (Z.min old (asMax scaling)) ∧
      (default 0 (asMin scaling) ≤ n ≤ asMax scaling)%Z ∧
      (pType (platform (npSpec np)) ≠ AWSPlatform → (1 ≤ n)%Z) ∧
      mget an autoscalerMinAnnotation = itoa (effectiveMin np scaling) ∧
      mget an autoscalerMaxAnnotation = itoa (asMax scaling)
  end ∧
  setMachineDeploymentReplicas np md' = md' ∧
  mdReplicas md' = msReplicas ms' ∧ mdAnnotations md' = msAnnotations ms'.
Proof.
  destruct Hsame as [Ha Hr]. cbn zeta. split_and!.
  - unfold setMachineDeploymentReplicas, set_replicas, replicas_valid in *.
    destruct (autoScaling (npSpec np)) as [scaling|] eqn:Hs; simpl.
    + pose proof (effectiveMin_range np scaling Hvalid) as Hm. destruct Hvalid as [??].
      assert (Hoff : pType (platform (npSpec np)) ≠ AWSPlatform → (1 ≤ effectiveMin np scaling)%Z).
      { intros Hp. unfold effectiveMin in *. rewrite bool_decide_false by done.
        destruct (Z.eqb_spec (default 0%Z (asMin scaling)) 0); simpl; lia. }
      assert (Hlow : (default 0 (asMin scaling) ≤ effectiveMin np scaling)%Z).
      { unfold effectiveMin. destruct (Z.eqb_spec (default 0%Z (asMin scaling)) 0); simpl; [|lia].
        case_match; lia. }
      exists (Z.max (effectiveMin np scaling) (Z.min (default 0%Z (mdReplicas md)) (asMax scaling))).
      split_and!; try done; try lia; try (by unfold mget; simplify_map_eq);
        [|intros Hp; specialize (Hoff Hp); lia].
      destruct (Z.leb_spec (default 0%Z (mdReplicas md)) (effectiveMin np scaling)); [f_equal; lia|].
      destruct (Z.ltb_spec (asMax scaling) (default 0%Z (mdReplicas md))); [f_equal; lia|].
      destruct (mdReplicas md); simpl in *; [f_equal; lia|lia].
    + unfold mget. by simplify_map_eq.
  - pose proof (set_replicas_idemp np (mdAnnotations md) (mdReplicas md) Hvalid) as Hi.
    revert Hi. unfold setMachineDeploymentReplicas.
    destruct (set_replicas np (mdAnnotations md) (mdReplicas md)) as [an n]. simpl. by intros ->.
  - unfold setMachineDeploymentReplicas, setMachineSetReplicas. rewrite Ha, Hr. by destruct (set_replicas _ _ _).
  - unfold setMachineDeploymentReplicas, setMachineSetReplicas. rewrite Ha, Hr. by destruct (set_replicas _ _ _).
Qed.

(** *** Recording a rollout *)

(** The target a NodePool says it has reached. *)
Definition recorded (c : CAPI) (tmpl : MachineTemplate) (np : NodePool) : Prop :=
  npVersion np = tVersion (target c) ∧
  npAnnotation np nodePoolAnnotationCurrentConfig = tConfigHash (target c) ∧
  npAnnotation np nodePoolAnnotationCurrentConfigVersion = tConfigVersionHash (target c) ∧
  npAnnotation np nodePoolAnnotationPlatformMachineTemplate = tmplName tmpl.

Lemma bubble_up_frame now n cs np :
  npVersion (bubble_up now n cs np) = npVersion np ∧
  npAnnotations (bubble_up now n cs np) = npAnnotations np ∧
  npSpec (bubble_up now n cs np) = npSpec np ∧ npName (bubble_up now n cs np) = npName np ∧
  npNamespace (bubble_up now n cs np) = npNamespace np.
Proof. unfold bubble_up. by case_match. Qed.

Lemma record_rollout_recorded c tmpl np : recorded c tmpl (record_rollout c tmpl np).
Proof.
  unfold recorded, record_rollout, npAnnotation. simpl.
  set (an := default ∅ (npAnnotations np)).
  assert (Hset : ∀ k v (m : StringMap),
    mget (if (mget m k != v)%go then <[k := v]> m else m) k = v).
  { intros k v m. destruct (str_eqb (mget m k) v) eqn:E; simpl; [by apply str_eqb_eq|].
    unfold mget. by simplify_map_eq. }
  assert (Hother : ∀ k k' v (m : StringMap), k ≠ k' →
    mget (if (mget m k != v)%go then <[k := v]> m else m) k' = mget m k').
  { intros k k' v m Hk. destruct (str_eqb _ _); simpl; [done|]. unfold mget. by simplify_map_eq. }
  assert (Hins : ∀ k k' v (m : StringMap), k ≠ k' → mget (<[k := v]> m) k' = mget m k').
  { intros k k' v m Hk. unfold mget. by simplify_map_eq. }
  split_and!.
  - destruct (str_eqb (npVersion np) _) eqn:E; simpl; [by apply str_eqb_eq|done].
  - by rewrite Hother, Hins, Hset by done.
  - rewrite Hother by done. unfold mget. by simplify_map_eq.
  - apply Hset.
Qed.

Lemma record_rollout_frame c tmpl np :
  npSpec (record_rollout c tmpl np) = npSpec np ∧ npName (record_rollout c tmpl np) = npName np ∧
  npNamespace (record_rollout c tmpl np) = npNamespace np ∧
  isSpotEnabled (record_rollout c tmpl np) = isSpotEnabled np.
Proof.
  unfold record_rollout, isSpotEnabled, mhas. simpl.
  split_and!; [by case_match|by case_match|by case_match|].
  apply bool_decide_ext. f_equiv. repeat case_match; by simplify_map_eq.
Qed.

Section Rollout.
Context (taintsToJSON : list Taint → go api_error string) (now : Time).
Context {S : Type} `{!Client S ObjectRef Object} `{!Patcher S ObjectRef Object}.
Context (list_machines : string → S → go api_error (list Object)).
Implicit Types (c : CAPI) (tmpl : MachineTemplate) (np : NodePool).

(** The target is already in the template. *)
Definition in_place_already c tmpl (t : MachineTemplateSpec) : Prop :=
  default "" (mtDataSecretName t) = tUserDataSecret (target c) ∧ mtInfraName t = tmplName tmpl.

Lemma not_updating c tmpl t :
  userDataChanged c t || templateChanged tmpl t = false ↔ in_place_already c tmpl t.
Proof.
  unfold userDataChanged, templateChanged, in_place_already.
  rewrite orb_false_iff, !negb_false_iff, !str_eqb_eq. intuition congruence.
Qed.

Lemma reconcileMachineDeployment_Ret c tmpl np md s np' md' s' :
  reconcileMachineDeployment taintsToJSON now list_machines c tmpl np md s = (Ret (np', md'), s') →
  ∃ resourcesName t,
    generateName (capiClusterName c) (clusterName (npSpec np)) (npName np) = Ret resourcesName ∧
    t = set_failure_domain (failure_domain np) (next_template c np resourcesName tmpl (mdTemplate md)) ∧
    mdTemplate md' = propagate c tmpl t ∧
    mdReplicas md' = (set_replicas np None (mdReplicas md)).2 ∧
    mdGeneration md' = mdGeneration md ∧ mdObservedGeneration md' = mdObservedGeneration md ∧
    mdStatusReplicas md' = mdStatusReplicas md ∧ mdUpdatedReplicas md' = mdUpdatedReplicas md ∧
    mdAvailableReplicas md' = mdAvailableReplicas md ∧
    if userDataChanged c (mdTemplate md) || templateChanged tmpl (mdTemplate md) then np' = np
    else ∃ b, MachineDeploymentComplete md' = Ret b ∧
      np' = bubble_up now (mdAvailableReplicas md) (mdConditions md)
              (if b then record_rollout c tmpl np else np).
Proof.
  unfold reconcileMachineDeployment, mbind, st_bind, st_lift. intros H.
  destruct (generateName _ _ _) as [rn| |] eqn:Hn; [|done..].
  destruct (list_machines _ _) as [machines| |]; [|done..].
  destruct (st_for _ _ _) as [[[]| |] s1]; [|done..].
  destruct (replace _) as [strategy|]; [|done].
  set (t := set_failure_domain _ _) in *.
  change (userDataChanged c t) with (userDataChanged c (mdTemplate md)) in H.
  change (templateChanged tmpl t) with (templateChanged tmpl (mdTemplate md)) in H.
  assert (Hr : ∀ an, (set_replicas np an (mdReplicas md)).2 = (set_replicas np None (mdReplicas md)).2).
  { intros an. unfold set_replicas. by destruct (autoScaling _). }
  match type of H with context [set_replicas np ?a ?b] => specialize (Hr a) end.
  destruct (set_replicas np (Some _) _) as [an n]. simpl in Hr. subst n.
  exists rn, t. destruct (_ || _)%bool eqn:Hu.
  - injection H as <- <- <-. by split_and!.
  - destruct (MachineDeploymentComplete _) as [b| |] eqn:Hc; [|done..].
    injection H as <- <- <-. split_and!; try done. by exists b.
Qed.

(** C5: A NodePool rolled out by a MachineDeployment says that it reached a
version, configuration or machine template only when that is so: the
MachineDeployment already carried the target before this pass (user data and
machine template), it has observed its latest generation, and exactly the
wanted number of machines exists, is up to date and available. What is recorded
is the whole target. *)
Theorem rollout_recorded_when_done c tmpl np md s np' md' s'
    (Hrun : reconcileMachineDeployment taintsToJSON now list_machines c tmpl np md s = (Ret (np', md'), s'))
    (Hchanged : npVersion np' ≠ npVersion np ∨ npAnnotations np' ≠ npAnnotations np) :
  in_place_already c tmpl (mdTemplate md) ∧ recorded c tmpl np' ∧
  (mdGeneration md ≤ mdObservedGeneration md)%Z ∧
  mdReplicas md' = Some (mdAvailableReplicas md) ∧
  mdUpdatedReplicas md = mdAvailableReplicas md ∧ mdStatusReplicas md = mdAvailableReplicas md.
Proof.
  apply reconcileMachineDeployment_Ret in Hrun
    as (rn & t & _ & _ & _ & _ & Hg & Ho & Hs & Hu & Ha & Hnp).
  destruct (_ || _)%bool eqn:Hup; [subst; by destruct Hchanged|].
  destruct Hnp as (b & Hc & ->).
  pose proof (bubble_up_frame now (mdAvailableReplicas md) (mdConditions md)
                (if b then record_rollout c tmpl np else np)) as (Hv & Han & _).
  rewrite Hv, Han in Hchanged. destruct b; [|by destruct Hchanged].
  split; [by apply not_updating|]. split.
  { unfold recorded, npAnnotation. rewrite Hv, Han. apply record_rollout_recorded. }
  unfold MachineDeploymentComplete in Hc. destruct (mdReplicas md') as [n|] eqn:Hn; [|done].
  injection Hc as Hc. rewrite !andb_true_iff, !Z.eqb_eq, Z.leb_le in Hc.
  rewrite Hg, Ho, Hs, Hu, Ha in Hc. destruct Hc as [[[-> ->] ->] ?]. done.
Qed.

End Rollout.

(** *** In-place rollouts *)

Section InPlace.
Context (taintsToJSON : list Taint → go api_error string).
Implicit Types (now : Time) (c : CAPI) (tmpl : MachineTemplate) (np : NodePool).

(** The annotations every pass sets on the MachineSet, before a new target. *)
Definition common_annotations np (maxUnavailable : Z) (ms : MachineSet) : StringMap :=
  (set_replicas np (Some (<[nodePoolAnnotationMaxUnavailable := itoa maxUnavailable]>
     (delete PausedAnnotation (<[nodePoolAnnotation := nodePoolKey np]> (default ∅ (msAnnotations ms))))))
     (msReplicas ms)).1.

(** A new target is announced; a MachineSet without a current version is new. *)
Definition announce c (an : StringMap) : StringMap :=
  let an := <[nodePoolAnnotationTargetConfigVersion := tConfigVersionHash (target c)]> an in
  if mhas an nodePoolAnnotationCurrentConfigVersion then an
  else <[nodePoolAnnotationCurrentConfigVersion := tConfigVersionHash (target c)]> an.

Lemma reconcileMachineSet_Ret now c tmpl np ms np' ms' :
  reconcileMachineSet taintsToJSON now c tmpl np ms = Ret (np', ms') →
  ∃ maxUnavailable,
    getInPlaceMaxUnavailable np = Ret maxUnavailable ∧
    let an := common_annotations np maxUnavailable ms in
    msAnnotations ms' = Some (if userDataChanged c (msTemplate ms) then announce c an else an) ∧
    if userDataChanged c (msTemplate ms) || templateChanged tmpl (msTemplate ms) then np' = np
    else np' = bubble_up now (msAvailableReplicas ms) (msConditions ms)
                 (if machineSetInPlaceRolloutIsComplete ms' then record_rollout c tmpl np else np).
Proof.
  unfold reconcileMachineSet, mbind, go_bind, common_annotations. intros H.
  destruct (generateName _ _ _) as [rn| |] eqn:Hn; [|done..].
  destruct (getInPlaceMaxUnavailable np) as [n| |]; [|done..].
  destruct (taintsToJSON _) as [j| |]; [|done..].
  exists n. split; [done|]. cbn zeta.
  destruct (set_replicas np (Some _) _) as [an k]. cbn [fst].
  set (t := set_template_meta _ _ _) in *.
  change (userDataChanged c t) with (userDataChanged c (msTemplate ms)) in H.
  change (templateChanged tmpl t) with (templateChanged tmpl (msTemplate ms)) in H.
  unfold announce. destruct (_ || _)%bool eqn:Hu; injection H as <- <-; by split.
Qed.

(** The annotations a pass writes without a new target agree with the old ones
on the versions. *)
Lemma common_annotations_other np n ms k :
  k ∉ [nodePoolAnnotation; PausedAnnotation; nodePoolAnnotationMaxUnavailable;
       autoscalerMinAnnotation; autoscalerMaxAnnotation] →
  common_annotations np n ms !! k = default ∅ (msAnnotations ms) !! k.
Proof.
  intros Hk. unfold common_annotations, set_replicas.
  assert (Hne : k ≠ nodePoolAnnotation ∧ k ≠ PausedAnnotation ∧ k ≠ nodePoolAnnotationMaxUnavailable ∧
                k ≠ autoscalerMinAnnotation ∧ k ≠ autoscalerMaxAnnotation) by set_solver.
  destruct Hne as (? & ? & ? & ? & ?). destruct (autoScaling _); simpl; by simplify_map_eq.
Qed.

(** A NodePool upgraded in place says that it reached a version only when
the MachineSet, which already carried the target, has its current version at its
target version; what is recorded is the whole target. *)
Lemma inplace_recorded_when_done now c tmpl np ms np' ms' :
  reconcileMachineSet taintsToJSON now c tmpl np ms = Ret (np', ms') →
  npVersion np' ≠ npVersion np ∨ npAnnotations np' ≠ npAnnotations np →
  in_place_already c tmpl (msTemplate ms) ∧ recorded c tmpl np' ∧
  mget (default ∅ (msAnnotations ms)) nodePoolAnnotationCurrentConfigVersion =
  mget (default ∅ (msAnnotations ms)) nodePoolAnnotationTargetConfigVersion.
Proof.
  intros (n & _ & Han & Hnp)%reconcileMachineSet_Ret Hchanged. cbn zeta in Han.
  destruct (_ || _)%bool eqn:Hup; [subst; by destruct Hchanged|]. subst np'.
  pose proof (bubble_up_frame now (msAvailableReplicas ms) (msConditions ms)
    (if machineSetInPlaceRolloutIsComplete ms' then record_rollout c tmpl np else np)) as (Hv & Ha & _).
  rewrite Hv, Ha in Hchanged.
  destruct (machineSetInPlaceRolloutIsComplete ms') eqn:Hc; [|by destruct Hchanged].
  split; [by apply not_updating|]. split.
  { unfold recorded, npAnnotation. rewrite Hv, Ha. apply record_rollout_recorded. }
  apply orb_false_iff in Hup as [Hu _]. rewrite Hu in Han.
  apply str_eqb_eq in Hc. rewrite Han in Hc. simpl in Hc.
  unfold mget in *. rewrite !common_annotations_other in Hc by (vm_compute; set_solver). exact Hc.
Qed.

(** A complete MachineSet that already carries the target is recorded. *)
Lemma MachineSet_records now c tmpl np ms np' ms' :
  reconcileMachineSet taintsToJSON now c tmpl np ms = Ret (np', ms') →
  userDataChanged c (msTemplate ms) || templateChanged tmpl (msTemplate ms) = false →
  machineSetInPlaceRolloutIsComplete ms' = true → recorded c tmpl np'.
Proof.
  intros (n & _ & _ & Hnp)%reconcileMachineSet_Ret Hup Hc. rewrite Hup, Hc in Hnp. subst np'.
  destruct (bubble_up_frame now (msAvailableReplicas ms) (msConditions ms) (record_rollout c tmpl np))
    as (Hv & Ha & _).
  unfold recorded, npAnnotation. rewrite Hv, Ha. apply record_rollout_recorded.
Qed.

(** A pass leaves what it reads of the NodePool alone. *)
Lemma pass_frame now c tmpl np b n cs :
  let np' := bubble_up now n cs (if (b : bool) then record_rollout c tmpl np else np) in
  npSpec np' = npSpec np ∧ npName np' = npName np ∧ nodePoolKey np' = nodePoolKey np ∧
  isSpotEnabled np' = isSpotEnabled np.
Proof.
  cbn zeta. unfold nodePoolKey, isSpotEnabled.
  destruct (bubble_up_frame now n cs (if b then record_rollout c tmpl np else np)) as (_ & -> & -> & -> & ->).
  destruct b; [|done]. destruct (record_rollout_frame c tmpl np) as (-> & -> & -> & Hs). by split_and!.
Qed.

Lemma set_replicas_stable np an (an' : StringMap) n :
  replicas_valid np →
  (∀ k, k = autoscalerMinAnnotation ∨ k = autoscalerMaxAnnotation →
        an' !! k = (set_replicas np an n).1 !! k) →
  set_replicas np (Some an') (set_replicas np an n).2 = (an', (set_replicas np an n).2).
Proof.
  intros Hv Hk. pose proof (set_replicas_idemp np an n Hv) as Hi.
  pose proof (Hk _ (or_introl eq_refl)) as Hmin. pose proof (Hk _ (or_intror eq_refl)) as Hmax.
  assert (Hn : ∀ a, (set_replicas np a (set_replicas np an n).2).2 = (set_replicas np an n).2).
  { intros a. rewrite <- (f_equal snd Hi) at 2. unfold set_replicas. by destruct (autoScaling _). }
  rewrite (surjective_pairing (set_replicas np (Some an') _)), Hn. f_equal.
  revert Hmin Hmax. unfold set_replicas.
  destruct (autoScaling (npSpec np)); cbn [fst snd default]; rewrite lookup_insert_eq, lookup_insert_ne,
    lookup_insert_eq by done; intros Hmin Hmax; by rewrite !insert_id by by simplify_map_eq.
Qed.

Lemma announce_other c an k :
  k ≠ nodePoolAnnotationTargetConfigVersion → k ≠ nodePoolAnnotationCurrentConfigVersion →
  announce c an !! k = an !! k.
Proof. intros ??. unfold announce. case_match; by simplify_map_eq. Qed.

Lemma announce_new c an :
  mhas an nodePoolAnnotationCurrentConfigVersion = false →
  mget (announce c an) nodePoolAnnotationCurrentConfigVersion =
  mget (announce c an) nodePoolAnnotationTargetConfigVersion.
Proof.
  unfold announce, mhas. intros Hh. rewrite lookup_insert_ne, Hh by done.
  unfold mget. by simplify_map_eq.
Qed.

Lemma common_annotations_lookup np n ms :
  common_annotations np n ms !! nodePoolAnnotation = Some (nodePoolKey np) ∧
  common_annotations np n ms !! PausedAnnotation = None ∧
  common_annotations np n ms !! nodePoolAnnotationMaxUnavailable = Some (itoa n).
Proof.
  unfold common_annotations, set_replicas. destruct (autoScaling (npSpec np)); simpl;
    split_and!; by simplify_map_eq.
Qed.

(** The annotations a pass wrote are a fixed point of the next pass. *)
Lemma annotations_settle np n ms (an : StringMap) :
  replicas_valid np →
  (∀ k, k ≠ nodePoolAnnotationTargetConfigVersion → k ≠ nodePoolAnnotationCurrentConfigVersion →
        an !! k = common_annotations np n ms !! k) →
  set_replicas np (Some (<[nodePoolAnnotationMaxUnavailable := itoa n]>
      (delete PausedAnnotation (<[nodePoolAnnotation := nodePoolKey np]> an))))
    (set_replicas np None (msReplicas ms)).2 = (an, (set_replicas np None (msReplicas ms)).2).
Proof.
  intros Hv Hk. destruct (common_annotations_lookup np n ms) as (H1 & H2 & H3).
  rewrite <- Hk in H1, H2, H3 by done.
  rewrite (insert_id an), delete_id, insert_id by done.
  apply set_replicas_stable; [done|]. intros k Hor.
  rewrite Hk by (by destruct Hor as [-> | ->]). unfold common_annotations, set_replicas.
  destruct (autoScaling (npSpec np)); destruct Hor as [-> | ->]; simpl; by simplify_map_eq.
Qed.

(** What [reconcileMachineSet] makes of the MachineSet depends on the NodePool
only through its spec, key, name and the spot annotation. *)
Definition agree (np np' : NodePool) : Prop :=
  npSpec np' = npSpec np ∧ npName np' = npName np ∧ nodePoolKey np' = nodePoolKey np ∧
  isSpotEnabled np' = isSpotEnabled np.

Lemma reconcileMachineSet_agree now now' c tmpl np np' ms :
  agree np np' →
  snd <$> reconcileMachineSet taintsToJSON now' c tmpl np' ms =
  snd <$> reconcileMachineSet taintsToJSON now c tmpl np ms.
Proof.
  intros (Hspec & Hname & Hkey & Hspot).
  unfold reconcileMachineSet, next_template, managed_labels, set_replicas, getInPlaceMaxUnavailable, effectiveMin.
  rewrite Hspec, Hname, Hkey, Hspot. unfold fmap, go_fmap, mbind, go_bind.
  destruct (generateName _ _ _); [|done..].
  destruct (GetScaledValueFromIntOrPercent _ _ _); [|done..].
  destruct (taintsToJSON _); [|done..].
  destruct (autoScaling _); by destruct (_ || _)%bool.
Qed.

Lemma propagate_settles c tmpl t t' :
  mtDataSecretName t = mtDataSecretName (propagate c tmpl t') →
  mtInfraName t = mtInfraName (propagate c tmpl t') →
  userDataChanged c t = false ∧ templateChanged tmpl t = false.
Proof.
  intros Hd Hi. unfold userDataChanged, templateChanged. rewrite Hd, Hi. simpl.
  unfold userDataChanged, templateChanged.
  destruct (str_eqb (tUserDataSecret (target c)) (default "" (mtDataSecretName t'))) eqn:E1;
    destruct (str_eqb (tmplName tmpl) (mtInfraName t')) eqn:E2; simpl;
    by rewrite ?E1, ?E2, ?str_eqb_refl.
Qed.

(** A second pass over what the first wrote writes the same. *)
Lemma MachineSet_fixpoint now c tmpl np ms np1 ms1 :
  replicas_valid np →
  reconcileMachineSet taintsToJSON now c tmpl np ms = Ret (np1, ms1) →
  snd <$> reconcileMachineSet taintsToJSON now c tmpl np ms1 = Ret ms1 ∧
  userDataChanged c (msTemplate ms1) || templateChanged tmpl (msTemplate ms1) = false.
Proof.
  intros Hv. unfold reconcileMachineSet, mbind, go_bind.
  destruct (generateName _ _ _) as [rn| |]; [|done..].
  destruct (getInPlaceMaxUnavailable np) as [n| |]; [|done..].
  destruct (taintsToJSON _) as [j| |]; [|done..].
  set (t := set_template_meta _ _ (next_template c np rn tmpl (msTemplate ms))) in *.
  destruct (set_replicas np (Some _) (msReplicas ms)) as [an k] eqn:Hs. intros Hrun.
  assert (Hms : msTemplate ms1 = propagate c tmpl t ∧ msReplicas ms1 = k ∧
                msAnnotations ms1 = Some (if userDataChanged c t then announce c an else an) ∧
                msLabels ms1 = Some (<[ClusterNameLabel := capiClusterName c]> (default ∅ (msLabels ms))) ∧
                msMatchLabels ms1 = Some (<[rn := rn]> (default ∅ (msMatchLabels ms))) ∧
                msClusterName ms1 = capiClusterName c ∧ msMinReadySeconds ms1 = 0%Z).
  { unfold announce. destruct (_ || _)%bool; injection Hrun as <- <-; by split_and!. }
  destruct Hms as (Ht & Hk & Ha & Hl & Hm & Hc & Hmin).
  destruct (propagate_settles c tmpl (msTemplate ms1) t) as [Hu1 Hu2]; [by rewrite Ht..|].
  split; [|by rewrite Hu1, Hu2].
  assert (Hn : ∀ x, (set_replicas np x (msReplicas ms)).2 = (set_replicas np None (msReplicas ms)).2).
  { intros x. unfold set_replicas. by destruct (autoScaling _). }
  assert (Hset := annotations_settle np n ms (default ∅ (msAnnotations ms1)) Hv).
  rewrite <- (Hn (Some (<[nodePoolAnnotationMaxUnavailable := itoa n]>
    (delete PausedAnnotation (<[nodePoolAnnotation := nodePoolKey np]> (default ∅ (msAnnotations ms))))))), Hs in Hset.
  cbn [snd] in Hset. rewrite Hk, Hset.
  2: { intros x ??. unfold common_annotations. rewrite Hs, Ha. simpl.
       destruct (userDataChanged c t); [by apply announce_other|done]. }
  set (t1 := set_template_meta _ _ (next_template c np rn tmpl (msTemplate ms1))).
  change (userDataChanged c t1) with (userDataChanged c (msTemplate ms1)).
  change (templateChanged tmpl t1) with (templateChanged tmpl (msTemplate ms1)).
  rewrite Hu1, Hu2. cbn [orb fmap go_fmap snd]. f_equal.
  assert (Hp : propagate c tmpl t1 = msTemplate ms1).
  { unfold propagate.
    change (userDataChanged c t1) with (userDataChanged c (msTemplate ms1)).
    change (templateChanged tmpl t1) with (templateChanged tmpl (msTemplate ms1)).
    rewrite Hu1, Hu2, Ht. unfold t1, propagate. simpl. by rewrite Ht. }
  rewrite Hp, Hl, Hm, Ha. simpl. rewrite !insert_insert_eq, <- Ha, <- Hl, <- Hm, <- Hk, <- Hc, <- Hmin.
  by destruct ms1.
Qed.

(** C34: Propagating a target to a MachineSet takes one pass: with valid
autoscaler limits, whatever the MachineSet was, the next pass at any later time
succeeds and leaves it exactly as the first wrote it (no hot loop of updates),
and if the MachineSet then has its current version at its target, as a new one
has, the NodePool records the whole target. *)
Theorem MachineSet_settles now c tmpl np ms np1 ms1 later
    (Hvalid : replicas_valid np)
    (Hrun : reconcileMachineSet taintsToJSON now c tmpl np ms = Ret (np1, ms1)) :
  ∃ np2, reconcileMachineSet taintsToJSON later c tmpl np1 ms1 = Ret (np2, ms1) ∧
    (machineSetInPlaceRolloutIsComplete ms1 = true → recorded c tmpl np2) ∧
    (userDataChanged c (msTemplate ms) = true →
     mhas (default ∅ (msAnnotations ms)) nodePoolAnnotationCurrentConfigVersion = false →
     machineSetInPlaceRolloutIsComplete ms1 = true).
Proof.
  assert (Hagree : agree np np1 ∧ ∃ n, msAnnotations ms1 =
    Some (if userDataChanged c (msTemplate ms) then announce c (common_annotations np n ms)
          else common_annotations np n ms)).
  { apply reconcileMachineSet_Ret in Hrun as (n & _ & Ha & Hnp). split; [|by exists n].
    destruct (_ || _)%bool; subst; [by split_and!|apply pass_frame]. }
  destruct Hagree as [Hagree [n Ha]].
  destruct (MachineSet_fixpoint _ _ _ _ _ _ _ Hvalid Hrun) as [Hfix Hup].
  rewrite <- (reconcileMachineSet_agree now later _ _ _ np1) in Hfix by done.
  destruct (reconcileMachineSet taintsToJSON later c tmpl np1 ms1) as [[np2 ms2]| |] eqn:E; try discriminate Hfix.
  injection Hfix as ->. exists np2. split_and!; [done| |].
  - intros Hc. by eapply MachineSet_records.
  - intros Hu Hh. rewrite Hu in Ha. unfold machineSetInPlaceRolloutIsComplete. rewrite Ha. simpl.
    apply str_eqb_eq, announce_new. unfold mhas in *.
    by rewrite common_annotations_other by (vm_compute; set_solver).
Qed.

End InPlace.

(** *** A rollout *)
Module SampleRollout.
Import UpsertProofs UpsertProofs.SampleCluster NodePoolProofs.SampleNodePool.

(** A patch writes the object it was computed from. *)
#[export] Instance map_Patcher : Patcher cluster ObjectRef Object := {
  c_patch k _ o s := (Ret o, <[k := o]> s);
  c_status_patch k _ o s := (Ret o, <[k := o]> s);
}.

Definition no_taints (ts : list Taint) : go api_error string := Ret "[]".
Definition rollout : CAPI :=
  mkCAPI (mkTarget "user-data-workers-2" "token-workers-2" "4.20.3" "hash" "hashv") "prod-x7k".
Definition tmpl : MachineTemplate := mkMachineTemplate "workers-abc" "clusters-prod" "AWSMachineTemplate" "v1beta2".

Definition template (userData : string) : MachineTemplateSpec :=
  mkTemplate ∅ ∅ "" (Some userData) "" "" "" "workers-abc" (Some "4.20.3") None None None.
Definition md (userData : string) : MachineDeployment :=
  mkMD "clusters-prod" "workers" 3 None None "" (Some 2%Z) None (template userData) None None ""
    3 3 3 3 [].
Definition ms (userData : string) (an : option StringMap) : MachineSet :=
  mkMS "clusters-prod" "workers" None an "" (Some 2%Z) None (template userData) 0 "" 3 [].

Definition a_machine : Object :=
  mkObject "clusters-prod" "workers-1" "uid-7" None (Some {[nodePoolAnnotation := "clusters/workers"]})
    [] "" None (OtherObject "*v1beta1.Machine" (JMap [])) [].
Definition pool : cluster := {[ref_of a_machine := a_machine]}.
Definition scaled (np : NodePool) : NodePool :=
  mkNodePool (npNamespace np) (npName np) (npGeneration np) (npLabels np) (npAnnotations np)
    (np_spec (management (npSpec np)) (Some (mkAutoScaling (Some 3%Z) 5))) (npVersion np) (npReplicas np) [].

End SampleRollout.
Import NodePoolProofs.SampleNodePool SampleRollout UpsertProofs.SampleCluster.

Lemma replicas_follow_spec_witness :
  let md' := setMachineDeploymentReplicas (scaled (np replace_management)) (md "old") in
  ∃ n, mdReplicas md' = Some n ∧ (3 ≤ n ≤ 5)%Z ∧
  setMachineDeploymentReplicas (scaled (np replace_management)) md' = md'.
Proof.
  destruct (replicas_follow_spec (scaled (np replace_management)) (md "old") (ms "old" None))
    as ((n & Hn & _ & Hr & _) & Hi & _).
  - split; simpl; lia.
  - done.
  - exists n. split_and!; [exact Hn|apply Hr|apply Hr|exact Hi].
Defined.

Definition sample_run : st cluster api_error (NodePool * MachineDeployment) :=
  reconcileMachineDeployment no_taints 9 (λ _ _, Ret [a_machine]) rollout tmpl
    (np replace_management) (md "user-data-workers-2").
Definition sample_np : NodePool :=
  Eval vm_compute in match (sample_run pool).1 with Ret p => p.1 | _ => np replace_management end.
Definition sample_md : MachineDeployment :=
  Eval vm_compute in match (sample_run pool).1 with Ret p => p.2 | _ => md "" end.
Lemma sample_run_Ret : (sample_run pool).1 = Ret (sample_np, sample_md).
Proof. vm_compute. reflexivity. Qed.

Lemma rollout_recorded_when_done_witness :
  (sample_run pool).1 = Ret (sample_np, sample_md) ∧ recorded rollout tmpl sample_np ∧ mdReplicas sample_md = Some 3%Z.
Proof.
  split; [exact sample_run_Ret|]. destruct (run_Ret _ _ _ sample_run_Ret) as [s' Hrun].
  destruct (rollout_recorded_when_done no_taints 9 (λ _ _, Ret [a_machine]) rollout tmpl
      (np replace_management) (md "user-data-workers-2") pool sample_np sample_md s' Hrun) as (_ & Hrec & _ & Hrep & _).
  - left. discriminate.
  - split; [exact Hrec|exact Hrep].
Defined.

Lemma MachineSet_settles_witness :
  ∃ np1 ms1 np2, reconcileMachineSet no_taints 9 rollout tmpl (np in_place_management) (ms "old" None) = Ret (np1, ms1) ∧
    reconcileMachineSet no_taints 10 rollout tmpl np1 ms1 = Ret (np2, ms1) ∧ recorded rollout tmpl np2.
Proof.
  destruct (reconcileMachineSet no_taints 9 rollout tmpl (np in_place_management) (ms "old" None))
    as [[np1 ms1]| |] eqn:E; [|vm_compute in E; discriminate E..].
  destruct (MachineSet_settles no_taints 9 rollout tmpl (np in_place_management) (ms "old" None) np1 ms1 10 I E)
    as (np2 & H2 & Hrec & Hnew).
  exists np1, ms1, np2. split_and!; [done|exact H2|]. apply Hrec, Hnew; vm_compute; reflexivity.
Defined.

End CapiProofs.
