(* ===== verification/InPlaceRollout.v ===== *)
(** In-place rollouts end to end: the NodePool controller ([Capi]) on the
management cluster and the in-place upgrader ([InPlaceUpgrader]) of the hosted
cluster config operator talk through annotations of the MachineSet.  The theorems
here compose the guarantees of both. *)
From S2P Require Import Prelude GoSort Semver Api Upsert UpsertProofs NodePool NodePoolProofs Capi CapiProofs.
From S2P Require Import GlobalConfig InPlaceUpgrader InPlaceUpgraderProofs.

Module InPlaceRollout.
Import Semver Upsert UpsertProofs.
Import (hints) InPlaceUpgraderProofs.
Module U := InPlaceUpgrader.
Module UP := InPlaceUpgraderProofs.
Module C := Capi.
Module CP := CapiProofs.
Module N := NodePool.

(** Both sides mean the same annotations. *)
Lemma annotation_keys :
  N.nodePoolAnnotationTargetConfigVersion = U.nodePoolAnnotationTargetConfigVersion ∧
  N.nodePoolAnnotationCurrentConfigVersion = U.nodePoolAnnotationCurrentConfigVersion ∧
  N.nodePoolAnnotationMaxUnavailable = U.nodePoolAnnotationMaxUnavailable.
Proof. done. Qed.

(** *** How many nodes may be down *)

(** The setting of the NodePool, as its API allows it: a number or a percentage. *)
Definition setting_valid (np : N.NodePool) : Prop :=
  (0 ≤ default 0%Z (N.replicas (N.npSpec np)) < 2 ^ 31)%Z ∧
  match N.inPlace (N.management (N.npSpec np)) with
  | Some (Some (FromInt i)) => (0 ≤ i < 2 ^ 31)%Z
  | Some (Some (FromString s)) => ∀ p, ParseInt (trim_suffix s "%") = Some p → (0 ≤ p ≤ 100)%Z
  | _ => True
  end.

(** The number the controller takes a setting for.  A percentage is of
[spec.replicas]; a NodePool with autoscaling has none, and then every percentage
counts as one node. *)
Definition taken_for (np : N.NodePool) (n : Z) : Prop :=
  match N.inPlace (N.management (N.npSpec np)), N.replicas (N.npSpec np) with
  | Some (Some (FromInt i)), _ => n = Z.max 1 i
  | Some (Some (FromString s)), Some r => ∃ p, ParseInt (trim_suffix s "%") = Some p ∧ n = Z.max 1 (p * r / 100)
  | _, _ => n = 1%Z
  end.

Lemma max_one z : (0 ≤ z)%Z → (if (z =? 0)%Z then 1%Z else z) = Z.max 1 z.
Proof. intros. destruct (Z.eqb_spec z 0); lia. Qed.

Lemma getInPlaceMaxUnavailable_spec np n :
  setting_valid np → C.getInPlaceMaxUnavailable np = Ret n →
  taken_for np n ∧ (1 ≤ n < 2 ^ 32)%Z.
Proof.
  unfold setting_valid, C.getInPlaceMaxUnavailable, taken_for. intros [Hr Hv].
  destruct (N.inPlace _) as [[[i|s]|]|]; simpl.
  - intros [= <-]. rewrite max_one by lia. lia.
  - destruct (negb _); [done|]. destruct (ParseInt _) as [p|]; [|done]. intros [= <-].
    specialize (Hv p eq_refl). set (k := default 0%Z (N.replicas (N.npSpec np))) in *.
    assert (0 ≤ p * k / 100 ≤ k)%Z.
    { split; [apply Z.div_pos; nia|]. apply Z.div_le_upper_bound; nia. }
    rewrite max_one by lia. split; [|lia]. unfold k.
    destruct (N.replicas _) as [r|]; simpl; [by exists p|]. by rewrite Z.mul_0_r.
  - intros [= <-]. lia.
  - intros [= <-]. lia.
Qed.

Section EndToEnd.
Context (taintsToJSON : list N.Taint → go api_error string) (now : Time).


(** *** What the NodePool says *)

Context {M G : Type}.
Context `{!Client M ObjectRef Object} `{!Client G ObjectRef Object}.
Context `{!U.Management M} `{!SemanticEqual} `{!U.SliceGrowth} `{!ClientLaws M ObjectRef Object}.
(** The API server keeps annotations and kinds, and the semantic comparison
tells objects with different annotations apart. *)
Hypothesis Hadmit : ∀ old m, oAnnotations (admit_object old m) = oAnnotations m ∧
                             goTypeName (admit_object old m) = goTypeName m.
Hypothesis Hequal : ∀ a b, DeepEqual a b = true →
  default ∅ (oAnnotations a) = default ∅ (oAnnotations b).

(** The MachineSet carries the target of [c]: the NodePool controller propagated
it, and then passes of the controller with that target and writes of others that
leave the announced version alone, such as those of the upgrader, came in any
order. *)
Inductive announced (c : C.CAPI) : C.MachineSet → Prop :=
| announced_propagated t tmpl np ms np' ms' :
    C.reconcileMachineSet taintsToJSON t c tmpl np ms = Ret (np', ms') →
    C.userDataChanged c (C.msTemplate ms) = true → announced c ms'
| announced_pass t tmpl np ms np' ms' :
    announced c ms → C.reconcileMachineSet taintsToJSON t c tmpl np ms = Ret (np', ms') → announced c ms'
| announced_elsewhere ms ms' :
    announced c ms →
    mget (default ∅ (C.msAnnotations ms')) U.nodePoolAnnotationTargetConfigVersion =
    mget (default ∅ (C.msAnnotations ms)) U.nodePoolAnnotationTargetConfigVersion → announced c ms'.

(** The version announced is the one of the target. *)
Lemma announced_target c ms : announced c ms →
  mget (default ∅ (C.msAnnotations ms)) U.nodePoolAnnotationTargetConfigVersion =
  N.tConfigVersionHash (C.target c).
Proof.
  assert (Hann : ∀ an, mget (CP.announce c an) U.nodePoolAnnotationTargetConfigVersion
                       = N.tConfigVersionHash (C.target c)).
  { intros an. unfold CP.announce, mget. case_match; by simplify_map_eq. }
  induction 1 as [t tmpl np ms np' ms' Hrun Hu|t tmpl np ms np' ms' _ IH Hrun|ms ms' _ IH Heq].
  - apply CP.reconcileMachineSet_Ret in Hrun as (n & _ & Han & _). rewrite Hu in Han. rewrite Han. apply Hann.
  - apply CP.reconcileMachineSet_Ret in Hrun as (n & _ & Han & _). cbn zeta in Han. rewrite Han. simpl.
    case_match; [apply Hann|]. rewrite <- IH. unfold mget.
    rewrite CP.common_annotations_other by (vm_compute; set_solver). done.
  - congruence.
Qed.

(** C4: An in-place rollout is reported by the NodePool only when it has
happened on the nodes.  Let the MachineSet the upgrader reads carry the target
the NodePool controller propagated, and differ from its current version; after
the upgrader reconciled it, let the NodePool controller read it with the same
target.  If the controller then changes the version or the annotations of the
NodePool, every node of the pool runs the very configuration version of that
target, its daemon is done and no drain is pending, and the NodePool records
exactly that target. *)
Theorem inplace_rollout_truth o payload image proxy (s s' : U.rstate M G) nodes e' c tmpl np ms0 ms np' ms'
    (Htarget : announced c ms0)
    (Hannotations : oAnnotations o = C.msAnnotations ms0)
    (Hupgrade : U.reconcileInPlaceUpgrade o payload image proxy s = (Ret (), s'))
    (Hversions : N.tConfigVersionHash (C.target c) ≠ U.annotation o U.nodePoolAnnotationCurrentConfigVersion)
    (Hnodes : (U.getNodesForMachineSet o s).1 = Ret nodes)
    (Hstored : view (U.r_mgmt s) !! ref_of o = Some o)
    (Hkind : UP.is_machineset o = true)
    (Hread : view (U.r_mgmt s') !! ref_of o = Some e' ∧ C.msAnnotations ms = oAnnotations e')
    (Hrollout : C.reconcileMachineSet taintsToJSON now c tmpl np ms = Ret (np', ms'))
    (Hchanged : N.npVersion np' ≠ N.npVersion np ∨ N.npAnnotations np' ≠ N.npAnnotations np) :
  (∀ node, node ∈ nodes → UP.finished (N.tConfigVersionHash (C.target c)) node) ∧ CP.recorded c tmpl np'.
Proof.
  pose proof (announced_target c ms0 Htarget) as Ht0. rewrite <- Hannotations in Ht0.
  change (U.annotation o U.nodePoolAnnotationTargetConfigVersion = N.tConfigVersionHash (C.target c)) in Ht0.
  rewrite <- Ht0 in Hversions |- *.
  set (target := U.annotation o U.nodePoolAnnotationTargetConfigVersion) in *.
  assert (Han : ∃ an, oAnnotations o = Some an).
  { destruct (oAnnotations o) as [an|] eqn:E; [by exists an|]. destruct Hversions.
    unfold target, U.annotation. by rewrite E. }
  destruct Han as [an Han].
  destruct (UP.upgrade_reported Hadmit Hequal o payload image proxy s s' nodes o an
              Hupgrade Hversions Hnodes Hstored (conj Hkind Hkind) Han) as (e & Hv & Ht & Hr).
  destruct Hread as [He Hms]. rewrite Hv in He. injection He as <-.
  eapply CP.inplace_recorded_when_done in Hrollout as (_ & Hrec & Heq); [|exact Hchanged].
  split; [|exact Hrec]. apply Forall_forall.
  change (U.annotation o U.nodePoolAnnotationTargetConfigVersion) with target in Hr.
  destruct (decide (Forall (UP.finished target) nodes)) as [Hf|_] in Hr; [exact Hf|exfalso].
  destruct Hr as [Hc _]. rewrite Hms in Heq. unfold U.annotation in Hc, Ht.
  apply Hversions. unfold target, U.annotation. rewrite <- Hc, <- Ht. symmetry. exact Heq.
Qed.

End EndToEnd.

(** *** A pool that has been upgraded *)

Import UpsertProofs.SampleCluster UP.SamplePool NodePoolProofs.SampleNodePool CP.SampleRollout.

Definition sample_upgrade : go api_error () * U.rstate cluster cluster :=
  U.reconcileInPlaceUpgrade UP.SamplePool.ms "payload" "mco" None upgraded_pool.
Definition upgraded_machineset : Object :=
  Eval vm_compute in default UP.SamplePool.ms (U.r_mgmt sample_upgrade.2 !! ref_of UP.SamplePool.ms).

Lemma sample_upgrade_run : ∃ s', sample_upgrade = (Ret (), s') ∧
  view (U.r_mgmt s') !! ref_of UP.SamplePool.ms = Some upgraded_machineset.
Proof.
  exists sample_upgrade.2. split; [|vm_compute; reflexivity].
  assert (Hret : sample_upgrade.1 = Ret ()) by (vm_compute; reflexivity).
  rewrite (surjective_pairing sample_upgrade) at 1. by rewrite Hret.
Qed.

Definition in_place_target : C.CAPI :=
  C.mkCAPI (N.mkTarget "user-data-workers-2" "token-workers-2" "4.20.3" "hash" "v2") "prod-x7k".
Definition pool_machineset : C.MachineSet := CP.SampleRollout.ms "user-data-workers-2" (oAnnotations upgraded_machineset).

Definition sample_rollout : go api_error (N.NodePool * C.MachineSet) :=
  C.reconcileMachineSet no_taints 9 in_place_target tmpl (np in_place_management) pool_machineset.
Definition sample_result : N.NodePool * C.MachineSet :=
  Eval vm_compute in match sample_rollout with Ret p => p | _ => (np in_place_management, pool_machineset) end.

Lemma rollout_after_upgrade : sample_rollout = Ret sample_result.
Proof. vm_compute. reflexivity. Qed.

(** The pass that announced the target: the MachineSet was at the user data of
another version. *)
Definition old_machineset : C.MachineSet := CP.SampleRollout.ms "user-data-workers-1" (oAnnotations UP.SamplePool.ms).
Definition announcing_pass : go api_error (N.NodePool * C.MachineSet) :=
  C.reconcileMachineSet no_taints 3 in_place_target tmpl (np in_place_management) old_machineset.
Definition announced_machineset : C.MachineSet :=
  CP.SampleRollout.ms "user-data-workers-2" (oAnnotations UP.SamplePool.ms).

Lemma sample_announced : announced no_taints in_place_target announced_machineset.
Proof.
  destruct announcing_pass as [[np' ms']| |] eqn:E; [|vm_compute in E; discriminate E..].
  apply (announced_elsewhere no_taints in_place_target ms').
  - refine (announced_propagated no_taints in_place_target 3 tmpl (np in_place_management) old_machineset np' ms' E _). vm_compute. reflexivity.
  - assert (Hd : mget (default ∅ (C.msAnnotations ms')) U.nodePoolAnnotationTargetConfigVersion
      = match announcing_pass with Ret (_, m) => mget (default ∅ (C.msAnnotations m)) U.nodePoolAnnotationTargetConfigVersion
        | _ => "" end) by (by rewrite E).
    rewrite Hd. vm_compute. reflexivity.
Qed.

Lemma inplace_rollout_truth_witness :
  sample_rollout = Ret sample_result ∧
  (∀ node, node ∈ [new "a"; new "b"; new "c"] → UP.finished "v2" node) ∧ CP.recorded in_place_target tmpl sample_result.1.
Proof.
  destruct sample_upgrade_run as (s' & Hrun & Hread). split; [exact rollout_after_upgrade|].
  apply (inplace_rollout_truth no_taints 9 (M := cluster) (G := cluster) admit_keeps exact_annotations
           UP.SamplePool.ms "payload" "mco" None upgraded_pool s' [new "a"; new "b"; new "c"]
           upgraded_machineset in_place_target tmpl (np in_place_management) announced_machineset pool_machineset
           sample_result.1 sample_result.2 sample_announced eq_refl Hrun).
  - vm_compute. discriminate.
  - vm_compute. reflexivity.
  - vm_compute. reflexivity.
  - reflexivity.
  - split; [exact Hread|reflexivity].
  - exact rollout_after_upgrade.
  - left. discriminate.
Defined.


End InPlaceRollout.
