(* ===== verification/Base64.v ===== *)
(** [encoding/base64], standard encoding with padding, on byte strings: bearer
tokens and compressed configurations travel in it. *)
From S2P Require Import Prelude.
From Stdlib Require Import Ascii.

Module Base64.

(** The alphabet: [A-Z], [a-z], [0-9], [+], [/]. *)
Definition encode_char (i : Z) : ascii :=
  ascii_of_N (Z.to_N
    (if (i <? 26)%Z then i + 65
     else if (i <? 52)%Z then i + 71
     else if (i <? 62)%Z then i - 4
     else if (i =? 62)%Z then 43 else 47))%Z.

Definition decode_char (c : ascii) : option Z :=
  let n := Z.of_N (N_of_ascii c) in
  if ((65 <=? n) && (n <=? 90))%Z then Some (n - 65)%Z
  else if ((97 <=? n) && (n <=? 122))%Z then Some (n - 71)%Z
  else if ((48 <=? n) && (n <=? 57))%Z then Some (n + 4)%Z
  else if (n =? 43)%Z then Some 62%Z
  else if (n =? 47)%Z then Some 63%Z
  else None.

Definition byte_of (c : ascii) : Z := Z.of_N (N_of_ascii c).
Definition of_byte (b : Z) : ascii := ascii_of_N (Z.to_N b).
Definition padding : ascii := "="%char.

(** [func (enc *Encoding) EncodeToString(src []byte) string]: three bytes become
four characters. *)
Fixpoint EncodeToString (s : string) : string :=
  match s with
  | EmptyString => ""
  | String a EmptyString =>
      String (encode_char (byte_of a / 4)) (String (encode_char (byte_of a mod 4 * 16))
        (String padding (String padding "")))
  | String a (String b EmptyString) =>
      String (encode_char (byte_of a / 4))
        (String (encode_char (byte_of a mod 4 * 16 + byte_of b / 16))
          (String (encode_char (byte_of b mod 16 * 4)) (String padding "")))
  | String a (String b (String c s)) =>
      String (encode_char (byte_of a / 4))
        (String (encode_char (byte_of a mod 4 * 16 + byte_of b / 16))
          (String (encode_char (byte_of b mod 16 * 4 + byte_of c / 64))
            (String (encode_char (byte_of c mod 64)) (EncodeToString s))))
  end.

(** Newlines are ignored wherever they are. *)
Definition is_newline (c : ascii) : bool := (byte_of c =? 10)%Z || (byte_of c =? 13)%Z.
Fixpoint strip_newlines (s : string) : string :=
  match s with
  | EmptyString => ""
  | String c s => if is_newline c then strip_newlines s else String c (strip_newlines s)
  end.

(** Quanta of four characters; padding ends the input. The unused bits of the
last character are not checked. *)
Fixpoint decode_quanta (s : string) : option string :=
  match s with
  | EmptyString => Some ""
  | String a (String b (String c (String d s))) =>
      match decode_char a, decode_char b, decode_char c, decode_char d with
      | Some a, Some b, Some c, Some d =>
          rest ← decode_quanta s;
          Some (String (of_byte (a * 4 + b / 16)) (String (of_byte (b mod 16 * 16 + c / 4))
                 (String (of_byte (c mod 4 * 64 + d)) rest)))
      | Some a, Some b, Some c, None =>
          if bool_decide (d = padding ∧ s = EmptyString)
          then Some (String (of_byte (a * 4 + b / 16)) (String (of_byte (b mod 16 * 16 + c / 4)) ""))
          else None
      | Some a, Some b, None, _ =>
          if bool_decide (c = padding ∧ d = padding ∧ s = EmptyString)
          then Some (String (of_byte (a * 4 + b / 16)) "")
          else None
      | _, _, _, _ => None
      end
  | _ => None
  end.

(** [func (enc *Encoding) DecodeString(s string) ([]byte, error)] *)
Definition DecodeString (s : string) : option string := decode_quanta (strip_newlines s).

(** *** Decoding inverts encoding *)

Lemma byte_range c : (0 ≤ byte_of c < 256)%Z.
Proof. unfold byte_of. pose proof (N_ascii_bounded c). lia. Qed.

Lemma of_byte_of c : of_byte (byte_of c) = c.
Proof. unfold of_byte, byte_of. by rewrite N2Z.id, ascii_N_embedding. Qed.

Lemma encode_char_code i : (0 ≤ i < 64)%Z →
  byte_of (encode_char i) =
    (if (i <? 26)%Z then i + 65 else if (i <? 52)%Z then i + 71 else if (i <? 62)%Z then i - 4
     else if (i =? 62)%Z then 43 else 47)%Z.
Proof.
  intros Hi. unfold byte_of, encode_char. rewrite N_ascii_embedding.
  - rewrite Z2N.id; [done|]. repeat case_match; lia.
  - repeat case_match; lia.
Qed.

Lemma decode_encode_char i : (0 ≤ i < 64)%Z → decode_char (encode_char i) = Some i.
Proof.
  intros Hi. unfold decode_char. fold (byte_of (encode_char i)). rewrite (encode_char_code i Hi).
  repeat case_match; try (f_equal; lia); lia.
Qed.

Lemma encode_char_not_newline i : (0 ≤ i < 64)%Z → is_newline (encode_char i) = false.
Proof. intros Hi. unfold is_newline. rewrite (encode_char_code i Hi). repeat case_match; lia. Qed.

Lemma of_byte_eq c z : z = byte_of c → of_byte z = c.
Proof. intros ->. apply of_byte_of. Qed.

(** The encoding holds no newlines. *)
Lemma strip_encoded : ∀ s, strip_newlines (EncodeToString s) = EncodeToString s.
Proof.
  fix IH 1. intros [|a [|b [|c s]]]; [done| | |]; simpl;
    pose proof (byte_range a); try pose proof (byte_range b); try pose proof (byte_range c);
    rewrite ?encode_char_not_newline by (Z.to_euclidean_division_equations; lia); try done.
  by rewrite IH.
Qed.

Lemma decode_quanta_encode : ∀ s, decode_quanta (EncodeToString s) = Some s.
Proof.
  fix IH 1. intros [|a [|b [|c s]]]; [done| | |]; simpl;
    pose proof (byte_range a); try pose proof (byte_range b); try pose proof (byte_range c);
    rewrite ?decode_encode_char by (Z.to_euclidean_division_equations; lia); try rewrite IH; simpl;
    repeat f_equal; apply of_byte_eq; Z.to_euclidean_division_equations; lia.
Qed.

Lemma DecodeString_encoded s : DecodeString (EncodeToString s) = Some s.
Proof. unfold DecodeString. by rewrite strip_encoded, decode_quanta_encode. Qed.

End Base64.
