(* ===== verification/IgnitionServer.v ===== *)
(** The ignition server: [ignition-server/controllers/cache.go],
[tokensecret_controller.go] and the HTTP handler of [ignition-server/cmd/start.go].
A token secret carries a bearer token and the configuration of a NodePool; the
controller has the payload generated, keeps it in an expiring cache under the
token, rotates the token, and the handler serves the payload to machines that
present it. *)
From S2P Require Import Prelude Semver Api Upsert Capi Base64.
From Stdlib Require Import Ascii.

(** [compress/gzip] at its best compression; compressed data has a header. *)
Class Gzip : Type := {
  gzip : string → string;
  gunzip : string → option string;
  gunzip_gzip s : gunzip (gzip s) = Some s;
  gzip_header s : gzip s ≠ "";
}.

Module Secrets.
Import Upsert.

(** [secret.Data], nil or a map, and reads of it. *)
Definition Data (o : Object) : option StringMap :=
  match oBody o with Secret _ d _ => d | _ => None end.
Definition data (o : Object) : StringMap := default ∅ (Data o).
Definition annotations (o : Object) : StringMap := default ∅ (oAnnotations o).
Definition set_Data (d : StringMap) (o : Object) : Object :=
  match oBody o with Secret i _ c => set_body (Secret i (Some d) c) o | _ => o end.
Definition set_meta (labels an : option StringMap) (o : Object) : Object :=
  mkObject (oNamespace o) (oName o) (oUID o) labels an (oFinalizers o) (oResourceVersion o)
    (oDeletionTimestamp o) (oBody o) (oStatus o).
Definition set_annotations (an : StringMap) (o : Object) : Object := set_meta (oLabels o) (Some an) o.
(** [secret.Data[k] = v]: writing to a nil map panics. *)
Definition put (k v : string) (o : Object) : go api_error Object :=
  match Data o with None => Panic | Some d => Ret (set_Data (<[k := v]> d) o) end.

Definition is_secret (o : Object) : bool := match oBody o with Secret _ _ _ => true | _ => false end.
Definition secret_ref (namespace name : string) : ObjectRef := ("*v1.Secret", (namespace, name)).
(** [&corev1.Secret{ObjectMeta: metav1.ObjectMeta{Namespace: namespace, Name: name}}] *)
Definition new_secret (namespace name : string) : Object :=
  mkObject namespace name "" None None [] "" None (Secret None None (JMap [])) [].

Section Gzip.
Context `{!Gzip}.

(** [func CompressAndEncode(payload []byte) ( *bytes.Buffer, error)] of
[support/util/util.go]; writing to a buffer does not fail. *)
Definition CompressAndEncode (payload : string) : string :=
  if str_eqb payload "" then "" else Base64.EncodeToString (gzip payload).

(** [func Compress(payload []byte) ( *bytes.Buffer, error)] *)
Definition Compress (payload : string) : string := if str_eqb payload "" then "" else gzip payload.

(** [func DecodeAndDecompress(payload []byte) ( *bytes.Buffer, error)] *)
Definition DecodeAndDecompress (payload : string) : go api_error string :=
  if str_eqb payload "" then Ret "" else
  match Base64.DecodeString payload ≫= gunzip with
  | Some s => Ret s
  | None => Throw (OtherError "could not decompress payload")
  end.

End Gzip.

End Secrets.

Module IgnitionServer.
Import Upsert Capi Secrets.
#[local] Open Scope go_scope.

Definition TokenSecretReleaseKey : string := "release".
Definition TokenSecretConfigKey : string := "config".
Definition TokenSecretTokenKey : string := "token".
Definition TokenSecretOldTokenKey : string := "old_token".
Definition TokenSecretPayloadKey : string := "payload".
Definition TokenSecretMessageKey : string := "message".
Definition TokenSecretPullSecretHashKey : string := "pull-secret-hash".
Definition TokenSecretHCConfigurationHashKey : string := "hc-configuration-hash".
Definition TokenSecretAdditionalTrustBundleHashKey : string := "additional-trust-bundle-hash".
Definition InvalidConfigReason : string := "InvalidConfig".
Definition TokenSecretReasonKey : string := "reason".
Definition TokenSecretAnnotation : string := "hypershift.openshift.io/ignition-config".
Definition TokenSecretNodePoolUpgradeType : string := "hypershift.openshift.io/node-pool-upgrade-type".
Definition TokenSecretTokenGenerationTime : string := "hypershift.openshift.io/last-token-generation-time".
Definition IgnitionServerTokenExpirationTimestampAnnotation : string :=
  "hypershift.openshift.io/ignition-token-expiration-timestamp".
Definition TokenSecretIgnitionReachedAnnotation : string := "hypershift.openshift.io/ignition-reached".
Definition ttl : Duration := (11 * hour)%Z.

(** *** The cache *)

(** [type CacheValue struct], [type entry struct] *)
Record CacheValue : Type := mkValue { Payload : string; SecretName : string }.
Record entry : Type := mkEntry { value : CacheValue; expiry : Time }.

(** [type ExpiringCache struct], with the gauge [PayloadCacheSizeTotal]. *)
Record ExpiringCache : Type := mkCache { cache : gmap string entry; cacheTTL : Duration; gauge : Z }.

(** [func NewPayloadStore() *ExpiringCache] *)
Definition NewPayloadStore : ExpiringCache := mkCache ∅ ttl 0.

(** [func (c *ExpiringCache) Set(key string, value CacheValue)] at a time *)
Definition cache_set (key : string) (v : CacheValue) (t : Time) (c : ExpiringCache) : ExpiringCache :=
  mkCache (<[key := mkEntry v (time_add t (cacheTTL c))]> (cache c)) (cacheTTL c) (gauge c + 1).
(** [func (c *ExpiringCache) Delete(key string)] *)
Definition cache_delete (key : string) (c : ExpiringCache) : ExpiringCache :=
  mkCache (delete key (cache c)) (cacheTTL c) (gauge c - 1).

(** The process: the API server, the cache, and how often the clock and the
generator of UUIDs were read. *)
Record server (S : Type) : Type := mkServer {
  srv_cluster : S; srv_cache : ExpiringCache; srv_clock : nat; srv_uuids : nat }.
Arguments mkServer {S} _ _ _ _.
Arguments srv_cluster {S} _.
Arguments srv_cache {S} _.
Arguments srv_clock {S} _.
Arguments srv_uuids {S} _.

(** [ignPathPattern]: [^/ignition[^/ ]*$] *)
Fixpoint no_slash_or_space (s : string) : bool :=
  match s with
  | EmptyString => true
  | String c s => negb (bool_decide (c = "/"%char ∨ c = " "%char)) && no_slash_or_space s
  end.
Definition ignPathPattern (path : string) : bool :=
  has_prefix path "/ignition" && no_slash_or_space (trim_prefix path "/ignition").

(** [func ParseNamespacedName(name string) types.NamespacedName] of
[support/util/util.go]: the first slash separates. *)
Fixpoint split_slash (acc s : string) : option (string * string) :=
  match s with
  | EmptyString => None
  | String c s => if bool_decide (c = "/"%char) then Some (acc, s) else split_slash (acc +:+ String c "") s
  end.
Definition ParseNamespacedName (name : string) : string * string :=
  match split_slash "" name with Some p => p | None => ("", name) end.

(** [func TokenSecret(namespace, name, payloadInputHash string) *corev1.Secret] of
[hypershift-operator/controllers/nodepool/manifests.go] *)
Definition TokenSecretName (name payloadInputHash : string) : string :=
  "token-" +:+ name +:+ "-" +:+ payloadInputHash.

(** What a machine sends and gets. *)
Record request : Type := mkRequest {
  reqPath : string; reqAuthorization : string; reqNodePool : string; reqTargetConfigVersionHash : string }.
Record response : Type := mkResponse { statusCode : Z; respBody : string }.

Section Server.
Context {S : Type} `{!Client S ObjectRef Object} `{!Patcher S ObjectRef Object}.
Context `{!Gzip} `{!MapOrder}.
(** The readings of the clock, the UUIDs, the text of errors, times in RFC 3339
with and without fractions. *)
Context (now : nat → Time) (uuid : nat → string) (Error : api_error → string).
Context (parse_rfc3339 parse_nano : string → option Time) (format_nano : Time → string).
(** [IgnitionProvider.GetPayload], which reads the cluster, and
[SanitizeIgnitionPayload], whether the payload unmarshals. *)
Context (GetPayload : S → string → string → string → string → string → go api_error string).
Context (SanitizeIgnitionPayload : string → bool).
(** The namespace of the server, [MY_NAMESPACE]. *)
Context (namespace : string).

#[local] Abbreviation M := (st (server S) api_error).

(** [time.Now()] and [uuid.New().String()] *)
Definition tick : M Time := λ s,
  (Ret (now (srv_clock s)), mkServer (srv_cluster s) (srv_cache s) (Datatypes.S (srv_clock s)) (srv_uuids s)).
Definition new_uuid : M string := λ s,
  (Ret (uuid (srv_uuids s)), mkServer (srv_cluster s) (srv_cache s) (srv_clock s) (Datatypes.S (srv_uuids s))).
Definition on_cache (f : ExpiringCache → ExpiringCache) : M unit := λ s,
  (Ret (), mkServer (srv_cluster s) (f (srv_cache s)) (srv_clock s) (srv_uuids s)).
Definition on_cluster {A} (f : S → go api_error A * S) : M A := λ s,
  let '(r, cl) := f (srv_cluster s) in (r, mkServer cl (srv_cache s) (srv_clock s) (srv_uuids s)).

Definition Delete (key : string) : M unit := on_cache (cache_delete key).
Definition Set_ (key : string) (v : CacheValue) : M unit := t ← tick; on_cache (cache_set key v t).

(** [func (c *ExpiringCache) garbageCollect()] *)
Definition garbageCollect : M unit := λ s,
  st_for (range (cache (srv_cache s))) (λ ke,
    t ← tick;
    if time_after t (expiry ke.2) then Delete ke.1 else mret ()) s.

(** [func (c *ExpiringCache) Get(key string) (value CacheValue, ok bool)] *)
Definition Get (key : string) : M (option CacheValue) :=
  _ ← garbageCollect;
  s ← st_get;
  mret (value <$> cache (srv_cache s) !! key).

(** [func (c *ExpiringCache) Keys() []string] *)
Definition Keys : M (list string) := s ← st_get; mret ((range (cache (srv_cache s))).*1).

(** *** The controller *)

(** [func processIfMatchesAnnotation(logger, obj client.Object) bool] *)
Definition processIfMatchesAnnotation (o : Object) : bool := mhas (annotations o) TokenSecretAnnotation.

(** [func isTokenExpired(logrInstance, tokenAnnotations map[string]string) bool] *)
Definition isTokenExpired (an : StringMap) : M bool :=
  match an !! IgnitionServerTokenExpirationTimestampAnnotation with
  | None => mret false
  | Some raw =>
      match parse_rfc3339 raw with
      | None => mret true
      | Some expirationTime => t ← tick; mret (time_after t expirationTime)
      end
  end.

(** [func (r *TokenSecretReconciler) processExpiredToken(ctx, tokenSecret) error] *)
Definition processExpiredToken (ts : Object) : M unit :=
  _ ← (match data ts !! TokenSecretOldTokenKey with Some old => Delete old | None => mret () end);
  _ ← (match data ts !! TokenSecretTokenKey with Some t => Delete t | None => mret () end);
  st_catch (on_cluster (c_delete (ref_of ts))) (λ err, if IsNotFound err then mret () else st_throw err).

(** [func hasSameReasonAndMessage(tokenSecret, reason string, message error) bool] *)
Definition hasSameReasonAndMessage (ts : Object) (reason message : string) : bool :=
  (mget (data ts) TokenSecretReasonKey == reason) && (mget (data ts) TokenSecretMessageKey == message).

(** [func getTokenTimeLived(tokenSecret, now time.Time) ( *time.Duration, error)] *)
Definition getTokenTimeLived (ts : Object) (t : Time) : go api_error (option Duration) :=
  match annotations ts !! TokenSecretTokenGenerationTime with
  | None => Ret None
  | Some raw => match parse_nano raw with
                | None => Throw (OtherError ("parsing time " +:+ raw))
                | Some generated => Ret (Some (time_sub t generated))
                end
  end.

(** [func tokenNeedRotation(timeLived *time.Duration) bool] *)
Definition tokenNeedRotation (timeLived : option Duration) : bool :=
  match timeLived with None => true | Some d => (ttl / 2 <=? d)%Z end.

(** [ttl/2 - durationDeref(timeLived)] *)
Definition requeueAfter (timeLived : option Duration) : Duration :=
  to_int64 (ttl / 2 - default 0%Z timeLived).

(** [r.Client.Patch(ctx, patch, client.MergeFrom(tokenSecret))] *)
Definition Patch (patch ts : Object) : M unit := _ ← on_cluster (c_patch (ref_of ts) ts patch); mret ().

(** [func (r *TokenSecretReconciler) rotateToken(ctx, tokenSecret, value, rotationTime) error] *)
Definition rotateToken (ts : Object) (v : CacheValue) (rotationTime : Time) : M unit :=
  newToken ← new_uuid;
  let oldToken := data ts !! TokenSecretOldTokenKey in
  _ ← (match oldToken with Some old => Delete old | None => mret () end);
  let patch := set_annotations (<[TokenSecretTokenGenerationTime := format_nano rotationTime]> (annotations ts)) ts in
  patch ← st_lift (put TokenSecretOldTokenKey (mget (data ts) TokenSecretTokenKey) patch);
  patch ← st_lift (put TokenSecretTokenKey newToken patch);
  _ ← Set_ newToken v;
  st_catch (Patch patch ts) (λ err,
    _ ← Delete newToken;
    _ ← Set_ (default "" oldToken) v;
    st_throw err).

Definition patchSecret (patch ts : Object) : M unit :=
  st_catch (Patch patch ts) (λ err, st_throw (Wrapped "failed to patch tokenSecret with payload content" err)).

(** The failure of a generation is recorded in the secret, once. *)
Definition recordFailure (ts : Object) (message : string) (err : api_error) : M Duration :=
  if hasSameReasonAndMessage ts InvalidConfigReason message then st_throw (Wrapped message err) else
  patch ← st_lift (put TokenSecretReasonKey InvalidConfigReason ts);
  patch ← st_lift (put TokenSecretMessageKey message patch);
  _ ← patchSecret patch ts;
  st_throw err.

(** The patch after a payload was generated. *)
Definition generatedPatch (ts : Object) (payload : string) : go api_error Object :=
  let upgradeType := mget (annotations ts) TokenSecretNodePoolUpgradeType in
  patch ← (if upgradeType == "InPlace" then put TokenSecretPayloadKey (CompressAndEncode payload) ts
           else if upgradeType == "Replace"
           then Ret (match Data ts with
                     | Some d => set_Data (delete TokenSecretPayloadKey d) ts
                     | None => ts
                     end)
           else Ret ts);
  patch ← put TokenSecretReasonKey AsExpectedReason patch;
  put TokenSecretMessageKey "Payload generated successfully" patch.

(** The part of [Reconcile] after a cache miss: generate the payload and keep it
under the token and the old token. *)
Definition generate (ts : Object) (token : string) (timeLived : option Duration) : M Duration :=
  match DecodeAndDecompress (mget (data ts) TokenSecretConfigKey) with
  | Panic => st_panic
  | Throw err => recordFailure ts ("failed to decode and decompress config: " +:+ Error err) err
  | Ret config =>
      s ← st_get;
      match GetPayload (srv_cluster s) (mget (data ts) TokenSecretReleaseKey) config
              (mget (data ts) TokenSecretPullSecretHashKey)
              (mget (data ts) TokenSecretAdditionalTrustBundleHashKey)
              (mget (data ts) TokenSecretHCConfigurationHashKey) with
      | Panic => st_panic
      | Throw err =>
          let err := OtherError ("error getting ignition payload: " +:+ Error err) in
          recordFailure ts ("failed to generate payload: " +:+ Error err) err
      | Ret payload =>
          let v := mkValue payload (oName ts) in
          _ ← Set_ token v;
          _ ← (match data ts !! TokenSecretOldTokenKey with Some old => Set_ old v | None => mret () end);
          patch ← st_lift (generatedPatch ts payload);
          _ ← patchSecret patch ts;
          mret (requeueAfter timeLived)
      end
  end.

(** The tokens of a secret that is gone are purged from the cache. *)
Definition purge (name : string) : M unit :=
  keys ← Keys;
  st_for keys (λ k,
    v ← Get k;
    match v with
    | Some v => if SecretName v == name then Delete k else mret ()
    | None => mret ()
    end).

(** [func (r *TokenSecretReconciler) Reconcile(ctx, req ctrl.Request) (ctrl.Result, error)]:
after how long to come back, zero for not at all. *)
Definition Reconcile (ns name : string) : M Duration := λ s,
  match c_get (secret_ref ns name) (srv_cluster s) with
  | Panic => (Panic, s)
  | Throw err => if IsNotFound err then (_ ← purge name; mret 0%Z) s else (Throw err, s)
  | Ret ts =>
      if bool_decide (is_Some (oDeletionTimestamp ts)) then (_ ← purge name; mret 0%Z) s else
      (expired ← isTokenExpired (annotations ts);
       if (expired : bool) then _ ← processExpiredToken ts; mret 0%Z else
       t ← tick;
       timeLived ← st_lift (getTokenTimeLived ts t);
       let token := mget (data ts) TokenSecretTokenKey in
       cached ← Get token;
       match cached with
       | Some v =>
           _ ← (if tokenNeedRotation timeLived then rotateToken ts v t else mret ());
           mret (requeueAfter timeLived)
       | None =>
           old ← (match data ts !! TokenSecretOldTokenKey with Some old => Get old | None => mret None end);
           match old with
           | Some v => _ ← Set_ token v; mret (requeueAfter timeLived)
           | None => generate ts token timeLived
           end
       end) s
  end.

(** *** The handler *)

(** The server tells the NodePool controller that a machine has come. *)
Definition noteReached (name : string) : M unit := λ s,
  match c_get (secret_ref namespace name) (srv_cluster s) with
  | Panic => (Panic, s)
  | Throw _ => (Ret (), s)
  | Ret ts =>
      match oAnnotations ts with
      | None => (Panic, s)
      | Some an =>
          match on_cluster (c_update (ref_of ts)
                  (set_annotations (<[TokenSecretIgnitionReachedAnnotation := "True"]> an) ts)) s with
          | (Panic, s') => (Panic, s')
          | (_, s') => (Ret (), s')
          end
      end
  end.

(** [auth[n:]] after the prefix [Bearer ] *)
Definition bearer (auth : string) : option string :=
  if has_prefix auth "Bearer " then Base64.DecodeString (trim_prefix auth "Bearer ") else None.

(** The handler of [/] in [run]. *)
Definition serve (req : request) : M response :=
  let name := TokenSecretName (ParseNamespacedName (reqNodePool req)).2 (reqTargetConfigVersionHash req) in
  if negb (ignPathPattern (reqPath req)) then mret (mkResponse 404 "404 page not found") else
  match bearer (reqAuthorization req) with
  | None => mret (mkResponse 401 "Unauthorized")
  | Some token =>
      v ← Get token;
      match v with
      | None => mret (mkResponse 511 "Token not found")
      | Some v =>
          if negb (SanitizeIgnitionPayload (Payload v)) then mret (mkResponse 500 "Invalid ignition payload") else
          _ ← noteReached name;
          mret (mkResponse 200 (Payload v))
      end
  end.

End Server.

End IgnitionServer.
