(* ===== verification/IgnitionServerProofs.v ===== *)
(** What the ignition server guarantees: whom it serves which payload, that a
reconciled token can be used, rotation, expiry, and what a failed rotation
leaves behind. *)
From S2P Require Import Prelude Semver Api Upsert UpsertProofs Capi Base64 IgnitionServer.
From Stdlib Require Import Ascii.

Module IgnitionServerProofs.
Import Upsert Capi Secrets IgnitionServer.

(** A merge patch of an object that is still as it was read stores the new one. *)
Class PatcherLaws (S : Type) `{!Client S ObjectRef Object} `{!ClientLaws S ObjectRef Object}
    `{!Patcher S ObjectRef Object} : Prop := {
  patch_stored k (old new : Object) (s : S) o s' :
    view s !! k = Some old → c_patch k old new s = (Ret o, s') →
    o = admit_object (Some old) new ∧ view s' = <[k := o]> (view s);
}.

(** *** Compressed configurations *)

Lemma compressed_roundtrip `{!Gzip} payload : DecodeAndDecompress (CompressAndEncode payload) = Ret payload.
Proof.
  unfold DecodeAndDecompress, CompressAndEncode.
  destruct (str_eqb payload "") eqn:E; [apply str_eqb_eq in E; by subst|].
  rewrite Base64.DecodeString_encoded. simpl. rewrite gunzip_gzip.
  destruct (str_eqb (Base64.EncodeToString (gzip payload)) "") eqn:E2; [|done].
  apply str_eqb_eq in E2. pose proof (Base64.DecodeString_encoded (gzip payload)) as Hd.
  rewrite E2 in Hd. injection Hd as Hz. by destruct (gzip_header payload).
Qed.

(** The gauge does not count the entries: overwriting one is counted, and so is deleting
one that is not there. *)
Lemma gauge_drifts key v t c : cache c !! key = None →
  let c' := cache_delete key (cache_delete key (cache_set key v t (cache_set key v t (cache_set key v t c)))) in
  cache c' = cache c ∧ gauge c' = (gauge c + 1)%Z.
Proof. intros Hk. simpl. rewrite !insert_insert_eq, delete_delete_eq, delete_insert_id by done. split; [done|lia]. Qed.

(** *** Running the server *)

Section Runs.
Context {S : Type}.
Abbreviation M := (st (server S) api_error).

(** [m] keeps [P], and what it returns satisfies [Q]. *)
Definition triple {A} (P : server S → Prop) (m : M A) (Q : A → Prop) : Prop :=
  ∀ s, P s → P (m s).2 ∧ ∀ a, (m s).1 = Ret a → Q a.

Lemma triple_ret {A} P (a : A) (Q : A → Prop) : Q a → triple P (mret a) Q.
Proof. intros Hq s Hs. split; [done|]. intros ? [= <-]. done. Qed.

Lemma triple_bind {A B} P (m : M A) (k : A → M B) Q R :
  triple P m R → (∀ a, R a → triple P (k a) Q) → triple P (m ≫= k) Q.
Proof.
  intros Hm Hk s Hs. destruct (Hm s Hs) as [Hp Hr]. unfold mbind, st_bind.
  destruct (m s) as [[a| |] s']; simpl in *; [|done..]. apply Hk; auto.
Qed.

Lemma triple_throw {A} P e (Q : A → Prop) : triple P (st_throw e) Q.
Proof. intros s Hs. by split. Qed.
Lemma triple_panic {A} P (Q : A → Prop) : triple P st_panic Q.
Proof. intros s Hs. by split. Qed.
Lemma triple_lift {A} P (m : go api_error A) (Q : A → Prop) : (∀ a, m = Ret a → Q a) → triple P (st_lift m) Q.
Proof. intros Hq s Hs. by split. Qed.
Lemma triple_catch {A} P (m : M A) h Q :
  triple P m Q → (∀ e, triple P (h e) Q) → triple P (st_catch m h) Q.
Proof.
  intros Hm Hh s Hs. destruct (Hm s Hs) as [Hp Hr]. unfold st_catch.
  destruct (m s) as [[a|e|] s']; simpl in *; [by split| |by split]. by apply Hh.
Qed.
Lemma triple_for {A} P (l : list A) (body : A → M unit) :
  (∀ x, x ∈ l → triple P (body x) (λ _, True)) → triple P (st_for l body) (λ _, True).
Proof.
  induction l as [|x l IH]; intros Hb; simpl; [by apply triple_ret|].
  eapply triple_bind; [apply Hb; left|]. intros _ _. apply IH. intros y Hy. apply Hb. by right.
Qed.
Lemma triple_weaken {A} P (m : M A) (Q R : A → Prop) : triple P m Q → (∀ a, Q a → R a) → triple P m R.
Proof. intros Hm Hqr s Hs. destruct (Hm s Hs). split; auto. Qed.

End Runs.

(** *** Requests *)

Lemma bearer_Some auth t : bearer auth = Some t ↔ ∃ b, auth = "Bearer " +:+ b ∧ Base64.DecodeString b = Some t.
Proof.
  unfold bearer. destruct (has_prefix auth "Bearer ") eqn:E.
  - apply has_prefix_app in E as [b ->]. rewrite trim_prefix_app. split; [by exists b|].
    intros (b' & Hb & Hd). assert (b = b') as ->; [|done].
    by rewrite <- (trim_prefix_app "Bearer " b), Hb, trim_prefix_app.
  - split; [done|]. intros (b & -> & _). assert (Hp : has_prefix ("Bearer " +:+ b) "Bearer " = true).
    { apply has_prefix_app. by exists b. } congruence.
Qed.

(** *** What the cache holds *)

Section Invariant.
Context {S : Type} `{!Client S ObjectRef Object} `{!Patcher S ObjectRef Object}.
Context `{!Gzip} `{!MapOrder}.
Context (now : nat → Time) (uuid : nat → string) (Error : api_error → string).
Context (parse_rfc3339 parse_nano : string → option Time) (format_nano : Time → string).
Context (GetPayload : S → string → string → string → string → string → go api_error string).

(** A relation between every key and value of the cache, together with a property
of the cluster and of the number of UUIDs. *)
Context (R : string → CacheValue → Prop).
Implicit Types (C : S → nat → Prop).
Definition cache_ok C (s : server S) : Prop :=
  (∀ k e, cache (srv_cache s) !! k = Some e → R k (value e)) ∧ C (srv_cluster s) (srv_uuids s).
Abbreviation any := (λ _ _, True).

Lemma cache_ok_any C s : cache_ok C s → cache_ok any s.
Proof. by intros [? _]. Qed.

Lemma tick_ok C : triple (cache_ok C) (tick now) (λ _, True).
Proof. by intros s Hs. Qed.
Lemma cluster_ok {A} (f : S → go api_error A * S) : triple (cache_ok any) (on_cluster f) (λ _, True).
Proof. intros s Hs. unfold on_cluster. by destruct (f (srv_cluster s)) as [r cl]. Qed.

Lemma Delete_ok C key : triple (cache_ok C) (Delete key) (λ _, True).
Proof.
  intros s [Hs HC]. split; [|done]. split; [|done].
  intros k e. simpl. intros [_ He]%lookup_delete_Some. by apply Hs.
Qed.

Lemma Set_ok C key v : R key v → triple (cache_ok C) (Set_ now key v) (λ _, True).
Proof.
  intros Hv. eapply triple_bind; [apply tick_ok|]. intros t _ s [Hs HC]. split; [|done]. split; [|done].
  intros k e. simpl. intros [[<- <-]|[_ He]]%lookup_insert_Some; [done|by apply Hs].
Qed.

Lemma gc_ok C : triple (cache_ok C) (garbageCollect now) (λ _, True).
Proof.
  intros s Hs. apply (triple_for (cache_ok C)); [|done]. intros [k e] _.
  eapply triple_bind; [apply tick_ok|]. intros t _.
  destruct (time_after t _); [apply Delete_ok|by apply triple_ret].
Qed.

Lemma Get_ok C key : triple (cache_ok C) (Get now key) (λ v, ∀ w, v = Some w → R key w).
Proof.
  eapply triple_bind; [apply gc_ok|]. intros _ _ s Hs. split; [done|].
  intros a [= <-] w Hw. apply fmap_Some in Hw as (e & He & ->). by apply Hs.
Qed.

Lemma Patch_ok patch ts : triple (cache_ok any) (Patch patch ts) (λ _, True).
Proof. eapply triple_bind; [apply cluster_ok|]. intros ? _. by apply triple_ret. Qed.
Lemma patchSecret_ok patch ts : triple (cache_ok any) (patchSecret patch ts) (λ _, True).
Proof. apply triple_catch; [apply Patch_ok|]. intros e. apply triple_throw. Qed.

Lemma optional_ok C (f : string → st (server S) api_error unit) (x : option string) :
  (∀ k, x = Some k → triple (cache_ok C) (f k) (λ _, True)) →
  triple (cache_ok C) (match x with Some k => f k | None => mret () end) (λ _, True).
Proof. destruct x; intros Hf; [by apply Hf|by apply triple_ret]. Qed.

Lemma rotate_ok ts v t u s : R (uuid u) v → R (default "" (data ts !! TokenSecretOldTokenKey)) v →
  cache_ok (λ _ n, n = u) s → cache_ok any (rotateToken now uuid format_nano ts v t s).2.
Proof.
  intros Hnew Hold [Hs Hu]. unfold rotateToken. unfold mbind at 1, st_bind, new_uuid. rewrite Hu.
  match goal with |- cache_ok any (?m ?s1).2 => cut (triple (cache_ok any) m (λ _, True));
    [intros Ht; apply Ht; by split|] end.
  eapply triple_bind; [apply optional_ok; intros; apply Delete_ok|]. intros _ _.
  eapply triple_bind; [by apply (triple_lift _ _ (λ _, True))|]. intros p _.
  eapply triple_bind; [by apply (triple_lift _ _ (λ _, True))|]. intros p' _.
  eapply triple_bind; [by apply Set_ok|]. intros _ _.
  apply triple_catch; [apply Patch_ok|]. intros e.
  eapply triple_bind; [apply Delete_ok|]. intros _ _.
  eapply triple_bind; [by apply Set_ok|]. intros _ _. apply triple_throw.
Qed.

Lemma recordFailure_ok ts message err : triple (cache_ok any) (recordFailure ts message err) (λ _, True).
Proof.
  unfold recordFailure. destruct (hasSameReasonAndMessage _ _ _); [apply triple_throw|].
  eapply triple_bind; [by apply (triple_lift _ _ (λ _, True))|]. intros p _.
  eapply triple_bind; [by apply (triple_lift _ _ (λ _, True))|]. intros p' _.
  eapply triple_bind; [apply patchSecret_ok|]. intros _ _. apply triple_throw.
Qed.

(** The payload the provider generates from the release, configuration and hashes
of the secret [ts] when the cluster is [cl]. *)
Definition produced (cl : S) (ts : Object) (v : CacheValue) : Prop :=
  ∃ config, oName ts = SecretName v ∧
    DecodeAndDecompress (mget (data ts) TokenSecretConfigKey) = Ret config ∧
    GetPayload cl (mget (data ts) TokenSecretReleaseKey) config
      (mget (data ts) TokenSecretPullSecretHashKey) (mget (data ts) TokenSecretAdditionalTrustBundleHashKey)
      (mget (data ts) TokenSecretHCConfigurationHashKey) = Ret (Payload v).

(** The relation is closed under what the controller does with the tokens of [ts]
when the cluster is [cl] and the next UUID is number [u]. *)
Record closed_under (cl : S) (u : nat) (ts : Object) : Prop := {
  cu_rotated v : R (mget (data ts) TokenSecretTokenKey) v → R (uuid u) v;
  cu_restored v : R (mget (data ts) TokenSecretTokenKey) v → R (default "" (data ts !! TokenSecretOldTokenKey)) v;
  cu_taken old v : data ts !! TokenSecretOldTokenKey = Some old → R old v → R (mget (data ts) TokenSecretTokenKey) v;
  cu_token v : produced cl ts v → R (mget (data ts) TokenSecretTokenKey) v;
  cu_old old v : data ts !! TokenSecretOldTokenKey = Some old → produced cl ts v → R old v;
}.

Lemma generate_ok cl u ts timeLived s : closed_under cl u ts → cache_ok (λ c n, c = cl ∧ n = u) s →
  cache_ok any (generate now Error GetPayload ts (mget (data ts) TokenSecretTokenKey) timeLived s).2.
Proof.
  intros Hcl [Hs [Hc _]]. unfold generate. assert (Hany : cache_ok any s) by by split.
  destruct (DecodeAndDecompress _) as [config|err|] eqn:Hd; [|by apply recordFailure_ok|done].
  unfold mbind at 1, st_bind, st_get. rewrite Hc.
  destruct (GetPayload _ _ _ _ _ _) as [payload|err|] eqn:Hp; [|by apply recordFailure_ok|done].
  assert (Hval : produced cl ts (mkValue payload (oName ts))) by by exists config.
  match goal with |- cache_ok any (?m s).2 => cut (triple (cache_ok any) m (λ _, True));
    [intros Ht; by apply Ht|] end.
  eapply triple_bind; [by apply Set_ok, (cu_token _ _ _ Hcl)|]. intros _ _.
  eapply triple_bind; [apply optional_ok; intros old Ho; apply Set_ok; by apply (cu_old _ _ _ Hcl)|]. intros _ _.
  eapply triple_bind; [by apply (triple_lift _ _ (λ _, True))|]. intros p _.
  eapply triple_bind; [apply patchSecret_ok|]. intros _ _. by apply triple_ret.
Qed.

Lemma purge_ok name : triple (cache_ok any) (purge now name) (λ _, True).
Proof.
  eapply triple_bind; [by intros s Hs; split; [|intros; exact I]|]. intros keys _.
  apply triple_for. intros k _. eapply triple_bind; [apply Get_ok|].
  intros [v|] _; [|by apply triple_ret]. destruct (str_eqb _ _); [apply Delete_ok|by apply triple_ret].
Qed.

(** A first command that leaves the cluster and the UUIDs alone. *)
Lemma bind_ok {A B} C (m : st (server S) api_error A) (k : A → st (server S) api_error B) Q s :
  triple (cache_ok C) m Q → cache_ok C s →
  (∀ a s1, Q a → cache_ok C s1 → cache_ok any (k a s1).2) → cache_ok any ((m ≫= k) s).2.
Proof.
  intros Hm Hs Hk. destruct (Hm s Hs) as [Hp Hq]. unfold mbind, st_bind.
  destruct (m s) as [[a| |] s1]; simpl in *; [by apply Hk; [apply Hq|]|by eapply cache_ok_any..].
Qed.

Lemma isTokenExpired_ok C an : triple (cache_ok C) (isTokenExpired now parse_rfc3339 an) (λ _, True).
Proof.
  unfold isTokenExpired. destruct (an !! _) as [raw|]; [|by apply triple_ret].
  destruct (parse_rfc3339 raw) as [e|]; [|by apply triple_ret].
  eapply triple_bind; [apply tick_ok|]. intros ? _. by apply triple_ret.
Qed.

Lemma processExpired_ok ts : triple (cache_ok any) (processExpiredToken ts) (λ _, True).
Proof.
  unfold processExpiredToken.
  eapply triple_bind; [apply optional_ok; intros; apply Delete_ok|]. intros _ _.
  eapply triple_bind; [apply optional_ok; intros; apply Delete_ok|]. intros _ _.
  apply triple_catch; [apply cluster_ok|]. intros e. destruct (IsNotFound e); [by apply triple_ret|apply triple_throw].
Qed.

Lemma then_ret {A B} (m : st (server S) api_error A) (b : B) s :
  cache_ok any (m s).2 → cache_ok any ((m ≫= λ _, mret b) s).2.
Proof. unfold mbind, st_bind. by destruct (m s) as [[] ?]. Qed.

Lemma Reconcile_ok ns name s :
  (∀ ts, c_get (secret_ref ns name) (srv_cluster s) = Ret ts → closed_under (srv_cluster s) (srv_uuids s) ts) →
  cache_ok any s →
  cache_ok any (Reconcile now uuid Error parse_rfc3339 parse_nano format_nano GetPayload ns name s).2.
Proof.
  intros Hgood Hs. unfold Reconcile.
  assert (Hpurge : cache_ok any ((purge now name ≫= λ _, mret 0%Z) s).2) by by apply then_ret, purge_ok.
  destruct (c_get _ _) as [ts|err|] eqn:Hg; [|by destruct (IsNotFound err)|done].
  destruct (bool_decide _); [done|]. specialize (Hgood ts eq_refl).
  set (C := λ c n, c = srv_cluster s ∧ n = srv_uuids s).
  assert (Hs0 : cache_ok C s) by by destruct Hs.
  apply (bind_ok C _ _ _ _ (isTokenExpired_ok C _) Hs0). intros [|] s1 _ Hs1.
  { apply then_ret, processExpired_ok. by eapply cache_ok_any. }
  apply (bind_ok C _ _ _ _ (tick_ok C) Hs1). intros t s2 _ Hs2.
  apply (bind_ok C _ _ (λ _, True) _ ltac:(by apply triple_lift) Hs2). intros timeLived s3 _ Hs3.
  apply (bind_ok C _ _ _ _ (Get_ok C _) Hs3). intros [v|] s4 Hval Hs4.
  { apply then_ret. destruct (tokenNeedRotation _); [|by eapply cache_ok_any].
    apply (rotate_ok _ _ _ (srv_uuids s)); [apply (cu_rotated _ _ _ Hgood); auto|apply (cu_restored _ _ _ Hgood); auto|].
    by destruct Hs4 as [? [? ?]]. }
  apply (bind_ok C _ _ (λ w, ∀ v, w = Some v → R (mget (data ts) TokenSecretTokenKey) v) _).
  - destruct (data ts !! TokenSecretOldTokenKey) as [old|] eqn:Hold; [|by apply triple_ret].
    eapply triple_weaken; [apply Get_ok|]. intros w Hw v Hv. by eapply (cu_taken _ _ _ Hgood), Hw.
  - done.
  - intros [v|] s5 Hv Hs5; [|by eapply generate_ok].
    apply then_ret, Set_ok; [by apply Hv|by eapply cache_ok_any].
Qed.

Context (SanitizeIgnitionPayload : string → bool) (namespace : string).

Lemma noteReached_ok name : triple (cache_ok any) (noteReached namespace name) (λ _, True).
Proof.
  intros s Hs. unfold noteReached, on_cluster. split; [|done].
  destruct (c_get _ _) as [ts| |]; [|done..]. destruct (oAnnotations ts); [|done].
  by destruct (c_update _ _ _) as [[] ?].
Qed.

Lemma serve_ok req s : cache_ok any s →
  cache_ok any (serve now SanitizeIgnitionPayload namespace req s).2 ∧
  ∀ p, (serve now SanitizeIgnitionPayload namespace req s).1 = Ret (mkResponse 200 p) →
    ∃ b t v, reqAuthorization req = "Bearer " +:+ b ∧ Base64.DecodeString b = Some t ∧
      R t v ∧ p = Payload v.
Proof.
  intros Hs. unfold serve. destruct (negb (ignPathPattern (reqPath req))); [by split|].
  destruct (bearer (reqAuthorization req)) as [t|] eqn:Hb; [|by split].
  apply bearer_Some in Hb as (b & Hauth & Hdec).
  destruct (Get_ok any t s Hs) as [Hk Hv]. unfold mbind at 1 3, st_bind at 1 3.
  destruct (Get now t s) as [[[v|]| |] s1]; simpl in *; try by split.
  destruct (negb (SanitizeIgnitionPayload (Payload v))); [by split|].
  pose proof (noteReached_ok (TokenSecretName (ParseNamespacedName (reqNodePool req)).2
                (reqTargetConfigVersionHash req)) s1 Hk) as [Hn _].
  unfold mbind, st_bind. destruct (noteReached _ _ s1) as [[[]| |] s2]; simpl in *; try by split.
  split; [done|]. intros p [= <-]. exists b, t, v. split_and!; [done..|by eapply Hv|done].
Qed.

End Invariant.

(** *** Any run of the server *)

Section Steps.
Context {S : Type} `{!Client S ObjectRef Object} `{!Patcher S ObjectRef Object}.
Context `{!Gzip} `{!MapOrder}.
Context (now : nat → Time) (uuid : nat → string) (Error : api_error → string).
Context (parse_rfc3339 parse_nano : string → option Time) (format_nano : Time → string).
Context (GetPayload : S → string → string → string → string → string → go api_error string).
Context (SanitizeIgnitionPayload : string → bool) (namespace : string).
(** The secret, by namespace and name, each token is issued for: a token is not
shared between secrets. *)
Context (owner : string → option (string * string)).

(** A token secret has a token, and its tokens are its own. *)
Record tokens_owned (id : string * string) (ts : Object) : Prop := {
  to_token : ∃ t, data ts !! TokenSecretTokenKey = Some t ∧ owner t = Some id;
  to_old t : data ts !! TokenSecretOldTokenKey = Some t → owner t = Some id;
}.

(** The controller and the handler take turns, and meanwhile others write to the
cluster and time passes.  The second component lists the secrets that were
reconciled, with the cluster they were read from; the UUID a reconcile may issue
is then issued for the secret it reconciles. *)
Inductive step : server S * list ((string * string) * S) → server S * list ((string * string) * S) → Prop :=
  | step_reconcile ns name s h :
      (∀ ts, c_get (secret_ref ns name) (srv_cluster s) = Ret ts → tokens_owned (ns, name) ts) →
      owner (uuid (srv_uuids s)) = Some (ns, name) →
      step (s, h) ((Reconcile now uuid Error parse_rfc3339 parse_nano format_nano GetPayload ns name s).2,
                   ((ns, name), srv_cluster s) :: h)
  | step_serve req s h : step (s, h) ((serve now SanitizeIgnitionPayload namespace req s).2, h)
  | step_other cl n s h : step (s, h) (mkServer cl (srv_cache s) (srv_clock s + n) (srv_uuids s), h).

(** [v] was generated from the token secret [id] when it was reconciled. *)
Definition from_secret (h : list ((string * string) * S)) (id : string * string) (v : CacheValue) : Prop :=
  ∃ cl ts, (id, cl) ∈ h ∧ c_get (secret_ref id.1 id.2) cl = Ret ts ∧ produced GetPayload cl ts v.

(** A token gives the payload of the secret it was issued for; the empty one that
of some secret. *)
Definition entitled (h : list ((string * string) * S)) (t : string) (v : CacheValue) : Prop :=
  ∃ id, (owner t = Some id ∨ t = "") ∧ from_secret h id v.

Lemma entitled_mono x h t v : entitled h t v → entitled (x :: h) t v.
Proof. intros (id & Ho & cl & ts & Hin & ?). exists id. split; [done|]. exists cl, ts. split; [by right|done]. Qed.

Lemma entitled_owned h id t v : owner "" = None → owner t = Some id → entitled h t v → from_secret h id v.
Proof. intros He Ho (id' & [Ho'| ->] & Hf); [|congruence]. assert (id' = id) as -> by congruence. done. Qed.

Lemma owned_closed id ts h cl u : owner "" = None → c_get (secret_ref id.1 id.2) cl = Ret ts →
  tokens_owned id ts → owner (uuid u) = Some id →
  closed_under uuid GetPayload (entitled ((id, cl) :: h)) cl u ts.
Proof.
  intros He Hg [(t & Ht & Hto) Hold] Hu.
  assert (Htok : mget (data ts) TokenSecretTokenKey = t) by (unfold mget; by rewrite Ht). rewrite <- Htok in Hto.
  assert (Hgen : ∀ v, produced GetPayload cl ts v → from_secret ((id, cl) :: h) id v).
  { intros v Hv. exists cl, ts. split; [left|done]. }
  assert (Hent : ∀ k v, owner k = Some id ∨ k = "" → from_secret ((id, cl) :: h) id v → entitled ((id, cl) :: h) k v).
  { intros k v Hk Hv. by exists id. }
  assert (Hown : ∀ k v, owner k = Some id → entitled ((id, cl) :: h) k v → from_secret ((id, cl) :: h) id v).
  { intros k v. by apply entitled_owned. }
  constructor.
  - intros v Hv. apply Hent; eauto.
  - intros v Hv. apply Hent; [|eauto]. destruct (data ts !! TokenSecretOldTokenKey); simpl; auto.
  - intros old v Ho Hv. apply Hent; eauto.
  - intros v Hv. apply Hent; auto.
  - intros old v Ho Hv. apply Hent; auto.
Qed.

Lemma step_ok p p' : owner "" = None → step p p' →
  cache_ok (entitled p.2) (λ _ _, True) p.1 → cache_ok (entitled p'.2) (λ _ _, True) p'.1.
Proof.
  intros He [ns name s h Hi Hu|req s h|cl n s h] Hs; simpl in *.
  - apply Reconcile_ok.
    + intros ts Hg. by apply owned_closed; auto.
    + destruct Hs as [Hs _]. split; [|done]. intros k e Hk. by apply entitled_mono, Hs.
  - by apply serve_ok.
  - exact Hs.
Qed.

Lemma steps_ok p p' : owner "" = None → rtc step p p' →
  cache_ok (entitled p.2) (λ _ _, True) p.1 → cache_ok (entitled p'.2) (λ _ _, True) p'.1.
Proof.
  intros He Hrun. induction Hrun as [|p0 p1 p2 Hstep _ IH]; [done|]. intros H0'. by apply IH, (step_ok p0).
Qed.


End Steps.

(** *** Garbage collection *)

Section Collect.
Context {S : Type} `{!MapOrder} (now : nat → Time).
Implicit Types (s : server S).

(** One pass of the collector: only the clock and expired entries change. *)
Record collected s s' : Prop := {
  col_cluster : srv_cluster s' = srv_cluster s;
  col_uuids : srv_uuids s' = srv_uuids s;
  col_ttl : cacheTTL (srv_cache s') = cacheTTL (srv_cache s);
  col_clock : (srv_clock s ≤ srv_clock s' ≤ srv_clock s + size (cache (srv_cache s)))%nat;
  col_subset k e : cache (srv_cache s') !! k = Some e → cache (srv_cache s) !! k = Some e;
  col_kept k e : cache (srv_cache s) !! k = Some e →
    (∀ i, (srv_clock s ≤ i < srv_clock s')%nat → (now i ≤ expiry e)%Z) → cache (srv_cache s') !! k = Some e;
  col_fresh k e : cache (srv_cache s') !! k = Some e → ∃ i, (srv_clock s ≤ i)%nat ∧ (now i ≤ expiry e)%Z;
}.

Lemma gc_loop l s : NoDup (l.*1) → (∀ k e, (k, e) ∈ l → cache (srv_cache s) !! k = Some e) →
  ∃ s', st_for l (λ ke, t ← tick now; if time_after t (expiry ke.2) then Delete ke.1 else mret ()) s = (Ret (), s') ∧
    srv_cluster s' = srv_cluster s ∧ srv_uuids s' = srv_uuids s ∧
    cacheTTL (srv_cache s') = cacheTTL (srv_cache s) ∧ srv_clock s' = (srv_clock s + length l)%nat ∧
    (∀ j, j ∉ l.*1 → cache (srv_cache s') !! j = cache (srv_cache s) !! j) ∧
    ∀ k e, (k, e) ∈ l → ∃ i, (srv_clock s ≤ i < srv_clock s')%nat ∧
      cache (srv_cache s') !! k = if time_after (now i) (expiry e) then None else Some e.
Proof.
  revert s. induction l as [|[k e] l IH]; intros s Hd Hl.
  { exists s. split_and!; [done..| |done|].
    - simpl. lia.
    - intros k e Hn. by apply not_elem_of_nil in Hn. }
  apply NoDup_cons in Hd as [Hk Hd]. simpl.
  set (s1 := (if time_after (now (srv_clock s)) (expiry e)
              then mkServer (srv_cluster s) (cache_delete k (srv_cache s)) (Datatypes.S (srv_clock s)) (srv_uuids s)
              else mkServer (srv_cluster s) (srv_cache s) (Datatypes.S (srv_clock s)) (srv_uuids s))).
  assert (Hs1 : ∀ j, j ≠ k → cache (srv_cache s1) !! j = cache (srv_cache s) !! j).
  { intros j Hj. unfold s1. destruct (time_after _ _); simpl; [|done]. by rewrite lookup_delete_ne. }
  destruct (IH s1 Hd) as (s' & Hrun & Hcl & Hu & Ht & Hc & Ho & Hi).
  { intros j f Hjf. rewrite Hs1; [apply Hl; by right|]. intros ->. apply Hk.
    apply list_elem_of_fmap. by exists (k, f). }
  exists s'. assert (Hc1 : srv_clock s1 = Datatypes.S (srv_clock s)) by (unfold s1; by destruct (time_after _ _)).
  split_and!.
  - rewrite <- Hrun. unfold mbind, st_bind, s1. simpl. by destruct (time_after _ _).
  - rewrite Hcl. unfold s1. by destruct (time_after _ _).
  - rewrite Hu. unfold s1. by destruct (time_after _ _).
  - rewrite Ht. unfold s1. by destruct (time_after _ _).
  - rewrite Hc, Hc1. lia.
  - intros j [Hjk Hj]%not_elem_of_cons. rewrite Ho by done. by apply Hs1.
  - intros j f [[= -> ->]|Hjf]%elem_of_cons.
    + exists (srv_clock s). split; [lia|]. rewrite Ho by done. unfold s1.
      destruct (time_after _ _); simpl; [by rewrite lookup_delete_eq|]. apply Hl. by left.
    + destruct (Hi j f Hjf) as (i & Hr & He). exists i. split; [lia|done].
Qed.

Lemma gc_run s : ∃ s', garbageCollect now s = (Ret (), s') ∧ collected s s'.
Proof.
  unfold garbageCollect. pose proof (range_Permutation (cache (srv_cache s))) as Hp.
  assert (Hin : ∀ k e, (k, e) ∈ range (cache (srv_cache s)) ↔ cache (srv_cache s) !! k = Some e).
  { intros k e. by rewrite Hp, elem_of_map_to_list. }
  destruct (gc_loop (range (cache (srv_cache s))) s) as (s' & Hrun & Hcl & Hu & Ht & Hc & Ho & Hi).
  { rewrite Hp. apply NoDup_fst_map_to_list. }
  { intros k e. by rewrite Hin. }
  assert (Hno : ∀ k, cache (srv_cache s) !! k = None → cache (srv_cache s') !! k = None).
  { intros k Hk. rewrite Ho, Hk; [done|]. intros ([k' e] & -> & He)%list_elem_of_fmap. rewrite Hin in He. simpl in *. congruence. }
  exists s'. split; [done|]. split; try done; [rewrite Hc, Hp, length_map_to_list; lia|..].
  - intros k e He. destruct (cache (srv_cache s) !! k) as [f|] eqn:Hk; [|rewrite Hno in He; done].
    rewrite <- Hin in Hk. destruct (Hi k f Hk) as (i & _ & Hl). rewrite He in Hl. by destruct (time_after _ _).
  - intros k e Hk Hf. rewrite <- Hin in Hk. destruct (Hi k e Hk) as (i & Hr & ->).
    specialize (Hf i Hr). unfold time_after. destruct (Z.ltb_spec (expiry e) (now i)); [lia|done].
  - intros k e He. destruct (cache (srv_cache s) !! k) as [f|] eqn:Hk; [|rewrite Hno in He; done].
    rewrite <- Hin in Hk. destruct (Hi k f Hk) as (i & Hr & Hl). rewrite He in Hl. exists i. split; [lia|].
    unfold time_after in Hl. destruct (Z.ltb_spec (expiry f) (now i)); [done|]. by injection Hl as ->.
Qed.

Lemma Get_run key s : ∃ s', Get now key s = (Ret (value <$> cache (srv_cache s') !! key), s') ∧ collected s s'.
Proof.
  destruct (gc_run s) as (s' & Hrun & Hc). exists s'. split; [|done].
  unfold Get, mbind, st_bind, st_get. by rewrite Hrun.
Qed.

End Collect.

(** *** Token secrets *)

Lemma put_Ret k v o o' : put k v o = Ret o' →
  data o' = <[k := v]> (data o) ∧ oAnnotations o' = oAnnotations o ∧ ref_of o' = ref_of o ∧
  is_secret o' = true ∧ oName o' = oName o.
Proof.
  unfold put, Data. destruct (oBody o) as [| | | | | | | | | | |i [d|] c|] eqn:Hb; try done. intros [= <-].
  unfold set_Data. rewrite Hb. unfold data, Data, ref_of, goTypeName, is_secret. simpl. by rewrite Hb.
Qed.

Lemma put_chain k v k' v' o o1 o2 : put k v o = Ret o1 → put k' v' o1 = Ret o2 →
  data o2 = <[k' := v']> (<[k := v]> (data o)) ∧ oAnnotations o2 = oAnnotations o ∧
  ref_of o2 = ref_of o ∧ is_secret o2 = true.
Proof.
  intros (D1 & A1 & R1 & S1 & _)%put_Ret (D2 & A2 & R2 & S2 & _)%put_Ret.
  rewrite D2, D1, A2, A1, R2, R1. by split_and!.
Qed.

Lemma generatedPatch_Ret `{!Gzip} ts payload patch : generatedPatch ts payload = Ret patch →
  is_secret patch = true ∧ oAnnotations patch = oAnnotations ts ∧
  ∀ key, key ∉ [TokenSecretPayloadKey; TokenSecretReasonKey; TokenSecretMessageKey] → data patch !! key = data ts !! key.
Proof.
  unfold generatedPatch. intros Hg. apply go_bind_Ret in Hg as (p1 & H1 & Hg).
  apply go_bind_Ret in Hg as (p2 & H2 & H3).
  destruct (put_chain _ _ _ _ _ _ _ H2 H3) as (D & A & _ & Hs). split; [done|]. split.
  { rewrite A. destruct (str_eqb _ "InPlace"); [by apply put_Ret in H1 as (_ & -> & _)|].
    destruct (str_eqb _ "Replace"); [|by injection H1 as <-]. injection H1 as <-.
    destruct (Data ts); [|done]. unfold set_Data. by destruct (oBody ts). }
  intros key Hk. rewrite !not_elem_of_cons in Hk. destruct Hk as (Hk1 & Hk2 & Hk3 & _).
  rewrite D, !lookup_insert_ne by congruence.
  destruct (str_eqb _ "InPlace").
  { apply put_Ret in H1 as (-> & _). by rewrite lookup_insert_ne by congruence. }
  destruct (str_eqb _ "Replace"); [|by injection H1 as <-].
  injection H1 as <-. destruct (Data ts) as [d|] eqn:Hd; [|done].
  unfold Data in Hd. destruct (oBody ts) as [| | | | | | | | | | |i [d'|] c|] eqn:Hb; try done. injection Hd as ->.
  unfold data, Data, set_Data. rewrite Hb. simpl. by rewrite lookup_delete_ne by congruence.
Qed.

Section Tokens.
Context {S : Type} `{!Client S ObjectRef Object} `{!ClientLaws S ObjectRef Object}.
Context `{!Patcher S ObjectRef Object} `{!PatcherLaws S}.
Context `{!Gzip} `{!MapOrder}.
Context (now : nat → Time) (uuid : nat → string) (Error : api_error → string).
Context (parse_rfc3339 parse_nano : string → option Time) (format_nano : Time → string).
Context (GetPayload : S → string → string → string → string → string → go api_error string).
(** The API server keeps the data of secrets as they are written. *)
Hypothesis Hadmit : ∀ old m, is_secret m = true →
  data (admit_object old m) = data m ∧ oAnnotations (admit_object old m) = oAnnotations m.

Abbreviation run_reconcile := (Reconcile now uuid Error parse_rfc3339 parse_nano format_nano GetPayload).

(** The secret under its name, neither being deleted nor expired. *)
Record active ns name (s : server S) ts : Prop := {
  act_stored : view (srv_cluster s) !! secret_ref ns name = Some ts;
  act_ref : ref_of ts = secret_ref ns name;
  act_deletion : oDeletionTimestamp ts = None;
  act_expired : (isTokenExpired now parse_rfc3339 (annotations ts) s).1 = Ret false;
}.

Lemma Patch_stored patch ts s s' : Patch patch ts s = (Ret (), s') → view (srv_cluster s) !! ref_of ts = Some ts →
  view (srv_cluster s') = <[ref_of ts := admit_object (Some ts) patch]> (view (srv_cluster s)) ∧
  srv_cache s' = srv_cache s ∧ srv_clock s' = srv_clock s ∧ srv_uuids s' = srv_uuids s.
Proof.
  intros (o & s1 & H1 & [= <-])%st_bind_Ret Hv. unfold on_cluster in H1.
  destruct (c_patch _ _ _ _) as [r cl] eqn:Hp. injection H1 as -> <-.
  apply patch_stored in Hp as [-> Hview]; [|done]. by simpl.
Qed.

Lemma isTokenExpired_frame an (s : server S) : ∃ n, (n ≤ 1)%nat ∧ (isTokenExpired now parse_rfc3339 an s).2 =
  mkServer (srv_cluster s) (srv_cache s) (srv_clock s + n) (srv_uuids s).
Proof.
  unfold isTokenExpired. destruct s as [cl c i u].
  destruct (an !! _) as [raw|]; [destruct (parse_rfc3339 raw)|];
    [exists 1%nat|exists 0%nat|exists 0%nat]; (split; [lia|]); simpl; by rewrite ?Nat.add_0_r, ?Nat.add_1_r.
Qed.

(** What is left of [Reconcile] for an active secret. *)
Definition reconcile_active ts timeLived t : st (server S) api_error Duration :=
  let token := mget (data ts) TokenSecretTokenKey in
  cached ← Get now token;
  match cached with
  | Some v =>
      _ ← (if tokenNeedRotation timeLived then rotateToken now uuid format_nano ts v t else mret ());
      mret (requeueAfter timeLived)
  | None =>
      old ← (match data ts !! TokenSecretOldTokenKey with Some old => Get now old | None => mret None end);
      match old with
      | Some v => _ ← Set_ now token v; mret (requeueAfter timeLived)
      | None => generate now Error GetPayload ts token timeLived
      end
  end.

Lemma Reconcile_active ns name s ts : active ns name s ts →
  ∃ s1, srv_cluster s1 = srv_cluster s ∧ srv_cache s1 = srv_cache s ∧ srv_uuids s1 = srv_uuids s ∧
    (srv_clock s < srv_clock s1 ≤ srv_clock s + 2)%nat ∧
    let t := now (pred (srv_clock s1)) in
    run_reconcile ns name s =
    match getTokenTimeLived parse_nano ts t with
    | Ret timeLived => reconcile_active ts timeLived t s1
    | Throw e => (Throw e, s1)
    | Panic => (Panic, s1)
    end.
Proof.
  intros [Hv Hr Hd He]. destruct (isTokenExpired_frame (annotations ts) s) as (n & Hn1 & Hn).
  apply get_stored in Hv. unfold Reconcile. rewrite Hv, Hd. simpl.
  unfold mbind at 1, st_bind at 1.
  destruct (isTokenExpired now parse_rfc3339 (annotations ts) s) as [r s0]. simpl in *. subst r s0.
  exists (mkServer (srv_cluster s) (srv_cache s) (Datatypes.S (srv_clock s + n)) (srv_uuids s)). simpl.
  split_and!; [done..|lia|lia|]. unfold mbind at 1, st_bind at 1, tick at 1. simpl.
  unfold mbind at 1, st_bind at 1, st_lift at 1.
  by destruct (getTokenTimeLived parse_nano ts (now (srv_clock s + n))).
Qed.

(** A rotation that succeeds. *)
Lemma rotateToken_Ret ts v t s s' :
  rotateToken now uuid format_nano ts v t s = (Ret (), s') → view (srv_cluster s) !! ref_of ts = Some ts →
  ∃ ts', view (srv_cluster s') = <[ref_of ts := ts']> (view (srv_cluster s)) ∧
    data ts' = <[TokenSecretTokenKey := uuid (srv_uuids s)]>
      (<[TokenSecretOldTokenKey := mget (data ts) TokenSecretTokenKey]> (data ts)) ∧
    annotations ts' = <[TokenSecretTokenGenerationTime := format_nano t]> (annotations ts) ∧
    srv_clock s' = Datatypes.S (srv_clock s) ∧
    cache (srv_cache s') = <[uuid (srv_uuids s) := mkEntry v (time_add (now (srv_clock s)) (cacheTTL (srv_cache s)))]>
      (match data ts !! TokenSecretOldTokenKey with
       | Some old => delete old (cache (srv_cache s)) | None => cache (srv_cache s) end).
Proof.
  unfold rotateToken. intros (u & s1 & [= <- <-] & H1)%st_bind_Ret Hv.
  apply st_bind_Ret in H1 as ([] & s2 & H2 & H1).
  apply st_bind_Ret in H1 as (p1 & s3 & [= Hp1 <-] & H1).
  apply st_bind_Ret in H1 as (p2 & s4 & [= Hp2 <-] & H1).
  apply st_bind_Ret in H1 as ([] & s5 & [= <-] & H1).
  destruct (put_chain _ _ _ _ _ _ _ Hp1 Hp2) as (D & A & _ & Hsec).
  unfold st_catch in H1. destruct (Patch p2 ts _) as [[[]|e|] s6] eqn:Hpatch; [injection H1 as <-|done..].
  assert (Hs2 : srv_cluster s2 = srv_cluster s ∧ srv_uuids s2 = Datatypes.S (srv_uuids s) ∧
            srv_clock s2 = srv_clock s ∧ cacheTTL (srv_cache s2) = cacheTTL (srv_cache s) ∧
            cache (srv_cache s2) = match data ts !! TokenSecretOldTokenKey with
                                   | Some old => delete old (cache (srv_cache s)) | None => cache (srv_cache s) end).
  { destruct (data ts !! TokenSecretOldTokenKey); by injection H2 as <-. }
  destruct Hs2 as (Hcl & Hu & Hc & Ht & Hcache).
  apply Patch_stored in Hpatch as (Hview & Hc6 & Hk6 & _); [|simpl; by rewrite Hcl].
  destruct (Hadmit (Some ts) p2 Hsec) as [Hd Ha].
  exists (admit_object (Some ts) p2). simpl in *. rewrite Hview, Hd, D, Hcl, Hk6, Hc, Hc6. split_and!; try done.
  - unfold annotations. by rewrite Ha, A.
  - simpl. by rewrite Hcache, Hc, Ht.
Qed.

(** The token of a secret is in the cache. *)
Definition usable ns name (s : server S) : Prop :=
  ∃ ts e, view (srv_cluster s) !! secret_ref ns name = Some ts ∧
    cache (srv_cache s) !! mget (data ts) TokenSecretTokenKey = Some e.

Lemma recordFailure_fails ts msg err (s : server S) d s' : recordFailure ts msg err s ≠ (Ret d, s').
Proof.
  unfold recordFailure. destruct (hasSameReasonAndMessage _ _ _); [done|].
  intros (p1 & s2 & _ & H2)%st_bind_Ret. apply st_bind_Ret in H2 as (p2 & s3 & _ & H3).
  by apply st_bind_Ret in H3 as (? & ? & _ & H4).
Qed.

Lemma generate_cached ns name ts timeLived s d s' :
  generate now Error GetPayload ts (mget (data ts) TokenSecretTokenKey) timeLived s = (Ret d, s') →
  view (srv_cluster s) !! secret_ref ns name = Some ts → ref_of ts = secret_ref ns name →
  usable ns name s'.
Proof.
  unfold generate. intros Hrun Hv Hr.
  destruct (DecodeAndDecompress _) as [config|err|]; [|by apply recordFailure_fails in Hrun|done].
  apply st_bind_Ret in Hrun as (s0 & s1 & [= <- <-] & Hrun).
  destruct (GetPayload _ _ _ _ _ _) as [payload|err|]; [|by apply recordFailure_fails in Hrun|done].
  apply st_bind_Ret in Hrun as ([] & s2 & [= <-] & Hrun).
  apply st_bind_Ret in Hrun as ([] & s3 & H3 & Hrun).
  apply st_bind_Ret in Hrun as (patch & s4 & [= Hpatch <-] & Hrun).
  apply st_bind_Ret in Hrun as ([] & s5 & H5 & [= _ <-]).
  assert (Hs3 : srv_cluster s3 = srv_cluster s ∧ is_Some (cache (srv_cache s3) !! mget (data ts) TokenSecretTokenKey)).
  { destruct (data ts !! TokenSecretOldTokenKey) as [old|]; injection H3 as <-; simpl; (split; [done|]).
    - destruct (decide (old = mget (data ts) TokenSecretTokenKey)) as [->|Hne].
      + rewrite lookup_insert_eq. eauto.
      + rewrite lookup_insert_ne, lookup_insert_eq by done. eauto.
    - rewrite lookup_insert_eq. eauto. }
  destruct Hs3 as (Hcl & [e He]).
  unfold patchSecret, st_catch in H5. destruct (Patch patch ts s3) as [[[]| |] s6] eqn:Hp; [injection H5 as <-|done..].
  apply Patch_stored in Hp as (Hview & Hc & Hk & _); [|by rewrite Hcl, Hr].
  destruct (generatedPatch_Ret _ _ _ Hpatch) as (Hsec & _ & Hdata). destruct (Hadmit (Some ts) patch Hsec) as [Hd _].
  exists (admit_object (Some ts) patch), e. rewrite Hview, Hr, lookup_insert_eq. split; [done|].
  unfold mget in *. rewrite Hd, Hdata, Hc; [done|]. by apply (bool_decide_unpack _); vm_compute.
Qed.

(** C28: a successful reconcile of an active token secret leaves its token usable:
whatever was cached before, rotated by this server or by another one, freshly
generated or taken over from the old token, the token the secret then carries is
a key of the cache. *)
Theorem reconciled_token_is_cached ns name s ts d s'
    (Hactive : active ns name s ts)
    (Hrun : run_reconcile ns name s = (Ret d, s')) :
  usable ns name s'.
Proof.
  destruct (Reconcile_active ns name s ts Hactive) as (s1 & Hcl & Hc & Hu & Hclk & Heq). cbn zeta in Heq.
  rewrite Heq in Hrun. destruct (getTokenTimeLived _ _ _) as [tl| |]; [|done..].
  destruct Hactive as [Hv Hr _ _]. rewrite <- Hcl in Hv. clear Heq.
  apply st_bind_Ret in Hrun as (cached & s2 & H2 & Hrun).
  destruct (Get_run now (mget (data ts) TokenSecretTokenKey) s1) as (s2' & Hg & Hcol).
  rewrite Hg in H2. injection H2 as <- <-. rewrite <- (col_cluster _ _ _ Hcol) in Hv.
  destruct (cache (srv_cache s2') !! mget (data ts) TokenSecretTokenKey) as [e|] eqn:He; simpl in Hrun.
  - apply st_bind_Ret in Hrun as ([] & s3 & H3 & [= _ <-]).
    destruct (tokenNeedRotation tl); [|injection H3 as <-; by exists ts, e].
    apply rotateToken_Ret in H3 as (ts' & Hview & Hd & _ & _ & Hcache); [|by rewrite Hr].
    eexists ts', _. rewrite Hview, Hr, lookup_insert_eq. split; [done|].
    unfold mget. rewrite Hd, lookup_insert_eq. simpl. by rewrite Hcache, lookup_insert_eq.
  - apply st_bind_Ret in Hrun as (old & s3 & H3 & Hrun).
    assert (Hcl3 : srv_cluster s3 = srv_cluster s2').
    { destruct (data ts !! TokenSecretOldTokenKey) as [t|]; [|by injection H3 as <- <-].
      destruct (Get_run now t s2') as (s4 & Hg4 & Hcol4). rewrite Hg4 in H3. injection H3 as <- <-.
      apply Hcol4. }
    rewrite <- Hcl3 in Hv. destruct old as [v|]; [|by eapply generate_cached].
    apply st_bind_Ret in Hrun as ([] & s5 & [= <-] & [= _ <-]).
    eexists ts, _. simpl. split; [done|]. by rewrite lookup_insert_eq.
Qed.

(** The first reconcile of a token secret. *)
Lemma Reconcile_miss ns name s ts d s' (token := mget (data ts) TokenSecretTokenKey) :
  active ns name s ts → cache (srv_cache s) !! token = None → data ts !! TokenSecretOldTokenKey = None →
  run_reconcile ns name s = (Ret d, s') →
  ∃ config payload i ts',
    DecodeAndDecompress (mget (data ts) TokenSecretConfigKey) = Ret config ∧
    GetPayload (srv_cluster s) (mget (data ts) TokenSecretReleaseKey) config
      (mget (data ts) TokenSecretPullSecretHashKey) (mget (data ts) TokenSecretAdditionalTrustBundleHashKey)
      (mget (data ts) TokenSecretHCConfigurationHashKey) = Ret payload ∧
    (srv_clock s ≤ i < srv_clock s')%nat ∧
    cache (srv_cache s') !! token =
      Some (mkEntry (mkValue payload (oName ts)) (time_add (now i) (cacheTTL (srv_cache s)))) ∧
    view (srv_cluster s') = <[secret_ref ns name := ts']> (view (srv_cluster s)) ∧
    oAnnotations ts' = oAnnotations ts.
Proof.
  intros Hactive Hcold Hold Hrun.
  destruct (Reconcile_active ns name s ts Hactive) as (s1 & Hcl & Hc & _ & Hclk & Heq). cbn zeta in Heq.
  rewrite Heq in Hrun. destruct (getTokenTimeLived _ _ _) as [tl| |]; [|done..].
  destruct Hactive as [Hv Hr _ _]. clear Heq. unfold reconcile_active in Hrun.
  apply st_bind_Ret in Hrun as (cached & s2 & H2 & Hrun).
  destruct (Get_run now token s1) as (s2' & Hg & Hcol). fold token in H2. rewrite Hg in H2. injection H2 as <- <-.
  assert (Hno : cache (srv_cache s2') !! token = None).
  { destruct (cache (srv_cache s2') !! token) eqn:He; [|done]. apply (col_subset _ _ _ Hcol) in He. rewrite Hc in He. congruence. }
  rewrite Hno in Hrun. simpl in Hrun. rewrite Hold in Hrun. apply st_bind_Ret in Hrun as (o & s3 & [= <- <-] & Hrun).
  unfold generate in Hrun. destruct (DecodeAndDecompress _) as [config|err|]; [|by apply recordFailure_fails in Hrun|done].
  apply st_bind_Ret in Hrun as (s0 & s3 & [= <- <-] & Hrun).
  destruct (GetPayload _ _ _ _ _ _) as [payload|err|] eqn:Hp; [|by apply recordFailure_fails in Hrun|done].
  apply st_bind_Ret in Hrun as ([] & s4 & [= <-] & Hrun). rewrite Hold in Hrun.
  apply st_bind_Ret in Hrun as ([] & s5 & [= <-] & Hrun).
  apply st_bind_Ret in Hrun as (patch & s6 & [= Hpatch <-] & Hrun).
  apply st_bind_Ret in Hrun as ([] & s7 & H7 & [= _ <-]). unfold patchSecret, st_catch in H7.
  destruct (Patch patch ts _) as [[[]| |] s8] eqn:Hpt in H7; [injection H7 as <-|done..].
  assert (Hcl2 : srv_cluster s2' = srv_cluster s) by (rewrite (col_cluster _ _ _ Hcol); done).
  apply Patch_stored in Hpt as (Hview & Hcache & Hk & _); [|simpl; by rewrite Hcl2, Hr].
  destruct (generatedPatch_Ret _ _ _ Hpatch) as (Hsec & Han & _). destruct (Hadmit (Some ts) patch Hsec) as [_ Ha].
  simpl in *. exists config, payload, (srv_clock s2'), (admit_object (Some ts) patch).
  rewrite Hcl2 in Hp. rewrite Hcache, Hview, Hk, Hr, Hcl2, Ha, Han. simpl. split_and!; [done..| | | |done|done].
  - pose proof (col_clock _ _ _ Hcol). lia.
  - lia.
  - rewrite lookup_insert_eq. by rewrite (col_ttl _ _ _ Hcol), Hc.
Qed.

(** An entry that is not about to expire is still there when the token is looked up. *)
Lemma cached_fresh (s s1 s2 : server S) k e :
  srv_cache s1 = srv_cache s → (srv_clock s < srv_clock s1 ≤ srv_clock s + 2)%nat → collected now s1 s2 →
  cache (srv_cache s) !! k = Some e →
  (∀ i, (srv_clock s ≤ i < srv_clock s + 2 + size (cache (srv_cache s)))%nat → (now i ≤ expiry e)%Z) →
  cache (srv_cache s2) !! k = Some e.
Proof.
  intros Hc Hclk Hcol He Hf. apply (col_kept _ _ _ Hcol); [by rewrite Hc|]. intros i Hi. apply Hf.
  pose proof (col_clock _ _ _ Hcol) as Hck. rewrite Hc in Hck. lia.
Qed.

(** When a cached token has lived half the lifetime of the cache and the
reconcile succeeds, it is rotated with an overlap: the secret carries a fresh
token, the previous one as the old token, and the time of the rotation, and both
tokens are in the cache for the same payload, so that machines that were given the
previous one can still boot. *)
Theorem rotation_overlaps ns name s ts e d s'
    (token := mget (data ts) TokenSecretTokenKey) (fresh := uuid (srv_uuids s))
    (Hactive : active ns name s ts)
    (Hrun : run_reconcile ns name s = (Ret d, s'))
    (Hlived : ∀ i, (srv_clock s ≤ i)%nat → ∃ tl, getTokenTimeLived parse_nano ts (now i) = Ret tl ∧ tokenNeedRotation tl = true)
    (Hcached : cache (srv_cache s) !! token = Some e)
    (Hfresh : ∀ i, (srv_clock s ≤ i < srv_clock s + 2 + size (cache (srv_cache s)))%nat → (now i ≤ expiry e)%Z)
    (Hdistinct : fresh ≠ token ∧ data ts !! TokenSecretOldTokenKey ≠ Some token) :
  ∃ ts' i, view (srv_cluster s') !! secret_ref ns name = Some ts' ∧
    data ts' !! TokenSecretTokenKey = Some fresh ∧ data ts' !! TokenSecretOldTokenKey = Some token ∧
    (srv_clock s ≤ i)%nat ∧ annotations ts' !! TokenSecretTokenGenerationTime = Some (format_nano (now i)) ∧
    value <$> cache (srv_cache s') !! fresh = Some (value e) ∧ cache (srv_cache s') !! token = Some e.
Proof.
  destruct (Reconcile_active ns name s ts Hactive) as (s1 & Hcl & Hc & Hu & Hclk & Heq). cbn zeta in Heq.
  rewrite Heq in Hrun. destruct (Hlived (pred (srv_clock s1))) as (tl & Htl & Hneed); [lia|].
  rewrite Htl in Hrun. destruct Hactive as [Hv Hr _ _]. rewrite <- Hcl in Hv. clear Heq.
  apply st_bind_Ret in Hrun as (cached & s2 & H2 & Hrun).
  destruct (Get_run now token s1) as (s2' & Hg & Hcol).
  fold token in H2. rewrite Hg in H2. injection H2 as <- <-. rewrite <- (col_cluster _ _ _ Hcol) in Hv.
  assert (He2 : cache (srv_cache s2') !! token = Some e) by by eapply cached_fresh.
  rewrite He2 in Hrun. simpl in Hrun. rewrite Hneed in Hrun.
  apply st_bind_Ret in Hrun as ([] & s3 & H3 & [= _ <-]).
  apply rotateToken_Ret in H3 as (ts' & Hview & Hd & Ha & _ & Hcache); [|by rewrite Hr].
  destruct Hdistinct as [Hne Hold]. rewrite (col_uuids _ _ _ Hcol), Hu in Hd, Hcache.
  exists ts', (pred (srv_clock s1)). rewrite Hview, Hr, lookup_insert_eq, Hd, lookup_insert_eq, Ha, lookup_insert_eq, Hcache.
  split_and!; [done..| |lia|done| |].
  - by rewrite lookup_insert_ne, lookup_insert_eq.
  - by rewrite lookup_insert_eq.
  - rewrite lookup_insert_ne by done. destruct (data ts !! TokenSecretOldTokenKey) as [old|]; [|done].
    by rewrite lookup_delete_ne by congruence.
Qed.

(** A rotation that the API server refuses. *)
Lemma rotateToken_Throw ts v t s err s' :
  rotateToken now uuid format_nano ts v t s = (Throw err, s') →
  ∃ e', value e' = v ∧
    cache (srv_cache s') !! default "" (data ts !! TokenSecretOldTokenKey) = Some e'.
Proof.
  unfold rotateToken. unfold mbind at 1, st_bind at 1, new_uuid. simpl.
  set (s0 := mkServer _ _ _ _). intros H1.
  assert (Hd : ∃ s1, (match data ts !! TokenSecretOldTokenKey with Some old => Delete old | None => mret () end) s0 = (Ret (), s1)).
  { destruct (data ts !! TokenSecretOldTokenKey); by eexists. }
  destruct Hd as [s1 Hs1]. unfold mbind at 1, st_bind at 1 in H1. rewrite Hs1 in H1.
  unfold mbind at 1, st_bind at 1, st_lift at 1 in H1.
  assert (Hput : ∀ k w o e, put k w o ≠ Throw e) by (intros k w o e; unfold put; by destruct (Data o)).
  destruct (put _ _ _) as [p1|e1|] eqn:Hp1 in H1; [|by apply Hput in Hp1|done].
  unfold mbind at 1, st_bind at 1, st_lift at 1 in H1.
  destruct (put _ _ p1) as [p2|e2|] eqn:Hp2 in H1; [|by apply Hput in Hp2|done].
  unfold mbind at 1, st_bind at 1 in H1. simpl in H1. unfold st_catch in H1.
  destruct (Patch p2 ts _) as [[[]|e|] s6]; [done| |done].
  injection H1 as _ <-. simpl. rewrite lookup_insert_eq. by eexists (mkEntry v _).
Qed.

(** Answers to requests for a token in the cache. *)
Lemma serve_cached SanitizeIgnitionPayload namespace req token e s :
  ignPathPattern (reqPath req) = true → bearer (reqAuthorization req) = Some token →
  cache (srv_cache s) !! token = Some e →
  (∀ i, (srv_clock s ≤ i < srv_clock (serve now SanitizeIgnitionPayload namespace req s).2)%nat → (now i ≤ expiry e)%Z) →
  SanitizeIgnitionPayload (Payload (value e)) = true →
  (∀ ts, view (srv_cluster s) !! secret_ref namespace (TokenSecretName (ParseNamespacedName (reqNodePool req)).2
     (reqTargetConfigVersionHash req)) = Some ts → oAnnotations ts ≠ None) →
  (∀ k o cl, (c_get k cl ≠ @Panic api_error Object) ∧ (c_update k o cl).1 ≠ @Panic api_error Object) →
  (serve now SanitizeIgnitionPayload namespace req s).1 = Ret (mkResponse 200 (Payload (value e))).
Proof.
  intros Hpath Hb He Hfresh Hsan Hann Hnp.
  unfold serve in *. rewrite Hpath, Hb in *. simpl in *.
  destruct (Get_run now token s) as (s1 & Hg & Hcol).
  unfold mbind at 1, st_bind at 1. unfold mbind at 1, st_bind at 1 in Hfresh. rewrite Hg in *.
  assert (Hcl := col_cluster _ _ _ Hcol).
  assert (Hkeep : cache (srv_cache s1) !! token = Some e).
  { apply (col_kept _ _ _ Hcol); [done|]. intros i Hi. apply Hfresh. split; [lia|].
    assert (Hmono : ∀ name, (srv_clock s1 ≤ srv_clock (noteReached namespace name s1).2)%nat).
    { intros name. unfold noteReached, on_cluster. destruct (c_get _ _) as [o| |]; [|done..].
      destruct (oAnnotations o); [|done]. by destruct (c_update _ _ _) as [[] ?]. }
    destruct (value <$> _) as [v|]; [|simpl; lia].
    destruct (negb _); [simpl; lia|]. unfold mbind, st_bind.
    pose proof (Hmono (TokenSecretName (ParseNamespacedName (reqNodePool req)).2 (reqTargetConfigVersionHash req))) as Hm.
    destruct (noteReached _ _ s1) as [[]]; simpl in *; lia. }
  clear Hfresh. rewrite Hkeep. simpl. rewrite Hsan. simpl. unfold mbind at 1, st_bind at 1.
  assert (Hn : (noteReached namespace (TokenSecretName (ParseNamespacedName (reqNodePool req)).2
            (reqTargetConfigVersionHash req)) s1).1 = Ret ()).
  { unfold noteReached, on_cluster. rewrite Hcl.
    destruct (c_get _ (srv_cluster s)) as [o| |] eqn:Hget; [|done|by destruct (proj1 (Hnp _ (new_secret "" "") _) Hget)].
    apply get_stored in Hget. destruct (oAnnotations o) as [an|] eqn:Ha; [|by destruct (Hann o Hget)].
    destruct (c_update _ _ _) as [[] s2] eqn:Hu; try done. exfalso. eapply (proj2 (Hnp _ _ _)). by rewrite Hu. }
  by destruct (noteReached _ _ s1) as [[[]| |] s2].
Qed.

(** C29: when the first rotation of a cached token fails, the payload is restored under
the empty token instead of the current one, and from then on anyone who presents
an empty bearer token is served the payload of the NodePool, until it expires. *)
Theorem failed_rotation_serves_empty_token SanitizeIgnitionPayload namespace ns name s ts e err s' req
    (Hactive : active ns name s ts)
    (Hlived : ∀ i, (srv_clock s ≤ i)%nat → ∃ tl, getTokenTimeLived parse_nano ts (now i) = Ret tl ∧ tokenNeedRotation tl = true)
    (Hfirst : data ts !! TokenSecretOldTokenKey = None)
    (Hcached : cache (srv_cache s) !! mget (data ts) TokenSecretTokenKey = Some e)
    (Hfresh : ∀ i, (srv_clock s ≤ i < srv_clock s + 2 + size (cache (srv_cache s)))%nat → (now i ≤ expiry e)%Z)
    (Hrun : run_reconcile ns name s = (Throw err, s'))
    (Hpath : ignPathPattern (reqPath req) = true)
    (Hanonymous : reqAuthorization req = "Bearer ")
    (Hsan : SanitizeIgnitionPayload (Payload (value e)) = true)
    (Hann : ∀ o, view (srv_cluster s') !! secret_ref namespace
       (TokenSecretName (ParseNamespacedName (reqNodePool req)).2 (reqTargetConfigVersionHash req)) = Some o → oAnnotations o ≠ None)
    (Hpanic : ∀ k o cl, (c_get k cl ≠ @Panic api_error Object) ∧ (c_update k o cl).1 ≠ @Panic api_error Object) :
  ∃ e', cache (srv_cache s') !! "" = Some e' ∧ value e' = value e ∧
    ((∀ i, (srv_clock s' ≤ i < srv_clock (serve now SanitizeIgnitionPayload namespace req s').2)%nat → (now i ≤ expiry e')%Z) →
     (serve now SanitizeIgnitionPayload namespace req s').1 = Ret (mkResponse 200 (Payload (value e)))).
Proof.
  destruct (Reconcile_active ns name s ts Hactive) as (s1 & Hcl & Hc & Hu & Hclk & Heq). cbn zeta in Heq.
  rewrite Heq in Hrun. destruct (Hlived (pred (srv_clock s1))) as (tl & Htl & Hneed); [lia|].
  rewrite Htl in Hrun. unfold reconcile_active in Hrun. unfold mbind at 1, st_bind at 1 in Hrun.
  destruct (Get_run now (mget (data ts) TokenSecretTokenKey) s1) as (s2 & Hg & Hcol). rewrite Hg in Hrun.
  assert (He2 : cache (srv_cache s2) !! mget (data ts) TokenSecretTokenKey = Some e) by by eapply cached_fresh.
  rewrite He2 in Hrun. simpl in Hrun. rewrite Hneed in Hrun.
  unfold mbind, st_bind in Hrun. destruct (rotateToken _ _ _ _ _ _ _) as [[[]|er|] s3] eqn:Hrot; [done| |done].
  injection Hrun as <- <-. apply rotateToken_Throw in Hrot as (e' & Hv & He'). rewrite Hfirst in He'. simpl in He'.
  exists e'. split_and!; [done..|]. intros Hf. rewrite <- Hv. rewrite <- Hv in Hsan.
  eapply serve_cached; [exact Hpath| |exact He'|exact Hf|exact Hsan|exact Hann|exact Hpanic].
  rewrite Hanonymous. reflexivity.
Qed.

Lemma optional_delete (x : option string) (s s' : server S) :
  (match x with Some k => Delete k | None => mret () end) s = (Ret (), s') →
  srv_cluster s' = srv_cluster s ∧
  ∀ k e, cache (srv_cache s') !! k = Some e ↔ cache (srv_cache s) !! k = Some e ∧ x ≠ Some k.
Proof.
  destruct x as [j|]; intros [= <-]; (split; [done|]); intros k e; simpl; [|by split; [|intros []]].
  rewrite lookup_delete_Some. split; intros [? ?]; split; congruence.
Qed.

(** The reconcile of an expired token secret that succeeds revokes it: the secret
is gone from the cluster or being deleted, neither its token nor its old token is in the cache, and
every other entry stays. *)
Theorem expired_token_revoked ns name s ts d s'
    (Hstored : view (srv_cluster s) !! secret_ref ns name = Some ts) (Href : ref_of ts = secret_ref ns name)
    (Hdel : oDeletionTimestamp ts = None)
    (Hexpired : (isTokenExpired now parse_rfc3339 (annotations ts) s).1 = Ret true)
    (Hrun : run_reconcile ns name s = (Ret d, s')) :
  removed (secret_ref ns name) (view (srv_cluster s)) (view (srv_cluster s')) ∧
  ∀ k e, cache (srv_cache s') !! k = Some e ↔
    cache (srv_cache s) !! k = Some e ∧ data ts !! TokenSecretTokenKey ≠ Some k ∧ data ts !! TokenSecretOldTokenKey ≠ Some k.
Proof.
  destruct (isTokenExpired_frame (annotations ts) s) as (n & Hn1 & Hn).
  apply get_stored in Hstored. unfold Reconcile in Hrun. rewrite Hstored, Hdel in Hrun. simpl in Hrun.
  apply st_bind_Ret in Hrun as (b & s1 & H1 & Hrun). rewrite H1 in Hexpired, Hn. simpl in *. injection Hexpired as ->. subst s1.
  apply st_bind_Ret in Hrun as ([] & s2 & H2 & [= _ <-]). unfold processExpiredToken in H2.
  apply st_bind_Ret in H2 as ([] & s3 & H3 & H2). apply st_bind_Ret in H2 as ([] & s4 & H4 & H2).
  set (s0 := mkServer _ _ _ _) in H3.
  assert (Hs4 : srv_cluster s4 = srv_cluster s ∧ ∀ k e, cache (srv_cache s4) !! k = Some e ↔
    cache (srv_cache s) !! k = Some e ∧ data ts !! TokenSecretTokenKey ≠ Some k ∧ data ts !! TokenSecretOldTokenKey ≠ Some k).
  { apply optional_delete in H3 as [C3 L3]. apply optional_delete in H4 as [C4 L4]. rewrite C4, C3. split; [done|].
    intros k e. rewrite L4, L3. simpl. clear Hadmit. naive_solver. }
  destruct Hs4 as [Hcl Hcache]. unfold st_catch, on_cluster in H2. rewrite Hcl, Href in H2.
  destruct (c_delete _ _) as [[[]|err|] cl] eqn:Hd; [|destruct (IsNotFound err) eqn:Hnf; [|done]|done]; injection H2 as <-; simpl;
    (split; [|exact Hcache]).
  - by apply delete_requested in Hd.
  - left. by eapply delete_missing.
Qed.

(** The loop over the keys. *)
Lemma purge_loop name keys (s : server S) :
  ∃ s', st_for keys (λ k, v ← Get now k;
      match v with
      | Some v => if str_eqb (SecretName v) name then Delete k else mret ()
      | None => mret ()
      end) s = (Ret (), s') ∧
    srv_cluster s' = srv_cluster s ∧ (srv_clock s ≤ srv_clock s')%nat ∧
    (∀ k e, cache (srv_cache s') !! k = Some e → cache (srv_cache s) !! k = Some e ∧ (k ∈ keys → SecretName (value e) ≠ name)) ∧
    (∀ k e, cache (srv_cache s) !! k = Some e → SecretName (value e) ≠ name →
       (∀ i, (srv_clock s ≤ i < srv_clock s')%nat → (now i ≤ expiry e)%Z) → cache (srv_cache s') !! k = Some e).
Proof.
  revert s. induction keys as [|key keys IH]; intros s.
  { exists s. split_and!; [done..|lia| |by auto]. intros k e He. split; [done|]. intros Hn. by apply not_elem_of_nil in Hn. }
  destruct (Get_run now key s) as (s1 & Hg & [C1 C2 C3 C4 C5 C6 C7]).
  set (m := match value <$> cache (srv_cache s1) !! key with
            | Some v => if str_eqb (SecretName v) name then Delete key else mret ()
            | None => mret () end : st (server S) api_error unit).
  assert (Hm : ∃ s2, m s1 = (Ret (), s2) ∧ srv_cluster s2 = srv_cluster s1 ∧ srv_clock s2 = srv_clock s1 ∧
    ∀ k e, cache (srv_cache s2) !! k = Some e ↔
      cache (srv_cache s1) !! k = Some e ∧ (k = key → SecretName (value e) ≠ name)).
  { unfold m. destruct (cache (srv_cache s1) !! key) as [e1|] eqn:He1; simpl.
    - destruct (str_eqb (SecretName (value e1)) name) eqn:Hn; eexists; (split_and!; [done..|]); intros k e; simpl.
      + apply str_eqb_eq in Hn. rewrite lookup_delete_Some. split; [clear Hadmit; naive_solver|]. intros [He Hk]. split; [|done].
        intros ->. rewrite He1 in He. injection He as ->. by apply Hk.
      + apply str_eqb_neq in Hn. split; [|by intros []]. intros He. split; [done|]. intros ->. congruence.
    - eexists. split_and!; [done..|]. intros k e. split; [|by intros []]. intros He. split; [done|]. intros ->. congruence. }
  destruct Hm as (s2 & Hrun2 & Hcl2 & Hk2 & Hcache2).
  destruct (IH s2) as (s' & Hrun & Hcl & Hk & Hsub & Hkept). exists s'. split_and!.
  - simpl. unfold mbind at 1, st_bind at 1. unfold mbind at 1, st_bind at 1. rewrite Hg. fold m. by rewrite Hrun2.
  - congruence.
  - lia.
  - intros k e (He & Hin)%Hsub. apply Hcache2 in He as [He Hkey]. split; [by apply C5|].
    intros [->|Hl]%elem_of_cons; auto.
  - intros k e He Hn Hf. apply Hkept; [apply Hcache2; split; [apply C6; [done|]|done]|done|]; intros i Hi; apply Hf; lia.
Qed.

(** Reconciling a token secret that is gone, or is being deleted, always succeeds
and revokes it: no entry of the cache that was generated for that secret is left,
the entries of other secrets that have not expired all stay, and the cluster is
not touched. *)
Theorem deleted_secret_purged ns name s
    (Hgone : c_get (secret_ref ns name) (srv_cluster s) = Throw NotFound ∨
       ∃ ts t, c_get (secret_ref ns name) (srv_cluster s) = Ret ts ∧ oDeletionTimestamp ts = Some t) :
  ∃ s', run_reconcile ns name s = (Ret 0%Z, s') ∧ srv_cluster s' = srv_cluster s ∧
    (∀ k e, cache (srv_cache s') !! k = Some e → cache (srv_cache s) !! k = Some e ∧ SecretName (value e) ≠ name) ∧
    (∀ k e, cache (srv_cache s) !! k = Some e → SecretName (value e) ≠ name →
       (∀ i, (srv_clock s ≤ i < srv_clock s')%nat → (now i ≤ expiry e)%Z) → cache (srv_cache s') !! k = Some e).
Proof.
  destruct (purge_loop name ((range (cache (srv_cache s))).*1) s) as (s' & Hrun & Hcl & _ & Hsub & Hkept).
  exists s'. split_and!; [|done| |done].
  - assert (Hp : (_ ← purge now name; mret 0%Z) s = (Ret 0%Z, s')).
    { unfold purge, Keys. unfold mbind at 1, st_bind at 1. unfold mbind at 1, st_bind at 1.
      unfold mbind at 1, st_bind at 1, st_get. simpl. by rewrite Hrun. }
    unfold Reconcile. destruct Hgone as [->|(ts & t & -> & ->)]; exact Hp.
  - intros k e He. destruct (Hsub k e He) as [He0 Hn]. split; [done|]. apply Hn.
    rewrite range_Permutation. apply list_elem_of_fmap. exists (k, e). split; [done|]. by apply elem_of_map_to_list.
Qed.

End Tokens.

(** *** A server with one token secret *)

Module SampleServer.
Import UpsertProofs UpsertProofs.SampleCluster.

#[export] Program Instance marked_Gzip : Gzip := {
  gzip s := "!" +:+ s;
  gunzip s := match s with String c r => if bool_decide (c = "!"%char) then Some r else None | _ => None end }.
Solve Obligations with done.

#[export] Program Instance listed_MapOrder : MapOrder := { range A m := map_to_list m }.
Solve Obligations with done.

#[export] Instance map_Patcher : Patcher cluster ObjectRef Object := {
  c_patch k _ o s := match s !! k with
    | Some e => let a := admission (Some e) o in (Ret a, <[k := a]> s)
    | None => (Throw NotFound, s) end;
  c_status_patch k _ o s := (Ret o, <[k := o]> s);
}.

#[export] Instance map_PatcherLaws : PatcherLaws cluster.
Proof. split. intros k old new s o s' Hv. simpl. simpl in Hv. rewrite Hv. by intros [= <- <-]. Qed.

(** An API server that is not available for patches. *)
Definition failing_Patcher : Patcher cluster ObjectRef Object :=
  Build_Patcher cluster ObjectRef Object (λ _ _ _ s, (Throw (OtherError "timeout"), s))
    (λ _ _ _ s, (Throw (OtherError "timeout"), s)).

Definition clock (i : nat) : Time := Z.of_nat i.
Definition uuids (i : nat) : string := "uuid-" +:+ String (Ascii.ascii_of_nat (48 + i)) "".
Definition error_text (e : api_error) : string := "error".
Definition parse (s : string) : option Time := if str_eqb s "epoch" then Some 0%Z else None.
Definition format (t : Time) : string := "epoch".
Definition provider (s : cluster) (release config a b c : string) : go api_error string := Ret ("{" +:+ config +:+ "}").
Definition sane (payload : string) : bool := true.

Definition secret_with (an d : StringMap) : Object :=
  mkObject "clusters-prod" "token-workers-1" "" None (Some an) [] "" None (Secret None (Some d) (JMap [])) [].
Definition first_data : StringMap :=
  {[TokenSecretTokenKey := "t1"; TokenSecretReleaseKey := "img"; TokenSecretConfigKey := CompressAndEncode "cfg"]}.
Definition marked : StringMap := {[TokenSecretAnnotation := "true"]}.
Definition ts0 : Object := secret_with marked first_data.
Definition ts_expired : Object :=
  secret_with (<[IgnitionServerTokenExpirationTimestampAnnotation := "epoch"]> marked) first_data.
Definition with_secret (o : Object) (c : ExpiringCache) : server cluster :=
  mkServer {[secret_ref "clusters-prod" "token-workers-1" := o]} c 5 0.
Definition warm : ExpiringCache :=
  mkCache {["t1" := mkEntry (mkValue "{cfg}" "token-workers-1") ttl;
            "t9" := mkEntry (mkValue "{old}" "token-infra-7") ttl]} ttl 2.
Definition run_with (p : Patcher cluster ObjectRef Object) (s : server cluster) :=
  @Reconcile cluster map_Client p marked_Gzip listed_MapOrder clock uuids error_text parse parse format provider
    "clusters-prod" "token-workers-1" s.
Definition run := run_with map_Patcher.

Definition cold_done : server cluster := Eval vm_compute in (run (with_secret ts0 NewPayloadStore)).2.
Lemma cold_run : run (with_secret ts0 NewPayloadStore) = (Ret (ttl / 2)%Z, cold_done).
Proof. by vm_cast_no_check (@eq_refl (go api_error Duration * server cluster) (Ret (ttl / 2)%Z, cold_done)). Qed.
Definition rotated : server cluster := Eval vm_compute in (run (with_secret ts0 warm)).2.
Lemma rotated_run : run (with_secret ts0 warm) = (Ret (ttl / 2)%Z, rotated).
Proof. by vm_cast_no_check (@eq_refl (go api_error Duration * server cluster) (Ret (ttl / 2)%Z, rotated)). Qed.
Definition refused : server cluster := Eval vm_compute in (run_with failing_Patcher (with_secret ts0 warm)).2.
Lemma refused_run : run_with failing_Patcher (with_secret ts0 warm) = (Throw (OtherError "timeout"), refused).
Proof. by vm_cast_no_check (@eq_refl (go api_error Duration * server cluster) (Throw (OtherError "timeout"), refused)). Qed.
Definition revoked : server cluster := Eval vm_compute in (run (with_secret ts_expired warm)).2.
Lemma revoked_run : run (with_secret ts_expired warm) = (Ret 0%Z, revoked).
Proof. by vm_cast_no_check (@eq_refl (go api_error Duration * server cluster) (Ret 0%Z, revoked)). Qed.

Lemma secret_admission old m : is_secret m = true →
  data (admit_object (S := cluster) old m) = data m ∧ oAnnotations (admit_object (S := cluster) old m) = oAnnotations m.
Proof. simpl. unfold admission, is_secret. by destruct (oBody m). Qed.

Lemma ts0_active c : active (S := cluster) clock parse "clusters-prod" "token-workers-1" (with_secret ts0 c) ts0.
Proof. by split. Qed.

Lemma ts0_lived i : ∃ tl, getTokenTimeLived parse ts0 (clock i) = Ret tl ∧ tokenNeedRotation tl = true.
Proof. by exists None. Qed.

Definition get_ignition (auth : string) : request := mkRequest "/ignition" auth "" "".

Lemma cluster_no_panic (k : ObjectRef) (o : Object) (cl : cluster) :
  (c_get k cl ≠ @Panic api_error Object) ∧ (c_update k o cl).1 ≠ @Panic api_error Object.
Proof. simpl. by destruct (cl !! k). Qed.

Definition owner_here (t : string) : option (string * string) :=
  if str_eqb t "" then None else Some ("clusters-prod", "token-workers-1").
Definition with_t1 : request := get_ignition ("Bearer " +:+ Base64.EncodeToString "t1").
Definition reconciled_once : list ((string * string) * cluster) :=
  [(("clusters-prod", "token-workers-1"), srv_cluster (with_secret ts0 NewPayloadStore))].

Lemma cold_step : rtc (step clock uuids error_text parse parse format provider sane "clusters-prod" owner_here)
  (with_secret ts0 NewPayloadStore, []) (cold_done, reconciled_once).
Proof.
  eapply rtc_l, rtc_refl.
  replace cold_done with (run (with_secret ts0 NewPayloadStore)).2 by by rewrite cold_run.
  apply step_reconcile; [|reflexivity]. intros ts [= <-]. constructor; [|done].
  exists "t1". split; reflexivity.
Qed.


Lemma reconciled_token_is_cached_witness : usable "clusters-prod" "token-workers-1" cold_done.
Proof.
  apply (reconciled_token_is_cached clock uuids error_text parse parse format provider secret_admission
           "clusters-prod" "token-workers-1" (with_secret ts0 NewPayloadStore) ts0 (ttl / 2)%Z).
  - apply ts0_active.
  - exact cold_run.
Defined.

Lemma rotation_overlaps_witness :
  ∃ ts' i, view (srv_cluster rotated) !! secret_ref "clusters-prod" "token-workers-1" = Some ts' ∧
    data ts' !! TokenSecretTokenKey = Some "uuid-0" ∧ data ts' !! TokenSecretOldTokenKey = Some "t1" ∧
    (5 ≤ i)%nat ∧ annotations ts' !! TokenSecretTokenGenerationTime = Some (format (clock i)) ∧
    value <$> cache (srv_cache rotated) !! "uuid-0" = Some (mkValue "{cfg}" "token-workers-1") ∧
    cache (srv_cache rotated) !! "t1" = Some (mkEntry (mkValue "{cfg}" "token-workers-1") ttl).
Proof.
  apply (rotation_overlaps clock uuids error_text parse parse format provider secret_admission
           "clusters-prod" "token-workers-1" (with_secret ts0 warm) ts0
           (mkEntry (mkValue "{cfg}" "token-workers-1") ttl) (ttl / 2)%Z rotated).
  - apply ts0_active.
  - exact rotated_run.
  - intros i _. apply ts0_lived.
  - reflexivity.
  - intros i Hi. change (size (cache (srv_cache (with_secret ts0 warm)))) with 2%nat in Hi.
    simpl in Hi |- *. change ttl with 39600000000000%Z. unfold clock. lia.
  - split; [by apply (bool_decide_unpack _); vm_compute|done].
Defined.

Lemma failed_rotation_serves_empty_token_witness :
  ∃ e', cache (srv_cache refused) !! "" = Some e' ∧ value e' = mkValue "{cfg}" "token-workers-1" ∧
    ((∀ i, (srv_clock refused ≤ i < srv_clock (serve clock sane "clusters-prod" (get_ignition "Bearer ") refused).2)%nat →
        (clock i ≤ expiry e')%Z) →
     (serve clock sane "clusters-prod" (get_ignition "Bearer ") refused).1 = Ret (mkResponse 200 "{cfg}")).
Proof.
  apply (failed_rotation_serves_empty_token (Patcher0 := failing_Patcher)
           clock uuids error_text parse parse format provider sane "clusters-prod"
           "clusters-prod" "token-workers-1" (with_secret ts0 warm) ts0
           (mkEntry (mkValue "{cfg}" "token-workers-1") ttl) (OtherError "timeout") refused (get_ignition "Bearer ")).
  - apply ts0_active.
  - intros i _. apply ts0_lived.
  - reflexivity.
  - reflexivity.
  - intros i Hi. change (size (cache (srv_cache (with_secret ts0 warm)))) with 2%nat in Hi.
    simpl in Hi |- *. change ttl with 39600000000000%Z. unfold clock. lia.
  - exact refused_run.
  - reflexivity.
  - reflexivity.
  - reflexivity.
  - intros o Ho. vm_compute in Ho. discriminate Ho.
  - exact cluster_no_panic.
Defined.

(** The hypothesis under which that request is answered holds too. *)
Example empty_token_served :
  (serve clock sane "clusters-prod" (get_ignition "Bearer ") refused).1 = Ret (mkResponse 200 "{cfg}").
Proof. vm_compute. reflexivity. Qed.

Lemma expired_token_revoked_witness :
  removed (secret_ref "clusters-prod" "token-workers-1")
    (view (srv_cluster (with_secret ts_expired warm))) (view (srv_cluster revoked)) ∧
  ∀ k e, cache (srv_cache revoked) !! k = Some e ↔
    cache warm !! k = Some e ∧ data ts_expired !! TokenSecretTokenKey ≠ Some k ∧
    data ts_expired !! TokenSecretOldTokenKey ≠ Some k.
Proof.
  apply (expired_token_revoked clock uuids error_text parse parse format provider
           "clusters-prod" "token-workers-1" (with_secret ts_expired warm) ts_expired 0%Z revoked).
  - reflexivity.
  - reflexivity.
  - reflexivity.
  - reflexivity.
  - exact revoked_run.
Defined.

Lemma deleted_secret_purged_witness :
  ∃ s', run (mkServer ∅ warm 5 0) = (Ret 0%Z, s') ∧ srv_cluster s' = ∅ ∧
    (∀ k e, cache (srv_cache s') !! k = Some e → cache warm !! k = Some e ∧ SecretName (value e) ≠ "token-workers-1") ∧
    (∀ k e, cache warm !! k = Some e → SecretName (value e) ≠ "token-workers-1" →
       (∀ i, (5 ≤ i < srv_clock s')%nat → (clock i ≤ expiry e)%Z) → cache (srv_cache s') !! k = Some e).
Proof.
  apply (deleted_secret_purged clock uuids error_text parse parse format provider
           "clusters-prod" "token-workers-1" (mkServer ∅ warm 5 0)).
  left. reflexivity.
Defined.

End SampleServer.

End IgnitionServerProofs.
