(* ===== verification/NodePoolConfig.v ===== *)
(** The configuration of a NodePool:
[hypershift-operator/controllers/nodepool/config.go].  The config maps of the user,
of the control plane and of the node tuning operator hold YAML documents; they are
validated, defaulted, sorted and joined to the configuration the machine config
operator consumes, and its hash names what is rolled out.  With the YAML document
reader of [k8s.io/apimachinery/pkg/util/yaml] and [RemoveEmptyJSONField] of
[support/util/util.go]. *)
From S2P Require Import Prelude GoSort Semver Api Upsert GlobalConfig NodePool Capi.
From S2P Require Import Base64 IgnitionServer.
From Stdlib Require Import Ascii.

(** *** White space *)

Module Text.

Definition newline : ascii := ascii_of_nat 10.
Definition nl : string := String newline "".
Definition code (c : ascii) : nat := nat_of_ascii c.

(** The bytes of the UTF-8 encodings [unicode.IsSpace] accepts. *)
Definition ascii_space (c : ascii) : bool := bool_decide (code c ∈ [9; 10; 11; 12; 13; 32]).
Definition two_byte_space (a b : ascii) : bool := bool_decide (code a = 194 ∧ code b ∈ [133; 160]).
Definition three_byte_space (a b c : ascii) : bool :=
  bool_decide ((code a = 225 ∧ code b = 154 ∧ code c = 128) ∨
               (code a = 226 ∧ code b = 128 ∧ (128 ≤ code c ≤ 138 ∨ code c ∈ [168; 169; 175])) ∨
               (code a = 226 ∧ code b = 129 ∧ code c = 159) ∨
               (code a = 227 ∧ code b = 128 ∧ code c = 128)).

(** Whether a string is white space all through. *)
Fixpoint all_space (s : string) : bool :=
  match s with
  | EmptyString => true
  | String a s1 =>
      (ascii_space a && all_space s1) ||
      match s1 with
      | String b s2 =>
          (two_byte_space a b && all_space s2) ||
          match s2 with
          | String c s3 => three_byte_space a b c && all_space s3
          | EmptyString => false
          end
      | EmptyString => false
      end
  end.

Fixpoint trim_left (s : string) : string :=
  match s with
  | EmptyString => EmptyString
  | String a s1 =>
      if ascii_space a then trim_left s1 else
      match s1 with
      | String b s2 =>
          if two_byte_space a b then trim_left s2 else
          match s2 with
          | String c s3 => if three_byte_space a b c then trim_left s3 else s
          | EmptyString => s
          end
      | EmptyString => s
      end
  end.

Fixpoint trim_right (s : string) : string :=
  if all_space s then EmptyString else
  match s with
  | EmptyString => EmptyString
  | String c r => String c (trim_right r)
  end.

(** [strings.TrimSpace(s)] *)
Definition TrimSpace (s : string) : string := trim_left (trim_right s).

(** [strings.Join(l, sep)] *)
Fixpoint Join (l : list string) (sep : string) : string :=
  match l with
  | [] => ""
  | [x] => x
  | x :: l => x +:+ sep +:+ Join l sep
  end.

(** *** [RemoveEmptyJSONField] *)

(** [\s] of a regular expression, and [\s*] *)
Definition re_space (c : ascii) : bool := bool_decide (code c ∈ [9; 10; 12; 13; 32]).
Fixpoint skip_space (s : string) : string :=
  match s with
  | String c r => if re_space c then skip_space r else s
  | EmptyString => EmptyString
  end.
Definition skip_literal (p s : string) : option string :=
  if has_prefix s p then Some (trim_prefix s p) else None.

Definition quote : string := String (ascii_of_nat 34) "".

(** What follows a match of [,?\s*"field":\s*""] at the start of a string. *)
Definition match_empty_field (field s : string) : option string :=
  let after_comma := default s (skip_literal "," s) in
  rest ← skip_literal (quote +:+ field +:+ quote +:+ ":") (skip_space after_comma);
  skip_literal (quote +:+ quote) (skip_space rest).
(** [\s*,\s*}] and [{\s*,\s*] *)
Definition match_trailing_comma (s : string) : option string :=
  rest ← skip_literal "," (skip_space s);
  skip_literal "}" (skip_space rest).
Definition match_leading_comma (s : string) : option string :=
  rest ← skip_literal "{" s;
  rest ← skip_literal "," (skip_space rest);
  Some (skip_space rest).

(** [re.ReplaceAllString(s, by)], for an expression without empty matches: the
matches from left to right. *)
Fixpoint replace_all (fuel : nat) (m : string → option string) (by_ s : string) : string :=
  match fuel, s with
  | S fuel, String c r =>
      match m s with
      | Some rest => by_ +:+ replace_all fuel m by_ rest
      | None => String c (replace_all fuel m by_ r)
      end
  | _, _ => s
  end.
Definition ReplaceAllString (m : string → option string) (by_ s : string) : string :=
  replace_all (String.length s) m by_ s.

(** [func RemoveEmptyJSONField(stringData string, field string) string] *)
Definition RemoveEmptyJSONField (stringData field : string) : string :=
  ReplaceAllString match_leading_comma "{"
    (ReplaceAllString match_trailing_comma "}"
      (ReplaceAllString (match_empty_field field) "" stringData)).

End Text.

(** *** The reader of YAML documents *)

Module Yaml.
Import Text.

(** [bufio.Reader.ReadLine] through the whole input, [\n] and [\r\n] dropped. *)
Fixpoint cut_line (s : string) : string * option string :=
  match s with
  | EmptyString => ("", None)
  | String c r =>
      if bool_decide (c = newline) then ("", Some r) else
      match r with
      | String d r' =>
          if bool_decide (code c = 13 ∧ d = newline) then ("", Some r') else
          let '(l, rest) := cut_line r in (String c l, rest)
      | EmptyString => (String c "", None)
      end
  end.

(** What [LineReader.Read] returns until the end: every line with a [\n]. *)
Fixpoint read_lines (fuel : nat) (s : string) : list string :=
  match fuel, s with
  | S fuel, String _ _ =>
      match cut_line s with
      | (l, Some rest) => (l +:+ nl) :: read_lines fuel rest
      | (l, None) => [l +:+ nl]
      end
  | _, _ => []
  end.

(** [yaml.NewYAMLReader(bufio.NewReader(strings.NewReader(s)))]: what is still to be read. *)
Abbreviation YAMLReader := (list string).
Definition NewYAMLReader (s : string) : YAMLReader := read_lines (String.length s) s.

Inductive read_error : Type := EOF | YAMLSyntaxError (msg : string).

Definition separator : string := "---".

(** [func (r *YAMLReader) Read() ([]byte, error)] *)
Fixpoint Read (buffer : string) (r : YAMLReader) : (string * option read_error) * YAMLReader :=
  match r with
  | [] => if str_eqb buffer "" then (("", Some EOF), []) else ((buffer, None), [])
  | line :: r =>
      if has_prefix line separator then
        let trimmed := TrimSpace (trim_prefix line separator) in
        if negb (str_eqb trimmed "") && negb (has_prefix trimmed "#") then
          (("", Some (YAMLSyntaxError ("invalid Yaml document separator: " +:+ trimmed))), r)
        else if negb (str_eqb buffer "") then ((buffer, None), r)
        else Read (buffer +:+ line) r
      else Read (buffer +:+ line) r
  end.

End Yaml.

Module NodePoolConfig.
Import Upsert NodePool GlobalConfig Capi Text Yaml.
#[local] Open Scope go_scope.

Definition nodePoolCoreIgnitionConfigLabel : string := "hypershift.openshift.io/core-ignition-config".
Definition nodeTuningGeneratedConfigLabel : string := "hypershift.openshift.io/nto-generated-machine-config".
Definition NodePoolLabel : string := "hypershift.openshift.io/nodePool".
Definition ImageStreamImportModeField : string := "imageStreamImportMode".
Definition NodeTuningCapability : string := "NodeTuning".

(** [func (agg aggregate) Error() string] of [k8s.io/apimachinery/pkg/util/errors]:
every message once. *)
Definition aggregate_text (msgs : list string) : string :=
  match msgs with
  | [msg] => msg
  | _ => match reverse (remove_dups (reverse msgs)) with
         | [msg] => msg
         | distinct => "[" +:+ Join distinct ", " +:+ "]"
         end
  end.
(** [utilerrors.NewAggregate(errors)] next to a value *)
Definition with_aggregate {A} (a : A) (errors : list string) : go np_error A :=
  if bool_decide (errors = []) then Ret a else Throw (ErrText (aggregate_text errors)).

(** [corev1.ConfigMap] *)
Record ConfigMap : Type := mkConfigMap { cmName : string; cmData : StringMap }.

(** A decoded manifest: the labels of a [MachineConfig], the pool selector of a
[KubeletConfig] or a [ContainerRuntimeConfig] (its match labels), and the rest. *)
Inductive Manifest : Type :=
  | MachineConfig (labels : option StringMap) (rest : string)
  | ImageContentSourcePolicy (rest : string)
  | ImageDigestMirrorSet (rest : string)
  | ClusterImagePolicy (rest : string)
  | KubeletConfig (selector : option StringMap) (rest : string)
  | ContainerRuntimeConfig (selector : option StringMap) (rest : string)
  | OtherManifest (type : string).

(** The HostedCluster, with the fields only its configuration reads: the name of the
additional trust bundle, how many image content sources there are, the proxy and
the networks, [spec.configuration.image] and the whole [spec.configuration] as
texts, the disabled capabilities (nil when there are no capabilities), the name of
the provisioner with the platform of Karpenter, the image of the control plane
release, and when it was deleted. *)
Record HostedClusterConfig : Type := mkHCC {
  hcc : HostedCluster;
  additionalTrustBundle : option string;
  imageContentSources : Z;
  networking : ClusterNetworking;
  imageSpec : option (option string);
  configuration : option string;
  disabledCapabilities : option (list string);
  autoNode : option (string * option PlatformType);
  controlPlaneRelease : option string;
  hcDeletionTimestamp : option Time;
}.

(** [type ReleaseImage struct]: the version, the component images and, by architecture
and region, the AMIs of the stream metadata. *)
Record ReleaseImage : Type := mkReleaseImage {
  riVersion : string;
  ComponentImages : StringMap;
  StreamMetadata : option (gmap string (gmap string string));
}.

(** [type rolloutConfig struct] and [type ConfigGenerator struct], the client apart. *)
Record ConfigGenerator : Type := mkCG {
  hostedCluster : HostedClusterConfig;
  nodePool : NodePool;
  controlplaneNamespace : string;
  cgReleaseImage : ReleaseImage;
  pullSecretName : string;
  additionalTrustBundleName : string;
  globalConfig : string;
  mcoRawConfig : string;
  haproxyRawConfig : string;
}.
Definition set_mcoRawConfig (raw : string) (cg : ConfigGenerator) : ConfigGenerator :=
  mkCG (hostedCluster cg) (nodePool cg) (controlplaneNamespace cg) (cgReleaseImage cg) (pullSecretName cg)
    (additionalTrustBundleName cg) (globalConfig cg) raw (haproxyRawConfig cg).

(** [func (cg *ConfigGenerator) Hash() string] *)
Definition Hash (cg : ConfigGenerator) : string :=
  HashSimple (mcoRawConfig cg +:+ riVersion (cgReleaseImage cg) +:+ pullSecretName cg +:+
              additionalTrustBundleName cg +:+ globalConfig cg).
(** [func (cg *ConfigGenerator) HashWithoutVersion() string] *)
Definition HashWithoutVersion (cg : ConfigGenerator) : string :=
  HashSimple (mcoRawConfig cg +:+ pullSecretName cg +:+ additionalTrustBundleName cg).
(** [func (cg *ConfigGenerator) Version() string] *)
Definition Version (cg : ConfigGenerator) : string := riVersion (cgReleaseImage cg).

Section Gzip.
Context `{!Gzip}.
(** [func (cg *ConfigGenerator) Compressed() ( *bytes.Buffer, error)] *)
Definition Compressed (cg : ConfigGenerator) : string := Secrets.Compress (mcoRawConfig cg).
(** [func (cg *ConfigGenerator) CompressedAndEncoded() ( *bytes.Buffer, error)] *)
Definition CompressedAndEncoded (cg : ConfigGenerator) : string := Secrets.CompressAndEncode (mcoRawConfig cg).
End Gzip.

(** [func IsNodeTuningCapabilityEnabled(capabilities *hyperv1.Capabilities) bool] of
[support/capabilities/hosted_control_plane_capabilities.go] *)
Definition IsNodeTuningCapabilityEnabled (disabled : option (list string)) : bool :=
  match disabled with
  | None => true
  | Some l => negb (bool_decide (NodeTuningCapability ∈ l))
  end.

(** [func GetBackwardCompatibleConfigString(stringData string) string] of
[support/backwardcompat/backwardcompat.go] *)
Definition GetBackwardCompatibleConfigString (stringData : string) : string :=
  RemoveEmptyJSONField stringData ImageStreamImportModeField.

(** [manifest] with the labels or the selector [defaultAndValidateConfigManifest] sets. *)
Definition builtin_selector : option StringMap := Some {["machineconfiguration.openshift.io/mco-built-in" := ""]}.

Section Generator.
Context `{!SliceSort}.
(** [yamlSerializer.Decode] and [api.CompatibleYAMLEncode], and the JSON encoding of
the proxy and the image. *)
Context (Decode : string → go np_error Manifest) (CompatibleYAMLEncode : Manifest → go np_error string).
Context (encode_proxy : Proxy → go np_error string) (encode_image : string → go np_error string).
(** The text of an error. *)
Context (Error : np_error → string).
(** [configv1.ImageSpec{}] *)
Context (emptyImageSpec : string).

(** [func (cg *ConfigGenerator) defaultAndValidateConfigManifest(manifest []byte) ([]byte, error)] *)
Definition defaultAndValidateConfigManifest (manifest : string) : go np_error string :=
  cr ← lift_error (ErrWrapped "error decoding config") (Decode manifest);
  match cr with
  | MachineConfig labels rest =>
      lift_error (ErrWrapped "failed to encode machine config after defaulting it")
        (CompatibleYAMLEncode (MachineConfig
           (Some (<["machineconfiguration.openshift.io/role" := "worker"]> (default ∅ labels))) rest))
  | ImageContentSourcePolicy _ | ImageDigestMirrorSet _ | ClusterImagePolicy _ => Ret manifest
  | KubeletConfig _ rest =>
      lift_error (ErrWrapped "failed to encode kubelet config after setting built-in MCP selector")
        (CompatibleYAMLEncode (KubeletConfig builtin_selector rest))
  | ContainerRuntimeConfig _ rest =>
      lift_error (ErrWrapped "failed to encode container runtime config after setting built-in MCP selector")
        (CompatibleYAMLEncode (ContainerRuntimeConfig builtin_selector rest))
  | OtherManifest type => Throw (ErrText ("unsupported config type: " +:+ type))
  end.

Definition read_error_text (e : read_error) : string :=
  match e with EOF => "EOF" | YAMLSyntaxError msg => msg end.

(** The inner loop of [parse]: reads documents until the end, [None] when the fuel does
not last. *)
Fixpoint parse_manifests (fuel : nat) (name : string) (r : YAMLReader) (errors manifests : list string)
    : option (go np_error (list string * list string)) :=
  match fuel with
  | 0 => None
  | S fuel =>
      let '((manifestRaw, err), r) := Read "" r in
      match err with
      | Some (YAMLSyntaxError msg) =>
          parse_manifests fuel name r
            (errors ++ ["configmap " +:+ quote +:+ name +:+ quote +:+ " contains invalid yaml: " +:+ msg]) manifests
      | _ =>
          let finish errors manifests :=
            match err with
            | Some _ => Some (Ret (errors, manifests))
            | None => parse_manifests fuel name r errors manifests
            end in
          if (manifestRaw != "") && (TrimSpace manifestRaw != "") then
            match defaultAndValidateConfigManifest manifestRaw with
            | Panic => Some Panic
            | Throw e =>
                parse_manifests fuel name r
                  (errors ++ ["configmap " +:+ quote +:+ name +:+ quote +:+ " yaml document failed validation: " +:+ Error e])
                  manifests
            | Ret manifest => finish errors (manifests ++ [manifest])
            end
          else finish errors manifests
      end
  end.

(** How often the inner loop runs at most. *)
Definition parse_fuel (payload : string) : nat := length (NewYAMLReader payload) + 2.

(** The loop of [parse] over the config maps. *)
Fixpoint parse_configs (configs : list ConfigMap) (errors manifests : list string)
    : option (go np_error (list string * list string)) :=
  match configs with
  | [] => Some (Ret (errors, manifests))
  | config :: configs =>
      let cmPayload := mget (cmData config) "config" in
      r ← parse_manifests (parse_fuel cmPayload) (cmName config) (NewYAMLReader cmPayload) errors manifests;
      match r with
      | Panic => Some Panic
      | Throw e => Some (Throw e)
      | Ret (errors, manifests) => parse_configs configs errors manifests
      end
  end.

(** [func (cg *ConfigGenerator) parse(configs []corev1.ConfigMap) (string, error)] *)
Definition parse (haproxyRawConfig : string) (configs : list ConfigMap) : option (go np_error string) :=
  let haproxy := if haproxyRawConfig != "" then [haproxyRawConfig] else [] in
  r ← parse_configs configs [] haproxy;
  Some ('(errors, manifests) ← r;
        with_aggregate (Join (sort_slice str_lt manifests) (nl +:+ "---" +:+ nl)) errors).

(** [func globalConfigString(hcluster *hyperv1.HostedCluster) (string, error)] *)
Definition globalConfigString (hc : HostedClusterConfig) : go np_error string :=
  proxy ← ReconcileProxyConfigWithStatusFromHostedCluster ProxyConfig (networking hc);
  let image := ReconcileImageConfigFromHostedCluster (ImageConfig emptyImageSpec) (imageSpec hc) in
  proxyBytes ← lift_error (ErrWrapped "failed to encode proxy global config") (encode_proxy proxy);
  imageBytes ← lift_error (ErrWrapped "failed to encode image global config") (encode_image image);
  Ret (GetBackwardCompatibleConfigString (proxyBytes +:+ imageBytes)).

(** Reads of config maps: one by name, and a list by labels. *)
Context (getConfigMap : string → string → go api_error ConfigMap).
Context (listConfigMaps : string → StringMap → go api_error (list ConfigMap)).
(** The text of a client error. *)
Context (api_text : api_error → string).

(** [func (cg *ConfigGenerator) getUserConfigs(ctx) ([]corev1.ConfigMap, error)] *)
Fixpoint user_configs (namespace : string) (names : list string) (errors : list string) (configs : list ConfigMap)
    : go np_error (list ConfigMap) :=
  match names with
  | [] => with_aggregate configs errors
  | name :: names =>
      match getConfigMap namespace name with
      | Panic => Panic
      | Throw err => user_configs namespace names (errors ++ [api_text err]) configs
      | Ret cm => user_configs namespace names errors (configs ++ [cm])
      end
  end.
Definition getUserConfigs (np : NodePool) : go np_error (list ConfigMap) :=
  user_configs (npNamespace np) (nodeConfig (npSpec np)) [] [].

(** [func (cg *ConfigGenerator) getCoreConfigs(ctx) ([]corev1.ConfigMap, error)] *)
Definition expectedCoreConfigResources (cg : ConfigGenerator) : Z :=
  (3 + (if (0 <? imageContentSources (hostedCluster cg))%Z then 1 else 0)
     - (if haproxyRawConfig cg != "" then 1 else 0))%Z.
Definition getCoreConfigs (cg : ConfigGenerator) : go np_error (list ConfigMap) :=
  '(items, errors) ← match listConfigMaps (controlplaneNamespace cg) {[nodePoolCoreIgnitionConfigLabel := "true"]} with
                     | Panic => Panic
                     | Throw err => Ret ([], [api_text err])
                     | Ret items => Ret (items, [])
                     end;
  let expected := expectedCoreConfigResources cg in
  if bool_decide (Z.of_nat (length items) ≠ expected)
  then Throw (ErrMissingCoreConfig expected (Z.of_nat (length items)))
  else with_aggregate items errors.

(** [func getNTOGeneratedConfig(ctx, cg *ConfigGenerator) ([]corev1.ConfigMap, error)] of [nto.go] *)
Definition getNTOGeneratedConfig (cg : ConfigGenerator) : go np_error (list ConfigMap) :=
  lift_error ErrApi (listConfigMaps (controlplaneNamespace cg)
    {[nodeTuningGeneratedConfigLabel := "true"; NodePoolLabel := npName (nodePool cg)]}).

(** [func (cg *ConfigGenerator) generateMCORawConfig(ctx, caps) (configsRaw string, err error)] *)
Definition generateMCORawConfig (cg : ConfigGenerator) : option (go np_error string) :=
  match (coreConfigs ← getCoreConfigs cg;
         userConfig ← getUserConfigs (nodePool cg);
         nodeTuningGeneratedConfigs ←
           (if IsNodeTuningCapabilityEnabled (disabledCapabilities (hostedCluster cg))
            then getNTOGeneratedConfig cg else Ret []);
         Ret (coreConfigs ++ userConfig ++ nodeTuningGeneratedConfigs)) with
  | Ret configs => parse (haproxyRawConfig cg) configs
  | Throw e => Some (Throw e)
  | Panic => Some Panic
  end.

(** The result of a loop whose fuel lasts, which [parse_terminates] shows it does. *)
Definition settle {A} (r : option (go np_error A)) : go np_error A :=
  match r with Some r => r | None => Panic end.

(** [func NewConfigGenerator(ctx, client, hostedCluster, nodePool, releaseImage, haproxyRawConfig, controlPlaneNamespace)
( *ConfigGenerator, error)] with a client and a release image *)
Definition NewConfigGenerator (hc : HostedClusterConfig) (np : NodePool) (releaseImage : ReleaseImage)
    (haproxyRawConfig controlPlaneNamespace : string) : go np_error ConfigGenerator :=
  globalConfig ← globalConfigString hc;
  let cg := mkCG hc np controlPlaneNamespace releaseImage (hcPullSecret (hcc hc))
              (default "" (additionalTrustBundle hc)) globalConfig "" haproxyRawConfig in
  raw ← settle (generateMCORawConfig cg);
  Ret (set_mcoRawConfig raw cg).

End Generator.

End NodePoolConfig.
