(* ===== verification/NodePoolConfigProofs.v ===== *)
(** What the configuration of a NodePool guarantees: reading it ends, and neither the
text nor the hash depends on the order in which the API server lists the config
maps. *)
From S2P Require Import Prelude GoSort Semver Api Upsert GlobalConfig NodePool Capi.
From S2P Require Import Base64 IgnitionServer NodePoolConfig.

Module NodePoolConfigProofs.
Import NodePool Capi Text Yaml NodePoolConfig.

Lemma Forall2_reorder {A B} (R : A → B → Prop) l l' k :
  l ≡ₚ l' → Forall2 R l k → ∃ k', k ≡ₚ k' ∧ Forall2 R l' k'.
Proof.
  intros Hp. revert k. induction Hp as [|x l l' _ IH|x y l|l l' l'' _ IH1 _ IH2]; intros k Hk.
  - by exists k.
  - apply Forall2_cons_inv_l in Hk as (z & k1 & Hz & (k' & Hp & Hk')%IH & ->).
    exists (z :: k'). split; [by rewrite Hp|by constructor].
  - apply Forall2_cons_inv_l in Hk as (z & k1 & Hz & Hk & ->).
    apply Forall2_cons_inv_l in Hk as (w & k2 & Hw & Hk & ->).
    exists (w :: z :: k2). split; [constructor|by repeat constructor].
  - apply IH1 in Hk as (k1 & Hp1 & (k2 & Hp2 & Hk2)%IH2). exists k2. split; [by rewrite Hp1|done].
Qed.

Lemma concat_reorder {A} (l l' : list (list A)) : l ≡ₚ l' → concat l ≡ₚ concat l'.
Proof.
  induction 1 as [|x l l' _ IH|x y l|l l' l'' _ IH1 _ IH2]; simpl; [done|by rewrite IH| |by rewrite IH1].
  rewrite !app_assoc. by rewrite (Permutation_app_comm y x).
Qed.

(** *** Reading documents *)

(** A read consumes at least a line. *)
Lemma Read_consumes buffer r : length (Read buffer r).2 ≤ pred (length r).
Proof.
  revert buffer. induction r as [|line r IH]; intros buffer; simpl; [by destruct (str_eqb buffer "")|].
  specialize (IH (buffer +:+ line)). destruct (has_prefix _ _); [|lia].
  destruct (_ && _); [done|]. destruct (negb _); [done|lia].
Qed.

Section Parse.
Context `{!SliceSort}.
Context (Decode : string → go np_error Manifest) (CompatibleYAMLEncode : Manifest → go np_error string).
Context (Error : np_error → string).

Abbreviation manifests_from := (parse_manifests Decode CompatibleYAMLEncode Error).
Abbreviation configs_from := (parse_configs Decode CompatibleYAMLEncode Error).
Abbreviation parsed := (parse Decode CompatibleYAMLEncode Error).

Lemma parse_manifests_ends fuel name r errors manifests :
  length r < fuel → is_Some (manifests_from fuel name r errors manifests).
Proof.
  revert r errors manifests. induction fuel as [|fuel IH]; intros r errors manifests Hf; [lia|]. simpl.
  pose proof (Read_consumes "" r) as Hc. destruct (Read "" r) as [[raw err] r'] eqn:Hr. simpl in Hc.
  destruct r as [|line r]; [simpl in Hr; by injection Hr as <- <- <-|].
  assert (Hn : length r' < fuel) by (simpl in *; lia).
  destruct err as [[|msg]|]; [|by apply IH|];
    (destruct (_ && _); [|eauto]);
    (destruct (defaultAndValidateConfigManifest _ _ _); eauto).
Qed.

(** C30: reading the configuration of a NodePool always ends, whatever the config maps
contain: every turn of the loop over the documents of a config map, those that skip
an invalid document included, consumes a line. *)
Theorem parse_terminates haproxy configs :
  ∃ r, parse Decode CompatibleYAMLEncode Error haproxy configs = Some r.
Proof.
  unfold parse. assert (Hc : ∀ errors manifests, is_Some (configs_from configs errors manifests)).
  { induction configs as [|config configs IH]; intros errors manifests; simpl; [eauto|].
    destruct (parse_manifests_ends (parse_fuel (mget (cmData config) "config")) (cmName config)
                (NewYAMLReader (mget (cmData config) "config")) errors manifests) as [r Hr]; [unfold parse_fuel; lia|].
    rewrite Hr. simpl. destruct r as [[es ms]| |]; eauto. }
  destruct (Hc [] (if negb (str_eqb haproxy "") then [haproxy] else [])) as [r ->]. simpl. eauto.
Qed.

(** *** Order *)

(** What was collected before stays in front. *)
Lemma parse_manifests_acc fuel name r errors manifests :
  manifests_from fuel name r errors manifests =
  match manifests_from fuel name r [] [] with
  | Some (Ret (es, ms)) => Some (Ret (errors ++ es, manifests ++ ms))
  | x => x
  end.
Proof.
  assert (Hgen : ∀ e1 m1 e2 m2, manifests_from fuel name r (e1 ++ e2) (m1 ++ m2) =
    match manifests_from fuel name r e2 m2 with
    | Some (Ret (es, ms)) => Some (Ret (e1 ++ es, m1 ++ ms))
    | x => x
    end).
  { revert r. induction fuel as [|fuel IH]; intros r e1 m1 e2 m2; [done|]. simpl.
    destruct (Read "" r) as [[raw err] r'].
    destruct err as [[|msg]|]; [|rewrite <- app_assoc; apply IH|];
      (destruct (_ && _); [|by try apply IH]);
      (destruct (defaultAndValidateConfigManifest _ _ _); rewrite <- ?app_assoc; by try apply IH). }
  rewrite <- Hgen. by rewrite !app_nil_r.
Qed.

(** What one config map contributes. *)
Definition documents (config : ConfigMap) : option (go np_error (list string * list string)) :=
  let payload := mget (cmData config) "config" in
  manifests_from (parse_fuel payload) (cmName config) (NewYAMLReader payload) [] [].

Lemma parse_configs_Ret configs errors manifests es ms :
  configs_from configs errors manifests = Some (Ret (es, ms)) ↔
  ∃ outs, Forall2 (λ c o, documents c = Some (Ret o)) configs outs ∧
    es = errors ++ concat outs.*1 ∧ ms = manifests ++ concat outs.*2.
Proof.
  revert errors manifests. induction configs as [|config configs IH]; intros errors manifests; simpl.
  - split; [intros [= <- <-]; exists []; by rewrite !app_nil_r|].
    intros (outs & ->%Forall2_nil_inv_l & -> & ->). by rewrite !app_nil_r.
  - rewrite parse_manifests_acc. fold (documents config). split.
    + destruct (documents config) as [[[e m]|err|]|] eqn:Hd; simpl; [|done..].
      intros (outs & Ho & -> & ->)%IH. exists ((e, m) :: outs). simpl.
      rewrite <- !app_assoc. split_and!; [|done..]. by constructor.
    + intros (outs & Ho & -> & ->). apply Forall2_cons_inv_l in Ho as ([e m] & outs' & Hd & Ho & ->).
      rewrite Hd. simpl. apply IH. exists outs'. by rewrite <- !app_assoc.
Qed.

#[local] Instance str_lt_antisym : AntiSymm eq (sorts_before str_lt).
Proof.
  intros s t Hst Hts. unfold sorts_before in *.
  destruct (str_lt_total s t) as [Hlt|[He|Hlt]]; [congruence|done|congruence].
Qed.

Lemma sort_strings_unique l k : l ≡ₚ k → sort_slice str_lt l = sort_slice str_lt k.
Proof.
  intros Hp. apply (StronglySorted_unique (sorts_before str_lt)).
  - apply sort_slice_sorted, StrictWeak_on. apply _.
  - apply sort_slice_sorted, StrictWeak_on. apply _.
  - by rewrite !sort_slice_perm.
Qed.

Lemma parse_order haproxy configs configs' raw :
  configs ≡ₚ configs' → parsed haproxy configs = Some (Ret raw) → parsed haproxy configs' = Some (Ret raw).
Proof.
  intros Hperm Hparsed. unfold parse in *. set (h := if negb (str_eqb haproxy "") then [haproxy] else []) in *.
  destruct (configs_from configs [] h) as [[[es ms]| |]|] eqn:Hc; simpl in Hparsed; [|done..].
  apply parse_configs_Ret in Hc as (outs & Ho & -> & ->).
  destruct (Forall2_reorder _ _ _ _ Hperm Ho) as (outs' & Hp & Ho').
  assert (Hc' : configs_from configs' [] h = Some (Ret ([] ++ concat outs'.*1, h ++ concat outs'.*2))).
  { apply parse_configs_Ret. by exists outs'. }
  rewrite Hc'. simpl in *. unfold with_aggregate in *.
  case_bool_decide as He; [|done]. assert (He' : concat outs'.*1 = []).
  { apply Permutation_nil_r. rewrite <- He. apply concat_reorder. by rewrite Hp. }
  rewrite bool_decide_true by done. do 2 f_equal. injection Hparsed as <-.
  f_equal. apply sort_strings_unique. apply Permutation_app_head, concat_reorder. by rewrite Hp.
Qed.

Context (encode_proxy : GlobalConfig.Proxy → go np_error string) (encode_image : string → go np_error string).
Context (emptyImageSpec : string) (getConfigMap : string → string → go api_error ConfigMap).
Context (api_text : api_error → string).

Lemma user_configs_Ret ns names errors configs l :
  user_configs getConfigMap api_text ns names errors configs = Ret l ↔
  errors = [] ∧ ∃ cms, Forall2 (λ n c, getConfigMap ns n = Ret c) names cms ∧ l = configs ++ cms.
Proof.
  revert errors configs. induction names as [|name names IH]; intros errors configs; simpl.
  - unfold with_aggregate. case_bool_decide as He; split; try naive_solver.
    + intros [= <-]. split; [done|]. exists []. by rewrite app_nil_r.
    + intros (_ & cms & ->%Forall2_nil_inv_l & ->). by rewrite app_nil_r.
  - destruct (getConfigMap ns name) as [cm|err|] eqn:Hg.
    + rewrite IH. split; intros (-> & cms & Hc & ->); (split; [done|]).
      * exists (cm :: cms). rewrite <- app_assoc. split; [by constructor|done].
      * apply Forall2_cons_inv_l in Hc as (cm' & cms' & Hcm & Hc & ->). rewrite Hg in Hcm. injection Hcm as <-.
        exists cms'. by rewrite <- app_assoc.
    + rewrite IH. split; [intros [He _]; by destruct errors|].
      intros (_ & cms & Hc & _). apply Forall2_cons_inv_l in Hc as (cm' & cms' & Hcm & _). congruence.
    + split; [done|]. intros (_ & cms & Hc & _). apply Forall2_cons_inv_l in Hc as (cm' & cms' & Hcm & _). congruence.
Qed.

(** Two listings with the same items. *)
Definition same_items {A} (m m' : go api_error (list A)) : Prop :=
  match m, m' with
  | Ret l, Ret l' => l ≡ₚ l'
  | _, _ => m = m'
  end.

Lemma generateMCORawConfig_order list1 list2 cg np' raw :
  (∀ ns labels, same_items (list1 ns labels) (list2 ns labels)) →
  npNamespace np' = npNamespace (nodePool cg) → npName np' = npName (nodePool cg) →
  nodeConfig (npSpec np') ≡ₚ nodeConfig (npSpec (nodePool cg)) →
  generateMCORawConfig Decode CompatibleYAMLEncode Error getConfigMap list1 api_text cg = Some (Ret raw) →
  generateMCORawConfig Decode CompatibleYAMLEncode Error getConfigMap list2 api_text
    (mkCG (hostedCluster cg) np' (controlplaneNamespace cg) (cgReleaseImage cg) (pullSecretName cg)
       (additionalTrustBundleName cg) (globalConfig cg) (mcoRawConfig cg) (haproxyRawConfig cg)) = Some (Ret raw).
Proof.
  intros Hlist Hns Hname Hcfg. unfold generateMCORawConfig, getNTOGeneratedConfig, getUserConfigs. simpl.
  rewrite Hns, Hname. destruct (_ ≫= _) as [configs| |] eqn:Hall in |- *; [|done..]. intros Hraw.
  apply go_bind_Ret in Hall as (core & Hcore & Hall). apply go_bind_Ret in Hall as (user & Huser & Hall).
  apply go_bind_Ret in Hall as (nto & Hnto & [= <-]).
  assert (Hcore' : ∃ core', getCoreConfigs list2 api_text (mkCG (hostedCluster cg) np' (controlplaneNamespace cg)
    (cgReleaseImage cg) (pullSecretName cg) (additionalTrustBundleName cg) (globalConfig cg) (mcoRawConfig cg)
    (haproxyRawConfig cg)) = Ret core' ∧ core ≡ₚ core').
  { unfold getCoreConfigs in *. simpl. specialize (Hlist (controlplaneNamespace cg) {[nodePoolCoreIgnitionConfigLabel := "true"]}).
    apply go_bind_Ret in Hcore as ([items errors] & Hitems & Hcore).
    change (expectedCoreConfigResources (mkCG _ _ _ _ _ _ _ _ _)) with (expectedCoreConfigResources cg).
    destruct (list1 _ _) as [l| |]; [|unfold same_items in Hlist; rewrite <- Hlist; injection Hitems as <- <-; simpl; by eauto|done].
    injection Hitems as <- <-. destruct (list2 _ _) as [l'| |]; [|done..]. simpl in *.
    pose proof (Permutation_length Hlist) as Hlen. rewrite <- Hlen. case_bool_decide; [done|]. unfold with_aggregate in *. injection Hcore as <-. by exists l'. }
  destruct Hcore' as (core' & -> & Hpc). simpl.
  apply user_configs_Ret in Huser as (_ & cms & Hc & ->).
  destruct (Forall2_reorder _ _ _ _ (symmetry Hcfg) Hc) as (cms' & Hpu & Hc').
  assert (Hu' : user_configs getConfigMap api_text (npNamespace (nodePool cg)) (nodeConfig (npSpec np')) [] [] = Ret cms').
  { apply user_configs_Ret. split; [done|]. by exists cms'. }
  rewrite Hu'. simpl. destruct (IsNodeTuningCapabilityEnabled _); simpl in *.
  - specialize (Hlist (controlplaneNamespace cg)
      {[nodeTuningGeneratedConfigLabel := "true"; NodePoolLabel := npName (nodePool cg)]}).
    destruct (list1 _ _) as [l| |]; [|done..]. destruct (list2 _ _) as [l'| |]; [|done..]. simpl in *.
    injection Hnto as <-. eapply parse_order; [|exact Hraw]. by rewrite Hpc, Hpu, Hlist.
  - injection Hnto as <-. eapply parse_order; [|exact Hraw]. by rewrite Hpc, Hpu.
Qed.

(** C31: neither the order in which the API server lists the config maps nor the order in
which the user names them in [spec.config] starts a rollout: the configuration that
is generated is the same, and so are both hashes and the secrets they name. *)
Theorem rollout_order_insensitive list1 list2 hc np np' image haproxy ns cg
    (Hlist : ∀ ns labels, same_items (list1 ns labels) (list2 ns labels))
    (Hnp : npNamespace np' = npNamespace np ∧ npName np' = npName np ∧ nodeConfig (npSpec np') ≡ₚ nodeConfig (npSpec np))
    (Hcg : NewConfigGenerator Decode CompatibleYAMLEncode encode_proxy encode_image Error emptyImageSpec
             getConfigMap list1 api_text hc np image haproxy ns = Ret cg) :
  ∃ cg', NewConfigGenerator Decode CompatibleYAMLEncode encode_proxy encode_image Error emptyImageSpec
           getConfigMap list2 api_text hc np' image haproxy ns = Ret cg' ∧
    mcoRawConfig cg' = mcoRawConfig cg ∧ Hash cg' = Hash cg ∧ HashWithoutVersion cg' = HashWithoutVersion cg.
Proof.
  unfold NewConfigGenerator in *. apply go_bind_Ret in Hcg as (g & -> & Hcg). simpl.
  apply go_bind_Ret in Hcg as (raw & Hraw & [= <-]).
  destruct (generateMCORawConfig _ _ _ _ list1 _ _) as [r|] eqn:Hgen; [|done]. simpl in Hraw. subst r.
  destruct Hnp as (Hns & Hname & Hcfg).
  set (cg := mkCG hc np ns image (hcPullSecret (hcc hc)) (default "" (additionalTrustBundle hc)) g "" haproxy) in *.
  pose proof (generateMCORawConfig_order list1 list2 cg np' raw Hlist Hns Hname Hcfg Hgen) as Hgen2. simpl in Hgen2.
  rewrite Hgen2. simpl. eexists. split; [done|]. by split_and!.
Qed.

(** The core config maps are never few enough for an empty listing, so that an error of
the listing is reported as missing config maps and lost. *)
Lemma core_listing_error_lost list cg err :
  (0 ≤ imageContentSources (hostedCluster cg))%Z →
  list (controlplaneNamespace cg) {[nodePoolCoreIgnitionConfigLabel := "true"]} = Throw err →
  getCoreConfigs list api_text cg = Throw (ErrMissingCoreConfig (expectedCoreConfigResources cg) 0).
Proof.
  intros Hn Hl. unfold getCoreConfigs. rewrite Hl. simpl. rewrite bool_decide_true; [done|].
  unfold expectedCoreConfigResources. destruct (Z.ltb_spec 0 (imageContentSources (hostedCluster cg)));
    destruct (negb (str_eqb (haproxyRawConfig cg) "")); lia.
Qed.

End Parse.

(** The fields that are hashed are not kept apart: another pull secret and another trust
bundle, whose names are cut differently, have the same hash, and no rollout follows. *)
Lemma Hash_not_unique cg a b c :
  let with_names p t := mkCG (hostedCluster cg) (nodePool cg) (controlplaneNamespace cg) (cgReleaseImage cg)
                          p t (globalConfig cg) (mcoRawConfig cg) (haproxyRawConfig cg) in
  Hash (with_names (a +:+ b) c) = Hash (with_names a (b +:+ c)).
Proof.
  unfold Hash. simpl. do 2 f_equal. f_equal.
  assert (Happ : ∀ x y z, ((x +:+ y) +:+ z = x +:+ (y +:+ z))%string).
  { clear. induction x as [|ch x IH]; intros y z; [done|]. simpl. unfold String.append in *. simpl. by rewrite IH. }
  by rewrite !Happ.
Qed.

(** *** A NodePool with three config maps *)

Module SampleConfig.

Definition decode (s : string) : go np_error Manifest :=
  if str_contains s "bad" then Throw (ErrText "no kind") else Ret (MachineConfig None s).
Definition encode (m : Manifest) : go np_error string :=
  match m with MachineConfig (Some l) rest => Ret (mget l "machineconfiguration.openshift.io/role" +:+ ":" +:+ rest)
             | _ => Ret "" end.
Definition cm (name config : string) : ConfigMap := mkConfigMap name {["config" := config]}.
Definition two_documents : string := "a: 1" +:+ nl +:+ "---" +:+ nl +:+ "b: 2" +:+ nl.
Definition core : list ConfigMap := [cm "fips" "f: 1"; cm "ssh" two_documents; cm "haproxy" "h: 1"].
Definition listing (l : list ConfigMap) (ns : string) (labels : StringMap) : go api_error (list ConfigMap) :=
  if mhas labels nodePoolCoreIgnitionConfigLabel then Ret l else Ret [].
Definition get (ns name : string) : go api_error ConfigMap := Ret (cm name ("user: " +:+ name)).
Definition encode_proxy (p : GlobalConfig.Proxy) : go np_error string := Ret "{}".
Definition text (e : np_error) : string := "error".
Definition api_text (e : api_error) : string := "error".

Definition hosted : HostedCluster :=
  mkHostedCluster "clusters" "prod" "prod-x7k" None "pull" "img" OVNKubernetes AgentPlatform [] "ignition.prod" true
    "AMD64" None.
Definition hosted_config : HostedClusterConfig :=
  mkHCC hosted None 0 (GlobalConfig.mkNetworking None [] [] [] AgentPlatform None) None None None None None None.
Definition pool (names : list string) : NodePool :=
  mkNodePool "clusters" "workers" 1 None None
    (mkNPSpec "prod" "img" (mkPlatform AgentPlatform None None None) (Some 3%Z)
       (mkNPManagement UpgradeTypeReplace None None true) None ∅ [] None None "amd64" None names) "4.20.3" 3 [].
Definition image : ReleaseImage := mkReleaseImage "4.20.3" ∅ None.

Definition generator (names : list string) (l : list ConfigMap) : go np_error ConfigGenerator :=
  NewConfigGenerator decode encode encode_proxy Ret text "" get (listing l) api_text
    hosted_config (pool names) image "" "clusters-prod".
Definition generated : ConfigGenerator :=
  Eval vm_compute in match generator ["one"; "two"] core with Ret cg => cg
    | _ => mkCG hosted_config (pool []) "" image "" "" "" "" "" end.
Lemma generated_run : generator ["one"; "two"] core = Ret generated.
Proof. vm_compute. reflexivity. Qed.

Lemma rollout_order_insensitive_witness :
  ∃ cg', generator ["two"; "one"] (reverse core) = Ret cg' ∧
    mcoRawConfig cg' = mcoRawConfig generated ∧ Hash cg' = Hash generated ∧
    HashWithoutVersion cg' = HashWithoutVersion generated.
Proof.
  apply (rollout_order_insensitive decode encode text encode_proxy Ret "" get api_text (listing core) (listing (reverse core))
           hosted_config (pool ["one"; "two"]) (pool ["two"; "one"]) image "" "clusters-prod" generated).
  - intros ns labels. unfold listing, same_items. destruct (mhas labels _); [by rewrite reverse_Permutation|done].
  - split_and!; [done..|]. constructor.
  - exact generated_run.
Defined.

(** An invalid document does not stop the loop. *)
Example invalid_document :
  parse decode encode text "" [cm "user" ("bad" +:+ nl +:+ "---" +:+ nl +:+ "b: 2")] =
  Some (Throw (ErrText ("configmap " +:+ quote +:+ "user" +:+ quote +:+ " yaml document failed validation: error"))).
Proof. vm_compute. reflexivity. Qed.

End SampleConfig.

End NodePoolConfigProofs.
