(* ===== verification/Token.v ===== *)
(** The token and user data secrets of a NodePool:
[hypershift-operator/controllers/nodepool/token.go] and [secret_janitor.go], with
the parts of [nodepool_controller.go] that build a token.  The token secret holds what
the ignition server needs to generate the payload of the NodePool's configuration;
the user data secret tells machines where to fetch it and with which token.  Both
carry the hash of the configuration in their names; outdated ones are expired or
deleted, by the controller and by the janitor. *)
From S2P Require Import Prelude GoSort Semver Api Upsert GlobalConfig NodePool Capi.
From S2P Require Import Base64 IgnitionServer NodePoolConfig.
From Stdlib Require Import Ascii.

Module Token.
Import Semver Upsert NodePool GlobalConfig Capi Secrets IgnitionServer NodePoolConfig.
#[local] Open Scope go_scope.

Definition UserDataSecrePrefix : string := "user-data".
Definition TokenSecretPrefix : string := "token".
Definition ManagedByKarpenterLabel : string := "hypershift.openshift.io/managed-by-karpenter".
Definition HostedClusterAnnotation : string := "hypershift.openshift.io/cluster".
Definition HostedClusterRestoredFromBackupAnnotation : string := "hypershift.openshift.io/restored-from-backup".
Definition NodePoolHAProxyImageAnnotation : string := "hypershift.openshift.io/haproxy-image".
Definition ControlPlaneOperatorImageAnnotation : string := "hypershift.openshift.io/control-plane-operator-image".
Definition HAProxyRouterImageName : string := "haproxy-router".
Definition UserDataAMILabel : string := "hypershift.openshift.io/ami".
Definition controlPlaneOperatorManagesDecompressAndDecodeConfig : string :=
  "io.openshift.hypershift.control-plane-operator-manages.decompress-decode-config".
Definition controlPlaneOperatorCreatesDefaultAWSSecurityGroup : string :=
  "io.openshift.hypershift.control-plane-operator-creates-aws-sg".
Definition TLSCertKey : string := "tls.crt".
Definition ProvisionerKarpenter : string := "Karpenter".

(** [type CPOCapabilities struct] *)
Record CPOCapabilities : Type := mkCapabilities {
  DecompressAndDecodeConfig : bool; CreateDefaultAWSSecurityGroup : bool }.

(** [type userData struct] *)
Record userData : Type := mkUserData {
  caCert : string; ignitionServerEndpoint : string; udProxy : Proxy }.

(** [type Token struct] *)
Record Token : Type := mkToken {
  cpoCapabilities : CPOCapabilities;
  configGenerator : ConfigGenerator;
  pullSecretHash : string;
  additionalTrustBundleHash : string;
  globalConfigHash : string;
  tUserData : userData;
}.

(** [ignitionapi.Config], the fields [ignConfig] sets. *)
Record IgnitionConfig : Type := mkIgnition {
  ignVersion : string;
  certificateAuthority : string;
  mergeSource : string;
  mergeHeaders : list (string * string);
  ignHTTPProxy : option string;
  ignHTTPSProxy : option string;
  ignNoProxy : list string;
}.

(** *** Names *)

(** [func (t *Token) TokenSecret() *corev1.Secret], [UserDataSecret] and the outdated
ones, which carry the hash the NodePool was last rolled out with. *)
Definition secret_name (prefix : string) (np : NodePool) (hash : string) : string :=
  prefix +:+ "-" +:+ npName np +:+ "-" +:+ hash.
Definition TokenSecret (t : Token) : Object :=
  let cg := configGenerator t in
  new_secret (controlplaneNamespace cg) (secret_name TokenSecretPrefix (nodePool cg) (Hash cg)).
Definition UserDataSecret (t : Token) : Object :=
  let cg := configGenerator t in
  new_secret (controlplaneNamespace cg) (secret_name UserDataSecrePrefix (nodePool cg) (Hash cg)).
Definition outdatedTokenSecret (t : Token) : Object :=
  let cg := configGenerator t in
  new_secret (controlplaneNamespace cg) (secret_name TokenSecretPrefix (nodePool cg)
    (npAnnotation (nodePool cg) nodePoolAnnotationCurrentConfigVersion)).
Definition outdatedUserDataSecret (t : Token) : Object :=
  let cg := configGenerator t in
  new_secret (controlplaneNamespace cg) (secret_name UserDataSecrePrefix (nodePool cg)
    (npAnnotation (nodePool cg) nodePoolAnnotationCurrentConfigVersion)).

(** [func (t *Token) isOutdated() bool] *)
Definition isOutdated (t : Token) : bool :=
  Hash (configGenerator t) != npAnnotation (nodePool (configGenerator t)) nodePoolAnnotationCurrentConfigVersion.

(** *** Karpenter: [support/karpenter/karpenter.go] *)

(** [func IsKarpenterEnabled(autoNode *hyperv1.AutoNode) bool] *)
Definition IsKarpenterEnabled (autoNode : option (string * option PlatformType)) : bool :=
  match autoNode with
  | Some (name, Some platform) => (name == ProvisionerKarpenter) && bool_decide (platform = AWSPlatform)
  | _ => false
  end.

(** [func SupportedArchitectures(platform hyperv1.PlatformType) ([]string, error)] *)
Definition SupportedArchitectures (platform : PlatformType) : go api_error (list string) :=
  match platform with
  | AWSPlatform => Ret [ArchitectureAMD64; ArchitectureARM64]
  | _ => Throw (OtherError ("unsupported platform: " +:+ PlatformType_String platform))
  end.

(** [func ArchToAMILabelKey(arch string) string] *)
Definition ArchToAMILabelKey (arch : string) : string :=
  if arch == ArchitectureAMD64 then UserDataAMILabel else UserDataAMILabel +:+ "-" +:+ arch.

(** [hyperv1.ArchAliases] *)
Definition ArchAliases : StringMap := {[ArchitectureAMD64 := "x86_64"; ArchitectureARM64 := "aarch64"]}.

(** [func defaultNodePoolAMI(region, specifiedArch, releaseImage) (string, error)] *)
Definition defaultNodePoolAMI (region specifiedArch : string) (releaseImage : ReleaseImage) : go api_error string :=
  match StreamMetadata releaseImage with
  | None => Throw (OtherError "release image stream metadata is nil")
  | Some architectures =>
      match architectures !! mget ArchAliases specifiedArch with
      | None => Throw (OtherError ("couldn't find OS metadata for architecture " +:+ specifiedArch))
      | Some regions =>
          match regions !! region with
          | None => Throw (OtherError ("couldn't find AWS image for region " +:+ region))
          | Some image =>
              if image == "" then Throw (OtherError ("release image metadata has no image for region " +:+ region))
              else Ret image
          end
      end
  end.

(** The loop of [setKarpenterAMILabels]: the labels and how many were set. *)
Fixpoint set_ami_labels (region : string) (releaseImage : ReleaseImage) (archs : list string)
    (labels : StringMap) (supported : Z) : StringMap * Z :=
  match archs with
  | [] => (labels, supported)
  | arch :: archs =>
      match defaultNodePoolAMI region arch releaseImage with
      | Ret ami => set_ami_labels region releaseImage archs (<[ArchToAMILabelKey arch := ami]> labels) (supported + 1)
      | _ => set_ami_labels region releaseImage archs labels supported
      end
  end.

(** [func setKarpenterAMILabels(log, userDataSecret, region, releaseImage, platform) error] on
the labels of the secret *)
Definition setKarpenterAMILabels (labels : StringMap) (region : string) (releaseImage : ReleaseImage)
    (platform : PlatformType) : go api_error StringMap :=
  match SupportedArchitectures platform with
  | Panic => Panic
  | Throw e => Throw (Wrapped "failed to get supported architectures" e)
  | Ret archs =>
      let '(labels, supported) := set_ami_labels region releaseImage archs labels 0 in
      if (supported =? 0)%Z then Throw (OtherError "no supported architectures found") else Ret labels
  end.

(** *** The secrets *)

(** [func ignConfig(encodedCACert, encodedToken, endpoint, targetConfigVersionHash, proxy, nodePool) ignitionapi.Config] *)
Definition ignConfig (encodedCACert encodedToken endpoint targetConfigVersionHash : string) (proxy : Proxy)
    (np : NodePool) : IgnitionConfig :=
  let unless_empty s := if s == "" then None else Some s in
  mkIgnition "3.2.0" ("data:text/plain;base64," +:+ encodedCACert) ("https://" +:+ endpoint +:+ "/ignition")
    [("Authorization", "Bearer " +:+ encodedToken); ("NodePool", nodePoolKey np);
     ("TargetConfigVersionHash", targetConfigVersionHash)]
    (unless_empty (HTTPProxy proxy)) (unless_empty (HTTPSProxy proxy))
    (if NoProxy proxy == "" then [] else split ","%char (NoProxy proxy)).

(** Whether the NodePool belongs to Karpenter. *)
Definition karpenter_managed (t : Token) : bool :=
  let cg := configGenerator t in
  IsKarpenterEnabled (autoNode (hostedCluster cg)) &&
  (mget (default ∅ (npLabels (nodePool cg))) ManagedByKarpenterLabel == "true").

Definition set_immutable (b : bool) (o : Object) : Object :=
  match oBody o with Secret _ d c => set_body (Secret (Some b) d c) o | _ => o end.

Section Secrets.
Context `{!Gzip}.
(** [time.Now()] in RFC 3339 with nanoseconds, and [uuid.New().String()] *)
Context (generationTime newUUID : string).
(** [json.Marshal] of an ignition configuration *)
Context (marshal : IgnitionConfig → go api_error string).

(** The data of a new token secret. *)
Definition token_data (t : Token) : StringMap :=
  let cg := configGenerator t in
  {[TokenSecretTokenKey := newUUID;
    TokenSecretReleaseKey := releaseImage (npSpec (nodePool cg));
    TokenSecretConfigKey := (if DecompressAndDecodeConfig (cpoCapabilities t) then CompressedAndEncoded cg
                             else Compressed cg);
    TokenSecretPullSecretHashKey := pullSecretHash t;
    TokenSecretAdditionalTrustBundleHashKey := additionalTrustBundleHash t;
    TokenSecretHCConfigurationHashKey := globalConfigHash t]}.

(** The annotations the token secret always gets. *)
Definition token_annotations (t : Token) (an : StringMap) : StringMap :=
  let cg := configGenerator t in
  let an := <[TokenSecretAnnotation := "true"]> an in
  let an := <[TokenSecretNodePoolUpgradeType := upgradeType (management (npSpec (nodePool cg)))]> an in
  let an := <[nodePoolAnnotation := nodePoolKey (nodePool cg)]> an in
  let an := if karpenter_managed t
            then <[HostedClusterAnnotation := hcNamespace (hcc (hostedCluster cg)) +:+ "/" +:+ hcName (hcc (hostedCluster cg))]> an
            else an in
  let an := delete IgnitionServerTokenExpirationTimestampAnnotation an in
  if hcHas (hcc (hostedCluster cg)) HostedClusterRestoredFromBackupAnnotation
  then <[TokenSecretIgnitionReachedAnnotation := "True"]> an else an.

(** [func (t *Token) reconcileTokenSecret(tokenSecret *corev1.Secret) error] *)
Definition reconcileTokenSecret (t : Token) (tokenSecret : Object) : go api_error Object :=
  let o := set_immutable false tokenSecret in
  let an := token_annotations t (annotations o) in
  let labels := if karpenter_managed t
                then Some (<[ManagedByKarpenterLabel := "true"]> (default ∅ (oLabels o)))
                else oLabels o in
  let '(an, o) := match Data o with
                  | None => (<[TokenSecretTokenGenerationTime := generationTime]> an, set_Data (token_data t) o)
                  | Some _ => (an, o)
                  end in
  put TokenSecretHCConfigurationHashKey (globalConfigHash t) (set_meta labels (Some an) o).

(** [func (t *Token) reconcileUserDataSecret(log, userDataSecret, token string) error];
[hostedCluster.Spec.Platform.AWS] may be nil. *)
Definition reconcileUserDataSecret (t : Token) (token : string) (userDataSecret : Object) : go api_error Object :=
  let cg := configGenerator t in
  let o := set_immutable false userDataSecret in
  let an := <[nodePoolAnnotation := nodePoolKey (nodePool cg)]> (annotations o) in
  let labels := default ∅ (oLabels o) in
  labels ← (if karpenter_managed t then
              match cnAWSRegion (networking (hostedCluster cg)) with
              | None => Panic
              | Some region =>
                  labels ← setKarpenterAMILabels labels region (cgReleaseImage cg) (hcPlatformType (hcc (hostedCluster cg)));
                  Ret (<[ManagedByKarpenterLabel := "true"]> labels)
              end
            else Ret labels);
  let cfg := ignConfig (Base64.EncodeToString (caCert (tUserData t))) (Base64.EncodeToString token)
               (ignitionServerEndpoint (tUserData t)) (Hash cg) (udProxy (tUserData t)) (nodePool cg) in
  match marshal cfg with
  | Panic => Panic
  | Throw e => Throw (Wrapped "failed to marshal ignition config" e)
  | Ret userDataValue =>
      Ret (set_Data {["disableTemplating" := Base64.EncodeToString "true"; "value" := userDataValue]}
             (set_meta (Some labels) (Some an) o))
  end.

End Secrets.

(** *** The controller *)

Section Controller.
Context {S : Type} `{!Client S ObjectRef Object} `{!SemanticEqual} `{!Gzip}.
Context (format_rfc3339 : Time → string).

#[local] Abbreviation M := (st S api_error).

(** A client call whose missing object is no error. *)
Definition ignore_not_found (m : M unit) : M unit :=
  st_catch m (λ err, if IsNotFound err then mret () else st_throw err).
Definition wrap {A} (msg : string) (m : M A) : M A := st_catch m (λ err, st_throw (Wrapped msg err)).

(** [func setExpirationTimestampOnToken(ctx, c, tokenSecret, now) error] *)
Definition setExpirationTimestampOnToken (tokenSecret : Object) (now : Time) : M unit :=
  if mhas (annotations tokenSecret) IgnitionServerTokenExpirationTimestampAnnotation then mret () else
  let timeUntilExpiry := (2 * hour)%Z in
  let an := <[IgnitionServerTokenExpirationTimestampAnnotation := format_rfc3339 (time_add now timeUntilExpiry)]>
              (annotations tokenSecret) in
  _ ← c_update (ref_of tokenSecret) (set_annotations an tokenSecret);
  mret ().

(** [t.Get(ctx, client.ObjectKeyFromObject(o), o)]: the object, or nothing when it is missing. *)
Definition get_existing (o : Object) : M (option Object) := λ s,
  match c_get (ref_of o) s with
  | Ret o => (Ret (Some o), s)
  | Throw err => if IsNotFound err then (Ret None, s) else (Throw err, s)
  | Panic => (Panic, s)
  end.

(** [func (t *Token) cleanupOutdated(ctx) error] *)
Definition cleanupOutdated (t : Token) (now : Time) : M unit :=
  tokenSecret ← wrap "failed to get token Secret" (get_existing (outdatedTokenSecret t));
  _ ← (match tokenSecret with
       | Some o => wrap "failed to set expiration on token Secret" (ignore_not_found (setExpirationTimestampOnToken o now))
       | None => mret ()
       end);
  if bool_decide (pType (platform (npSpec (nodePool (configGenerator t)))) ≠ AWSPlatform) then
    userDataSecret ← wrap "failed to get user data Secret" (get_existing (outdatedUserDataSecret t));
    match userDataSecret with
    | Some o => wrap "failed to delete user data Secret" (ignore_not_found (c_delete (ref_of o)))
    | None => mret ()
    end
  else mret ().

(** [t.CreateOrUpdate(ctx, t.Client, obj, f)] with the provider [upsert.New(false)]: the
caller's object after the call. *)
Definition createOrUpdate (obj : Object) (f : Object → go api_error Object) : M Object := λ s,
  let '(r, w) := CreateOrUpdate obj f (New false s) in (snd <$> r, w_cluster w).

Context (generationTime newUUID : string) (marshal : IgnitionConfig → go api_error string).

(** [func (t *Token) Reconcile(ctx) error] *)
Definition Reconcile (t : Token) (now : Time) : M unit :=
  _ ← (if isOutdated t
       then wrap "failed to cleanup outdated token Secrets" (cleanupOutdated t now) else mret ());
  tokenSecret ← wrap "failed to reconcile token Secret"
                  (createOrUpdate (TokenSecret t) (reconcileTokenSecret generationTime newUUID t));
  match data tokenSecret !! TokenSecretTokenKey with
  | None => st_throw (OtherError "token secret is missing token key")
  | Some token =>
      _ ← createOrUpdate (UserDataSecret t) (reconcileUserDataSecret marshal t token);
      mret ()
  end.

End Controller.

(** *** Making a token *)

(** [%v] of a byte slice *)
Definition bytes_text (s : string) : string :=
  "[" +:+ Text.Join ((λ c, itoa (Z.of_nat (nat_of_ascii c))) <$> String.list_ascii_of_string s) " " +:+ "]".

(** [func HashBytes(data []byte) (string, error)] of [support/util/util.go]; writing to a
hash does not fail. *)
Definition HashBytes (data : string) : string := HashSimple data.

(** [func HCControlPlaneReleaseImage(hcluster *hyperv1.HostedCluster) string] of
[support/util/util.go] *)
Definition HCControlPlaneReleaseImage (hc : HostedClusterConfig) : string :=
  default (hcReleaseImage (hcc hc)) (controlPlaneRelease hc).

Section Generation.
Context {S : Type} `{!Client S ObjectRef Object} `{!SliceSort}.
(** The release provider, image metadata (labels), overrides of the operator image, and
the images of the operator and of the shared ingress, when it is in use. *)
Context (Lookup : string → string → go api_error ReleaseImage).
Context (ImageMetadata : string → string → go api_error StringMap).
Context (CPOImage : option (PlatformType → Semver.Version → string)).
Context (hypershiftOperatorImage : string) (sharedIngressImage : option string).
(** Reads of the cluster, and what [config.go] and [haproxy.go] are called with. *)
Context (listMachines_ : S → string → go api_error (list Machine)).
Context (getConfigMap : S → string → string → go api_error ConfigMap).
Context (listConfigMaps : S → string → StringMap → go api_error (list ConfigMap)).
Context (Decode : string → go np_error Manifest) (CompatibleYAMLEncode : Manifest → go np_error string).
Context (encode_proxy : Proxy → go np_error string) (encode_image : string → go np_error string).
Context (marshal_configuration : option string → go np_error string).
Context (Error : np_error → string) (api_text : api_error → string) (emptyImageSpec : string).
Context (GenerateHAProxyRawConfig : S → string → HostedClusterConfig → string → go np_error string).

Definition reads (s : S) : Reads :=
  mkReads (λ ns name, o ← c_get (secret_ref ns name) s; Ret (oAnnotations o, Data o))
    (λ image pullSecret, riVersion <$> Lookup image pullSecret) (listMachines_ s).

(** [func (r *NodePoolReconciler) getAdditionalTrustBundle(ctx, hostedCluster) ( *corev1.ConfigMap, error)],
the bundle *)
Definition getAdditionalTrustBundle (s : S) (hc : HostedClusterConfig) (name : string) : go np_error string :=
  let ns := hcNamespace (hcc hc) in
  match getConfigMap s ns name with
  | Panic => Panic
  | Throw err => Throw (ErrWrapped ("cannot get additionalTrustBundle " +:+ ns +:+ "/" +:+ name) (ErrApi err))
  | Ret cm =>
      match cmData cm !! "ca-bundle.crt" with
      | None => Throw (ErrText (" additionalTrustBundle " +:+ ns +:+ "/" +:+ name +:+ " missing ca-bundle.crt key"))
      | Some bundle => Ret bundle
      end
  end.

(** [func GetBackwardCompatibleConfigHash(config *v1beta1.ClusterConfiguration) (string, error)] *)
Definition GetBackwardCompatibleConfigHash (config : option string) : go np_error string :=
  jsonData ← marshal_configuration config;
  Ret (HashBytes (Text.RemoveEmptyJSONField jsonData ImageStreamImportModeField)).

(** [func (t *Token) getIgnitionCACert(ctx) ([]byte, error)] *)
Definition getIgnitionCACert (s : S) (controlplaneNamespace : string) : go np_error string :=
  match c_get (secret_ref controlplaneNamespace "ignition-server-ca-cert") s with
  | Panic => Panic
  | Throw err => Throw (ErrApi err)
  | Ret caSecret =>
      match data caSecret !! TLSCertKey with
      | None => Throw (ErrText "CA Secret is missing tls.crt key")
      | Some caCertBytes => Ret caCertBytes
      end
  end.

(** [func NewToken(ctx, configGenerator, cpoCapabilities) ( *Token, error)] with both there *)
Definition NewToken (s : S) (cg : ConfigGenerator) (capabilities : CPOCapabilities) : go np_error Token :=
  let hc := hostedCluster cg in
  pullSecretBytes ← getPullSecretBytes (reads s) (hcc hc);
  bundle ← (match additionalTrustBundle hc with
            | None => Ret ""
            | Some name => getAdditionalTrustBundle s hc name
            end);
  hcConfigurationHash ← lift_error (ErrWrapped "failed to hash HostedCluster configuration")
                          (GetBackwardCompatibleConfigHash (configuration hc));
  caCert ← getIgnitionCACert s (controlplaneNamespace cg);
  let ignEndpoint := hcIgnitionEndpoint (hcc hc) in
  if ignEndpoint == "" then Throw (ErrText "ignition endpoint is not set") else
  proxy ← ReconcileProxyConfigWithStatusFromHostedCluster ProxyConfig (networking hc);
  Ret (mkToken capabilities cg (HashSimple (bytes_text pullSecretBytes)) (HashSimple bundle) hcConfigurationHash
         (mkUserData caCert ignEndpoint proxy)).

(** [func resolveHAProxyImage(nodePool, releaseImage) (string, error)] *)
Definition resolveHAProxyImage (np : NodePool) (releaseImage : ReleaseImage) : go np_error string :=
  let annotationImage := Text.TrimSpace (npAnnotation np NodePoolHAProxyImageAnnotation) in
  if annotationImage != "" then Ret annotationImage else
  match sharedIngressImage with
  | Some image => Ret image
  | None =>
      match ComponentImages releaseImage !! HAProxyRouterImageName with
      | Some image => Ret image
      | None => Throw (ErrText ("release image doesn't have a " +:+ HAProxyRouterImageName +:+ " image"))
      end
  end.

(** [func (r *NodePoolReconciler) generateHAProxyRawConfig(ctx, nodePool, hcluster, releaseImage) (string, error)] *)
Definition generateHAProxyRawConfig (s : S) (np : NodePool) (hc : HostedClusterConfig) (releaseImage : ReleaseImage)
    : go np_error string :=
  haProxyImage ← resolveHAProxyImage np releaseImage;
  GenerateHAProxyRawConfig s haProxyImage hc (HostedControlPlaneNamespace (hcNamespace (hcc hc)) (hcName (hcc hc))).

(** [func GetControlPlaneOperatorImage(ctx, hc, releaseProvider, hypershiftOperatorImage, pullSecret) (string, error)]
of [support/util/util.go] *)
Definition GetControlPlaneOperatorImage (hc : HostedClusterConfig) (pullSecret : string) : go np_error string :=
  match default ∅ (hcAnnotations (hcc hc)) !! ControlPlaneOperatorImageAnnotation with
  | Some val => Ret val
  | None =>
      releaseInfo ← lift_error ErrApi (Lookup (HCControlPlaneReleaseImage hc) pullSecret);
      version ← lift_error ErrSemver (Parse (riVersion releaseInfo));
      let overrideImage := match CPOImage with
                           | Some f => f (hcPlatformType (hcc hc)) version
                           | None => ""
                           end in
      if overrideImage != "" then Ret overrideImage else
      match ComponentImages releaseInfo !! "hypershift" with
      | Some image => Ret image
      | None => if (Minor version <? 9)%Z
                then Throw (ErrText ("unsupported release image with version " +:+ Version_String version))
                else Ret hypershiftOperatorImage
      end
  end.

(** [func (r *NodePoolReconciler) detectCPOCapabilities(ctx, hostedCluster) ( *CPOCapabilities, error)] *)
Definition detectCPOCapabilities (s : S) (hc : HostedClusterConfig) : go np_error CPOCapabilities :=
  pullSecretBytes ← getPullSecretBytes (reads s) (hcc hc);
  image ← lift_error (ErrWrapped "failed to get controlPlaneOperatorImage") (GetControlPlaneOperatorImage hc pullSecretBytes);
  imageLabels ← lift_error (λ e, ErrWrapped ("failed to look up image metadata for " +:+ image) (ErrApi e))
                  (ImageMetadata image pullSecretBytes);
  Ret (mkCapabilities (mhas imageLabels controlPlaneOperatorManagesDecompressAndDecodeConfig)
         (mhas imageLabels controlPlaneOperatorCreatesDefaultAWSSecurityGroup)).

(** [getReleaseImage] with the image itself: it was looked up with the same pull secret. *)
Definition validReleaseImage (s : S) (np : NodePool) (hc : HostedClusterConfig) : go np_error ReleaseImage :=
  _ ← getReleaseImage (reads s) (hcc hc) (npVersion np) (releaseImage (npSpec np));
  pullSecretBytes ← getPullSecretBytes (reads s) (hcc hc);
  lift_error ErrApi (Lookup (releaseImage (npSpec np)) pullSecretBytes).

Definition newConfigGenerator (s : S) :=
  NewConfigGenerator Decode CompatibleYAMLEncode encode_proxy encode_image Error emptyImageSpec
    (getConfigMap s) (listConfigMaps s) api_text.

(** [func (r *NodePoolReconciler) token(ctx, hcluster, nodePool) ( *Token, error)] *)
Definition token (s : S) (hc : HostedClusterConfig) (np : NodePool) : go np_error Token :=
  releaseImage ← lift_error (ErrWrapped "failed to look up release image metadata") (validReleaseImage s np hc);
  haproxyRawConfig ← lift_error (ErrWrapped "failed to generate HAProxy raw config")
                       (generateHAProxyRawConfig s np hc releaseImage);
  cg ← lift_error (ErrWrapped "failed to generate config")
         (newConfigGenerator s hc np releaseImage haproxyRawConfig
            (HostedControlPlaneNamespace (hcNamespace (hcc hc)) (hcName (hcc hc))));
  capabilities ← lift_error (ErrWrapped "failed to detect CPO capabilities") (detectCPOCapabilities s hc);
  lift_error (ErrWrapped "failed to create token") (NewToken s cg capabilities).

(** What the rest of the NodePool controller reads of a token. *)
Definition target_of (t : Token) : Target :=
  mkTarget (oName (UserDataSecret t)) (oName (TokenSecret t)) (Version (configGenerator t))
    (HashWithoutVersion (configGenerator t)) (Hash (configGenerator t)).

(** *** The janitor *)

Context (format_rfc3339 : Time → string).
Context (getNodePool : S → string → string → go api_error NodePool).
Context (getHostedCluster : S → string → string → go api_error HostedClusterConfig).

#[local] Abbreviation J := (st S np_error).
Definition lift_api {A} (m : st S api_error A) : J A := λ s, let '(r, s') := m s in (lift_error ErrApi r, s').

(** [func (r *secretJanitor) cleanupSecretForDeletion(ctx, secret) error] *)
Definition cleanupSecretForDeletion (now : Time) (secret : Object) : st S api_error unit :=
  if has_prefix (oName secret) TokenSecretPrefix
  then ignore_not_found (setExpirationTimestampOnToken format_rfc3339 secret now)
  else ignore_not_found (c_delete (ref_of secret)).

(** [func (r *NodePoolReconciler) shouldKeepOldUserData(ctx, hc) (bool, error)] *)
Definition shouldKeepOldUserData (s : S) (hc : HostedClusterConfig) : go np_error bool :=
  if negb (bool_decide (hcPlatformType (hcc hc) = AWSPlatform)) then Ret false else
  let releaseImage := match hcVersion (hcc hc) with
                      | Some v => match vsHistory v with h :: _ => uhImage h | [] => hcReleaseImage (hcc hc) end
                      | None => hcReleaseImage (hcc hc)
                      end in
  pullSecretBytes ← lift_error (ErrWrapped "failed to get pull secret bytes") (getPullSecretBytes (reads s) (hcc hc));
  releaseInfo ← lift_error (λ e, ErrWrapped "failed to lookup release image" (ErrApi e)) (Lookup releaseImage pullSecretBytes);
  hostedClusterVersion ← lift_error ErrSemver (Parse (riVersion releaseInfo));
  Ret (LT hostedClusterVersion (release 4 16 0)).

(** The end of the janitor's [Reconcile]: an expected secret stays, another is cleaned up
as its prefix says; the last prefix that matches counts. *)
Definition cleanup_unexpected (now : Time) (t : Token) (secret : Object) : st S api_error unit :=
  if (oName secret == oName (TokenSecret t)) || (oName secret == oName (UserDataSecret t)) then mret () else
  if has_prefix (oName secret) UserDataSecrePrefix then c_delete (ref_of secret)
  else if has_prefix (oName secret) TokenSecretPrefix then setExpirationTimestampOnToken format_rfc3339 secret now
  else c_delete (ref_of secret).

(** [func (r *secretJanitor) Reconcile(ctx, req reconcile.Request) (reconcile.Result, error)] *)
Definition janitor (now : Time) (ns name : string) : J unit := λ s,
  match c_get (secret_ref ns name) s with
  | Panic => (Panic, s)
  | Throw err => if IsNotFound err then (Ret (), s) else (Throw (ErrApi err), s)
  | Ret secret =>
      match annotations secret !! nodePoolAnnotation with
      | None => (Ret (), s)
      | Some nodePoolName =>
          if negb (has_prefix (oName secret) TokenSecretPrefix || has_prefix (oName secret) UserDataSecrePrefix)
          then (Ret (), s) else
          let key := ParseNamespacedName nodePoolName in
          match getNodePool s key.1 key.2 with
          | Panic => (Panic, s)
          | Throw err =>
              if negb (IsNotFound err) then (Throw (ErrApi err), s) else
              if mget (default ∅ (oLabels secret)) ManagedByKarpenterLabel == "true" then (Ret (), s) else
              lift_api (ignore_not_found (c_delete (ref_of secret))) s
          | Ret np =>
              match getHostedCluster s (npNamespace np) (clusterName (npSpec np)) with
              | Panic => (Panic, s)
              | Throw err => if IsNotFound err then lift_api (cleanupSecretForDeletion now secret) s
                             else (Throw (ErrApi err), s)
              | Ret hc =>
                  if bool_decide (is_Some (hcDeletionTimestamp hc))
                  then lift_api (cleanupSecretForDeletion now secret) s else
                  (keep ← st_lift (shouldKeepOldUserData s hc);
                   if (keep : bool) then mret () else
                   t ← st_lift
                     (releaseImage ← validReleaseImage s np hc;
                      haproxyRawConfig ← lift_error (ErrWrapped "failed to generate HAProxy raw config")
                                           (generateHAProxyRawConfig s np hc releaseImage);
                      cg ← newConfigGenerator s hc np releaseImage haproxyRawConfig
                             (HostedControlPlaneNamespace (hcNamespace (hcc hc)) (hcName (hcc hc)));
                      capabilities ← lift_error (ErrWrapped "failed to detect CPO capabilities") (detectCPOCapabilities s hc);
                      lift_error (ErrWrapped "failed to create token") (NewToken s cg capabilities));
                   lift_api (cleanup_unexpected now t secret)) s
              end
          end
      end
  end.

End Generation.

End Token.
