(* ===== verification/TokenProofs.v ===== *)
(** What the token and user data secrets of a NodePool guarantee: they match, active
ones are neither expired nor removed, outdated ones are retired, and together with
the ignition server they boot machines. *)
From S2P Require Import Prelude GoSort Semver Api Upsert UpsertProofs GlobalConfig NodePool Capi.
From S2P Require Import Base64 IgnitionServer IgnitionServerProofs NodePoolConfig NodePoolConfigProofs Token.

Module TokenProofs.
Import Upsert UpsertProofs NodePool Capi Secrets IgnitionServer NodePoolConfig Token.

(** What the API server and [equality.Semantic] promise of secrets: admission keeps
their name, kind, metadata and data; semantically equal secrets have the same data and
annotations (a nil map equals an empty one); an object whose update reports it
missing is missing, and an update that fails otherwise may have been stored; a
secret that is being deleted is the secret with a deletion timestamp. *)
Class SecretLaws (S : Type) `{!Client S ObjectRef Object} `{!ClientLaws S ObjectRef Object}
    `{!SemanticEqual} : Prop := {
  admit_secret old m : is_secret m = true →
    let a := admit_object old m in
    is_secret a = true ∧ data a = data m ∧ oAnnotations a = oAnnotations m ∧
    ObjectKeyFromObject a = ObjectKeyFromObject m ∧ oDeletionTimestamp a = oDeletionTimestamp m;
  equal_secrets a b : is_secret a = true → is_secret b = true → DeepEqual a b = true →
    data a = data b ∧ annotations a = annotations b;
  update_missing k o (s : S) e s' : c_update k o s = (Throw e, s') → IsNotFound e = true →
    view s !! k = None;
  update_effect k o (s : S) r s' : c_update k o s = (r, s') →
    view s' = view s ∨ view s' = <[k := admit_object (view s !! k) o]> (view s);
  terminating_secret o o' : terminating o o' →
    is_secret o' = is_secret o ∧ ObjectKeyFromObject o' = ObjectKeyFromObject o ∧ oDeletionTimestamp o' ≠ None;
}.

Lemma is_secret_kind o : is_secret o = true → goTypeName o = "*v1.Secret".
Proof. unfold is_secret, goTypeName. by destruct (oBody o). Qed.

Lemma is_secret_body o : is_secret o = true → ∃ i d c, oBody o = Secret i d c.
Proof. unfold is_secret. destruct (oBody o) as [| | | | | | | | | | |i d c|]; try done. by exists i, d, c. Qed.

Lemma secret_ref_of o : is_secret o = true → ref_of o = secret_ref (oNamespace o) (oName o).
Proof. intros Hs%is_secret_kind. unfold ref_of, secret_ref. by rewrite Hs. Qed.

(** Under the reference of a secret there is a secret of that name. *)
Definition typed (m : gmap ObjectRef Object) : Prop :=
  ∀ ns n o, m !! secret_ref ns n = Some o → is_secret o = true ∧ oNamespace o = ns ∧ oName o = n.

Lemma typed_insert m ns n o : typed m → is_secret o = true → oNamespace o = ns → oName o = n →
  typed (<[secret_ref ns n := o]> m).
Proof.
  intros Hm Hs Hns Hn ns' n' p. rewrite lookup_insert_Some. intros [[Hk <-]|[_ Hj]]; [|by apply Hm].
  unfold secret_ref in Hk. by injection Hk as -> ->.
Qed.
Lemma typed_delete m k : typed m → typed (delete k m).
Proof. intros Hm ns n p [_ Hj]%lookup_delete_Some. by apply Hm. Qed.

(** What a mutate function of a secret may not change. *)
Definition keeps_identity (f : Object → go api_error Object) : Prop :=
  ∀ e m, is_secret e = true → f e = Ret m →
    is_secret m = true ∧ oNamespace m = oNamespace e ∧ oName m = oName e ∧
    oDeletionTimestamp m = oDeletionTimestamp e.

Section Cluster.
Context {S : Type} `{!Client S ObjectRef Object} `{!ClientLaws S ObjectRef Object} `{!SemanticEqual} `{!SecretLaws S}.

Lemma secret_no_status o : is_secret o = true → no_status o.
Proof. intros Hs%is_secret_kind. unfold no_status, hasStatusSubResource. by rewrite Hs. Qed.

(** [CreateOrUpdate] of a secret: what is stored is what the mutate function made of the
secret that was there, or of the caller's. *)
Lemma createOrUpdate_secret ns n f (s : S) o s' :
  keeps_identity f → typed (view s) →
  createOrUpdate (new_secret ns n) f s = (Ret o, s') →
  ∃ before after stored,
    (view s !! secret_ref ns n = Some before ∨ view s !! secret_ref ns n = None ∧ before = new_secret ns n) ∧
    f before = Ret after ∧ view s' = <[secret_ref ns n := stored]> (view s) ∧
    is_secret stored = true ∧ oNamespace stored = ns ∧ oName stored = n ∧
    data stored = data after ∧ annotations stored = annotations after ∧
    oDeletionTimestamp stored = oDeletionTimestamp before ∧ data o = data after.
Proof.
  intros Hf Ht. unfold createOrUpdate.
  destruct (CreateOrUpdate _ _ _) as [r w] eqn:Hrun. destruct r as [[res o1]| |]; simpl; [|done..]. intros [= -> <-].
  apply CreateOrUpdate_success in Hrun. change (ref_of (new_secret ns n)) with (secret_ref ns n) in Hrun. simpl in Hrun.
  destruct (c_get (secret_ref ns n) s) as [e|err|] eqn:Hg; [| |done].
  - apply get_stored in Hg. destruct (Ht _ _ _ Hg) as (He & Hns & Hn).
    destruct Hrun as (m & d & [Hfe _]%mutate_Ret & Hd & Hrest).
    destruct (Hf e m He Hfe) as (Hm & Hmns & Hmn & Hmd).
    assert (d = m) as ->.
    { destruct (is_secret_body e He) as (i & dd & c & Hb). unfold defaultObject in Hd. rewrite Hb in Hd. by injection Hd. }
    destruct (DeepEqual e m) eqn:Heq.
    + destruct Hrest as (_ & -> & ->). destruct (equal_secrets e m He Hm Heq) as [Hdata Han].
      exists e, m, e. rewrite (insert_id (view s)) by done. split_and!; try done. by left.
    + destruct Hrest as (o2 & s2 & det & ws & Hu & Hst). apply update_stored in Hu as [-> Hv].
      destruct (admit_secret (view s !! ref_of m) m Hm) as (Ha & Had & Haa & Hak & Hadel).
      rewrite updateStatus_none in Hst by by apply secret_no_status. injection Hst as _ <- <-. simpl.
      injection Hak as Hk1 Hk2. exists e, m, (admit_object (view s !! ref_of m) m). rewrite Hv.
      rewrite (secret_ref_of m Hm), Hmns, Hmn, Hns, Hn. unfold annotations.
      rewrite (secret_ref_of m Hm), Hmns, Hmn, Hns, Hn in *. rewrite Hk1, Hk2, Haa, Hadel. split_and!; try congruence. by left.
  - destruct Hrun as (m & o2 & s2 & [Hfe _]%mutate_Ret & Hc & Hst). apply create_stored in Hc as [-> Hv].
    destruct (Hf (new_secret ns n) m eq_refl Hfe) as (Hm & Hmns & Hmn & Hmd). simpl in Hmns, Hmn, Hmd.
    destruct (admit_secret None m Hm) as (Ha & Had & Haa & Hak & Hadel).
    rewrite updateStatus_none in Hst by by apply secret_no_status. injection Hst as _ <- <-. simpl.
    injection Hak as Hk1 Hk2. exists (new_secret ns n), m, (admit_object None m). rewrite Hv.
    rewrite (secret_ref_of m Hm), Hmns, Hmn. unfold annotations. rewrite Hk1, Hk2, Haa, Hadel.
    split_and!; try done; try congruence. right. split; [|done].
    destruct (view s !! secret_ref ns n) as [x|] eqn:Hx; [|done]. apply get_stored in Hx. congruence.
Qed.

(** An expiring secret keeps everything but the annotation, which gets two hours from now
unless it is there already. *)
Lemma setExpiration_Ret format (o : Object) now (s s' : S) :
  typed (view s) → view s !! secret_ref (oNamespace o) (oName o) = Some o →
  ignore_not_found (setExpirationTimestampOnToken format o now) s = (Ret (), s') →
  ∃ o', view s' = <[secret_ref (oNamespace o) (oName o) := o']> (view s) ∧
    is_secret o' = true ∧ oNamespace o' = oNamespace o ∧ oName o' = oName o ∧ data o' = data o ∧
    annotations o' = if mhas (annotations o) IgnitionServerTokenExpirationTimestampAnnotation then annotations o
      else <[IgnitionServerTokenExpirationTimestampAnnotation := format (time_add now (2 * hour)%Z)]> (annotations o).
Proof.
  intros Ht Ho. destruct (Ht _ _ _ Ho) as (Hs & _ & _). unfold ignore_not_found, setExpirationTimestampOnToken, st_catch.
  destruct (mhas _ _); [intros [= <-]; exists o; by rewrite insert_id|]. unfold mbind, st_bind.
  set (m := set_annotations _ o). assert (Hm : is_secret m = true) by exact Hs.
  destruct (c_update (ref_of o) m s) as [[o1|err|] s1] eqn:Hu; [| |done].
  - intros [= <-]. apply update_stored in Hu as [-> Hv].
    rewrite (secret_ref_of o Hs) in Hv. destruct (admit_secret (view s !! ref_of o) m Hm) as (Ha & Had & Haa & Hak & _).
    rewrite (secret_ref_of o Hs) in *. injection Hak as Hk1 Hk2.
    eexists. split; [exact Hv|]. unfold annotations at 1. rewrite Haa, Hk1, Hk2, Had. by split_and!.
  - destruct (IsNotFound err) eqn:Hnf; [|done]. intros _. apply update_missing in Hu; [|done].
    rewrite (secret_ref_of o Hs) in Hu. congruence.
Qed.

Lemma get_existing_Ret o (s s' : S) r : get_existing o s = (Ret r, s') → s' = s ∧ view s !! ref_of o = r.
Proof.
  unfold get_existing. destruct (c_get _ _) as [x|err|] eqn:Hg; [intros [= <- <-]| |done].
  - apply get_stored in Hg. by split.
  - destruct (IsNotFound err) eqn:Hn; [|done]. intros [= <- <-]. split; [done|]. by eapply get_missing.
Qed.

Lemma wrap_Ret {A} msg (m : st S api_error A) s a s' : wrap msg m s = (Ret a, s') → m s = (Ret a, s').
Proof. unfold wrap, st_catch. by destruct (m s) as [[]]. Qed.

Lemma ignore_delete_Ret k (s s' : S) :
  ignore_not_found (c_delete k) s = (Ret (), s') → removed k (view s) (view s').
Proof.
  unfold ignore_not_found, st_catch. destruct (c_delete k s) as [[[]|e|] s1] eqn:Hd; [| |done].
  - intros [= <-]. by apply delete_requested in Hd.
  - destruct (IsNotFound e) eqn:Hn; [|done]. intros [= <-]. left. by eapply delete_missing.
Qed.

(** A deletion under the reference of a secret. *)
Lemma removed_secret (ns n : string) (m m' : gmap ObjectRef Object) : typed m → removed (secret_ref ns n) m m' →
  typed m' ∧ (∀ k, k ≠ secret_ref ns n → m' !! k = m !! k) ∧
  ∀ o, m' !! secret_ref ns n = Some o → oDeletionTimestamp o ≠ None.
Proof.
  intros Ht [->|(o & o' & Ho & (Hs & Hk & Hd)%terminating_secret & ->)].
  - split_and!; [by apply typed_delete|intros; by rewrite lookup_delete_ne|by rewrite lookup_delete_eq].
  - destruct (Ht _ _ _ Ho) as (Hs' & Hns & Hn). injection Hk as Hk1 Hk2.
    split_and!; [apply typed_insert; [done|congruence..]|intros; by rewrite lookup_insert_ne|].
    rewrite lookup_insert_eq. by intros ? [= <-].
Qed.

End Cluster.

(** *** The secrets *)

Lemma set_immutable_kept b o : is_secret (set_immutable b o) = is_secret o ∧ data (set_immutable b o) = data o ∧
  Data (set_immutable b o) = Data o ∧ oAnnotations (set_immutable b o) = oAnnotations o ∧
  oNamespace (set_immutable b o) = oNamespace o ∧ oName (set_immutable b o) = oName o ∧
  oDeletionTimestamp (set_immutable b o) = oDeletionTimestamp o.
Proof.
  unfold set_immutable, is_secret, data, Data. destruct (oBody o) eqn:Hb; simpl; rewrite ?Hb; by split_and!.
Qed.

Section Mutations.
Context `{!Gzip} (generationTime newUUID : string) (marshal : IgnitionConfig → go api_error string).

(** What the mutate function makes of a token secret: the data it had, or new data. *)
Lemma reconcileTokenSecret_Ret t e m : is_secret e = true →
  reconcileTokenSecret generationTime newUUID t e = Ret m →
  is_secret m = true ∧ oNamespace m = oNamespace e ∧ oName m = oName e ∧ oDeletionTimestamp m = oDeletionTimestamp e ∧
  data m = <[TokenSecretHCConfigurationHashKey := globalConfigHash t]>
    (match Data e with Some d => d | None => token_data newUUID t end) ∧
  annotations m = match Data e with
                  | Some _ => token_annotations t (annotations e)
                  | None => <[TokenSecretTokenGenerationTime := generationTime]> (token_annotations t (annotations e))
                  end.
Proof.
  intros (i & d & c & Hb)%is_secret_body. unfold reconcileTokenSecret, set_immutable, put, annotations. rewrite Hb.
  unfold Data. simpl. rewrite Hb. destruct d as [d|]; intros [= <-]; unfold is_secret, data, Data; simpl; by split_and!.
Qed.

Lemma reconcileTokenSecret_identity t : keeps_identity (reconcileTokenSecret generationTime newUUID t).
Proof. intros e m He Hm. destruct (reconcileTokenSecret_Ret t e m He Hm) as (? & ? & ? & ? & _). by split_and!. Qed.

Lemma reconcileTokenSecret_total t e : is_secret e = true →
  ∃ m, reconcileTokenSecret generationTime newUUID t e = Ret m.
Proof.
  intros (i & d & c & Hb)%is_secret_body. unfold reconcileTokenSecret, set_immutable, put, Data. rewrite Hb. simpl.
  destruct d; simpl; eauto.
Qed.

(** The ignition configuration of a NodePool's machines. *)
Definition boot_config (t : Token) (token : string) : IgnitionConfig :=
  let cg := configGenerator t in
  ignConfig (Base64.EncodeToString (caCert (tUserData t))) (Base64.EncodeToString token)
    (ignitionServerEndpoint (tUserData t)) (Hash cg) (udProxy (tUserData t)) (nodePool cg).

Lemma reconcileUserDataSecret_Ret t token e m : is_secret e = true →
  reconcileUserDataSecret marshal t token e = Ret m →
  is_secret m = true ∧ oNamespace m = oNamespace e ∧ oName m = oName e ∧ oDeletionTimestamp m = oDeletionTimestamp e ∧
  ∃ value, marshal (boot_config t token) = Ret value ∧ data m !! "value" = Some value.
Proof.
  intros (i & d & c & Hb)%is_secret_body. unfold reconcileUserDataSecret, set_immutable. rewrite Hb.
  intros (labels & _ & Hm)%go_bind_Ret. fold (boot_config t token) in Hm.
  destruct (marshal (boot_config t token)) as [value| |]; [|done..]. injection Hm as <-.
  unfold is_secret, data, Data, set_Data. simpl. split_and!; [done..|]. exists value. split; [done|].
  rewrite lookup_insert_ne by done. apply lookup_singleton_eq.
Qed.

Lemma reconcileUserDataSecret_identity t token : keeps_identity (reconcileUserDataSecret marshal t token).
Proof. intros e m He Hm. destruct (reconcileUserDataSecret_Ret t token e m He Hm) as (? & ? & ? & ? & _). by split_and!. Qed.

End Mutations.

(** *** Retiring outdated secrets *)

Definition outdated_ref (prefix : string) (t : Token) : ObjectRef :=
  secret_ref (controlplaneNamespace (configGenerator t)) (secret_name prefix (nodePool (configGenerator t))
    (npAnnotation (nodePool (configGenerator t)) nodePoolAnnotationCurrentConfigVersion)).
Definition current_ref (prefix : string) (t : Token) : ObjectRef :=
  secret_ref (controlplaneNamespace (configGenerator t)) (secret_name prefix (nodePool (configGenerator t))
    (Hash (configGenerator t))).

Lemma append_inj p a b : p +:+ a = p +:+ b → a = b.
Proof. induction p as [|c p IH]; [done|]. intros [= He]. by apply IH. Qed.

Lemma names_differ prefix np h h' : h ≠ h' → secret_name prefix np h ≠ secret_name prefix np h'.
Proof. intros Hn He. apply Hn. unfold secret_name in He. by repeat apply append_inj in He. Qed.

Lemma token_or_user_data np h np' h' : secret_name TokenSecretPrefix np h ≠ secret_name UserDataSecrePrefix np' h'.
Proof. unfold secret_name. by intros [=]. Qed.

Lemma refs_differ t p p' h h' : p = p' ∧ h ≠ h' ∨ p = TokenSecretPrefix ∧ p' = UserDataSecrePrefix →
  secret_ref (controlplaneNamespace (configGenerator t)) (secret_name p (nodePool (configGenerator t)) h) ≠
  secret_ref (controlplaneNamespace (configGenerator t)) (secret_name p' (nodePool (configGenerator t)) h').
Proof.
  unfold secret_ref. intros Hc He. injection He as He.
  destruct Hc as [[-> Hne]|[-> ->]]; [by eapply names_differ|by eapply token_or_user_data].
Qed.

Section Controller.
Context {S : Type} `{!Client S ObjectRef Object} `{!ClientLaws S ObjectRef Object} `{!SemanticEqual} `{!SecretLaws S}.
Context (format_rfc3339 : Time → string).

(** What became of the outdated secrets. *)
Record retired (t : Token) (now : Time) (m m' : gmap ObjectRef Object) : Prop := {
  ret_typed : typed m';
  ret_others k : k ≠ outdated_ref TokenSecretPrefix t → k ≠ outdated_ref UserDataSecrePrefix t → m' !! k = m !! k;
  ret_token o : m !! outdated_ref TokenSecretPrefix t = Some o →
    ∃ o', m' !! outdated_ref TokenSecretPrefix t = Some o' ∧ data o' = data o ∧
      annotations o' = if mhas (annotations o) IgnitionServerTokenExpirationTimestampAnnotation then annotations o
        else <[IgnitionServerTokenExpirationTimestampAnnotation := format_rfc3339 (time_add now (2 * hour)%Z)]> (annotations o);
  ret_user_data : if bool_decide (pType (platform (npSpec (nodePool (configGenerator t)))) = AWSPlatform)
    then m' !! outdated_ref UserDataSecrePrefix t = m !! outdated_ref UserDataSecrePrefix t
    else ∀ o, m' !! outdated_ref UserDataSecrePrefix t = Some o → oDeletionTimestamp o ≠ None;
}.

Lemma cleanupOutdated_Ret t now (s s' : S) : typed (view s) →
  cleanupOutdated format_rfc3339 t now s = (Ret (), s') → retired t now (view s) (view s').
Proof.
  intros Ht Hrun. unfold cleanupOutdated in Hrun.
  apply st_bind_Ret in Hrun as (ts & s1 & H1%wrap_Ret & Hrun). apply get_existing_Ret in H1 as [-> H1].
  change (ref_of (outdatedTokenSecret t)) with (outdated_ref TokenSecretPrefix t) in H1.
  apply st_bind_Ret in Hrun as ([] & s2 & H2 & Hrun).
  assert (Hne : outdated_ref TokenSecretPrefix t ≠ outdated_ref UserDataSecrePrefix t).
  { apply refs_differ. by right. }
  assert (Hstep : typed (view s2) ∧ (∀ k, k ≠ outdated_ref TokenSecretPrefix t → view s2 !! k = view s !! k) ∧
    ∀ o, ts = Some o → ∃ o', view s2 !! outdated_ref TokenSecretPrefix t = Some o' ∧ data o' = data o ∧
      annotations o' = if mhas (annotations o) IgnitionServerTokenExpirationTimestampAnnotation then annotations o
        else <[IgnitionServerTokenExpirationTimestampAnnotation := format_rfc3339 (time_add now (2 * hour)%Z)]> (annotations o)).
  { destruct ts as [o|]; [|injection H2 as <-; split_and!; naive_solver]. apply wrap_Ret in H2.
    destruct (Ht _ _ _ H1) as (_ & Hns & Hn). unfold outdated_ref in H1. rewrite <- Hns, <- Hn in H1.
    apply setExpiration_Ret in H2 as (o' & Hv & Hs' & Hns' & Hn' & Hd & Ha); [|done..].
    unfold outdated_ref. rewrite <- Hns, <- Hn, Hv. split_and!.
    - by apply typed_insert.
    - intros k Hk. by rewrite lookup_insert_ne.
    - intros ? [= <-]. exists o'. by rewrite lookup_insert_eq. }
  destruct Hstep as (Ht2 & Ho2 & Hts). rewrite <- H1 in Hts.
  destruct (bool_decide (pType _ ≠ AWSPlatform)) eqn:Hp.
  - apply bool_decide_eq_true in Hp.
    apply st_bind_Ret in Hrun as (ud & s3 & H3%wrap_Ret & Hrun). apply get_existing_Ret in H3 as [-> H3].
    change (ref_of (outdatedUserDataSecret t)) with (outdated_ref UserDataSecrePrefix t) in H3.
    assert (Hv : removed (outdated_ref UserDataSecrePrefix t) (view s2) (view s')).
    { destruct ud as [o|]; [|injection Hrun as <-; left; by rewrite delete_id].
      apply wrap_Ret, ignore_delete_Ret in Hrun. destruct (Ht2 _ _ _ H3) as (Hs & Hns & Hn).
      by rewrite (secret_ref_of o Hs), Hns, Hn in Hrun. }
    apply removed_secret in Hv as (Ht3 & Ho3 & Hd3); [|done].
    split; [done| | |by rewrite bool_decide_false].
    + intros k Hk Hk'. rewrite Ho3 by done. by apply Ho2.
    + intros o Ho. destruct (Hts o Ho) as (o' & Ho' & ?). exists o'. by rewrite Ho3.
  - injection Hrun as <-. apply bool_decide_eq_false, dec_stable in Hp. split; [done|auto|done|].
    rewrite bool_decide_true by done. by apply Ho2.
Qed.

Context `{!Gzip} (generationTime newUUID : string) (marshal : IgnitionConfig → go api_error string).

Abbreviation reconcile_token := (Reconcile format_rfc3339 generationTime newUUID marshal).

(** A successful reconcile: the outdated secrets are retired, then the token secret is
written, then the user data with its token. *)
Lemma Reconcile_Ret t now (s s' : S) : typed (view s) → reconcile_token t now s = (Ret (), s') →
  ∃ m1 before after ts tok ud value,
    (if isOutdated t then retired t now (view s) m1 else m1 = view s) ∧
    (m1 !! current_ref TokenSecretPrefix t = Some before ∨
     m1 !! current_ref TokenSecretPrefix t = None ∧ before = TokenSecret t) ∧
    reconcileTokenSecret generationTime newUUID t before = Ret after ∧
    view s' = <[current_ref UserDataSecrePrefix t := ud]> (<[current_ref TokenSecretPrefix t := ts]> m1) ∧
    ref_of ts = current_ref TokenSecretPrefix t ∧ is_secret ts = true ∧ is_secret before = true ∧
    data ts = data after ∧ annotations ts = annotations after ∧ oDeletionTimestamp ts = oDeletionTimestamp before ∧
    data ts !! TokenSecretTokenKey = Some tok ∧
    marshal (boot_config t tok) = Ret value ∧ data ud !! "value" = Some value.
Proof.
  intros Ht Hrun. unfold Reconcile in Hrun. apply st_bind_Ret in Hrun as ([] & s1 & H1 & Hrun).
  assert (Hm1 : typed (view s1) ∧ if isOutdated t then retired t now (view s) (view s1) else view s1 = view s).
  { destruct (isOutdated t); [|by injection H1 as <-]. apply wrap_Ret, cleanupOutdated_Ret in H1; [|done].
    split; [apply H1|done]. }
  destruct Hm1 as [Ht1 Hm1]. clear H1.
  apply st_bind_Ret in Hrun as (o & s2 & H2%wrap_Ret & Hrun).
  apply createOrUpdate_secret in H2 as (before & after & ts & Hb & Haf & Hv2 & Hs & Hns & Hn & Hd & Ha & Hdel & Ho);
    [|apply reconcileTokenSecret_identity|done].
  assert (Hbs : is_secret before = true).
  { destruct Hb as [Hb|[_ ->]]; [|done]. by apply Ht1 in Hb as (? & _). }
  rewrite Ho in Hrun. destruct (data after !! TokenSecretTokenKey) as [tok|] eqn:Htok; [|done].
  apply st_bind_Ret in Hrun as (o3 & s3 & H3 & [= <-]).
  apply createOrUpdate_secret in H3 as (ub & ua & ud & Hub & Hua & Hv3 & _ & _ & _ & Hud & _);
    [|apply reconcileUserDataSecret_identity|rewrite Hv2; by apply typed_insert].
  assert (Hubs : is_secret ub = true).
  { destruct Hub as [Hub|[_ ->]]; [|done]. rewrite Hv2 in Hub.
    apply (typed_insert _ _ _ ts Ht1 Hs Hns Hn) in Hub as (? & _). done. }
  destruct (reconcileUserDataSecret_Ret _ _ _ _ _ Hubs Hua) as (_ & _ & _ & _ & value & Hval & Hdata).
  exists (view s1), before, after, ts, tok, ud, value. rewrite Hv3, Hv2.
  rewrite (secret_ref_of ts Hs), Hns, Hn, Hd, Hud. by split_and!.
Qed.

Lemma token_annotations_expiration t an :
  token_annotations t an !! IgnitionServerTokenExpirationTimestampAnnotation = None.
Proof.
  unfold token_annotations. destruct (hcHas _ _); [rewrite lookup_insert_ne by done|]; apply lookup_delete_eq.
Qed.
Lemma token_annotations_marked t an : token_annotations t an !! TokenSecretAnnotation = Some "true".
Proof.
  unfold token_annotations. destruct (hcHas _ _), (karpenter_managed t);
    repeat first [rewrite lookup_insert_ne by done | rewrite lookup_delete_ne by done]; by rewrite ?lookup_insert_eq.
Qed.

(** What a machine asks for when it boots: the request of the ignition configuration. *)
Definition header (name : string) (cfg : IgnitionConfig) : string :=
  from_option snd "" (List.find (λ h, str_eqb h.1 name) (mergeHeaders cfg)).
Definition boot_request (cfg : IgnitionConfig) : request :=
  mkRequest "/ignition" (header "Authorization" cfg) (header "NodePool" cfg) (header "TargetConfigVersionHash" cfg).

Lemma boot_request_bearer t tok : bearer (reqAuthorization (boot_request (boot_config t tok))) = Some tok.
Proof.
  simpl. rewrite IgnitionServerProofs.bearer_Some. exists (Base64.EncodeToString tok). split; [done|].
  apply Base64.DecodeString_encoded.
Qed.

(** C19: when the token of a NodePool has been reconciled, its two secrets match: the
token secret is one the ignition server handles and is not marked as expired, and
the user data sends machines with exactly the token that secret carries. *)
Theorem user_data_matches_token t now s s'
    (Htyped : typed (view s))
    (Hrun : reconcile_token t now s = (Ret (), s')) :
  ∃ ts ud tok value,
    view s' !! current_ref TokenSecretPrefix t = Some ts ∧ view s' !! current_ref UserDataSecrePrefix t = Some ud ∧
    processIfMatchesAnnotation ts = true ∧
    annotations ts !! IgnitionServerTokenExpirationTimestampAnnotation = None ∧
    data ts !! TokenSecretTokenKey = Some tok ∧
    data ud !! "value" = Some value ∧ marshal (boot_config t tok) = Ret value ∧
    bearer (reqAuthorization (boot_request (boot_config t tok))) = Some tok.
Proof.
  destruct (Reconcile_Ret t now s s' Htyped Hrun)
    as (m1 & before & after & ts & tok & ud & value & _ & _ & Haf & Hv & _ & _ & Hbs & Hd & Ha & _ & Htok & Hval & Hud).
  destruct (reconcileTokenSecret_Ret _ _ _ _ _ Hbs Haf) as (_ & _ & _ & _ & _ & Han).
  assert (Hexp : annotations ts !! IgnitionServerTokenExpirationTimestampAnnotation = None ∧
                 annotations ts !! TokenSecretAnnotation = Some "true").
  { rewrite Ha, Han. destruct (Data before); rewrite ?lookup_insert_ne by done;
      by rewrite token_annotations_expiration, token_annotations_marked. }
  destruct Hexp as [Hexp Hmark]. exists ts, ud, tok, value. rewrite Hv.
  rewrite lookup_insert_eq, lookup_insert_ne, lookup_insert_eq by (apply not_eq_sym, refs_differ; by right).
  unfold processIfMatchesAnnotation, mhas. rewrite bool_decide_true by (rewrite Hmark; eauto).
  split_and!; try done. apply boot_request_bearer.
Qed.

(** When the configuration has changed and the reconcile succeeds, the secrets of the
previous one are retired: the old token secret still has its data, so that machines
in flight can boot, but expires two hours from now unless it already had an
expiration; the old user data is gone or being deleted, except on AWS; and all other objects but
the two new secrets are as they were. *)
Theorem outdated_secrets_retired t now s s'
    (Htyped : typed (view s)) (Houtdated : isOutdated t = true)
    (Hrun : reconcile_token t now s = (Ret (), s')) :
  (∀ o, view s !! outdated_ref TokenSecretPrefix t = Some o →
     ∃ o', view s' !! outdated_ref TokenSecretPrefix t = Some o' ∧ data o' = data o ∧
       annotations o' = if mhas (annotations o) IgnitionServerTokenExpirationTimestampAnnotation then annotations o
         else <[IgnitionServerTokenExpirationTimestampAnnotation := format_rfc3339 (time_add now (2 * hour)%Z)]> (annotations o)) ∧
  (if bool_decide (pType (platform (npSpec (nodePool (configGenerator t)))) = AWSPlatform)
   then view s' !! outdated_ref UserDataSecrePrefix t = view s !! outdated_ref UserDataSecrePrefix t
   else ∀ o, view s' !! outdated_ref UserDataSecrePrefix t = Some o → oDeletionTimestamp o ≠ None) ∧
  (∀ k, k ≠ outdated_ref TokenSecretPrefix t → k ≠ outdated_ref UserDataSecrePrefix t →
     k ≠ current_ref TokenSecretPrefix t → k ≠ current_ref UserDataSecrePrefix t → view s' !! k = view s !! k).
Proof.
  destruct (Reconcile_Ret t now s s' Htyped Hrun)
    as (m1 & before & after & ts & tok & ud & value & Hm1 & _ & _ & Hv & _).
  rewrite Houtdated in Hm1. destruct Hm1 as [_ Hothers Htoken Huser].
  unfold isOutdated in Houtdated. apply negb_true_iff, str_eqb_neq in Houtdated.
  assert (Hne : ∀ p, outdated_ref p t ≠ current_ref p t).
  { intros p. apply refs_differ. left. split; [done|]. by apply not_eq_sym. }
  rewrite Hv. split_and!.
  - intros o Ho. destruct (Htoken o Ho) as (o' & Ho' & ?). exists o'. split; [|done].
    rewrite !lookup_insert_ne; [done|apply not_eq_sym, Hne|]. apply not_eq_sym, refs_differ. by right.
  - rewrite !lookup_insert_ne; [done| |apply not_eq_sym, Hne]. apply refs_differ. by right.
  - intros k H1 H2 H3 H4. rewrite !lookup_insert_ne by congruence. by apply Hothers.
Qed.

End Controller.

(** *** The janitor *)

Section Janitor.
Context {S : Type} `{!Client S ObjectRef Object} `{!ClientLaws S ObjectRef Object} `{!SemanticEqual} `{!SecretLaws S}.
Context `{!SliceSort}.
Context (Lookup : string → string → go api_error ReleaseImage).
Context (ImageMetadata : string → string → go api_error StringMap).
Context (CPOImage : option (PlatformType → Semver.Semver.Version → string)).
Context (hypershiftOperatorImage : string) (sharedIngressImage : option string).
Context (listMachines_ : S → string → go api_error (list Machine)).
Context (getConfigMap : S → string → string → go api_error ConfigMap).
Context (listConfigMaps : S → string → StringMap → go api_error (list ConfigMap)).
Context (Decode : string → go np_error Manifest) (CompatibleYAMLEncode : Manifest → go np_error string).
Context (encode_proxy : GlobalConfig.Proxy → go np_error string) (encode_image : string → go np_error string).
Context (marshal_configuration : option string → go np_error string).
Context (Error : np_error → string) (api_text : api_error → string) (emptyImageSpec : string).
Context (GenerateHAProxyRawConfig : S → string → HostedClusterConfig → string → go np_error string).
Context (format_rfc3339 : Time → string).
Context (getNodePool : S → string → string → go api_error NodePool).
Context (getHostedCluster : S → string → string → go api_error HostedClusterConfig).

Abbreviation clean := (janitor Lookup ImageMetadata CPOImage hypershiftOperatorImage sharedIngressImage listMachines_
  getConfigMap listConfigMaps Decode CompatibleYAMLEncode encode_proxy encode_image marshal_configuration Error api_text
  emptyImageSpec GenerateHAProxyRawConfig format_rfc3339 getNodePool getHostedCluster).
Abbreviation token_for := (token Lookup ImageMetadata CPOImage hypershiftOperatorImage sharedIngressImage listMachines_
  getConfigMap listConfigMaps Decode CompatibleYAMLEncode encode_proxy encode_image marshal_configuration Error api_text
  emptyImageSpec GenerateHAProxyRawConfig).

Lemma lift_error_Ret {E A} (f : E → np_error) (m : go E A) a : lift_error f m = Ret a ↔ m = Ret a.
Proof. destruct m; simpl; naive_solver. Qed.

(** The janitor leaves the secrets of the active configuration alone: when the
NodePool controller would compute the token [t] for the NodePool of a secret, and the
secret is the token or user data secret of [t], nothing is written. *)
Theorem janitor_spares_active now ns name s secret key np hc t
    (Hstored : c_get (secret_ref ns name) s = Ret secret)
    (Hkey : annotations secret !! nodePoolAnnotation = Some key)
    (Hnp : getNodePool s (ParseNamespacedName key).1 (ParseNamespacedName key).2 = Ret np)
    (Hhc : getHostedCluster s (npNamespace np) (clusterName (npSpec np)) = Ret hc)
    (Hlive : hcDeletionTimestamp hc = None)
    (Htoken : token_for s hc np = Ret t)
    (Hname : oName secret = oName (TokenSecret t) ∨ oName secret = oName (UserDataSecret t)) :
  (clean now ns name s).2 = s.
Proof.
  unfold janitor. rewrite Hstored, Hkey. destruct (negb _); [done|]. simpl. rewrite Hnp, Hhc, Hlive. simpl.
  unfold mbind at 1, st_bind at 1, st_lift at 1. destruct (shouldKeepOldUserData _ _ _ _) as [[|]| |]; [done| |done..].
  unfold token in Htoken. apply go_bind_Ret in Htoken as (ri & Hri%lift_error_Ret & Htoken).
  apply go_bind_Ret in Htoken as (ha & Hha & Htoken). apply go_bind_Ret in Htoken as (cg & Hcg%lift_error_Ret & Htoken).
  apply go_bind_Ret in Htoken as (cap & Hcap & Htoken).
  unfold mbind at 1, st_bind at 1, st_lift at 1. rewrite Hri. simpl. rewrite Hha. simpl. rewrite Hcg. simpl.
  rewrite Hcap. simpl. rewrite Htoken. unfold lift_api, cleanup_unexpected.
  destruct Hname as [-> | ->]; by rewrite str_eqb_refl, ?orb_true_r.
Qed.

Lemma lift_api_Ret {A} (m : st S api_error A) s a s' : lift_api m s = (Ret a, s') → m s = (Ret a, s').
Proof. unfold lift_api. destruct (m s) as [[] ?]; simpl; naive_solver. Qed.

Lemma lift_api_state {A} (m : st S api_error A) s : (lift_api m s).2 = (m s).2.
Proof. unfold lift_api. by destruct (m s) as [[] ?]. Qed.
Lemma ignore_not_found_state (m : st S api_error unit) s : (ignore_not_found m s).2 = (m s).2.
Proof. unfold ignore_not_found, st_catch. destruct (m s) as [[| |] ?]; [done| |done]. by case_match. Qed.

(** At most the expiration, two hours from [now], was added to the secret. *)
Definition only_expires (now : Time) (ns name : string) (secret : Object) (m m' : gmap ObjectRef Object) : Prop :=
  m' = m ∨
  ∃ o', m' = <[secret_ref ns name := o']> m ∧ data o' = data secret ∧
    annotations o' = <[IgnitionServerTokenExpirationTimestampAnnotation := format_rfc3339 (time_add now (2 * hour)%Z)]>
                       (annotations secret).

Lemma setExpiration_effect (now : Time) (ns name : string) secret (s : S) :
  typed (view s) → view s !! secret_ref ns name = Some secret →
  only_expires now ns name secret (view s) (view (setExpirationTimestampOnToken format_rfc3339 secret now s).2).
Proof.
  intros Ht Ho. destruct (Ht _ _ _ Ho) as (Hs & Hns & Hn). unfold setExpirationTimestampOnToken.
  destruct (mhas _ _); [by left|]. unfold mbind, st_bind. set (m := set_annotations _ secret).
  destruct (c_update (ref_of secret) m s) as [r s1] eqn:Hu.
  apply update_effect in Hu. rewrite (secret_ref_of secret Hs), Hns, Hn in Hu.
  assert (Hg : only_expires now ns name secret (view s) (view s1)).
  { destruct Hu as [->| ->]; [by left|]. right. eexists. split; [done|].
    destruct (admit_secret (view s !! secret_ref ns name) m) as (_ & Hd & Ha & _); [done|].
    unfold annotations at 1. by rewrite Hd, Ha. }
  by destruct r.
Qed.

(** C20: while its NodePool exists the janitor never deletes a token secret and never
changes its data, whatever it decides and however it ends, with an error or not: at
most it adds the expiration, two hours ahead, so that machines in flight can still
boot. *)
Theorem janitor_never_deletes_tokens now ns name s r s' secret key np
    (Htyped : typed (view s))
    (Hstored : view s !! secret_ref ns name = Some secret)
    (Hprefix : has_prefix name TokenSecretPrefix = true)
    (Hkey : annotations secret !! nodePoolAnnotation = Some key)
    (Hnp : getNodePool s (ParseNamespacedName key).1 (ParseNamespacedName key).2 = Ret np)
    (Hrun : clean now ns name s = (r, s')) :
  only_expires now ns name secret (view s) (view s').
Proof.
  destruct (Htyped _ _ _ Hstored) as (Hs & Hns & Hn). pose proof Hstored as Hget. apply get_stored in Hget.
  pose proof (setExpiration_effect now ns name secret s Htyped Hstored) as Hexp.
  assert (Huser : has_prefix name UserDataSecrePrefix = false).
  { destruct (has_prefix name UserDataSecrePrefix) eqn:Hu; [|done].
    apply has_prefix_app in Hu as [x Hx], Hprefix as [y Hy]. rewrite Hx in Hy. by destruct y. }
  assert (Hdel : only_expires now ns name secret (view s)
    (view (lift_api (cleanupSecretForDeletion format_rfc3339 now secret) s).2)).
  { rewrite lift_api_state. unfold cleanupSecretForDeletion. by rewrite Hn, Hprefix, ignore_not_found_state. }
  replace s' with (clean now ns name s).2 by by rewrite Hrun. clear Hrun.
  unfold janitor. rewrite Hget, Hkey, Hn, Hprefix. simpl. rewrite Hnp.
  destruct (getHostedCluster _ _ _) as [hc|err|]; [| |by left].
  2:{ destruct (IsNotFound err); [done|by left]. }
  destruct (bool_decide _); [done|].
  unfold mbind at 1, st_bind at 1, st_lift at 1. destruct (shouldKeepOldUserData _ _ _ _) as [[|]| |]; [by left| |by left..].
  unfold mbind at 1, st_bind at 1, st_lift at 1.
  match goal with |- context [match ?m with Ret _ => _ | _ => _ end] => destruct m as [t|e|] end; [|by left..].
  rewrite lift_api_state. unfold cleanup_unexpected.
  rewrite Hn, Hprefix, Huser. destruct (_ || _); [by left|done].
Qed.

End Janitor.

(** *** A NodePool whose configuration has changed *)

Module SampleToken.
Import UpsertProofs.SampleCluster IgnitionServerProofs.SampleServer NodePoolConfigProofs.SampleConfig.

#[export] Instance map_SecretLaws : SecretLaws cluster.
Proof.
  split.
  - intros old m. simpl. unfold admission, is_secret. destruct (oBody m) eqn:Hb; simpl; rewrite ?Hb; by intros.
  - intros a b _ _. simpl. intros ->%bool_decide_eq_true. done.
  - intros k o s e s'. simpl. by destruct (s !! k).
  - intros k o s r s'. simpl. destruct (s !! k); intros [= <- <-]; auto.
  - intros o o'. simpl. by intros ->.
Qed.

Definition rolled_pool : NodePool := set_np_annotations (Some {[nodePoolAnnotationCurrentConfigVersion := "0000abcd"]}) (pool ["one"; "two"]).
Definition rolled_generator : ConfigGenerator :=
  mkCG hosted_config rolled_pool "clusters-prod" image "pull" "" "{}{}" (mcoRawConfig generated) "".
Definition a_token : Token :=
  mkToken (mkCapabilities true true) rolled_generator "hash1" "hash2" "hash3"
    (mkUserData "certificate" "ignition.prod" GlobalConfig.ProxyConfig).
Definition print (c : IgnitionConfig) : go api_error string := Ret (Text.Join (snd <$> mergeHeaders c) ";").
Definition rfc3339 (t : Time) : string := itoa t.

Definition secret (name : string) (d : StringMap) : Object :=
  mkObject "clusters-prod" name "" None (Some {[nodePoolAnnotation := "clusters/workers"]}) [] "" None
    (Secret None (Some d) (JMap [])) [].
Definition old_token : Object := secret "token-workers-0000abcd" {[TokenSecretTokenKey := "t-old"]}.
Definition old_user_data : Object := secret "user-data-workers-0000abcd" {["value" := "{}"]}.
Definition with_secrets (l : list Object) : cluster := list_to_map ((λ o, (ref_of o, o)) <$> l).
Definition before : cluster := with_secrets [old_token; old_user_data].

Definition publish_run (c : cluster) := Reconcile rfc3339 "epoch" "uuid-7" print a_token 5 c.
Definition published : cluster := (publish_run before).2.
Lemma published_run : publish_run before = (Ret (), published).
Proof. apply run_pair. vm_compute. reflexivity. Qed.

Lemma with_secrets_typed l : (∀ o, o ∈ l → is_secret o = true) → typed (with_secrets l).
Proof.
  intros Hl ns n o Ho. unfold with_secrets in Ho. apply elem_of_list_to_map_2, list_elem_of_fmap in Ho as (x & [= Hk ->] & Hx).
  pose proof (Hl x Hx) as Hs. rewrite (is_secret_kind x Hs) in Hk. by simplify_eq.
Qed.
Lemma before_typed : typed (view (S := cluster) before).
Proof. apply with_secrets_typed. intros o Ho. elem_cases; reflexivity. Qed.

Lemma user_data_matches_token_witness :
  ∃ ts ud tok value,
    view (S := cluster) published !! current_ref TokenSecretPrefix a_token = Some ts ∧
    view (S := cluster) published !! current_ref UserDataSecrePrefix a_token = Some ud ∧
    processIfMatchesAnnotation ts = true ∧
    annotations ts !! IgnitionServerTokenExpirationTimestampAnnotation = None ∧
    data ts !! TokenSecretTokenKey = Some tok ∧
    data ud !! "value" = Some value ∧ print (boot_config a_token tok) = Ret value ∧
    bearer (reqAuthorization (boot_request (boot_config a_token tok))) = Some tok.
Proof.
  apply (user_data_matches_token rfc3339 "epoch" "uuid-7" print a_token 5 before).
  - exact before_typed.
  - exact published_run.
Defined.

Lemma outdated_secrets_retired_witness :
  (∀ o, view (S := cluster) before !! outdated_ref TokenSecretPrefix a_token = Some o →
     ∃ o', view (S := cluster) published !! outdated_ref TokenSecretPrefix a_token = Some o' ∧ data o' = data o ∧
       annotations o' = if mhas (annotations o) IgnitionServerTokenExpirationTimestampAnnotation then annotations o
         else <[IgnitionServerTokenExpirationTimestampAnnotation := rfc3339 (time_add 5 (2 * hour)%Z)]> (annotations o)) ∧
  ∀ o, view (S := cluster) published !! outdated_ref UserDataSecrePrefix a_token = Some o → oDeletionTimestamp o ≠ None.
Proof.
  destruct (outdated_secrets_retired rfc3339 "epoch" "uuid-7" print a_token 5 before published) as (H1 & H2 & _).
  - exact before_typed.
  - vm_compute. reflexivity.
  - exact published_run.
  - split; [exact H1|]. exact H2.
Defined.

(** The janitor of the same cluster: it finds the NodePool and the HostedCluster of every
secret, and the pull secret and the CA certificate. *)
Definition pull_secret : Object :=
  mkObject "clusters" "pull" "" None None [] "" None (Secret None (Some {[DockerConfigJsonKey := "{}"]}) (JMap [])) [].
Definition ca_secret : Object := secret "ignition-server-ca-cert" {[TLSCertKey := "certificate"]}.
Definition swept : cluster := with_secrets [old_token; pull_secret; ca_secret].
Definition lookup_image (image_ pullSecret : string) : go api_error ReleaseImage :=
  Ret (mkReleaseImage "4.20.3" {[HAProxyRouterImageName := "haproxy"; "hypershift" := "operator"]} None).
Definition metadata (image_ pullSecret : string) : go api_error StringMap := Ret ∅.
Definition janitor_run (name : string) (c : cluster) :=
  janitor lookup_image metadata None "operator" None (λ _ _, Ret []) (λ _, get) (λ _, listing core) decode encode
    encode_proxy Ret (λ _, Ret "null") text api_text "" (λ _ _ _ _, Ret "") rfc3339
    (λ _ _ _, Ret rolled_pool) (λ _ _ _, Ret hosted_config) 5 "clusters-prod" name c.
Definition token_run (c : cluster) :=
  token lookup_image metadata None "operator" None (λ _ _, Ret []) (λ _, get) (λ _, listing core) decode encode
    encode_proxy Ret (λ _, Ret "null") text api_text "" (λ _ _ _ _, Ret "") c hosted_config rolled_pool.

Lemma swept_typed : typed (view (S := cluster) swept).
Proof. apply with_secrets_typed. intros o Ho. elem_cases; reflexivity. Qed.
Definition after_sweep : cluster := (janitor_run "token-workers-0000abcd" swept).2.
Lemma after_sweep_run : janitor_run "token-workers-0000abcd" swept = (Ret (), after_sweep).
Proof. apply run_pair. vm_compute. reflexivity. Qed.

Lemma janitor_never_deletes_tokens_witness :
  only_expires rfc3339 5 "clusters-prod" "token-workers-0000abcd" old_token
    (view (S := cluster) swept) (view (S := cluster) after_sweep).
Proof.
  apply (janitor_never_deletes_tokens lookup_image metadata None "operator" None (λ _ _, Ret []) (λ _, get)
           (λ _, listing core) decode encode encode_proxy Ret (λ _, Ret "null") text api_text "" (λ _ _ _ _, Ret "")
           rfc3339 (λ _ _ _, Ret rolled_pool) (λ _ _ _, Ret hosted_config) 5 "clusters-prod" "token-workers-0000abcd"
           swept (Ret ()) after_sweep old_token "clusters/workers" rolled_pool).
  - exact swept_typed.
  - reflexivity.
  - reflexivity.
  - reflexivity.
  - reflexivity.
  - exact after_sweep_run.
Defined.

Definition current_token : Token :=
  Eval vm_compute in match token_run swept with Ret t => t | _ => a_token end.
Definition current_secret : Object := Eval vm_compute in secret (oName (TokenSecret current_token)) ∅.
Definition kept : cluster := with_secrets [current_secret; pull_secret; ca_secret].
Lemma current_token_run : token_run kept = Ret current_token.
Proof. vm_compute. reflexivity. Qed.

Lemma janitor_spares_active_witness :
  (janitor_run (oName current_secret) kept).2 = kept.
Proof.
  apply (janitor_spares_active lookup_image metadata None "operator" None (λ _ _, Ret []) (λ _, get)
           (λ _, listing core) decode encode encode_proxy Ret (λ _, Ret "null") text api_text "" (λ _ _ _ _, Ret "")
           rfc3339 (λ _ _ _, Ret rolled_pool) (λ _ _ _, Ret hosted_config) 5 "clusters-prod" (oName current_secret)
           kept current_secret "clusters/workers" rolled_pool hosted_config current_token).
  - reflexivity.
  - reflexivity.
  - reflexivity.
  - reflexivity.
  - reflexivity.
  - exact current_token_run.
  - left. vm_compute. reflexivity.
Defined.

End SampleToken.

End TokenProofs.
