(* ===== verification/NodeBoot.v ===== *)
(** The NodePool controller and the ignition server together: the controller publishes a
token secret and user data, the server generates the payload, and a machine that
boots from the user data is served the payload of the configuration the controller
computed. *)
From S2P Require Import Prelude GoSort Semver Api Upsert UpsertProofs GlobalConfig NodePool Capi.
From S2P Require Import Base64 IgnitionServer IgnitionServerProofs NodePoolConfig Token TokenProofs.
From Stdlib Require Import Ascii.

Module NodeBoot.
Import Upsert UpsertProofs NodePool Capi Secrets IgnitionServer IgnitionServerProofs NodePoolConfig Token TokenProofs.

(** A namespaced name is read back when the namespace has no slash. *)
Fixpoint no_slash (s : string) : bool :=
  match s with EmptyString => true | String c s => negb (bool_decide (c = "/"%char)) && no_slash s end.

Lemma append_assoc (x y z : string) : (x +:+ y) +:+ z = x +:+ (y +:+ z).
Proof. induction x as [|c x IH]; [done|]. change (String c ((x +:+ y) +:+ z) = String c (x +:+ (y +:+ z))). by rewrite IH. Qed.

Lemma append_empty (x : string) : x +:+ "" = x.
Proof. induction x as [|c x IH]; [done|]. change (String c (x +:+ "") = String c x). by rewrite IH. Qed.

Lemma split_slash_app acc a b : no_slash a = true → split_slash acc (a +:+ "/" +:+ b) = Some (acc +:+ a, b).
Proof.
  revert acc. induction a as [|c a IH]; intros acc Ha.
  - simpl. by rewrite append_empty.
  - simpl in Ha. apply andb_true_iff in Ha as [Hc Ha].
    change (split_slash acc (String c (a +:+ "/" +:+ b)) = Some (acc +:+ String c a, b)). simpl.
    destruct (bool_decide (c = "/"%char)); [done|].
    change (split_slash (acc +:+ String c "") (a +:+ "/" +:+ b) = Some (acc +:+ String c a, b)).
    rewrite (IH (acc +:+ String c "") Ha). by rewrite append_assoc.
Qed.

Lemma ParseNamespacedName_key a b : no_slash a = true → ParseNamespacedName (a +:+ "/" +:+ b) = (a, b).
Proof. intros Ha. unfold ParseNamespacedName. by rewrite (split_slash_app "" a b Ha). Qed.

Section Boot.
Context {S : Type} `{!Client S ObjectRef Object} `{!ClientLaws S ObjectRef Object} `{!SemanticEqual} `{!SecretLaws S}.
Context `{!Patcher S ObjectRef Object} `{!PatcherLaws S} `{!Gzip} `{!MapOrder}.
Context (now : nat → Time) (uuid : nat → string) (Error : api_error → string).
Context (parse_rfc3339 parse_nano : string → option Time) (format_rfc3339 format_nano : Time → string).
Context (GetPayload : S → string → string → string → string → string → go api_error string).
Context (SanitizeIgnitionPayload : string → bool).
Context (generationTime newUUID : string) (marshal : IgnitionConfig → go api_error string).

Abbreviation publish := (Token.Reconcile format_rfc3339 generationTime newUUID marshal).
Abbreviation handle := (IgnitionServer.Reconcile now uuid Error parse_rfc3339 parse_nano format_nano GetPayload).

(** What the token secret of a new configuration holds, and the user data. *)
Lemma published_secret t nowT cl cl' :
  typed (view cl) → view cl !! current_ref TokenSecretPrefix t = None →
  publish t nowT cl = (Ret (), cl') →
  ∃ ts ud value,
    view cl' !! current_ref TokenSecretPrefix t = Some ts ∧ ref_of ts = current_ref TokenSecretPrefix t ∧
    is_secret ts = true ∧ oDeletionTimestamp ts = None ∧
    data ts = <[TokenSecretHCConfigurationHashKey := globalConfigHash t]> (token_data newUUID t) ∧
    annotations ts !! IgnitionServerTokenExpirationTimestampAnnotation = None ∧ oAnnotations ts ≠ None ∧
    view cl' !! current_ref UserDataSecrePrefix t = Some ud ∧ data ud !! "value" = Some value ∧
    marshal (boot_config t newUUID) = Ret value.
Proof.
  intros Ht Hnew Hrun. destruct (Reconcile_Ret format_rfc3339 generationTime newUUID marshal t nowT cl cl' Ht Hrun)
    as (m1 & before & after & ts & tok & ud & value & Hm1 & Hb & Haf & Hv & Hr & Hs & Hbs & Hd & Ha & Hdel & Htok & Hval & Hud).
  assert (Hm : m1 !! current_ref TokenSecretPrefix t = None).
  { destruct (isOutdated t) eqn:Ho; [|by rewrite Hm1]. rewrite (ret_others _ _ _ _ _ Hm1); [done| |].
    - apply refs_differ. left. split; [done|]. unfold isOutdated in Ho. by apply negb_true_iff, str_eqb_neq in Ho.
    - apply refs_differ. by right. }
  destruct Hb as [Hb|[_ ->]]; [congruence|].
  destruct (reconcileTokenSecret_Ret _ _ _ _ _ Hbs Haf) as (_ & _ & _ & _ & Hda & Han). simpl in Hda, Han.
  assert (Htok' : tok = newUUID).
  { rewrite Hd, Hda, lookup_insert_ne in Htok by done. unfold token_data in Htok. rewrite lookup_insert_eq in Htok. by injection Htok. }
  subst tok. exists ts, ud, value. rewrite Hv.
  rewrite lookup_insert_eq, lookup_insert_ne, lookup_insert_eq by (apply not_eq_sym, refs_differ; by right).
  rewrite Hd, Ha, Han, lookup_insert_ne by done. rewrite token_annotations_expiration.
  assert (Hsome : oAnnotations ts ≠ None).
  { intros He. unfold annotations in Ha at 1. rewrite He, Han in Ha. simpl in Ha.
    apply (f_equal (lookup TokenSecretTokenGenerationTime)) in Ha. by rewrite lookup_insert_eq, lookup_empty in Ha. }
  by split_and!.
Qed.

(** C17: a machine of a new configuration boots.  The NodePool controller publishes the
token of a configuration for the first time, the ignition server (with nothing cached
for that token) reconciles its secret, and then a machine that was given the user data
gets, while the entry of the cache lives, the payload that was generated from the
release image and exactly the raw configuration the controller computed. *)
Theorem new_machine_boots t nowT cl cl' s d s' (cg := configGenerator t)
    (name := secret_name TokenSecretPrefix (nodePool cg) (Hash cg))
    (req := boot_request (boot_config t newUUID))
    (serve_req := serve now SanitizeIgnitionPayload (controlplaneNamespace cg) req)
    (Htyped : typed (view cl))
    (Hnew : view cl !! current_ref TokenSecretPrefix t = None)
    (Hdecode : DecompressAndDecodeConfig (cpoCapabilities t) = true)
    (Hns : no_slash (npNamespace (nodePool cg)) = true)
    (Hpublished : publish t nowT cl = (Ret (), cl'))
    (Hcluster : srv_cluster s = cl')
    (Hcold : cache (srv_cache s) !! newUUID = None)
    (Hhandled : handle (controlplaneNamespace cg) name s = (Ret d, s'))
    (Hsane : ∀ a b c d e p, GetPayload cl' a b c d e = Ret p → SanitizeIgnitionPayload p = true)
    (Hintime : ∀ i j, (srv_clock s ≤ i)%nat → (j < srv_clock (serve_req s').2)%nat →
       (now j ≤ time_add (now i) (cacheTTL (srv_cache s)))%Z)
    (Hpanic : ∀ k o x, (c_get k x ≠ @Panic api_error Object) ∧ (c_update k o x).1 ≠ @Panic api_error Object) :
  ∃ ud value payload,
    view cl' !! current_ref UserDataSecrePrefix t = Some ud ∧ data ud !! "value" = Some value ∧
    marshal (boot_config t newUUID) = Ret value ∧
    GetPayload cl' (releaseImage (npSpec (nodePool cg))) (mcoRawConfig cg)
      (pullSecretHash t) (additionalTrustBundleHash t) (globalConfigHash t) = Ret payload ∧
    (serve_req s').1 = Ret (mkResponse 200 payload).
Proof.
  destruct (published_secret t nowT cl cl' Htyped Hnew Hpublished)
    as (ts & ud & text & Hts & Hr & Hs & Hdel & Hd & Hexp & Hsome & Hud & Hval & Hm).
  subst cl'. assert (Htok : mget (data ts) TokenSecretTokenKey = newUUID).
  { unfold mget. rewrite Hd, lookup_insert_ne by done. unfold token_data. by rewrite lookup_insert_eq. }
  assert (Hactive : active now parse_rfc3339 (controlplaneNamespace cg) name s ts).
  { split; [exact Hts|exact Hr|done|]. unfold isTokenExpired. by rewrite Hexp. }
  assert (Hadmit : ∀ old m, is_secret m = true →
    data (admit_object (S := S) old m) = data m ∧ oAnnotations (admit_object (S := S) old m) = oAnnotations m).
  { intros old m Hsec. by destruct (admit_secret old m Hsec) as (_ & ? & ? & _). }
  eapply (Reconcile_miss now uuid Error parse_rfc3339 parse_nano format_nano GetPayload Hadmit) in Hhandled
    as (config & payload & i & ts' & Hdec & Hpay & Hi & Hcache & Hview & Han);
    [|exact Hactive|by rewrite Htok|rewrite Hd; by vm_compute].
  exists ud, text, payload. rewrite Htok in Hcache.
  assert (Hlook : ∀ k, k ≠ TokenSecretHCConfigurationHashKey → mget (data ts) k = mget (token_data newUUID t) k).
  { intros k Hk. unfold mget. by rewrite Hd, lookup_insert_ne by congruence. }
  assert (config = mcoRawConfig cg) as ->.
  { rewrite Hlook in Hdec by done. unfold token_data, mget in Hdec. rewrite Hdecode in Hdec.
    rewrite !lookup_insert_ne, lookup_insert_eq in Hdec by done. simpl in Hdec.
    unfold CompressedAndEncoded in Hdec. rewrite compressed_roundtrip in Hdec. by injection Hdec. }
  assert (Hhash : mget (data ts) TokenSecretHCConfigurationHashKey = globalConfigHash t).
  { unfold mget. by rewrite Hd, lookup_insert_eq. }
  rewrite Hhash, !Hlook in Hpay by done. split_and!; [done..|exact Hpay|].
  assert (Hsec : TokenSecretName (ParseNamespacedName (reqNodePool req)).2 (reqTargetConfigVersionHash req) = name).
  { change (reqNodePool req) with (npNamespace (nodePool cg) +:+ "/" +:+ npName (nodePool cg)).
    by rewrite ParseNamespacedName_key. }
  set (e := mkEntry (mkValue payload (oName ts)) (time_add (now i) (cacheTTL (srv_cache s)))) in *.
  apply (serve_cached now SanitizeIgnitionPayload (controlplaneNamespace cg) req newUUID e s').
  - reflexivity.
  - apply boot_request_bearer.
  - exact Hcache.
  - intros j Hj. apply Hintime; [lia|]. apply Hj.
  - simpl. by eapply Hsane.
  - rewrite Hsec, Hview. intros o. rewrite lookup_insert_eq. intros [= <-]. by rewrite Han.
  - exact Hpanic.
Qed.

End Boot.

(** *** A machine of the sample NodePool *)

Module SampleBoot.
Import UpsertProofs.SampleCluster IgnitionServerProofs.SampleServer TokenProofs.SampleToken.

Definition started : server cluster := mkServer published NewPayloadStore 5 0.
Definition token_name : string := secret_name TokenSecretPrefix (nodePool rolled_generator) (Hash rolled_generator).
Definition handle_run (s : server cluster) :=
  IgnitionServer.Reconcile clock uuids error_text parse parse format provider "clusters-prod" token_name s.
Definition ready : server cluster := (handle_run started).2.
Lemma ready_run : handle_run started = (Ret (ttl / 2 - 5)%Z, ready).
Proof. apply run_pair. vm_compute. reflexivity. Qed.
Definition booted : server cluster :=
  (serve clock sane "clusters-prod" (boot_request (boot_config a_token "uuid-7")) ready).2.
Lemma booted_clock : srv_clock booted = 8%nat.
Proof. vm_compute. reflexivity. Qed.

Lemma new_machine_boots_witness :
  ∃ ud value payload,
    view (S := cluster) published !! current_ref UserDataSecrePrefix a_token = Some ud ∧ data ud !! "value" = Some value ∧
    print (boot_config a_token "uuid-7") = Ret value ∧
    provider published (releaseImage (npSpec rolled_pool)) (mcoRawConfig rolled_generator) "hash1" "hash2" "hash3"
      = Ret payload ∧
    (serve clock sane "clusters-prod" (boot_request (boot_config a_token "uuid-7")) ready).1 = Ret (mkResponse 200 payload).
Proof.
  apply (new_machine_boots clock uuids error_text parse parse rfc3339 format provider sane "epoch" "uuid-7" print
           a_token 5 before published started (ttl / 2 - 5)%Z ready).
  - exact before_typed.
  - reflexivity.
  - reflexivity.
  - reflexivity.
  - exact published_run.
  - reflexivity.
  - reflexivity.
  - exact ready_run.
  - intros. reflexivity.
  - intros i j Hi Hj. change (j < srv_clock booted)%nat in Hj. rewrite booted_clock in Hj.
    change (cacheTTL (srv_cache started)) with 39600000000000%Z. unfold clock, time_add. lia.
  - exact cluster_no_panic.
Defined.

End SampleBoot.

End NodeBoot.
